(* ===== verification/_CoqProject ===== *)
-Q . S2P
Prelude.v
Ram.v
Mem.v
Frames.v
Phys.v
Paging.v
PageWalk.v
PageBoot.v
Heap.v
BootInfo.v
Gdt.v
Cpu.v
Serial.v
Keyboard.v
Idt.v
Stubs.v
Apic.v
Logging.v
Fmt.v
Handlers.v
Devices.v
Pc.v
Panic.v
Process.v
Screen.v
Locks.v
Boot.v
Main.v
