(* ===== verification/Prelude.v ===== *)
(** * viceOS: a verification of the kernel

    viceOS is a small x86-64 kernel in Rust. This development translates the
    code under [src/kernel/src] into Rocq definitions and proves what the code
    does. File and function names below are those of that directory.

    ** The program

    A multiboot2 loader enters [_start64] ([lib.rs]) with the address of an
    information structure. [bootinfo.rs] parses it; [arch::init] sets up the
    descriptor tables ([gdt.rs]), the interrupt table and controllers
    ([idt.rs]), the page tables ([paging.rs]) and the serial port ([serial.rs]),
    and enables interrupts; [mem::init] reads the memory map ([mem/mod.rs]),
    frees the available frames ([mem/phys.rs]) and maps the heap
    ([mem/heap.rs]); [drivers::init] sets up the screen, the process manager
    ([proc/]) makes a first process, and [kernel_main] draws for ever. Meanwhile
    interrupts feed the keyboard queue ([drivers/keyboard.rs]).

    ** The files

    [Prelude] (this file): machine integers and their tactic [zbits], the state
    and error monad, loops ([for_each], [for_range], [for_m]) with their rules.
    [Ram]: byte-addressed memory.

    - [Mem], [Frames], [Phys]: [mem/mod.rs], the interface of a source of frames
      (the class [FrameSource] with the laws [FrameLaws]), and the bitmap
      allocator that implements it. The abstract view of an allocator is the
      set of its free pages.
    - [Paging], [PageWalk], [PageBoot]: [paging.rs]; the definitions, the
      invariant of a tree of tables with the effect of each operation on every
      translation, and the tables built at boot. The client of [FrameSource].
    - [Heap]: [mem/heap.rs] over a parameter for the third-party inner
      allocator (the class [InnerHeap] with the laws [InnerLaws]).
    - [BootInfo]: [bootinfo.rs].
    - [Boot]: the composition of the parser, [paging::init] and [mem::init].
    - [Main]: the rest of [kernel_main], on the state of [Boot] with the screen
      and the processes: the drivers, the first process, and the drawing loop
      over parameters for tiny_skia and libm. Floating point is that of the
      Standard Library's [SpecFloat].
    - [Cpu]: [arch/x86_64/mod.rs] and [arch/mod.rs]; every access to a port, to
      a model-specific or a memory-mapped register is logged, with a parameter
      for the devices behind (the class [Device]).
    - [Serial], [Apic], [Gdt], [Idt]: the files of these names under
      [arch/x86_64]; what the hardware makes of the bytes it is given (16550,
      8259, segment and gate descriptors) is written after its manuals, beside
      the code that sends them.
    - [Stubs]: the interrupt stubs of [idt.rs], as code of a machine with
      registers and a stack; [Handlers]: the functions of [idt.rs] that the stubs
      call, with what they print.
    - [Keyboard], [Screen], [Logging], [Process]: [drivers/keyboard.rs],
      [drivers/screen.rs], [logging.rs] and [proc/]. [Fmt]: what core::fmt prints
      for the messages of the kernel.
    - [Panic]: the printing macros, the panic handler and the handler of failed
      allocations ([lib.rs]).
    - [Devices]: the drivers together: which registers belong to which, and the
      programs that call them. [Pc]: a computer with the devices of the files
      above, on which the hardware interrupts run from the line through the
      controllers, the gate and the stub to the handler and back.
    - [Locks]: what the boot and the interrupt handlers do to the spin locks and
      to the interrupt flag, as a step relation.

    ** What is proved

    Memory. [Phys]: initialisation frees exactly the whole pages of the
    available entries; allocation is next-fit; blocks are the first that fit;
    freeing is its inverse; under any sequence of operations no page is lost or
    owned twice. [PageWalk]: mapping and unmapping change the translation of
    exactly one page, or fail and change none. [PageBoot]: the boot tables map
    the first 4 GiB to themselves, and mapping a page inside them writes into
    memory instead. [Heap]: the heap stays inside what it mapped and under its
    cap. [BootInfo]: the parser returns what a well-formed structure says, ends
    on every structure without a tag of size 0, and on such a tag never ends.
    [Boot], [Main]: the boot succeeds exactly when 1024 available pages exist, and
    the state it reaches; the drawing loop never ends and only writes the
    framebuffer, unless a pixel has fewer than 32 bits.

    Interrupts and devices. [Gdt], [Idt]: the processor reads, behind every
    selector and every vector, the descriptor that was meant; each line of the
    interrupt controllers reaches its stub and is acknowledged. [Stubs]: a
    handler gets the interrupted state, and the interrupted program gets it
    back. [Handlers]: the hardware interrupts are counted, served and
    acknowledged; an exception prints a report from which the registers can be
    read back, and halts. [Panic]: so does a failed allocation. [Devices]: the
    drivers access only their own registers, with values of the right width.
    [Pc]: an interrupt always gets through and the interrupted program goes on
    unchanged; keystrokes end up as events in the queue.
    [Keyboard]: the driver refines a bounded queue of the events that the
    bytes of the keyboard spell; keystrokes decode to themselves; the key tables
    and the US layout. [Serial]: strings reach the line byte by byte, and the
    polling ends with every device that becomes ready. [Logging], [Screen],
    [Process], [Apic], [Cpu]: the functional behaviour of each operation.
    [Locks]: code that masks the locks of the handlers never spins on a lock;
    the boot does not mask them, and can come to a standstill.

    ** Integers, loops and fuel

    Words are [Z] values reduced by [wrap]; arithmetic wraps, as it does in the
    release profile that the Makefile builds. Loops over a range are folds over
    it and need no fuel. Three loops run with fuel. The tag loop of [BootInfo]:
    one more than the number of tags is enough, and [total_size / 8] always,
    unless a tag has size 0. The polling of [Serial]: one more than the number
    of reads for which the device is busy. [get_char] of [Keyboard]: one more
    than the number of events in the queue. Each has its termination theorem.
    Two loops of the code never end, the one around [hlt] and the drawing loop:
    their fuel is the number of rounds looked at, and the theorems hold for any
    number.

    ** Not modelled

    - What tiny_skia draws and the values of the sine and the cosine: parameters
      of [Main]. The pixels of the back buffer are a list of the screen, not bytes
      of the heap the buffer is in.
    - The texts of the banner and of the [Debug] implementations. The log lines of
      the components below the logger, or that only trace, are dropped there;
      they are present in [Logging], [Handlers], [Panic] and, as actions on the
      locks, in [Locks].
    - [mem/virt.rs], whose types no code uses, and [proc/scheduler.rs], an empty
      struct.
    - The assembly of the entry and the linker scripts. Where the linker puts
      the statics is a parameter: [Statics] and its hypothesis [layout_ok].
    - The crates linked_list_allocator, log, tiny_skia, libm, spin and bitflags:
      the first three are parameters with their laws; a spin lock is an action of [Locks]; the
      flags that [gdt.rs] declares with bitflags are their bits in [Gdt].
    - More than one processor: the kernel starts one. *)
From stdpp Require Import base numbers list gmap strings tactics.
From Stdlib Require Import ZArith Lia Bool.
Open Scope Z_scope.

(** * Machine integers

    Integers of width [w] are [Z] values in [0, 2^w); an operation of the code
    that may leave the range is followed by [wrap w].  The release profile the
    Makefile builds by default has no overflow checks, so arithmetic wraps. *)
Definition wrap (w z : Z) : Z := z mod 2 ^ w.

Definition add64 (x y : Z) : Z := wrap 64 (x + y).
Definition sub64 (x y : Z) : Z := wrap 64 (x - y).
Definition mul64 (x y : Z) : Z := wrap 64 (x * y).

(** The bitwise complement of a [w]-bit word. *)
Definition not_w (w x : Z) : Z := Z.lxor x (Z.ones w).

Declare Scope word_scope.
Delimit Scope word_scope with word.
Infix "⊕" := add64 (at level 50, left associativity) : word_scope.
Infix "⊖" := sub64 (at level 50, left associativity) : word_scope.
Infix "⊗" := mul64 (at level 40, left associativity) : word_scope.
Open Scope word_scope.

Lemma wrap_small (w z : Z) : 0 <= z < 2 ^ w -> wrap w z = z.
Proof. apply Z.mod_small. Qed.

Lemma wrap_range (w z : Z) : 0 <= w -> 0 <= wrap w z < 2 ^ w.
Proof. intros. apply Z.mod_pos_bound. lia. Qed.

Lemma wrap_ones (w z : Z) : 0 <= w -> wrap w z = Z.land z (Z.ones w).
Proof. intros. unfold wrap. by rewrite Z.land_ones. Qed.

Lemma add64_small (x y : Z) : 0 <= x + y < 2 ^ 64 -> x ⊕ y = x + y.
Proof. apply wrap_small. Qed.

Lemma sub64_small (x y : Z) : 0 <= x - y < 2 ^ 64 -> x ⊖ y = x - y.
Proof. apply wrap_small. Qed.

Lemma mul64_small (x y : Z) : 0 <= x * y < 2 ^ 64 -> x ⊗ y = x * y.
Proof. apply wrap_small. Qed.

(** * Bitwise reasoning

    [zbits] proves an equation between words by comparing every bit: the bit
    operations are pushed to [Z.testbit] of the variables, the comparisons of
    bit positions are split, and the remaining boolean goal is decided. *)
Lemma testbit_range (z w i : Z) : 0 <= z < 2 ^ w -> w <= i -> Z.testbit z i = false.
Proof.
  intros Hz Hi. destruct (decide (w < 0)) as [Hw|Hw].
  { rewrite Z.pow_neg_r in Hz by lia. lia. }
  rewrite <- (Z.mod_small z (2 ^ w)) by done. apply Z.mod_pow2_bits_high. lia.
Qed.

Lemma testbit_ones_eq (n i : Z) : 0 <= n -> Z.testbit (Z.ones n) i = (0 <=? i) && (i <? n).
Proof. apply Z.testbit_ones. Qed.

Lemma testbit_pow2 (n i : Z) : 0 <= n -> Z.testbit (2 ^ n) i = (n =? i).
Proof. intros. by apply Z.pow2_bits_eqb. Qed.

Lemma testbit_shiftl_1 (n i : Z) : 0 <= n -> Z.testbit (Z.shiftl 1 n) i = (n =? i).
Proof. intros. rewrite Z.shiftl_1_l. by apply testbit_pow2. Qed.

Lemma testbit_1 (i : Z) : Z.testbit 1 i = (i =? 0).
Proof.
  destruct (Z.eqb_spec i 0) as [->|Hi]; [done|].
  destruct (decide (i < 0)); [apply Z.testbit_neg_r; lia|].
  apply (testbit_range 1 1); lia.
Qed.

Create Rewrite HintDb testbit.
#[export] Hint Rewrite Z.land_spec Z.lor_spec Z.lxor_spec Z.testbit_0_l testbit_1 : testbit.
#[export] Hint Rewrite testbit_ones_eq testbit_pow2
  Z.shiftl_spec Z.shiftr_spec using lia : testbit.

Ltac zbits_split :=
  repeat match goal with
  | |- context [?a <=? ?b] => destruct (Z.leb_spec a b)
  | |- context [?a <? ?b] => destruct (Z.ltb_spec a b)
  | |- context [?a =? ?b] => destruct (Z.eqb_spec a b)
  end; subst.

Ltac zbits_high :=
  repeat match goal with
  | H : 0 <= ?x < 2 ^ ?w |- context [Z.testbit ?x ?i] =>
      rewrite (testbit_range x w i H) by lia
  | |- context [Z.testbit ?x ?i] => rewrite (Z.testbit_neg_r x i) by lia
  end.

(** Split on [a < b] unless the context decides it. *)
Ltac zbits_decide a b :=
  tryif (first [assert (a < b) by lia | assert (b <= a) by lia]) then fail
  else destruct (Z.ltb_spec a b).

Ltac zbits_cases :=
  repeat match goal with
  | H : 0 <= ?x < 2 ^ ?w |- context [Z.testbit ?x ?i] => zbits_decide i w
  | |- context [Z.testbit ?x (?i - ?n)] => zbits_decide i n
  end.

Ltac zbits_simpl :=
  autorewrite with testbit;
  rewrite ?andb_false_r, ?andb_true_r, ?orb_false_r, ?orb_true_r,
    ?xorb_false_r, ?xorb_true_r, ?xorb_false_l, ?xorb_true_l,
    ?andb_false_l, ?andb_true_l, ?orb_false_l, ?orb_true_l;
  rewrite ?negb_involutive.

Ltac zbits_close :=
  first [ done | lia | solve [f_equal; lia]
        | repeat match goal with |- context [Z.testbit ?x ?i] => destruct (Z.testbit x i) end;
          done ].

Ltac zbits :=
  apply Z.bits_inj'; intros ?i ?Hi; unfold not_w;
  do 2 (zbits_simpl; zbits_split; try lia; zbits_cases; zbits_high); zbits_simpl; try zbits_close.

(** A mask of [k] ones at bit [n] extracts that field in place. *)
Lemma land_field (x n k : Z) :
  0 <= n -> 0 <= k -> Z.land x (Z.shiftl (Z.ones k) n) = Z.shiftl (Z.shiftr x n mod 2 ^ k) n.
Proof. intros. rewrite <- Z.land_ones by lia. zbits. Qed.

Lemma land_not_ones (w n x : Z) :
  0 <= n <= w -> 0 <= x < 2 ^ w -> Z.land x (not_w w (Z.ones n)) = x - x mod 2 ^ n.
Proof.
  intros Hn Hx.
  assert (Z.land x (not_w w (Z.ones n)) = Z.shiftl (Z.shiftr x n) n) as ->.
  { zbits. }
  rewrite Z.shiftl_mul_pow2, Z.shiftr_div_pow2 by lia.
  pose proof (Z.div_mod x (2 ^ n)). lia.
Qed.

Lemma lor_shiftl_add (hi lo n : Z) :
  0 <= n -> 0 <= lo < 2 ^ n -> Z.lor (Z.shiftl hi n) lo = hi * 2 ^ n + lo.
Proof.
  intros Hn Hlo. rewrite <- Z.shiftl_mul_pow2 by lia.
  assert (Z.land (Z.shiftl hi n) lo = 0) as Hd by zbits.
  rewrite <- Z.lxor_lor by done. symmetry. by apply Z.add_nocarry_lxor.
Qed.

Lemma land_ones_mod (x n : Z) : 0 <= n -> Z.land x (Z.ones n) = x mod 2 ^ n.
Proof. apply Z.land_ones. Qed.

Lemma shiftr_land_ones (x n k : Z) :
  0 <= n -> 0 <= k -> Z.land (Z.shiftr x n) (Z.ones k) = x / 2 ^ n mod 2 ^ k.
Proof. intros. by rewrite Z.land_ones, Z.shiftr_div_pow2 by lia. Qed.

Lemma land_bit_eqb (x i : Z) : 0 <= i -> (Z.land x (Z.shiftl 1 i) =? 0) = negb (Z.testbit x i).
Proof.
  intros Hi. destruct (Z.testbit x i) eqn:Hb; simpl.
  - apply Z.eqb_neq. intros H0. apply (f_equal (fun z => Z.testbit z i)) in H0.
    rewrite Z.land_spec, testbit_shiftl_1, Hb, Z.eqb_refl, Z.testbit_0_l in H0 by done.
    done.
  - apply Z.eqb_eq. apply Z.bits_inj'. intros j Hj. rewrite Z.land_spec, testbit_shiftl_1, Z.testbit_0_l by done.
    destruct (Z.eqb_spec i j) as [->|]; [by rewrite Hb|by rewrite andb_false_r].
Qed.

Lemma div_mod_eq_iff (p q k : Z) : 0 < k -> p = q <-> p / k = q / k /\ p mod k = q mod k.
Proof.
  intros Hk. split; [by intros ->|]. intros [Hd Hm].
  rewrite (Z.div_mod p k), (Z.div_mod q k) by lia. by rewrite Hd, Hm.
Qed.

(** Disjunction of ranges: the range of a bitwise or. *)
Lemma lor_range (x y w : Z) : 0 <= w -> 0 <= x < 2 ^ w -> 0 <= y < 2 ^ w -> 0 <= Z.lor x y < 2 ^ w.
Proof.
  intros Hw Hx Hy. split; [apply Z.lor_nonneg; lia|].
  assert (Z.lor x y = Z.lor x y mod 2 ^ w) as ->; [|by apply Z.mod_pos_bound; lia].
  rewrite <- Z.land_ones by lia. zbits.
Qed.

Lemma land_range (x y w : Z) : 0 <= w -> 0 <= x < 2 ^ w -> 0 <= Z.land x y < 2 ^ w.
Proof.
  intros Hw Hx. split; [apply Z.land_nonneg; lia|].
  assert (Z.land x y = Z.land x y mod 2 ^ w) as ->; [|by apply Z.mod_pos_bound; lia].
  rewrite <- Z.land_ones by lia. zbits.
Qed.

(** * Results and monads *)

(** Rust's [Result<A, E>]. *)
Inductive result (E A : Type) : Type :=
| Ok (a : A)
| Err (e : E).
Arguments Ok {E A} a.
Arguments Err {E A} e.

#[export] Instance result_eq_dec {E A} `{EqDecision E, EqDecision A} : EqDecision (result E A).
Proof. solve_decision. Defined.

Definition is_ok {E A} (r : result E A) : bool :=
  match r with Ok _ => true | Err _ => false end.

(** The state and error monad: a computation on a state [S] that ends with a
    value or stops with an [E]; the state reached is kept in both cases. *)
Definition stateE (S E A : Type) : Type := S -> result E A * S.

#[export] Instance stateE_ret {S E} : MRet (stateE S E) := fun A a s => (Ok a, s).
#[export] Instance stateE_bind {S E} : MBind (stateE S E) := fun A B f m s =>
  match m s with
  | (Ok a, s') => f a s'
  | (Err e, s') => (Err e, s')
  end.

Definition fail {S E A} (e : E) : stateE S E A := fun s => (Err e, s).
Definition gets {S E A} (f : S -> A) : stateE S E A := fun s => (Ok (f s), s).
Definition modify {S E} (f : S -> S) : stateE S E unit := fun s => (Ok tt, f s).

(** Rust's [?] on an [Option] turned into a [Result] by [ok_or]. *)
Definition ok_or {S E A} (e : E) (o : option A) : stateE S E A :=
  match o with Some a => mret a | None => fail e end.

(** Why a run of the code stops without a value: a Rust panic, or the fuel of
    a loop of the model that the code would go on executing. *)
Inductive stop : Type :=
| Panic (msg : string)
| OutOfFuel.

#[export] Instance stop_eq_dec : EqDecision stop.
Proof. solve_decision. Defined.

Lemma bind_ok {S E A B} (m : stateE S E A) (f : A -> stateE S E B) s a s' :
  m s = (Ok a, s') -> (m ≫= f) s = f a s'.
Proof. unfold mbind, stateE_bind. by intros ->. Qed.

Lemma bind_err {S E A B} (m : stateE S E A) (f : A -> stateE S E B) s e s' :
  m s = (Err e, s') -> (m ≫= f) s = (Err e, s').
Proof. unfold mbind, stateE_bind. by intros ->. Qed.

Lemma bind_assoc {S E A B C} (m : stateE S E A) (f : A -> stateE S E B) (g : B -> stateE S E C) s :
  ((m ≫= f) ≫= g) s = (m ≫= (fun a => f a ≫= g)) s.
Proof. unfold mbind, stateE_bind. by destruct (m s) as [[] ?]. Qed.

(** A computation on one component of a pair of states. *)
Definition on_fst {S T E A} (m : stateE S E A) : stateE (S * T) E A := fun st =>
  let (r, s) := m (fst st) in (r, (s, snd st)).

Definition on_snd {S T E A} (m : stateE T E A) : stateE (S * T) E A := fun st =>
  let (r, t) := m (snd st) in (r, (fst st, t)).

(** [Forall] of a list written out, [tac] for each element. *)
Ltac forall_cases tac :=
  repeat first [apply list.Forall_nil_2 | apply list.Forall_cons_2; [tac|]].

(** * Association lists *)

Fixpoint alookup {A B} `{EqDecision A} (a : A) (l : list (A * B)) : option B :=
  match l with
  | [] => None
  | (a', b) :: l => if decide (a = a') then Some b else alookup a l
  end.

(** * Loops

    [for_range lo hi body s] is [for i in lo..hi { body }]: the body maps the
    state and may leave the enclosing function early with [Some r] (a Rust
    [return], or a [break] when [r : unit]).  The number of iterations is
    [hi - lo], so no fuel is involved. *)
Fixpoint for_loop {S R} (n : nat) (i : Z) (body : Z -> S -> S * option R) (s : S) : S * option R :=
  match n with
  | O => (s, None)
  | Datatypes.S n' =>
      match body i s with
      | (s', Some r) => (s', Some r)
      | (s', None) => for_loop n' (i + 1) body s'
      end
  end.

Definition for_range {S R} (lo hi : Z) (body : Z -> S -> S * option R) (s : S) : S * option R :=
  for_loop (Z.to_nat (hi - lo)) lo body s.

(** A loop with no early exit. *)
Definition for_each {S} (lo hi : Z) (body : Z -> S -> S) (s : S) : S :=
  fst (for_range (R := unit) lo hi (fun i s => (body i s, None)) s).

(** The loop rule: [P i s] holds before iteration [i], [Q i s r] when
    iteration [i] leaves the loop. *)
Lemma for_loop_rule {S R} (P : Z -> S -> Prop) (Q : Z -> S -> R -> Prop) n lo hi body s :
  hi = lo + Z.of_nat n -> P lo s ->
  (forall i s, lo <= i < hi -> P i s ->
     match body i s with
     | (s', Some r) => Q i s' r
     | (s', None) => P (i + 1) s'
     end) ->
  match for_loop n lo body s with
  | (s', Some r) => exists i, lo <= i < hi /\ Q i s' r
  | (s', None) => P hi s'
  end.
Proof.
  revert lo s. induction n as [|n IH]; intros lo s Hhi HP Hstep; simpl.
  - by rewrite Hhi, Z.add_0_r.
  - pose proof (Hstep lo s ltac:(lia) HP) as Hlo.
    destruct (body lo s) as [s' [r|]]; [exists lo; split; [lia|done]|].
    specialize (IH (lo + 1) s' ltac:(lia) Hlo).
    destruct (for_loop n (lo + 1) body s') as [s'' [r|]].
    + destruct IH as (i & ? & ?); [intros; apply Hstep; lia || done|].
      exists i. split; [lia|done].
    + apply IH. intros; apply Hstep; lia || done.
Qed.

Lemma for_range_rule {S R} (P : Z -> S -> Prop) (Q : Z -> S -> R -> Prop) lo hi body s :
  lo <= hi -> P lo s ->
  (forall i s, lo <= i < hi -> P i s ->
     match body i s with
     | (s', Some r) => Q i s' r
     | (s', None) => P (i + 1) s'
     end) ->
  match for_range lo hi body s with
  | (s', Some r) => exists i, lo <= i < hi /\ Q i s' r
  | (s', None) => P hi s'
  end.
Proof. intros. apply for_loop_rule; [lia|done|done]. Qed.

Lemma for_range_empty {S R} lo hi (body : Z -> S -> S * option R) s :
  hi <= lo -> for_range lo hi body s = (s, None).
Proof. intros. unfold for_range. by replace (Z.to_nat (hi - lo)) with O by lia. Qed.

Lemma for_each_rule {S} (P : Z -> S -> Prop) lo hi body s :
  lo <= hi -> P lo s ->
  (forall i s, lo <= i < hi -> P i s -> P (i + 1) (body i s)) ->
  P hi (for_each lo hi body s).
Proof.
  intros Hle H0 Hstep. unfold for_each.
  pose proof (for_range_rule (R := unit) P (fun _ _ _ => False) lo hi
                (fun i s => (body i s, None)) s Hle H0 Hstep) as H.
  destruct (for_range _ _ _ _) as [s' [r|]]; [by destruct H as (? & _ & [])|done].
Qed.

Lemma for_each_empty {S} lo hi (body : Z -> S -> S) s : hi <= lo -> for_each lo hi body s = s.
Proof. intros. unfold for_each. by rewrite for_range_empty. Qed.

(** A loop whose body is a computation of the monad; an error leaves it. *)
Definition for_m {S E} (lo hi : Z) (body : Z -> stateE S E unit) : stateE S E unit := fun s =>
  match for_range lo hi
          (fun i s => match body i s with
                      | (Ok _, s') => (s', None)
                      | (Err e, s') => (s', Some e)
                      end) s with
  | (s', None) => (Ok tt, s')
  | (s', Some e) => (Err e, s')
  end.

Lemma for_m_rule {S E} (P : Z -> S -> Prop) (Q : Z -> S -> E -> Prop) lo hi (body : Z -> stateE S E unit) s :
  lo <= hi -> P lo s ->
  (forall i s, lo <= i < hi -> P i s ->
     match body i s with
     | (Ok _, s') => P (i + 1) s'
     | (Err e, s') => Q i s' e
     end) ->
  match for_m lo hi body s with
  | (Ok _, s') => P hi s'
  | (Err e, s') => exists i, lo <= i < hi /\ Q i s' e
  end.
Proof.
  intros Hle H0 Hstep. unfold for_m.
  pose proof (for_range_rule P Q lo hi
    (fun i s => match body i s with (Ok _, s') => (s', None) | (Err e, s') => (s', Some e) end) s Hle H0) as H.
  destruct (for_range _ _ _ _) as [s' [e|]]; apply H; intros i s1 Hi HP;
    specialize (Hstep i s1 Hi HP); by destruct (body i s1) as [[] ?].
Qed.
