(* ===== verification/Ram.v ===== *)
(** Byte-addressed physical memory: what the raw pointer reads and writes of
    the kernel ([*(addr as *const u32)], [entries[i] = ..],
    [core::ptr::write_bytes], [core::ptr::copy_nonoverlapping]) do to it.

    A memory is a finite map from addresses to bytes; an address outside the
    map reads 0.  Since the map is arbitrary, a theorem about every [ram] is a
    theorem about every content of the physical memory. *)
From S2P Require Import Prelude.
From stdpp Require Import base numbers list gmap tactics.
From Stdlib Require Import ZArith Lia.
Open Scope Z_scope.

Abbreviation ram := (gmap Z Z).

Definition rd8 (m : ram) (a : Z) : Z := default 0 (m !! a) mod 256.

(** Little-endian reads and writes of [n] bytes. *)
Fixpoint rd (n : nat) (m : ram) (a : Z) : Z :=
  match n with
  | O => 0
  | S n' => rd8 m a + 256 * rd n' m (a + 1)
  end.

Fixpoint wr (n : nat) (m : ram) (a v : Z) : ram :=
  match n with
  | O => m
  | S n' => wr n' (<[a := v mod 256]> m) (a + 1) (v / 256)
  end.

Definition rd16 := rd 2.
Definition rd32 := rd 4.
Definition rd64 := rd 8.
Definition wr64 := wr 8.

(** [write_bytes(p, b, n)] and a copy of a byte slice. *)
Fixpoint fill (n : nat) (m : ram) (a b : Z) : ram :=
  match n with
  | O => m
  | S n' => fill n' (<[a := b]> m) (a + 1) b
  end.

Fixpoint copy_bytes (bs : list Z) (m : ram) (a : Z) : ram :=
  match bs with
  | [] => m
  | b :: bs' => copy_bytes bs' (<[a := b]> m) (a + 1)
  end.

(** The [n] little-endian bytes of a value, and the value of a list of bytes. *)
Fixpoint enc (n : nat) (v : Z) : list Z :=
  match n with
  | O => []
  | S n' => v mod 256 :: enc n' (v / 256)
  end.

Fixpoint dec (bs : list Z) : Z :=
  match bs with
  | [] => 0
  | b :: bs' => b + 256 * dec bs'
  end.

Definition disjoint_ranges (a n b k : Z) : Prop := a + n <= b \/ b + k <= a.

Section ram_facts.
Implicit Types (m : ram) (a b v : Z).

Lemma rd8_range m a : 0 <= rd8 m a < 256.
Proof. apply Z.mod_pos_bound. lia. Qed.

Lemma rd_range n m a : 0 <= rd n m a < 256 ^ Z.of_nat n.
Proof.
  revert a. induction n as [|n IH]; intros a; [simpl; lia|].
  rewrite Nat2Z.inj_succ, Z.pow_succ_r by lia. simpl.
  specialize (IH (a + 1)). pose proof (rd8_range m a). nia.
Qed.

Lemma rd64_range m a : 0 <= rd64 m a < 2 ^ 64.
Proof. apply (rd_range 8). Qed.

Lemma rd32_range m a : 0 <= rd32 m a < 2 ^ 32.
Proof. apply (rd_range 4). Qed.

Lemma rd8_insert_eq m a v : rd8 (<[a := v]> m) a = v mod 256.
Proof. unfold rd8. by rewrite lookup_insert_eq. Qed.

Lemma rd8_insert_ne m a b v : a <> b -> rd8 (<[a := v]> m) b = rd8 m b.
Proof. intros. unfold rd8. by rewrite lookup_insert_ne. Qed.

Lemma wr_lookup_before n m a v b : b < a -> wr n m a v !! b = m !! b.
Proof.
  revert m a v. induction n as [|n IH]; intros m a v Hb; [done|]. simpl.
  rewrite IH by lia. apply lookup_insert_ne. lia.
Qed.

Lemma wr_lookup_after n m a v b : a + Z.of_nat n <= b -> wr n m a v !! b = m !! b.
Proof.
  revert m a v. induction n as [|n IH]; intros m a v Hb; [done|]. simpl.
  rewrite IH by lia. apply lookup_insert_ne. lia.
Qed.

Lemma fill_lookup n m a v b :
  fill n m a v !! b = if decide (a <= b < a + Z.of_nat n) then Some v else m !! b.
Proof.
  revert m a. induction n as [|n IH]; intros m a; simpl.
  { by rewrite decide_False by lia. }
  rewrite IH. destruct (decide (b = a)) as [->|Hne].
  - rewrite decide_False, decide_True by lia. by rewrite lookup_insert_eq.
  - rewrite lookup_insert_ne by done.
    destruct (decide (a + 1 <= b < a + 1 + Z.of_nat n));
      [by rewrite decide_True by lia|by rewrite decide_False by lia].
Qed.

Lemma copy_bytes_lookup bs m a b :
  copy_bytes bs m a !! b =
    if decide (a <= b < a + Z.of_nat (length bs)) then bs !! Z.to_nat (b - a) else m !! b.
Proof.
  revert m a. induction bs as [|x bs IH]; intros m a; simpl.
  { by rewrite decide_False by lia. }
  rewrite IH. destruct (decide (b = a)) as [->|Hne].
  - rewrite decide_False, decide_True by lia. by rewrite lookup_insert_eq, Z.sub_diag.
  - rewrite lookup_insert_ne by done.
    destruct (decide (a + 1 <= b < a + 1 + Z.of_nat (length bs))).
    + rewrite decide_True by lia.
      by replace (Z.to_nat (b - a)) with (S (Z.to_nat (b - (a + 1)))) by lia.
    + by rewrite decide_False by lia.
Qed.

(** A read only depends on the bytes it covers. *)
Lemma rd_ext n m m' a :
  (forall i, a <= i < a + Z.of_nat n -> m' !! i = m !! i) -> rd n m' a = rd n m a.
Proof.
  revert a. induction n as [|n IH]; intros a Hm; [done|]. simpl. f_equal.
  - unfold rd8. by rewrite Hm by lia.
  - f_equal. apply IH. intros. apply Hm. lia.
Qed.

Lemma rd_wr_same n m a v : rd n (wr n m a v) a = v mod 256 ^ Z.of_nat n.
Proof.
  revert m a v. induction n as [|n IH]; intros m a v; [by rewrite Z.mod_1_r|].
  simpl. rewrite IH. unfold rd8. rewrite wr_lookup_before by lia.
  rewrite lookup_insert_eq. simpl. rewrite Z.mod_mod by lia.
  rewrite Nat2Z.inj_succ, Z.pow_succ_r by lia.
  rewrite Z.rem_mul_r by lia. done.
Qed.

Lemma rd_wr_disjoint k n m a v b :
  disjoint_ranges a (Z.of_nat n) b (Z.of_nat k) -> rd k (wr n m a v) b = rd k m b.
Proof.
  intros [H|H]; apply rd_ext; intros i Hi;
    [apply wr_lookup_after|apply wr_lookup_before]; lia.
Qed.

Lemma rd64_wr64_same m a v : 0 <= v < 2 ^ 64 -> rd64 (wr64 m a v) a = v.
Proof. intros. unfold rd64, wr64. rewrite rd_wr_same. by apply Z.mod_small. Qed.

Lemma rd64_wr64_ne m a v b : disjoint_ranges a 8 b 8 -> rd64 (wr64 m a v) b = rd64 m b.
Proof. apply (rd_wr_disjoint 8 8). Qed.

Lemma enc_length n v : length (enc n v) = n.
Proof. revert v. induction n as [|n IH]; intros v; cbn; [done|]. by rewrite IH. Qed.

Lemma enc_bytes n v : Forall (fun b => 0 <= b < 256) (enc n v).
Proof. revert v. induction n; intros v; cbn; constructor; [apply Z.mod_pos_bound; lia|done]. Qed.

Lemma dec_enc n v : dec (enc n v) = v mod 256 ^ Z.of_nat n.
Proof.
  revert v. induction n as [|n IH]; intros v; [by rewrite Z.mod_1_r|]. cbn [enc dec].
  rewrite IH, Nat2Z.inj_succ, Z.pow_succ_r by lia. by rewrite Z.rem_mul_r by lia.
Qed.

Lemma dec_app bs cs : dec (bs ++ cs) = dec bs + 256 ^ Z.of_nat (length bs) * dec cs.
Proof.
  induction bs as [|b bs IH]; cbn [dec app length]; [by rewrite Z.mul_1_l|].
  rewrite IH, Nat2Z.inj_succ, Z.pow_succ_r by lia. ring.
Qed.

(** Reading back bytes that were copied to memory. *)
Lemma rd_copy_bytes n m a bs k :
  Forall (fun b => 0 <= b < 256) bs -> (k + n <= length bs)%nat ->
  rd n (copy_bytes bs m a) (a + Z.of_nat k) = dec (take n (drop k bs)).
Proof.
  intros Hbs. revert k. induction n as [|n IH]; intros k Hk; [done|]. cbn [rd].
  destruct (lookup_lt_is_Some_2 bs k ltac:(lia)) as [b Hb].
  rewrite (drop_S _ _ _ Hb). cbn [take dec].
  replace (a + Z.of_nat k + 1) with (a + Z.of_nat (S k)) by lia. rewrite IH by lia.
  f_equal. unfold rd8. rewrite copy_bytes_lookup, decide_True by lia.
  replace (Z.to_nat (a + Z.of_nat k - a)) with k by lia. rewrite Hb. cbn.
  apply Z.mod_small. by apply (Forall_lookup_1 _ _ _ _ Hbs Hb).
Qed.

Lemma rd64_fill_in n m a b :
  a <= b -> b + 8 <= a + Z.of_nat n -> rd64 (fill n m a 0) b = 0.
Proof.
  intros. unfold rd64; cbn [rd]; unfold rd8. rewrite !fill_lookup.
  by rewrite !decide_True by lia.
Qed.

Lemma rd64_fill_out n m a b :
  disjoint_ranges a (Z.of_nat n) b 8 -> rd64 (fill n m a 0) b = rd64 m b.
Proof.
  intros Hd. apply rd_ext. intros i Hi. rewrite fill_lookup.
  rewrite decide_False; [done|]. destruct Hd; lia.
Qed.
End ram_facts.

#[global] Arguments rd64 : simpl never.
#[global] Arguments rd32 : simpl never.
#[global] Arguments rd16 : simpl never.
#[global] Arguments wr64 : simpl never.

Create HintDb bytes.
#[export] Hint Resolve enc_bytes Forall_app_2 Forall_nil_2 : bytes.
