(* ===== verification/Mem.v ===== *)
(** [kernel/src/mem/mod.rs]: page constants, the memory map types, the page
    alignment helpers, and [parse_mem_map] with the global [MEMORY_STATS];
    and the data types of [kernel/src/bootinfo.rs] that [mem] consumes. *)
From S2P Require Import Prelude.
From stdpp Require Import base numbers list gmap tactics.
From Stdlib Require Import ZArith Lia.
Open Scope Z_scope.
Open Scope word_scope.

(** * Data *)

Definition PAGE_SIZE : Z := 4096.
Definition PAGE_SHIFT : Z := 12.

Inductive MemoryType : Type :=
| Available
| Reserved
| AcpiReclaimable
| AcpiNvs
| BadMemory
| Kernel
| Bootloader
| Framebuffer
| PageTable.

#[export] Instance MemoryType_eq_dec : EqDecision MemoryType.
Proof. solve_decision. Defined.

Record MemoryMapEntry : Type := mkEntry {
  entry_base : Z;
  entry_length : Z;
  entry_type : MemoryType
}.

#[export] Instance MemoryMapEntry_inhabited : Inhabited MemoryMapEntry :=
  populate (mkEntry 0 0 Reserved).
#[export] Instance MemoryMapEntry_eq_dec : EqDecision MemoryMapEntry.
Proof. solve_decision. Defined.

Record FramebufferInfo : Type := mkFb {
  fb_address : Z;
  fb_width : Z;
  fb_height : Z;
  fb_pitch : Z;
  fb_bpp : Z;
  fb_red_shift : Z;
  fb_green_shift : Z;
  fb_blue_shift : Z;
  fb_red_mask : Z;
  fb_green_mask : Z;
  fb_blue_mask : Z
}.

Inductive Architecture : Type := X86 | X86_64 | Arm32 | Arm64 | UnknownArch.

(** The pointer [memory_map] is [None] when null, and otherwise the entries of
    the array it points to; [cmdline] is null or points to bytes. *)
Record BootInfo : Type := mkBootInfo {
  magic : Z;
  memory_map : option (list MemoryMapEntry);
  memory_map_entries : Z;
  framebuffer : FramebufferInfo;
  arch : Architecture;
  kernel_start : Z;
  kernel_end : Z;
  initrd_start : Z;
  initrd_end : Z;
  cmdline : option (list Z);
  cmdline_len : Z
}.

(** The entries the kernel reads through [memory_map.add(i)], [i] below
    [memory_map_entries]. *)
Definition map_entry (l : list MemoryMapEntry) (i : Z) : MemoryMapEntry := l !!! Z.to_nat i.

(** [boot_info.memory_map.is_null() || boot_info.memory_map_entries == 0] *)
Definition no_memory_map (boot_info : BootInfo) : bool :=
  match memory_map boot_info with
  | None => true
  | Some _ => memory_map_entries boot_info =? 0
  end.

Definition map_list (boot_info : BootInfo) : list MemoryMapEntry :=
  default [] (memory_map boot_info).

(** * Page alignment *)

Definition page_align_down (addr : Z) : Z := Z.land addr (not_w 64 (PAGE_SIZE - 1)).

Definition page_align_up (addr : Z) : Z :=
  Z.land (addr ⊕ PAGE_SIZE ⊖ 1) (not_w 64 (PAGE_SIZE - 1)).

Definition addr_to_page (addr : Z) : Z := Z.shiftr addr PAGE_SHIFT.

Definition page_to_addr (page : Z) : Z := wrap 64 (Z.shiftl page PAGE_SHIFT).

Lemma page_align_down_eq a : 0 <= a < 2 ^ 64 -> page_align_down a = 4096 * (a / 4096).
Proof.
  intros Ha. unfold page_align_down, PAGE_SIZE.
  change (4096 - 1) with (Z.ones 12). rewrite land_not_ones by lia.
  change (2 ^ 12) with 4096. pose proof (Z.div_mod a 4096). lia.
Qed.

Lemma page_align_up_eq a :
  0 <= a -> a + 4096 < 2 ^ 64 -> page_align_up a = 4096 * ((a + 4095) / 4096).
Proof.
  intros Ha Hb. unfold page_align_up, PAGE_SIZE.
  rewrite (add64_small a 4096), sub64_small by lia.
  pose proof (page_align_down_eq (a + 4096 - 1) ltac:(lia)) as H.
  unfold page_align_down, PAGE_SIZE in H. rewrite H. do 2 f_equal. lia.
Qed.

(** * Memory statistics *)

Record MemoryStats : Type := mkStats {
  ms_total_memory : Z;
  ms_available_memory : Z;
  ms_used_memory : Z;
  ms_free_pages : Z;
  ms_used_pages : Z
}.

Definition MEMORY_STATS : MemoryStats := mkStats 0 0 0 0 0.

(** The [matches!] of [parse_mem_map]. *)
Definition is_ram (t : MemoryType) : bool :=
  match t with
  | Available | AcpiReclaimable | AcpiNvs | Kernel | Bootloader => true
  | _ => false
  end.

Definition add_total (n : Z) (st : MemoryStats) : MemoryStats :=
  mkStats (ms_total_memory st ⊕ n) (ms_available_memory st) (ms_used_memory st) (ms_free_pages st) (ms_used_pages st).

Definition add_available (n : Z) (st : MemoryStats) : MemoryStats :=
  mkStats (ms_total_memory st) (ms_available_memory st ⊕ n) (ms_used_memory st) (ms_free_pages st) (ms_used_pages st).

(** The body of the loop over the entries. *)
Definition count_entry (entry : MemoryMapEntry) (st : MemoryStats) : MemoryStats :=
  let st := if is_ram (entry_type entry) then add_total (entry_length entry) st else st in
  if bool_decide (entry_type entry = Available) then add_available (entry_length entry) st else st.

Definition parse_mem_map (boot_info : BootInfo) (stats : MemoryStats) : MemoryStats :=
  if no_memory_map boot_info then
    mkStats (32 * 1024 * 1024) (32 * 1024 * 1024) (ms_used_memory stats)
      (ms_free_pages stats) (ms_used_pages stats)
  else
    for_each 0 (memory_map_entries boot_info)
      (fun i st => count_entry (map_entry (map_list boot_info) i) st) stats.

(** The specification: the lengths of the entries of a kind, summed. *)
Definition sum_lengths (P : MemoryType -> bool) (es : list MemoryMapEntry) : Z :=
  foldr (fun e acc => (if P (entry_type e) then entry_length e else 0) + acc) 0 es.

Definition is_available (t : MemoryType) : bool := bool_decide (t = Available).

Lemma sum_lengths_app P es1 es2 :
  sum_lengths P (es1 ++ es2) = sum_lengths P es1 + sum_lengths P es2.
Proof. induction es1 as [|e es1 IH]; simpl; [lia|]. rewrite IH. lia. Qed.

Lemma sum_lengths_nonneg P es : Forall (fun e => 0 <= entry_length e) es -> 0 <= sum_lengths P es.
Proof. induction 1; simpl; [lia|]. case_match; lia. Qed.

Lemma sum_lengths_take_le P es n :
  Forall (fun e => 0 <= entry_length e) es -> sum_lengths P (take n es) <= sum_lengths P es.
Proof.
  intros He. rewrite <- (take_drop n es) at 2. rewrite sum_lengths_app.
  pose proof (sum_lengths_nonneg P (drop n es) (Forall_drop _ _ _ He)). lia.
Qed.

Lemma sum_lengths_mono (P Q : MemoryType -> bool) es :
  (forall t, P t = true -> Q t = true) -> Forall (fun e => 0 <= entry_length e) es ->
  sum_lengths P es <= sum_lengths Q es.
Proof.
  intros HPQ. induction 1 as [|e es He _ IH]; simpl; [lia|].
  destruct (P (entry_type e)) eqn:HP; [rewrite (HPQ _ HP); lia|case_match; lia].
Qed.

(** The buffer may be longer than the map. *)
Lemma map_entry_app es rest i :
  0 <= i < Z.of_nat (length es) -> map_entry (es ++ rest) i = map_entry es i.
Proof.
  intros Hi. unfold map_entry. rewrite !list_lookup_total_alt, lookup_app_l by lia. done.
Qed.

Section parse.
Variable boot_info : BootInfo.
Variables es rest : list MemoryMapEntry.
Hypothesis Hmap : memory_map boot_info = Some (es ++ rest).
Hypothesis Hcount : memory_map_entries boot_info = Z.of_nat (length es).
Hypothesis Hlengths : Forall (fun e => 0 <= entry_length e) es.

(** One more entry is read: the prefix of the map counted so far grows. *)
Lemma sum_lengths_take_S P i e :
  es !! i = Some e ->
  sum_lengths P (take (S i) es) =
    sum_lengths P (take i es) + (if P (entry_type e) then entry_length e else 0).
Proof.
  intros He. rewrite (take_S_r _ _ _ He), sum_lengths_app. simpl. lia.
Qed.

Lemma count_entry_step i st :
  (i < length es)%nat ->
  sum_lengths is_ram es < 2 ^ 64 ->
  st = mkStats (sum_lengths is_ram (take i es)) (sum_lengths is_available (take i es)) 0 0 0 ->
  count_entry (map_entry (es ++ rest) (Z.of_nat i)) st =
    mkStats (sum_lengths is_ram (take (S i) es))
            (sum_lengths is_available (take (S i) es)) 0 0 0.
Proof.
  intros Hi Hsum ->.
  destruct (lookup_lt_is_Some_2 es i Hi) as [e He].
  rewrite map_entry_app by lia. unfold map_entry.
  rewrite Nat2Z.id, (list_lookup_total_correct _ _ _ He).
  rewrite !(sum_lengths_take_S _ _ _ He). unfold count_entry.
  change (bool_decide (entry_type e = Available)) with (is_available (entry_type e)).
  assert (forall t, is_available t = true -> is_ram t = true) as Hsub
    by (unfold is_available; intros t Ht; apply bool_decide_eq_true in Ht; by subst).
  assert (0 <= entry_length e) as Hlen by exact (Forall_lookup_1 _ _ _ _ Hlengths He).
  assert (0 <= sum_lengths is_available (take i es) <= sum_lengths is_ram (take i es)) as [Hlo Hle].
  { split; [by apply sum_lengths_nonneg, Forall_take|].
    apply sum_lengths_mono; [done|by apply Forall_take]. }
  pose proof (sum_lengths_take_le is_ram es (S i) Hlengths) as Htake.
  rewrite (sum_lengths_take_S _ _ _ He) in Htake.
  destruct (is_available (entry_type e)) eqn:Ha;
    [rewrite (Hsub _ Ha) in *|destruct (is_ram (entry_type e))];
    unfold add_total, add_available; simpl; rewrite ?Z.add_0_r.
  all: rewrite ?add64_small by lia; done.
Qed.

Lemma parse_mem_map_eq :
  es <> [] -> sum_lengths is_ram es < 2 ^ 64 ->
  parse_mem_map boot_info MEMORY_STATS =
    mkStats (sum_lengths is_ram es) (sum_lengths is_available es) 0 0 0.
Proof.
  intros Hne Hsum. unfold parse_mem_map, no_memory_map, map_list.
  rewrite Hmap, Hcount. simpl.
  destruct (Z.eqb_spec (Z.of_nat (length es)) 0) as [H0|H0];
    [destruct es; [done|simpl in H0; lia]|].
  pose proof (for_each_rule
    (fun i st => st = mkStats (sum_lengths is_ram (take (Z.to_nat i) es))
                        (sum_lengths is_available (take (Z.to_nat i) es)) 0 0 0)
    0 (Z.of_nat (length es)) (fun i st => count_entry (map_entry (es ++ rest) i) st) MEMORY_STATS) as Hloop.
  rewrite Hloop; [rewrite Nat2Z.id, take_ge by lia; done|lia|done|].
  intros i st Hi Hst. replace i with (Z.of_nat (Z.to_nat i)) at 1 by lia.
  rewrite (count_entry_step (Z.to_nat i) st) by (lia || done).
  by replace (Z.to_nat (i + 1)) with (S (Z.to_nat i)) by lia.
Qed.
End parse.

(** * Properties *)

(** [page_align_down] and [page_align_up] are the greatest page boundary at
    or below and the least one at or above the address; only in the last page of
    the address space does [page_align_up] wrap to 0. *)
Theorem page_align_correct (a : Z) (Ha : 0 <= a < 2 ^ 64) :
  page_align_down a mod PAGE_SIZE = 0 /\ page_align_down a <= a < page_align_down a + PAGE_SIZE /\
  page_to_addr (addr_to_page a) = page_align_down a /\
  (a <= 2 ^ 64 - PAGE_SIZE ->
     page_align_up a mod PAGE_SIZE = 0 /\ page_align_up a - PAGE_SIZE < a <= page_align_up a) /\
  (2 ^ 64 - PAGE_SIZE < a -> page_align_up a = 0).
Proof.
  rewrite page_align_down_eq by done. unfold PAGE_SIZE.
  split_and!; [rewrite Z.mul_comm; by apply Z.mod_mul|Z.div_mod_to_equations; lia|
               Z.div_mod_to_equations; lia| | |].
  - unfold page_to_addr, addr_to_page, PAGE_SHIFT.
    rewrite Z.shiftl_mul_pow2, Z.shiftr_div_pow2 by lia.
    change (2 ^ 12) with 4096. rewrite wrap_small; [lia|]. Z.div_mod_to_equations; lia.
  - intros Hle. destruct (decide (a = 2 ^ 64 - 4096)) as [->|Hne]; [by vm_compute|].
    rewrite page_align_up_eq by lia.
    split; [rewrite Z.mul_comm; by apply Z.mod_mul|Z.div_mod_to_equations; lia].
  - intros Hgt. unfold page_align_up, PAGE_SIZE.
    assert (a ⊕ 4096 = a + 4096 - 2 ^ 64) as ->.
    { unfold add64, wrap. symmetry. apply (Z.mod_unique_pos _ _ 1); lia. }
    rewrite sub64_small by lia.
    pose proof (page_align_down_eq (a + 4096 - 2 ^ 64 - 1) ltac:(lia)) as H.
    unfold page_align_down, PAGE_SIZE in H. rewrite H.
    rewrite Z.div_small by lia. done.
Qed.

Lemma page_align_correct_witness :
  page_align_down 0x1234 = 0x1000 /\ page_align_up 0x1234 = 0x2000 /\
  page_align_up (2 ^ 64 - 1) = 0.
Proof.
  pose proof (page_align_correct (2 ^ 64 - 1) ltac:(lia)) as (_ & _ & _ & _ & H).
  split_and!; [vm_compute; reflexivity|vm_compute; reflexivity|apply H; unfold PAGE_SIZE; lia].
Defined.

(** With a memory map whose RAM lengths do not overflow in sum,
    [parse_mem_map] reports as total the summed lengths of the RAM-backed
    entries and as available those of the available ones, which is no more. *)
Theorem parse_mem_map_correct (boot_info : BootInfo) (es rest : list MemoryMapEntry)
  (Hmap : memory_map boot_info = Some (es ++ rest))
  (Hcount : memory_map_entries boot_info = Z.of_nat (length es))
  (Hlengths : Forall (fun e => 0 <= entry_length e) es)
  (Hne : es <> []) (Hsum : sum_lengths is_ram es < 2 ^ 64) :
  let st := parse_mem_map boot_info MEMORY_STATS in
  ms_total_memory st = sum_lengths is_ram es /\
  ms_available_memory st = sum_lengths is_available es /\
  ms_available_memory st <= ms_total_memory st /\
  ms_used_memory st = 0 /\ ms_free_pages st = 0 /\ ms_used_pages st = 0.
Proof.
  cbn zeta. rewrite (parse_mem_map_eq boot_info es rest) by done. simpl. split_and!; try done.
  apply sum_lengths_mono; [|done]. intros t Ht%bool_decide_eq_true. by subst.
Qed.

Lemma parse_mem_map_correct_witness :
  let bi := mkBootInfo 0 (Some [mkEntry 0 0x9fc00 Available; mkEntry 0xf0000 0x10000 Reserved;
                                mkEntry 0x100000 0x2000 AcpiNvs])
              3 (mkFb 0 0 0 0 0 0 0 0 0 0 0) X86_64 0 0 0 0 None 0 in
  ms_total_memory (parse_mem_map bi MEMORY_STATS) = 0xa1c00 /\
  ms_available_memory (parse_mem_map bi MEMORY_STATS) = 0x9fc00.
Proof.
  intros bi.
  destruct (parse_mem_map_correct bi (map_list bi) [] eq_refl eq_refl) as (Ht & Ha & _).
  - repeat constructor; simpl; lia.
  - discriminate.
  - vm_compute. reflexivity.
  - rewrite Ht, Ha. split; vm_compute; reflexivity.
Defined.
