(* ===== verification/Frames.v ===== *)
(** The interface between the physical allocator ([kernel/src/mem/phys.rs]) and
    its clients ([paging.rs], [heap.rs]): what [alloc_frame] and [free_frame]
    promise.  The clients are proved against it; [Phys] discharges it. *)
From S2P Require Import Prelude Mem.
From stdpp Require Import base numbers gmap sets tactics.
From Stdlib Require Import ZArith Lia.
Open Scope Z_scope.

(** The operations, on a state [A] of the allocator. *)
Class FrameSource (A : Type) : Type := {
  alloc_frame : A -> option Z * A;
  free_frame : Z -> A -> A
}.

(** The laws: an invariant, and the set of page numbers that may be handed
    out.  Frames are pages below 4 GiB. *)
Class FrameLaws (A : Type) {S : FrameSource A} : Type := {
  fs_inv : A -> Prop;
  fs_free : A -> gset Z;
  fs_alloc_some s a s' :
    fs_inv s -> alloc_frame s = (Some a, s') ->
    fs_inv s' /\ exists p, a = p * PAGE_SIZE /\ 0 <= p < 2 ^ 20 /\ p ∈ fs_free s /\
                           fs_free s' = fs_free s ∖ {[p]};
  fs_alloc_none s s' :
    fs_inv s -> alloc_frame s = (None, s') -> s' = s /\ fs_free s = ∅;
  fs_release s p :
    fs_inv s -> 0 <= p < 2 ^ 20 ->
    fs_inv (free_frame (p * PAGE_SIZE) s) /\
    fs_free (free_frame (p * PAGE_SIZE) s) = {[p]} ∪ fs_free s
}.
