(* ===== verification/Phys.v ===== *)
(** [kernel/src/mem/phys.rs]: the bitmap frame allocator.

    [FrameAllocator] is the struct, one definition per method; the global
    [FRAME_ALLOCATOR] and the free functions of the file lock it and call the
    method, so the state they pass on is the one the method returns.  The
    abstract view of an allocator is [free_set], the set of free page numbers;
    [WF] is the invariant of the struct.  The log lines the methods write do not
    touch the allocator and are not part of this model. *)
From S2P Require Import Prelude Mem Frames.
From stdpp Require Import base numbers list gmap sets tactics.
From Stdlib Require Import ZArith Lia.
Open Scope Z_scope.
Open Scope word_scope.

(** * The allocator *)

Definition MAX_PHYS_MEM : Z := 0x100000000.
Definition MAX_PAGES : Z := MAX_PHYS_MEM / PAGE_SIZE.
Definition BITMAP_SIZE : Z := MAX_PAGES / 8.

Record FrameAllocator : Type := mkFA {
  bitmap : list Z;
  first_free : Z;
  total_pages : Z;
  free_pages : Z
}.

Definition new : FrameAllocator := mkFA (replicate (Z.to_nat BITMAP_SIZE) 0) 0 0 0.

Definition set_bitmap (b : list Z) (fa : FrameAllocator) : FrameAllocator :=
  mkFA b (first_free fa) (total_pages fa) (free_pages fa).
Definition set_first_free (n : Z) (fa : FrameAllocator) : FrameAllocator :=
  mkFA (bitmap fa) n (total_pages fa) (free_pages fa).

(** [self.bitmap[byte]]: [byte] is below [BITMAP_SIZE] wherever it is read. *)
Definition byte_at (fa : FrameAllocator) (byte : Z) : Z := bitmap fa !!! Z.to_nat byte.

Definition is_allocated (fa : FrameAllocator) (page : Z) : bool :=
  if MAX_PAGES <=? page then true
  else
    let byte := page / 8 in
    let bit := page mod 8 in
    negb (Z.land (byte_at fa byte) (Z.shiftl 1 bit) =? 0).

Definition mark_free (page : Z) (fa : FrameAllocator) : FrameAllocator :=
  if MAX_PAGES <=? page then fa
  else
    let byte := page / 8 in
    let bit := page mod 8 in
    if negb (is_allocated fa page) then fa
    else
      mkFA (<[Z.to_nat byte := Z.land (byte_at fa byte) (not_w 8 (Z.shiftl 1 bit))]> (bitmap fa))
           (first_free fa)
           (Z.max (total_pages fa) (page + 1))
           (free_pages fa ⊕ 1).

Definition mark_allocated (page : Z) (fa : FrameAllocator) : FrameAllocator :=
  if MAX_PAGES <=? page then fa
  else
    let byte := page / 8 in
    let bit := page mod 8 in
    if is_allocated fa page then fa
    else
      mkFA (<[Z.to_nat byte := Z.lor (byte_at fa byte) (Z.shiftl 1 bit)]> (bitmap fa))
           (first_free fa)
           (total_pages fa)
           (free_pages fa ⊖ 1).

(** The body of the loop over the pages of an entry of the memory map. *)
Definition init_entry (entry : MemoryMapEntry) (fa : FrameAllocator) : FrameAllocator :=
  if bool_decide (entry_type entry = Available) then
    let start := page_align_up (entry_base entry) / PAGE_SIZE in
    let end_page := page_align_down (entry_base entry ⊕ entry_length entry) / PAGE_SIZE in
    for_each start end_page
      (fun page fa => if page <? MAX_PAGES then mark_free page fa else fa) fa
  else fa.

Definition init (boot_info : BootInfo) (fa : FrameAllocator) : FrameAllocator :=
  let fa := set_bitmap ((fun _ => 0xFF) <$> bitmap fa) fa in
  if no_memory_map boot_info then
    mkFA (bitmap fa) (first_free fa) MAX_PAGES MAX_PAGES
  else
    for_each 0 (memory_map_entries boot_info)
      (fun i fa => init_entry (map_entry (map_list boot_info) i) fa) fa.

(** The body of the two search loops of [alloc]. *)
Definition try_page (page : Z) (fa : FrameAllocator) : FrameAllocator * option Z :=
  if negb (is_allocated fa page) then
    let fa := mark_allocated page fa in
    let fa := set_first_free (page + 1) fa in
    (fa, Some (page * PAGE_SIZE))
  else (fa, None).

Definition alloc (fa : FrameAllocator) : option Z * FrameAllocator :=
  match for_range (first_free fa) (total_pages fa) try_page fa with
  | (fa, Some addr) => (Some addr, fa)
  | (fa, None) =>
      match for_range 0 (first_free fa) try_page fa with
      | (fa, Some addr) => (Some addr, fa)
      | (fa, None) => (None, fa)
      end
  end.

(** The inner loop of [alloc_contiguous]: [found] and the [break]. *)
Definition block_free (fa : FrameAllocator) (start_page num_pages : Z) : bool :=
  fst (for_range start_page (start_page + num_pages)
         (fun page found => if is_allocated fa page then (false, Some tt) else (found, None))
         true).

Definition try_block (num_pages start_page : Z) (fa : FrameAllocator) : FrameAllocator * option Z :=
  if block_free fa start_page num_pages then
    let fa := for_each start_page (start_page + num_pages) mark_allocated fa in
    let fa := set_first_free (start_page + num_pages) fa in
    (fa, Some (start_page * PAGE_SIZE))
  else (fa, None).

Definition alloc_contiguous (num_pages : Z) (fa : FrameAllocator) : option Z * FrameAllocator :=
  if (num_pages =? 0) || (free_pages fa <? num_pages) then (None, fa)
  else
    (* for start_page in first_free..=total_pages - num_pages *)
    match for_range (first_free fa) ((total_pages fa ⊖ num_pages) + 1) (try_block num_pages) fa with
    | (fa, Some addr) => (Some addr, fa)
    | (fa, None) => (None, fa)
    end.

Definition free (addr : Z) (fa : FrameAllocator) : FrameAllocator :=
  let page := addr / PAGE_SIZE in
  if (page <? MAX_PAGES) && is_allocated fa page then
    let fa := mark_free page fa in
    if page <? first_free fa then set_first_free page fa else fa
  else fa.

Definition free_contiguous (addr num_pages : Z) (fa : FrameAllocator) : FrameAllocator :=
  let start_page := addr / PAGE_SIZE in
  let fa :=
    for_each 0 num_pages
      (fun i fa =>
         let page := start_page ⊕ i in
         if page <? MAX_PAGES then mark_free page fa else fa) fa in
  if start_page <? first_free fa then set_first_free start_page fa else fa.

Definition free_count (fa : FrameAllocator) : Z := free_pages fa.
Definition total_count (fa : FrameAllocator) : Z := total_pages fa.

(** [stats()]: (total, used, free). *)
Definition stats (fa : FrameAllocator) : Z * Z * Z :=
  let total := total_count fa in
  let free := free_count fa in
  let used := total ⊖ free in
  (total, used, free).

(** * The abstract view *)

Definition page_free (fa : FrameAllocator) (p : Z) : Prop :=
  0 <= p < MAX_PAGES /\ is_allocated fa p = false.

#[export] Instance page_free_dec fa p : Decision (page_free fa p).
Proof. unfold page_free. apply _. Defined.

(** All the pages the bitmap covers, and the free ones. *)
Definition all_pages : gset Z := list_to_set (seqZ 0 MAX_PAGES).
Definition free_set_def (fa : FrameAllocator) : gset Z := filter (page_free fa) all_pages.

(** Sealed: the proofs use [elem_of_free_set], and unification must not start
    to compute a set of [MAX_PAGES] candidates. *)
Definition free_set_aux : seal (@free_set_def).
Proof. by eexists. Qed.
Definition free_set : FrameAllocator -> gset Z := unseal free_set_aux.
Definition free_set_unseal : @free_set = @free_set_def := seal_eq free_set_aux.

Record WF (fa : FrameAllocator) : Prop := mkWF {
  wf_length : length (bitmap fa) = Z.to_nat BITMAP_SIZE;
  wf_bytes : Forall (fun b => 0 <= b < 256) (bitmap fa);
  wf_count : free_pages fa = Z.of_nat (size (free_set fa));
  wf_total : 0 <= total_pages fa <= MAX_PAGES;
  wf_below : forall p, page_free fa p -> p < total_pages fa;
  wf_first : 0 <= first_free fa <= total_pages fa
}.

(** * Bits and pages *)

Lemma MAX_PAGES_eq : MAX_PAGES = 1048576.
Proof. reflexivity. Qed.
Lemma BITMAP_SIZE_eq : BITMAP_SIZE = 131072.
Proof. reflexivity. Qed.

(** Arithmetic on page numbers, with the two sizes evaluated. *)
Ltac page_lia :=
  pose proof MAX_PAGES_eq; pose proof BITMAP_SIZE_eq; unfold PAGE_SIZE in *;
  Z.div_mod_to_equations; lia.

Lemma elem_of_free_set fa p : p ∈ free_set fa <-> page_free fa p.
Proof.
  rewrite free_set_unseal. unfold free_set_def, all_pages. rewrite elem_of_filter, elem_of_list_to_set, elem_of_seqZ.
  unfold page_free. naive_solver.
Qed.

(** At most [MAX_PAGES] pages are free. *)
Lemma free_set_size_le fa : Z.of_nat (size (free_set fa)) <= MAX_PAGES.
Proof.
  assert (size (free_set fa) <= size all_pages)%nat as H.
  { apply subseteq_size. intros p. rewrite free_set_unseal. unfold free_set_def. rewrite elem_of_filter. by intros []. }
  assert (size all_pages = Z.to_nat MAX_PAGES) as Hall.
  { unfold all_pages. rewrite size_list_to_set by apply NoDup_seqZ. apply length_seqZ. }
  rewrite Hall in H. apply Nat2Z.inj_le in H. by rewrite Z2Nat.id in H by page_lia.
Qed.

Lemma is_allocated_bit fa p :
  p < MAX_PAGES -> is_allocated fa p = Z.testbit (byte_at fa (p / 8)) (p mod 8).
Proof.
  intros Hp. unfold is_allocated. destruct (Z.leb_spec MAX_PAGES p); [lia|].
  rewrite land_bit_eqb by (apply Z.mod_pos_bound; lia). apply negb_involutive.
Qed.

Lemma is_allocated_out fa p : MAX_PAGES <= p -> is_allocated fa p = true.
Proof. intros. unfold is_allocated. by destruct (Z.leb_spec MAX_PAGES p); [|lia]. Qed.

(** Writing the byte of page [p] changes the bytes of the other pages only
    when they share it. *)
Lemma byte_at_insert fa p q v ff tp fp :
  length (bitmap fa) = Z.to_nat BITMAP_SIZE -> 0 <= p < MAX_PAGES -> 0 <= q ->
  byte_at (mkFA (<[Z.to_nat (p / 8) := v]> (bitmap fa)) ff tp fp) (q / 8) =
    if decide (q / 8 = p / 8) then v else byte_at fa (q / 8).
Proof.
  intros Hlen Hp Hq. unfold byte_at. simpl. destruct (decide (q / 8 = p / 8)) as [->|Hne].
  - apply list_lookup_total_insert_eq. rewrite Hlen. page_lia.
  - apply list_lookup_total_insert_ne. page_lia.
Qed.

Lemma byte_at_range fa p :
  Forall (fun b => 0 <= b < 256) (bitmap fa) -> 0 <= byte_at fa p < 2 ^ 8.
Proof.
  intros Hb. unfold byte_at.
  destruct (bitmap fa !! Z.to_nat p) as [b|] eqn:Hl.
  - rewrite (list_lookup_total_correct _ _ _ Hl). exact (Forall_lookup_1 _ _ _ _ Hb Hl).
  - rewrite list_lookup_total_alt, Hl. simpl. lia.
Qed.

(** The bit test of another page after clearing or setting a bit. *)
Lemma testbit_clear b i j :
  0 <= i < 8 -> 0 <= j < 8 ->
  Z.testbit (Z.land b (not_w 8 (Z.shiftl 1 i))) j = if decide (j = i) then false else Z.testbit b j.
Proof.
  intros. unfold not_w. autorewrite with testbit.
  destruct (decide (j = i)) as [->|]; zbits_split; try lia; simpl;
    by rewrite ?andb_false_r, ?andb_true_r.
Qed.

Lemma testbit_set b i j :
  0 <= i < 8 -> 0 <= j < 8 ->
  Z.testbit (Z.lor b (Z.shiftl 1 i)) j = if decide (j = i) then true else Z.testbit b j.
Proof.
  intros. autorewrite with testbit.
  destruct (decide (j = i)) as [->|]; zbits_split; try lia; simpl;
    by rewrite ?orb_true_r, ?orb_false_r.
Qed.

Lemma is_allocated_insert fa p q v c ff tp fp :
  length (bitmap fa) = Z.to_nat BITMAP_SIZE -> 0 <= p < MAX_PAGES -> 0 <= q ->
  (forall j, 0 <= j < 8 ->
     Z.testbit v j = if decide (j = p mod 8) then c else Z.testbit (byte_at fa (p / 8)) j) ->
  is_allocated (mkFA (<[Z.to_nat (p / 8) := v]> (bitmap fa)) ff tp fp) q =
    if decide (q = p) then c else is_allocated fa q.
Proof.
  intros Hlen Hp Hq Hv. destruct (decide (q < MAX_PAGES)) as [Hlt|Hge].
  - rewrite !is_allocated_bit, byte_at_insert by done.
    destruct (decide (q / 8 = p / 8)) as [Hd|Hd].
    + rewrite Hv by (apply Z.mod_pos_bound; lia).
      destruct (decide (q = p)) as [->|Hne]; [by rewrite decide_True by done|].
      rewrite decide_False; [by rewrite Hd|]. intros Hm. apply Hne. page_lia.
    + rewrite decide_False; [done|]. by intros ->.
  - rewrite !is_allocated_out by lia. rewrite decide_False; [done|lia].
Qed.

Lemma mark_free_id fa p : is_allocated fa p = false \/ MAX_PAGES <= p -> mark_free p fa = fa.
Proof.
  intros H. unfold mark_free. destruct (Z.leb_spec MAX_PAGES p); [done|].
  destruct H as [->|]; [done|lia].
Qed.

Lemma mark_allocated_id fa p : is_allocated fa p = true -> mark_allocated p fa = fa.
Proof. intros H. unfold mark_allocated. rewrite H. by destruct (MAX_PAGES <=? p). Qed.

Section marks.
Variables (fa : FrameAllocator) (p : Z).
Hypothesis Hlen : length (bitmap fa) = Z.to_nat BITMAP_SIZE.
Hypothesis Hp : 0 <= p.

Lemma is_allocated_mark_free q :
  0 <= q -> p < MAX_PAGES ->
  is_allocated (mark_free p fa) q = if decide (q = p) then false else is_allocated fa q.
Proof.
  intros Hq Hlt. unfold mark_free. destruct (Z.leb_spec MAX_PAGES p); [lia|].
  destruct (is_allocated fa p) eqn:Ha; simpl.
  - apply is_allocated_insert; try done.
    intros j Hj. apply testbit_clear; [apply Z.mod_pos_bound; lia|done].
  - by destruct (decide (q = p)) as [->|].
Qed.

Lemma is_allocated_mark_allocated q :
  0 <= q -> is_allocated (mark_allocated p fa) q = if decide (q = p) then true else is_allocated fa q.
Proof.
  intros Hq. unfold mark_allocated. destruct (Z.leb_spec MAX_PAGES p).
  { destruct (decide (q = p)) as [->|]; [by apply is_allocated_out|done]. }
  destruct (is_allocated fa p) eqn:Ha; simpl.
  - by destruct (decide (q = p)) as [->|].
  - apply is_allocated_insert; try done.
    intros j Hj. apply testbit_set; [apply Z.mod_pos_bound; lia|done].
Qed.

Lemma free_set_mark_free :
  p < MAX_PAGES -> free_set (mark_free p fa) = {[p]} ∪ free_set fa.
Proof.
  intros Hlt. apply set_eq. intros q.
  rewrite elem_of_union, elem_of_singleton, !elem_of_free_set. unfold page_free.
  destruct (decide (0 <= q)); [rewrite is_allocated_mark_free by done|naive_solver lia].
  destruct (decide (q = p)) as [->|]; naive_solver lia.
Qed.

Lemma free_set_mark_allocated : free_set (mark_allocated p fa) = free_set fa ∖ {[p]}.
Proof.
  apply set_eq. intros q.
  rewrite elem_of_difference, elem_of_singleton, !elem_of_free_set. unfold page_free.
  destruct (decide (0 <= q)); [rewrite is_allocated_mark_allocated by done|naive_solver lia].
  destruct (decide (q = p)) as [->|]; naive_solver.
Qed.
End marks.

(** * The marking operations preserve the invariant *)

(** Project the fields of an explicit record, and nothing else. *)
Ltac fa_simpl := cbn [bitmap first_free total_pages free_pages negb] in *.

Lemma free_pages_range fa : WF fa -> 0 <= free_pages fa <= MAX_PAGES.
Proof. intros H. rewrite (wf_count _ H). pose proof (free_set_size_le fa). lia. Qed.

Lemma WF_bytes_insert fa i v :
  WF fa -> 0 <= v < 256 -> Forall (fun b => 0 <= b < 256) (<[i := v]> (bitmap fa)).
Proof. intros H Hv. by apply Forall_insert; [apply wf_bytes|]. Qed.

Lemma mark_free_WF fa p : 0 <= p -> WF fa -> WF (mark_free p fa).
Proof.
  intros Hp H.
  destruct (decide (is_allocated fa p = false \/ MAX_PAGES <= p)) as [Hid|Hid].
  { by rewrite mark_free_id. }
  assert (p < MAX_PAGES /\ is_allocated fa p = true) as [Hlt Ha]
    by (destruct (is_allocated fa p); split; lia || tauto).
  pose proof (free_pages_range _ H) as Hfp.
  pose proof (free_set_mark_free fa p (wf_length _ H) Hp Hlt) as Hset.
  pose proof (fun q => is_allocated_mark_free fa p (wf_length _ H) Hp q) as Hbit.
  assert (p ∉ free_set fa) as Hnot by (rewrite elem_of_free_set; intros []; congruence).
  unfold mark_free in *. destruct (Z.leb_spec MAX_PAGES p); [lia|]. rewrite Ha in *.
  constructor; fa_simpl.
  - rewrite length_insert. apply (wf_length _ H).
  - apply WF_bytes_insert; [done|].
    apply (land_range _ _ 8); [lia|]. by apply byte_at_range, wf_bytes.
  - rewrite Hset, size_union, size_singleton by (by apply disjoint_singleton_l).
    rewrite MAX_PAGES_eq in Hfp. rewrite add64_small by lia. rewrite (wf_count _ H). lia.
  - pose proof (wf_total _ H). lia.
  - intros q [Hq Hf]. rewrite Hbit in Hf by lia.
    destruct (decide (q = p)) as [->|]; [lia|].
    pose proof (wf_below _ H q (conj Hq Hf)). lia.
  - pose proof (wf_first _ H). lia.
Qed.

Lemma mark_allocated_WF fa p : 0 <= p -> WF fa -> WF (mark_allocated p fa).
Proof.
  intros Hp H.
  destruct (decide (is_allocated fa p = true)) as [Hid|Hid].
  { by rewrite mark_allocated_id. }
  apply not_true_is_false in Hid.
  assert (p < MAX_PAGES) as Hlt.
  { destruct (decide (p < MAX_PAGES)); [done|]. rewrite is_allocated_out in Hid by lia. done. }
  assert (p ∈ free_set fa) as Hin by (by apply elem_of_free_set).
  pose proof (free_set_mark_allocated fa p (wf_length _ H) Hp) as Hset.
  pose proof (fun q => is_allocated_mark_allocated fa p (wf_length _ H) Hp q) as Hbit.
  assert (size (free_set fa ∖ {[p]}) + 1 = size (free_set fa))%nat as Hsize.
  { assert ({[p]} ⊆ free_set fa) as Hsub.
    { apply elem_of_subseteq. intros q Hq. rewrite elem_of_singleton in Hq. by subst q. }
    rewrite size_difference by done. apply subseteq_size in Hsub.
    rewrite size_singleton in *. lia. }
  pose proof (free_pages_range _ H) as Hfp.
  unfold mark_allocated in *. destruct (Z.leb_spec MAX_PAGES p); [lia|]. rewrite Hid in *.
  constructor; fa_simpl.
  - rewrite length_insert. apply (wf_length _ H).
  - apply WF_bytes_insert; [done|].
    apply (lor_range _ _ 8); [lia|by apply byte_at_range, wf_bytes|].
    rewrite Z.shiftl_1_l. pose proof (Z.mod_pos_bound p 8).
    pose proof (Z.pow_lt_mono_r 2 (p mod 8) 8). pose proof (Z.pow_pos_nonneg 2 (p mod 8)). lia.
  - rewrite Hset. rewrite MAX_PAGES_eq in Hfp. rewrite (wf_count _ H) in *. rewrite sub64_small by lia. lia.
  - apply (wf_total _ H).
  - intros q [Hq Hf]. rewrite Hbit in Hf by lia.
    destruct (decide (q = p)) as [->|]; [done|]. by apply (wf_below _ H).
  - apply (wf_first _ H).
Qed.

Lemma free_set_set_first_free fa n : free_set (set_first_free n fa) = free_set fa.
Proof. apply set_eq. intros p. by rewrite !elem_of_free_set. Qed.

Lemma set_first_free_WF fa n : 0 <= n <= total_pages fa -> WF fa -> WF (set_first_free n fa).
Proof. intros Hn []. constructor; try done. by rewrite free_set_set_first_free. Qed.

Lemma total_pages_mark_allocated fa p : total_pages (mark_allocated p fa) = total_pages fa.
Proof. unfold mark_allocated. by repeat case_match. Qed.

Lemma total_pages_mark_free fa p : total_pages fa <= total_pages (mark_free p fa).
Proof. unfold mark_free. repeat case_match; simpl; lia. Qed.

Lemma first_free_mark_free fa p : first_free (mark_free p fa) = first_free fa.
Proof. unfold mark_free. by repeat case_match. Qed.

Create HintDb phys.
#[export] Hint Resolve mark_free_WF mark_allocated_WF set_first_free_WF wf_length : phys.

(** * Allocation of a page *)

(** The state after page [p] is handed out. *)
Definition take_page (p : Z) (fa : FrameAllocator) : FrameAllocator :=
  set_first_free (p + 1) (mark_allocated p fa).

Lemma try_page_spec p fa :
  try_page p fa =
    if is_allocated fa p then (fa, None) else (take_page p fa, Some (p * PAGE_SIZE)).
Proof. unfold try_page. by destruct (is_allocated fa p). Qed.

(** A search loop either finds the first free page of its range, or the range
    holds none and the allocator is unchanged. *)
Lemma search_spec fa lo hi :
  lo <= hi ->
  match for_range lo hi try_page fa with
  | (fa', Some a) =>
      exists p, lo <= p < hi /\ is_allocated fa p = false /\
        (forall q, lo <= q < p -> is_allocated fa q = true) /\
        a = p * PAGE_SIZE /\ fa' = take_page p fa
  | (fa', None) => fa' = fa /\ forall q, lo <= q < hi -> is_allocated fa q = true
  end.
Proof.
  intros Hle.
  pose proof (for_range_rule
    (fun i s => s = fa /\ forall q, lo <= q < i -> is_allocated fa q = true)
    (fun i s r => is_allocated fa i = false /\ (forall q, lo <= q < i -> is_allocated fa q = true) /\
                  r = i * PAGE_SIZE /\ s = take_page i fa)
    lo hi try_page fa Hle) as H.
  destruct (for_range lo hi try_page fa) as [fa' [a|]]; apply H;
    try (split; [done|lia]); intros i s Hi [-> Hq]; rewrite try_page_spec;
    destruct (is_allocated fa i) eqn:Ha; try done; split; try done;
    intros q Hq'; (destruct (decide (q = i)) as [->|]; [done|apply Hq; lia]).
Qed.

Lemma take_page_WF fa p : WF fa -> p ∈ free_set fa -> WF (take_page p fa).
Proof.
  intros H Hp. assert (page_free fa p) as Hf by (by apply elem_of_free_set).
  pose proof (wf_below _ H p Hf). destruct Hf as [Hf _].
  apply set_first_free_WF; [|apply mark_allocated_WF; [lia|done]].
  rewrite total_pages_mark_allocated. lia.
Qed.

Lemma free_set_take_page fa p :
  WF fa -> 0 <= p -> free_set (take_page p fa) = free_set fa ∖ {[p]}.
Proof.
  intros H Hp. unfold take_page. rewrite free_set_set_first_free.
  apply free_set_mark_allocated; [by apply wf_length|done].
Qed.

(** [p] is the page the next-fit search reaches first. *)
Definition next_fit (fa : FrameAllocator) (p : Z) : Prop :=
  (first_free fa <= p /\ forall q, first_free fa <= q < p -> is_allocated fa q = true) \/
  (p < first_free fa /\ (forall q, 0 <= q < p -> is_allocated fa q = true) /\
   forall q, first_free fa <= q < total_pages fa -> is_allocated fa q = true).

Lemma alloc_spec fa :
  WF fa ->
  match alloc fa with
  | (Some a, fa') =>
      exists p, p ∈ free_set fa /\ next_fit fa p /\ a = p * PAGE_SIZE /\ fa' = take_page p fa
  | (None, fa') => fa' = fa /\ free_set fa = ∅
  end.
Proof.
  intros H. unfold alloc.
  pose proof (wf_first _ H) as Hff. pose proof (wf_total _ H) as Htot.
  pose proof (search_spec fa (first_free fa) (total_pages fa) ltac:(lia)) as H1.
  destruct (for_range (first_free fa) (total_pages fa) try_page fa) as [fa1 [a|]].
  { destruct H1 as (p & Hp & Hf & Hskip & -> & ->). exists p.
    split; [apply elem_of_free_set; split; [lia|done]|]. split; [left; split; [lia|done]|done]. }
  destruct H1 as [-> Hhi].
  pose proof (search_spec fa 0 (first_free fa) ltac:(lia)) as H2.
  destruct (for_range 0 (first_free fa) try_page fa) as [fa2 [a|]].
  { destruct H2 as (p & Hp & Hf & Hskip & -> & ->). exists p.
    split; [apply elem_of_free_set; split; [lia|done]|]. split; [right; split_and!; [lia|done..]|done]. }
  destruct H2 as [-> Hlo]. split; [done|]. apply set_eq. intros q.
  rewrite elem_of_free_set. split; [|by intros ?%not_elem_of_empty].
  intros Hq. pose proof (wf_below _ H q Hq). destruct Hq as [Hq Hf].
  destruct (decide (q < first_free fa)); [rewrite Hlo in Hf by lia|rewrite Hhi in Hf by lia]; done.
Qed.

(** * Allocation of a block *)

Definition block_ok (fa : FrameAllocator) (s n : Z) : Prop :=
  forall p, s <= p < s + n -> is_allocated fa p = false.

Lemma block_scan fa s n :
  0 <= n ->
  match for_range s (s + n)
          (fun page found => if is_allocated fa page then (false, Some tt) else (found, None)) true with
  | (found, Some _) => found = false /\ exists i, s <= i < s + n /\ is_allocated fa i = true
  | (found, None) => found = true /\ block_ok fa s n
  end.
Proof.
  intros Hn.
  pose proof (for_range_rule
    (fun i found => found = true /\ forall p, s <= p < i -> is_allocated fa p = false)
    (fun i found (_ : unit) => found = false /\ is_allocated fa i = true) s (s + n)
    (fun page found => if is_allocated fa page then (false, Some tt) else (found, None)) true
    ltac:(lia) ltac:(split; [done|lia])) as H.
  unfold block_ok. destruct (for_range s (s + n) _ true) as [found [r|]];
    [destruct H as (i & Hi & -> & Ha); [|eauto]|apply H];
    intros i b Hi [-> Hq]; destruct (is_allocated fa i) eqn:Ha; try done; split; try done;
    intros p Hp; (destruct (decide (p = i)) as [->|]; [done|apply Hq; lia]).
Qed.

Lemma block_free_spec fa s n : 0 <= n -> block_free fa s n = true <-> block_ok fa s n.
Proof.
  intros Hn. unfold block_free. pose proof (block_scan fa s n Hn) as H.
  destruct (for_range _ _ _ _) as [found [r|]]; simpl.
  - destruct H as (-> & i & Hi & Ha). split; [done|]. intros Hall.
    rewrite (Hall i Hi) in Ha. done.
  - by destruct H as [-> ?].
Qed.

(** Marking a block page by page. *)
Lemma mark_block_spec fa s n :
  WF fa -> 0 <= s -> 0 <= n ->
  let fa' := for_each s (s + n) mark_allocated fa in
  WF fa' /\ total_pages fa' = total_pages fa /\ first_free fa' = first_free fa /\
  forall q, 0 <= q -> is_allocated fa' q = if decide (s <= q < s + n) then true else is_allocated fa q.
Proof.
  intros H Hs Hn. simpl.
  pose proof (for_each_rule (fun i fa' => WF fa' /\ total_pages fa' = total_pages fa /\
    first_free fa' = first_free fa /\
    forall q, 0 <= q -> is_allocated fa' q = if decide (s <= q < i) then true else is_allocated fa q)
    s (s + n) mark_allocated fa ltac:(lia)) as Hloop.
  apply Hloop; clear Hloop.
  - split_and!; [done..|]. intros q Hq. by rewrite decide_False by lia.
  - intros i fa' Hi (HWF & Htot & Hff & Hbit). split_and!.
    + apply mark_allocated_WF; [lia|done].
    + by rewrite total_pages_mark_allocated.
    + rewrite <- Hff. unfold mark_allocated. by repeat case_match.
    + intros q Hq. rewrite is_allocated_mark_allocated by (by apply wf_length || lia).
      destruct (decide (q = i)) as [->|]; [by rewrite decide_True by lia|].
      rewrite Hbit by done. destruct (decide (s <= q < i)).
      * by rewrite decide_True by lia.
      * by rewrite decide_False by lia.
Qed.

(** The pages of a block, and the state after it is handed out. *)
Definition page_block (s n : Z) : gset Z := list_to_set (seqZ s n).

Definition take_block (s n : Z) (fa : FrameAllocator) : FrameAllocator :=
  set_first_free (s + n) (for_each s (s + n) mark_allocated fa).

Lemma elem_of_page_block s n p : p ∈ page_block s n <-> s <= p < s + n.
Proof. unfold page_block. by rewrite elem_of_list_to_set, elem_of_seqZ. Qed.

Lemma take_block_spec fa s n :
  WF fa -> 0 <= s -> 0 < n -> s + n <= total_pages fa ->
  WF (take_block s n fa) /\ free_set (take_block s n fa) = free_set fa ∖ page_block s n.
Proof.
  intros H Hs Hn Htot. unfold take_block.
  destruct (mark_block_spec fa s n H Hs ltac:(lia)) as (HWF & Ht & _ & Hbit). split.
  - apply set_first_free_WF; [|done]. rewrite Ht. lia.
  - rewrite free_set_set_first_free. apply set_eq. intros q.
    rewrite elem_of_difference, elem_of_page_block, !elem_of_free_set. unfold page_free.
    destruct (decide (0 <= q)); [rewrite Hbit by done|naive_solver lia].
    destruct (decide (s <= q < s + n)); naive_solver lia.
Qed.

(** All free pages are below [total_pages], so the subtraction of
    [alloc_contiguous] does not wrap. *)
Lemma free_le_total fa : WF fa -> free_pages fa <= total_pages fa.
Proof.
  intros H. rewrite (wf_count _ H). pose proof (wf_total _ H).
  assert (size (free_set fa) <= size (page_block 0 (total_pages fa)))%nat as Hsz.
  { apply subseteq_size, elem_of_subseteq. intros p Hp%elem_of_free_set.
    apply elem_of_page_block. pose proof (wf_below _ H p Hp). destruct Hp. lia. }
  unfold page_block in Hsz. rewrite size_list_to_set in Hsz by apply NoDup_seqZ.
  rewrite length_seqZ in Hsz. lia.
Qed.

(** The search loop of [alloc_contiguous]: the first block of its range. *)
Lemma block_search_spec fa n lo hi :
  0 <= n -> lo <= hi ->
  match for_range lo hi (try_block n) fa with
  | (fa', Some a) =>
      exists s, lo <= s < hi /\ block_ok fa s n /\
        (forall s', lo <= s' < s -> ~ block_ok fa s' n) /\
        a = s * PAGE_SIZE /\ fa' = take_block s n fa
  | (fa', None) => fa' = fa /\ forall s', lo <= s' < hi -> ~ block_ok fa s' n
  end.
Proof.
  intros Hn Hle.
  pose proof (for_range_rule
    (fun i s => s = fa /\ forall s', lo <= s' < i -> ~ block_ok fa s' n)
    (fun i s r => block_ok fa i n /\ (forall s', lo <= s' < i -> ~ block_ok fa s' n) /\
                  r = i * PAGE_SIZE /\ s = take_block i n fa)
    lo hi (try_block n) fa Hle ltac:(split; [done|lia])) as HL.
  destruct (for_range _ _ (try_block n) fa) as [fa' [a|]]; apply HL;
    intros i s Hi [-> Hq]; unfold try_block;
    (destruct (block_free fa i n) eqn:Hb; [by apply block_free_spec in Hb|]); split; try done;
    intros s' Hs' Hok; (destruct (decide (s' = i)) as [->|]; [|apply (Hq s'); lia || done]);
    (apply block_free_spec in Hok; [congruence|lia]).
Qed.

Lemma alloc_contiguous_spec fa n :
  WF fa -> 0 <= n ->
  match alloc_contiguous n fa with
  | (Some a, fa') =>
      exists s, 0 < n /\ first_free fa <= s /\ s + n <= total_pages fa /\ block_ok fa s n /\
        (forall s', first_free fa <= s' < s -> ~ block_ok fa s' n) /\
        a = s * PAGE_SIZE /\ fa' = take_block s n fa
  | (None, fa') =>
      fa' = fa /\
      (n = 0 \/ free_pages fa < n \/
       forall s, first_free fa <= s -> s + n <= total_pages fa -> ~ block_ok fa s n)
  end.
Proof.
  intros H Hn. unfold alloc_contiguous.
  destruct (Z.eqb_spec n 0) as [->|Hn0]; [split; [done|by left]|].
  destruct (Z.ltb_spec (free_pages fa) n); simpl; [split; [done|right; by left]|].
  pose proof (wf_first _ H) as Hff. pose proof (wf_total _ H) as Htot. rewrite MAX_PAGES_eq in Htot.
  pose proof (free_le_total _ H). rewrite sub64_small by lia.
  destruct (decide (first_free fa <= total_pages fa - n + 1)) as [Hrange|Hrange].
  2: { rewrite for_range_empty by lia. split; [done|]. right. right. intros. lia. }
  pose proof (block_search_spec fa n _ _ Hn Hrange) as HL.
  destruct (for_range _ _ (try_block n) fa) as [fa' [a|]].
  - destruct HL as (s & Hs & Hok & Hmin & -> & ->). exists s. split_and!; (done || lia).
  - destruct HL as [-> Hnone]. split; [done|]. right. right. intros s Hs1 Hs2. apply Hnone. lia.
Qed.

(** * Release *)

Lemma free_spec fa addr :
  WF fa -> 0 <= addr ->
  WF (free addr fa) /\
  free_set (free addr fa) =
    (if decide (addr / PAGE_SIZE < MAX_PAGES) then {[addr / PAGE_SIZE]} ∪ free_set fa else free_set fa) /\
  first_free (free addr fa) =
    (if is_allocated fa (addr / PAGE_SIZE) && (addr / PAGE_SIZE <? MAX_PAGES)
     then Z.min (first_free fa) (addr / PAGE_SIZE) else first_free fa).
Proof.
  intros H Ha. set (p := addr / PAGE_SIZE).
  assert (0 <= p) as Hp by (apply Z.div_pos; [done|unfold PAGE_SIZE; lia]).
  unfold free. fold p. destruct (Z.ltb_spec p MAX_PAGES) as [Hlt|Hge]; simpl.
  2: { by rewrite andb_false_r, decide_False by lia. }
  rewrite andb_true_r, (decide_True _ _ Hlt).
  destruct (is_allocated fa p) eqn:Hal.
  - pose proof (mark_free_WF fa p Hp H) as HWF. pose proof (wf_first _ HWF) as Hff.
    rewrite first_free_mark_free in *.
    destruct (Z.ltb_spec p (first_free fa)); split_and!.
    + apply set_first_free_WF; [lia|done].
    + rewrite free_set_set_first_free. by apply free_set_mark_free; [apply wf_length|..].
    + simpl. lia.
    + done.
    + by apply free_set_mark_free; [apply wf_length|..].
    + rewrite first_free_mark_free. lia.
  - split_and!; [done| |done]. symmetry. apply set_eq. intros q.
    rewrite elem_of_union, elem_of_singleton, elem_of_free_set.
    split; [intros [->|]; [split; [lia|done]|done]|by right].
Qed.

(** The loop of [free_contiguous]. *)
Lemma free_block_spec fa s n :
  WF fa -> 0 <= s -> 0 <= n -> s + n < 2 ^ 64 ->
  let fa' := for_each 0 n (fun i fa => let page := s ⊕ i in
               if page <? MAX_PAGES then mark_free page fa else fa) fa in
  WF fa' /\ total_pages fa <= total_pages fa' /\ first_free fa' = first_free fa /\
  forall q, 0 <= q < MAX_PAGES ->
    is_allocated fa' q = if decide (s <= q < s + n) then false else is_allocated fa q.
Proof.
  intros H Hs Hn Hov. simpl.
  pose proof (for_each_rule (fun i fa' => WF fa' /\ total_pages fa <= total_pages fa' /\
    first_free fa' = first_free fa /\
    forall q, 0 <= q < MAX_PAGES ->
      is_allocated fa' q = if decide (s <= q < s + i) then false else is_allocated fa q) 0 n
    (fun i fa => if s ⊕ i <? MAX_PAGES then mark_free (s ⊕ i) fa else fa) fa Hn) as HL.
  apply HL; clear HL.
  { split_and!; [done|done|done|]. intros q _. by rewrite decide_False by lia. }
  intros i fa' Hi (HWF & Htot & Hff & Hbit).
  rewrite (add64_small s i) by lia.
  destruct (Z.ltb_spec (s + i) MAX_PAGES) as [Hlt|Hge]; split_and!; try done.
  - apply mark_free_WF; [lia|done].
  - pose proof (total_pages_mark_free fa' (s + i)). lia.
  - by rewrite first_free_mark_free.
  - intros q Hq. rewrite is_allocated_mark_free by (by apply wf_length || lia).
    destruct (decide (q = s + i)) as [->|]; [by rewrite decide_True by lia|].
    rewrite Hbit by done. destruct (decide (s <= q < s + i));
      [by rewrite decide_True by lia|by rewrite decide_False by lia].
  - intros q Hq. rewrite Hbit by done. destruct (decide (s <= q < s + i));
      [by rewrite decide_True by lia|by rewrite decide_False by lia].
Qed.

Lemma free_contiguous_spec fa addr n :
  WF fa -> 0 <= addr -> 0 <= n -> addr / PAGE_SIZE + n < 2 ^ 64 ->
  let s := addr / PAGE_SIZE in
  WF (free_contiguous addr n fa) /\
  first_free (free_contiguous addr n fa) = Z.min (first_free fa) s /\
  (forall p, p ∈ free_set (free_contiguous addr n fa) <->
     p ∈ free_set fa \/ (s <= p < s + n /\ p < MAX_PAGES)).
Proof.
  intros H Ha Hn Hov. set (s := addr / PAGE_SIZE). simpl.
  assert (0 <= s) as Hs by (apply Z.div_pos; [done|unfold PAGE_SIZE; lia]).
  unfold free_contiguous. fold s.
  destruct (free_block_spec fa s n H Hs Hn Hov) as (HWF & Htot & Hff & Hbit).
  set (fa' := for_each 0 n _ fa) in *. pose proof (wf_first _ H).
  assert (forall p, p ∈ free_set fa' <-> p ∈ free_set fa \/ (s <= p < s + n /\ p < MAX_PAGES)) as Hset.
  { intros p. rewrite !elem_of_free_set. unfold page_free.
    destruct (decide (0 <= p < MAX_PAGES)); [rewrite Hbit by done|naive_solver lia].
    destruct (decide (s <= p < s + n)); naive_solver lia. }
  destruct (Z.ltb_spec s (first_free fa')); split_and!.
  - apply set_first_free_WF; [lia|done].
  - simpl. lia.
  - intros p. by rewrite free_set_set_first_free.
  - done.
  - lia.
  - done.
Qed.

(** * Initialisation *)

(** An entry whose end does not overflow, also after rounding. *)
Definition entry_ok (e : MemoryMapEntry) : Prop :=
  0 <= entry_base e /\ 0 <= entry_length e /\ entry_base e + entry_length e + PAGE_SIZE < 2 ^ 64.

(** Page [p] lies entirely inside the available entry [e]. *)
Definition covers (e : MemoryMapEntry) (p : Z) : Prop :=
  entry_type e = Available /\ entry_base e <= p * PAGE_SIZE /\
  (p + 1) * PAGE_SIZE <= entry_base e + entry_length e.

Lemma is_allocated_filled (b : list Z) p ff tp fp :
  length b = Z.to_nat BITMAP_SIZE -> 0 <= p ->
  is_allocated (mkFA ((fun _ => 0xFF) <$> b) ff tp fp) p = true.
Proof.
  intros Hlen Hp. destruct (decide (p < MAX_PAGES)) as [Hlt|]; [|apply is_allocated_out; lia].
  rewrite is_allocated_bit by done. unfold byte_at. fa_simpl.
  rewrite list_lookup_total_fmap by (apply _ || (rewrite Hlen; page_lia)).
  change 0xFF with (Z.ones 8). rewrite testbit_ones_eq by lia.
  pose proof (Z.mod_pos_bound p 8 ltac:(lia)). lia.
Qed.

(** A freshly cleared allocator, its bitmap filled with ones, has no free page. *)
Definition reserved : FrameAllocator := set_bitmap ((fun _ => 0xFF) <$> bitmap new) new.

Lemma new_length : length (bitmap new) = Z.to_nat BITMAP_SIZE.
Proof. apply length_replicate. Qed.

Lemma is_allocated_reserved p : 0 <= p -> is_allocated reserved p = true.
Proof. intros. apply is_allocated_filled; [apply new_length|done]. Qed.

Lemma reserved_WF : WF reserved.
Proof.
  assert (free_set reserved = ∅) as Hempty.
  { apply set_eq. intros p. rewrite elem_of_free_set. split; [|by intros ?%not_elem_of_empty].
    intros [Hp Hf]. rewrite is_allocated_reserved in Hf by lia. done. }
  constructor.
  - unfold reserved, set_bitmap. fa_simpl. rewrite length_fmap. apply new_length.
  - unfold reserved, set_bitmap. fa_simpl. apply Forall_fmap, Forall_true. intros; simpl; lia.
  - rewrite Hempty, size_empty. done.
  - unfold reserved. simpl total_pages. page_lia.
  - intros p Hp%elem_of_free_set. rewrite Hempty in Hp. by apply not_elem_of_empty in Hp.
  - unfold reserved. simpl total_pages. simpl first_free. lia.
Qed.

Lemma init_entry_spec e fa :
  WF fa -> entry_ok e ->
  WF (init_entry e fa) /\ first_free (init_entry e fa) = first_free fa /\
  forall p, p ∈ free_set (init_entry e fa) <-> p ∈ free_set fa \/ (0 <= p < MAX_PAGES /\ covers e p).
Proof.
  intros H (Hb & Hl & Hov). unfold init_entry, covers.
  case_bool_decide as Ht; [|split_and!; [done|done|naive_solver]].
  unfold PAGE_SIZE in *.
  rewrite (add64_small (entry_base e)), page_align_up_eq, page_align_down_eq by lia.
  rewrite !(Z.mul_comm 4096), !Z.div_mul by lia.
  set (lo := (entry_base e + 4095) / 4096). set (hi := (entry_base e + entry_length e) / 4096).
  assert (0 <= lo) by (apply Z.div_pos; lia).
  assert (forall p, lo <= p < hi <-> entry_base e <= p * 4096 /\ (p + 1) * 4096 <= entry_base e + entry_length e) as Hrange.
  { intros p. unfold lo, hi. clear. Z.div_mod_to_equations. lia. }
  destruct (decide (lo <= hi)) as [Hle|Hle].
  2: { rewrite for_each_empty by lia. split_and!; [done|done|]. intros p.
       rewrite <- Hrange. naive_solver lia. }
  pose proof (for_each_rule (fun i fa' => WF fa' /\ first_free fa' = first_free fa /\
      forall p, p ∈ free_set fa' <-> p ∈ free_set fa \/ (0 <= p < MAX_PAGES /\ lo <= p < i)) lo hi
    (fun page fa => if page <? MAX_PAGES then mark_free page fa else fa) fa Hle) as HL.
  destruct HL as (HWF & Hff & Hset).
  - split_and!; [done|done|]. intros p. naive_solver lia.
  - intros i fa' Hi (HWF & Hff & Hset). destruct (Z.ltb_spec i MAX_PAGES) as [Hlt|Hge]; split_and!.
    + apply mark_free_WF; [lia|done].
    + by rewrite first_free_mark_free.
    + intros p. rewrite free_set_mark_free by (by apply wf_length || lia).
      rewrite elem_of_union, elem_of_singleton, Hset. naive_solver lia.
    + done.
    + done.
    + intros p. rewrite Hset. naive_solver lia.
  - split_and!; [done|done|]. intros p. rewrite Hset, <- Hrange. naive_solver.
Qed.

Section init.
Variables (boot_info : BootInfo) (es rest : list MemoryMapEntry).
Hypothesis Hmap : memory_map boot_info = Some (es ++ rest).
Hypothesis Hcount : memory_map_entries boot_info = Z.of_nat (length es).
Hypothesis Hok : Forall entry_ok es.

Lemma init_unfold :
  es <> [] ->
  init boot_info new =
    for_each 0 (Z.of_nat (length es)) (fun i fa => init_entry (map_entry (es ++ rest) i) fa) reserved.
Proof.
  intros Hne. unfold init, no_memory_map, map_list. rewrite Hmap, Hcount. simpl default.
  destruct (Z.eqb_spec (Z.of_nat (length es)) 0) as [H0|]; [|done].
  destruct es; [done|simpl in H0; lia].
Qed.

Lemma init_spec :
  es <> [] ->
  WF (init boot_info new) /\ first_free (init boot_info new) = 0 /\
  forall p, p ∈ free_set (init boot_info new) <->
    0 <= p < MAX_PAGES /\ exists e, e ∈ es /\ covers e p.
Proof.
  intros Hne. rewrite init_unfold by done.
  pose proof (for_each_rule (fun i fa' => WF fa' /\ first_free fa' = 0 /\
      forall p, p ∈ free_set fa' <->
        0 <= p < MAX_PAGES /\ exists e, e ∈ take (Z.to_nat i) es /\ covers e p)
    0 (Z.of_nat (length es)) (fun i fa => init_entry (map_entry (es ++ rest) i) fa) reserved
    ltac:(lia)) as HL.
  destruct HL as (HWF & Hff & Hset).
  - split_and!; [apply reserved_WF|done|]. intros p. rewrite elem_of_free_set. split.
    + intros [Hp Hf]. rewrite is_allocated_reserved in Hf by lia. done.
    + intros (_ & e & He & _). simpl in He. by apply not_elem_of_nil in He.
  - intros i fa' Hi (HWF & Hff & Hset).
    destruct (lookup_lt_is_Some_2 es (Z.to_nat i) ltac:(lia)) as [e He].
    rewrite map_entry_app by lia. unfold map_entry. rewrite (list_lookup_total_correct _ _ _ He).
    destruct (init_entry_spec e fa' HWF (Forall_lookup_1 _ _ _ _ Hok He)) as (HWF' & Hff' & Hset').
    split_and!; [done|by rewrite Hff'|]. intros p. rewrite Hset', Hset.
    replace (Z.to_nat (i + 1)) with (S (Z.to_nat i)) by lia.
    rewrite (take_S_r _ _ _ He). setoid_rewrite elem_of_app. setoid_rewrite list_elem_of_singleton.
    naive_solver.
  - split_and!; [done|done|]. intros p. rewrite Hset, Nat2Z.id, take_ge by done. done.
Qed.
End init.

(** * Clients of the allocator

    A run of a client: it owns the pages it was handed and only gives back what
    it owns.  A state is the allocator with the set of owned pages. *)
Inductive client_step : FrameAllocator * gset Z -> FrameAllocator * gset Z -> Prop :=
| cs_alloc fa o a fa' :
    alloc fa = (Some a, fa') -> client_step (fa, o) (fa', {[a / PAGE_SIZE]} ∪ o)
| cs_alloc_none fa o fa' :
    alloc fa = (None, fa') -> client_step (fa, o) (fa', o)
| cs_alloc_n fa o n a fa' :
    0 <= n -> alloc_contiguous n fa = (Some a, fa') ->
    client_step (fa, o) (fa', page_block (a / PAGE_SIZE) n ∪ o)
| cs_alloc_n_none fa o n fa' :
    0 <= n -> alloc_contiguous n fa = (None, fa') -> client_step (fa, o) (fa', o)
| cs_free fa o a :
    0 <= a -> a / PAGE_SIZE ∈ o -> client_step (fa, o) (free a fa, o ∖ {[a / PAGE_SIZE]})
| cs_free_n fa o a n :
    0 <= a < 2 ^ 64 -> 0 <= n < 2 ^ 32 -> page_block (a / PAGE_SIZE) n ⊆ o ->
    client_step (fa, o) (free_contiguous a n fa, o ∖ page_block (a / PAGE_SIZE) n).

Lemma not_elem_of_difference_self (p : Z) (X : gset Z) : p ∉ X ∖ {[p]}.
Proof. set_solver. Qed.

Lemma page_of_addr p : p * PAGE_SIZE / PAGE_SIZE = p.
Proof. apply Z.div_mul. unfold PAGE_SIZE. lia. Qed.

Lemma block_ok_subseteq fa s n :
  0 <= s -> s + n <= MAX_PAGES -> block_ok fa s n -> page_block s n ⊆ free_set fa.
Proof.
  intros Hs Hn Hok. apply elem_of_subseteq. intros p Hp%elem_of_page_block.
  apply elem_of_free_set. split; [lia|by apply Hok].
Qed.

(** What is conserved: no page is both free and owned, and together they are
    the pages that were free at the start. *)
Definition conserved (pool : gset Z) (st : FrameAllocator * gset Z) : Prop :=
  WF st.1 /\ st.2 ## free_set st.1 /\ st.2 ∪ free_set st.1 = pool.

(** Moving a set of pages between the two sides keeps the union. *)
Lemma conserved_take pool fa o (X : gset Z) fa' :
  conserved pool (fa, o) -> WF fa' -> X ⊆ free_set fa -> free_set fa' = free_set fa ∖ X ->
  conserved pool (fa', X ∪ o).
Proof.
  intros (_ & Hd & Hu) HWF HX Hf. unfold conserved. simpl in *. rewrite Hf.
  split_and!; [done|set_solver|]. rewrite <- Hu. apply set_eq. intros p.
  destruct (decide (p ∈ X)); set_solver.
Qed.

Lemma conserved_give pool fa o (X : gset Z) fa' :
  conserved pool (fa, o) -> WF fa' -> X ⊆ o ->
  (forall p, p ∈ free_set fa' <-> p ∈ free_set fa \/ p ∈ X) ->
  conserved pool (fa', o ∖ X).
Proof.
  intros (_ & Hd & Hu) HWF HX Hf. unfold conserved. simpl in *.
  split_and!; [done|intros p; rewrite Hf; set_solver|]. rewrite <- Hu. apply set_eq. intros p.
  rewrite !elem_of_union, Hf, elem_of_difference. destruct (decide (p ∈ X)); set_solver.
Qed.

Lemma client_step_conserved pool st st' :
  (forall p, p ∈ pool -> p < MAX_PAGES) ->
  client_step st st' -> conserved pool st -> conserved pool st'.
Proof.
  intros Hpool Hstep Hc. pose proof Hc as (HWF & Hd & Hu).
  destruct Hstep as [fa o a fa' E|fa o fa' E|fa o n a fa' Hn E|fa o n fa' Hn E|fa o a Ha Ho|fa o a n Ha Hn Ho];
    simpl in *.
  - pose proof (alloc_spec fa HWF) as H. rewrite E in H. destruct H as (p & Hp & _ & -> & ->).
    rewrite page_of_addr. pose proof (proj1 (elem_of_free_set fa p) Hp) as [Hp0 _].
    apply (conserved_take pool fa); [done|by apply take_page_WF|set_solver|].
    apply free_set_take_page; [done|lia].
  - pose proof (alloc_spec fa HWF) as H. rewrite E in H. by destruct H as [-> _].
  - pose proof (alloc_contiguous_spec fa n HWF Hn) as H. rewrite E in H.
    destruct H as (s & Hn' & Hs & Htot & Hok & _ & -> & ->). rewrite page_of_addr.
    pose proof (wf_first _ HWF). pose proof (wf_total _ HWF).
    destruct (take_block_spec fa s n HWF ltac:(lia) Hn' Htot) as [HWF' Hset].
    apply (conserved_take pool fa); [done|done| |done]. apply block_ok_subseteq; [lia|lia|done].
  - pose proof (alloc_contiguous_spec fa n HWF Hn) as H. rewrite E in H. by destruct H as [-> _].
  - destruct (free_spec fa a HWF Ha) as (HWF' & Hset & _).
    apply (conserved_give pool fa); [done|done|set_solver|]. intros p. rewrite Hset.
    rewrite decide_True by (apply Hpool; set_solver). set_solver.
  - assert (a / PAGE_SIZE + n < 2 ^ 64) as Hov
      by (clear - Ha Hn; unfold PAGE_SIZE; Z.div_mod_to_equations; lia).
    destruct (free_contiguous_spec fa a n HWF ltac:(lia) ltac:(lia) Hov) as (HWF' & _ & Hset).
    apply (conserved_give pool fa); [done|done|done|]. intros p. rewrite Hset, elem_of_page_block.
    split; [naive_solver|]. intros [|Hp]; [by left|right]. split; [done|].
    apply Hpool. rewrite <- Hu. apply elem_of_union_l, Ho. by apply elem_of_page_block.
Qed.

Lemma free_set_bound fa p : p ∈ free_set fa -> p < MAX_PAGES.
Proof. intros Hp%elem_of_free_set. apply Hp. Qed.

Lemma client_conserved fa st :
  WF fa -> rtc client_step (fa, ∅) st -> conserved (free_set fa) st.
Proof.
  intros HWF Hrtc.
  assert (conserved (free_set fa) (fa, ∅)) as H0
    by (split_and!; simpl; [done|set_solver|set_solver]).
  revert H0. generalize dependent (fa, ∅ : gset Z). intros st0 Hrtc H0.
  induction Hrtc as [|st1 st2 st3 Hstep _ IH]; [done|].
  apply IH. eapply client_step_conserved; [apply free_set_bound|done|done].
Qed.

(** * The interface

    [alloc_frame] and [free_frame] lock the global allocator and call the
    methods; [Phys] keeps the promises of [Frames]. *)
#[export] Instance phys_source : FrameSource FrameAllocator :=
  {| alloc_frame := alloc; free_frame := free |}.

#[export] Program Instance phys_laws : FrameLaws FrameAllocator :=
  {| fs_inv := WF; fs_free := free_set |}.
Next Obligation.
  intros fa a fa' H E. pose proof (alloc_spec fa H) as Hs. cbn in E. rewrite E in Hs.
  destruct Hs as (p & Hp & _ & -> & ->). pose proof (proj1 (elem_of_free_set fa p) Hp) as [Hr _].
  split; [by apply take_page_WF|]. exists p.
  split_and!; [done|lia|rewrite MAX_PAGES_eq in Hr; lia|done|apply free_set_take_page; [done|lia]].
Qed.
Next Obligation.
  intros fa fa' H E. pose proof (alloc_spec fa H) as Hs. cbn in E. by rewrite E in Hs.
Qed.
Next Obligation.
  intros fa p H Hp. destruct (free_spec fa (p * PAGE_SIZE) H) as (HWF & Hset & _);
    [unfold PAGE_SIZE; lia|].
  rewrite page_of_addr, decide_True in Hset by page_lia. done.
Qed.

(** * A run of allocations *)

Definition allocs (n : nat) (fa : FrameAllocator) : FrameAllocator :=
  Nat.iter n (fun fa => snd (alloc fa)) fa.

(** The free pages the next-fit search reaches before [q]. *)
Definition free_before (fa : FrameAllocator) (q : Z) : gset Z :=
  filter (fun p => first_free fa <= p < q) (free_set fa).

Lemma elem_of_free_before fa q p :
  p ∈ free_before fa q <-> (first_free fa <= p < q) /\ p ∈ free_set fa.
Proof. unfold free_before. by rewrite elem_of_filter. Qed.

Lemma free_before_subseteq fa q : free_before fa q ⊆ free_set fa.
Proof. intros p. by intros [_ ?]%elem_of_free_before. Qed.

Lemma alloc_before fa q x :
  WF fa -> x ∈ free_before fa q ->
  exists p, p ∈ free_before fa q /\ snd (alloc fa) = take_page p fa /\
    free_before (take_page p fa) q = free_before fa q ∖ {[p]}.
Proof.
  intros H (Hx & Hxf)%elem_of_free_before. pose proof (alloc_spec fa H) as Hs.
  pose proof (proj1 (elem_of_free_set fa x) Hxf) as Hpx. pose proof (wf_below _ H x Hpx) as Hxt.
  destruct Hpx as [_ Hpx].
  destruct (alloc fa) as [[a|] fa'].
  2:{ destruct Hs as [_ He]. rewrite He in Hxf. by apply not_elem_of_empty in Hxf. }
  destruct Hs as (p & Hp & Hnf & _ & ->). exists p.
  assert (first_free fa <= p <= x /\ forall y, first_free fa <= y < p -> is_allocated fa y = true) as [Hpr Hskip].
  { destruct Hnf as [[Hle Hskip]|(Hlt & _ & Hskip)]; [|by rewrite Hskip in Hpx by lia].
    split; [|done]. split; [done|]. destruct (decide (p <= x)); [done|].
    by rewrite Hskip in Hpx by lia. }
  assert (0 <= p) as Hp0 by (apply elem_of_free_set in Hp as [? _]; lia).
  split; [apply elem_of_free_before; split; [lia|done]|]. split; [done|]. apply set_eq. intros y.
  rewrite elem_of_difference, !elem_of_free_before, not_elem_of_singleton, free_set_take_page by done.
  rewrite elem_of_difference, not_elem_of_singleton. change (first_free (take_page p fa)) with (p + 1).
  split; [intros (? & ? & ?); split_and!; (lia || done)|].
  intros ((Hy & Hyf) & Hne). split_and!; [|lia|done|done].
  destruct (decide (y < p)); [|lia]. apply elem_of_free_set in Hyf as [_ Hyf].
  by rewrite Hskip in Hyf by lia.
Qed.

(** A free page stays free through [n] allocations when [n] free pages come
    before it. *)
Lemma allocs_keep n fa q :
  WF fa -> q ∈ free_set fa -> (n <= size (free_before fa q))%nat -> q ∈ free_set (allocs n fa).
Proof.
  revert fa. induction n as [|n IH]; intros fa H Hq Hn; [done|].
  unfold allocs. rewrite Nat.iter_succ_r. fold (allocs n (snd (alloc fa))).
  destruct (set_choose_or_empty (free_before fa q)) as [[x Hx]|He].
  2:{ apply leibniz_equiv in He. rewrite He, size_empty in Hn. lia. }
  destruct (alloc_before fa q x H Hx) as (p & Hp & -> & Hbefore).
  pose proof (proj1 (elem_of_free_before _ _ _) Hp) as [Hpr Hpf].
  assert (0 <= p) as Hp0 by (apply elem_of_free_set in Hpf as [? _]; lia).
  apply IH.
  - by apply take_page_WF.
  - rewrite free_set_take_page by done. apply elem_of_difference. split; [done|].
    rewrite not_elem_of_singleton. lia.
  - rewrite Hbefore, size_difference, size_singleton by by apply singleton_subseteq_l. lia.
Qed.

(** When the search starts below every free page, it takes the lowest. *)
Lemma alloc_least fa :
  WF fa -> (forall x, x ∈ free_set fa -> first_free fa <= x) ->
  match alloc fa with
  | (Some _, fa') => exists p, p ∈ free_set fa /\ (forall x, x ∈ free_set fa -> p <= x) /\ fa' = take_page p fa
  | (None, fa') => fa' = fa /\ free_set fa = ∅
  end.
Proof.
  intros H Hff. pose proof (alloc_spec fa H) as Hs. destruct (alloc fa) as [[a|] fa']; [|done].
  destruct Hs as (p & Hp & Hnf & _ & ->). exists p. split; [done|]. split; [|done]. intros x Hx.
  pose proof (Hff p Hp). pose proof (Hff x Hx). destruct Hnf as [[_ Hskip]|[? _]]; [|lia].
  destruct (decide (p <= x)); [done|]. apply elem_of_free_set in Hx as [_ Hx]. by rewrite Hskip in Hx by lia.
Qed.

(** Taking the lowest free page takes one from before every other. *)
Lemma free_before_take fa p q :
  WF fa -> (forall x, x ∈ free_set fa -> first_free fa <= x) ->
  p ∈ free_set fa -> (forall x, x ∈ free_set fa -> p <= x) -> q ∈ free_set fa -> q <> p ->
  size (free_before fa q) = S (size (free_before (take_page p fa) q)).
Proof.
  intros H Hff Hp Hle Hq Hne. pose proof (Hff p Hp). pose proof (Hle q Hq).
  assert (0 <= p) as Hp0 by (apply elem_of_free_set in Hp as [? _]; lia).
  pose proof (free_set_take_page fa p H Hp0) as Hset.
  assert (free_before fa q = {[p]} ∪ free_before (take_page p fa) q) as ->.
  { apply set_eq. intros x. rewrite elem_of_union, elem_of_singleton, !elem_of_free_before, Hset,
      elem_of_difference, not_elem_of_singleton. change (first_free (take_page p fa)) with (p + 1).
    destruct (decide (x = p)) as [->|Hx]; [naive_solver lia|]. split.
    - intros ((Hr & Hlt) & Hxf). right. specialize (Hle x Hxf). split; [lia|done].
    - intros [?|((Hr & Hlt) & Hxf & _)]; [done|]. split; [lia|done]. }
  rewrite size_union, size_singleton; [done|]. intros x ->%elem_of_singleton (_ & Hx)%elem_of_free_before.
  rewrite Hset in Hx. by apply elem_of_difference in Hx as [_ []%not_elem_of_singleton].
Qed.

(** Then [n] allocations take the [n] lowest: a page is left exactly when [n]
    free pages come before it. *)
Lemma allocs_exact n : forall fa,
  WF fa -> (forall x, x ∈ free_set fa -> first_free fa <= x) ->
  forall q, q ∈ free_set (allocs n fa) <-> q ∈ free_set fa /\ (n <= size (free_before fa q))%nat.
Proof.
  induction n as [|n IH]; intros fa H Hff q; [unfold allocs; cbn; naive_solver lia|].
  unfold allocs. rewrite Nat.iter_succ_r. fold (allocs n (snd (alloc fa))).
  pose proof (alloc_least fa H Hff) as Hs. destruct (alloc fa) as [[a|] fa']; cbn [snd].
  2:{ destruct Hs as [-> He]. rewrite (IH fa H Hff), He. split; intros [[]%not_elem_of_empty _]. }
  destruct Hs as (p & Hp & Hle & ->).
  assert (0 <= p) as Hp0 by (apply elem_of_free_set in Hp as [? _]; lia).
  pose proof (free_set_take_page fa p H Hp0) as Hset.
  assert (forall x, x ∈ free_set (take_page p fa) -> p + 1 <= x) as Hff'.
  { intros x Hx. rewrite Hset in Hx. apply elem_of_difference in Hx as [Hx Hne%not_elem_of_singleton].
    specialize (Hle x Hx). lia. }
  rewrite (IH _ (take_page_WF fa p H Hp) Hff' q), Hset, elem_of_difference, not_elem_of_singleton.
  pose proof (free_before_take fa p q H Hff Hp Hle) as Hsize. split.
  - intros ((Hq & Hne) & Hn). split; [done|]. rewrite Hsize by done. lia.
  - intros (Hq & Hn). destruct (decide (q = p)) as [->|Hne].
    + exfalso. assert (free_before fa p = ∅) as He; [|rewrite He, size_empty in Hn; lia].
      apply set_eq. intros x. split; [|by intros ?%not_elem_of_empty].
      intros (Hr & Hx)%elem_of_free_before. specialize (Hle x Hx). lia.
    + split; [done|]. rewrite Hsize in Hn by done. lia.
Qed.

Lemma page_block_size s n X : page_block s n ⊆ X -> (Z.to_nat n <= size X)%nat.
Proof.
  intros Hs%subseteq_size. unfold page_block in Hs.
  by rewrite size_list_to_set, length_seqZ in Hs by apply NoDup_seqZ.
Qed.

(** * A concrete machine for the witnesses

    640 KiB below the legacy hole and 1 MiB above it, as a boot loader reports
    them. *)
Definition small_map : BootInfo :=
  mkBootInfo 0
    (Some [mkEntry 0 0x9fc00 Available; mkEntry 0xf0000 0x10000 Reserved;
           mkEntry 0x100000 0x100000 Available])
    3 (mkFb 0xb8000 80 25 160 16 16 8 16 0 0 0) X86_64 0 0 0 0 None 0.

Definition small_fa : FrameAllocator := init small_map new.

Lemma small_entries_ok : Forall entry_ok (map_list small_map).
Proof. repeat constructor; simpl; unfold PAGE_SIZE; lia. Qed.

Lemma small_WF : WF small_fa.
Proof. by apply (init_spec small_map (map_list small_map) [] eq_refl eq_refl small_entries_ok). Qed.

Lemma small_free p : p ∈ free_set small_fa -> 0 <= p < 159 \/ 256 <= p < 512.
Proof.
  destruct (init_spec small_map (map_list small_map) [] eq_refl eq_refl small_entries_ok) as (_ & _ & Hset);
    [discriminate|].
  unfold small_fa. rewrite Hset. intros (Hr & e & He & Ht & Hb & Hl). unfold PAGE_SIZE in *.
  repeat (apply elem_of_cons in He as [->|He]; [cbn in Ht, Hb, Hl; (discriminate || lia)|]).
  by apply not_elem_of_nil in He.
Qed.

Lemma small_has : 300 ∈ free_set small_fa.
Proof.
  destruct (init_spec small_map (map_list small_map) [] eq_refl eq_refl small_entries_ok) as (_ & _ & Hset);
    [discriminate|].
  unfold small_fa. rewrite Hset. split; [rewrite MAX_PAGES_eq; lia|].
  exists (mkEntry 0x100000 0x100000 Available).
  split; [right; right; left|]. split; [done|]. cbn. unfold PAGE_SIZE. lia.
Qed.

(** * Properties *)

(** C8: after [init] with a memory map, a page is free exactly when it lies
    below 4 GiB and entirely inside an available entry of the map; the invariant
    holds, so [free_pages] counts those pages and [total_pages] bounds them. *)
Theorem init_correct (boot_info : BootInfo) (es rest : list MemoryMapEntry)
  (Hmap : memory_map boot_info = Some (es ++ rest))
  (Hcount : memory_map_entries boot_info = Z.of_nat (length es))
  (Hne : es <> []) (Hok : Forall entry_ok es) :
  WF (init boot_info new) /\
  first_free (init boot_info new) = 0 /\
  free_count (init boot_info new) = Z.of_nat (size (free_set (init boot_info new))) /\
  forall p, p ∈ free_set (init boot_info new) <->
    0 <= p < MAX_PAGES /\
    exists e, e ∈ es /\ entry_type e = Available /\
      entry_base e <= p * PAGE_SIZE /\
      p * PAGE_SIZE + PAGE_SIZE <= entry_base e + entry_length e.
Proof.
  destruct (init_spec boot_info es rest Hmap Hcount Hok Hne) as (HWF & Hff & Hset).
  split_and!; [done|done|by apply wf_count|]. intros p. rewrite Hset. unfold covers.
  assert ((p + 1) * PAGE_SIZE = p * PAGE_SIZE + PAGE_SIZE) as -> by lia. done.
Qed.

Lemma init_correct_witness :
  WF small_fa /\ free_count small_fa = 415 /\ 158 ∈ free_set small_fa /\ 159 ∉ free_set small_fa.
Proof.
  pose proof (init_correct small_map (map_list small_map) [] eq_refl eq_refl
                ltac:(discriminate) small_entries_ok) as (HWF & _ & _ & Hset).
  split_and!; [exact HWF|vm_compute; reflexivity| |].
  - apply Hset. split; [vm_compute; split; congruence|].
    exists (mkEntry 0 0x9fc00 Available). split_and!; [by left|done|vm_compute; congruence..].
  - rewrite Hset. intros (_ & e & He & _ & Hb & Hl). unfold PAGE_SIZE in *.
    repeat (apply elem_of_cons in He as [->|He]; [simpl in Hb, Hl; lia|]).
    by apply not_elem_of_nil in He.
Defined.

(** C6: [alloc] on a well-formed allocator fails only when no page is free, and
    then changes nothing; otherwise it returns the address of the free page its
    next-fit scan reaches first, and exactly that page leaves the free set. *)
Theorem alloc_correct (fa : FrameAllocator) (H : WF fa) :
  match alloc fa with
  | (Some a, fa') =>
      exists p, a = p * PAGE_SIZE /\ p ∈ free_set fa /\ next_fit fa p /\
        free_set fa' = free_set fa ∖ {[p]} /\ free_count fa' = free_count fa - 1 /\
        first_free fa' = p + 1 /\ WF fa'
  | (None, fa') => fa' = fa /\ free_set fa = ∅ /\ free_count fa = 0
  end.
Proof.
  pose proof (alloc_spec fa H) as Hs. destruct (alloc fa) as [[a|] fa'].
  - destruct Hs as (p & Hp & Hnf & -> & ->). exists p.
    pose proof (proj1 (elem_of_free_set fa p) Hp) as [Hr _].
    assert (0 <= p) as Hp0 by lia.
    pose proof (take_page_WF fa p H Hp) as HWF. pose proof (free_set_take_page fa p H Hp0) as Hset.
    split_and!; try done. unfold free_count. rewrite (wf_count _ HWF), (wf_count _ H), Hset.
    rewrite size_difference by (apply elem_of_subseteq; intros q Hq%elem_of_singleton; by subst).
    rewrite size_singleton. assert (size (free_set fa) <> O); [|lia].
    intros Hz%size_empty_iff. rewrite Hz in Hp. by apply not_elem_of_empty in Hp.
  - destruct Hs as [-> He]. split_and!; [done|done|]. unfold free_count.
    by rewrite (wf_count _ H), He, size_empty.
Qed.

Lemma alloc_correct_witness :
  exists fa', alloc small_fa = (Some 0, fa') /\ WF fa' /\ 0 ∉ free_set fa'.
Proof.
  pose proof (alloc_correct small_fa small_WF) as H.
  assert (fst (alloc small_fa) = Some 0) as E by (vm_compute; reflexivity).
  destruct (alloc small_fa) as [[a|] fa']; cbn [fst] in E; [apply Some_inj in E; subst a|discriminate].
  destruct H as (p & Hp & _ & _ & Hset & _ & _ & HWF). exists fa'.
  assert (p = 0) as -> by (unfold PAGE_SIZE in Hp; lia).
  split_and!; [reflexivity|exact HWF|]. rewrite Hset. apply not_elem_of_difference_self.
Defined.

(** C16: [alloc_contiguous] on a well-formed allocator hands out the first block
    of [n] free pages at or above [first_free], and exactly those pages leave
    the free set; it fails, changing nothing, only for a request of 0 pages, of
    more pages than are free, or when no such block starts there. *)
Theorem alloc_contiguous_correct (fa : FrameAllocator) (n : Z) (H : WF fa) (Hn : 0 <= n) :
  match alloc_contiguous n fa with
  | (Some a, fa') =>
      exists s, a = s * PAGE_SIZE /\ 0 < n /\ first_free fa <= s /\
        page_block s n ⊆ free_set fa /\
        (forall s', first_free fa <= s' < s -> ~ block_ok fa s' n) /\
        free_set fa' = free_set fa ∖ page_block s n /\
        first_free fa' = s + n /\ WF fa'
  | (None, fa') =>
      fa' = fa /\
      (n = 0 \/ free_count fa < n \/
       forall s, first_free fa <= s -> s + n <= total_pages fa -> ~ block_ok fa s n)
  end.
Proof.
  pose proof (alloc_contiguous_spec fa n H Hn) as Hs.
  destruct (alloc_contiguous n fa) as [[a|] fa']; [|done].
  destruct Hs as (s & Hn' & Hs & Htot & Hok & Hmin & -> & ->). exists s.
  pose proof (wf_first _ H). pose proof (wf_total _ H).
  destruct (take_block_spec fa s n H ltac:(lia) Hn' Htot) as [HWF Hset].
  split_and!; try done. apply block_ok_subseteq; [lia|lia|done].
Qed.

Lemma alloc_contiguous_correct_witness :
  exists fa', alloc_contiguous 200 small_fa = (Some 0x100000, fa') /\ WF fa' /\ 300 ∉ free_set fa'.
Proof.
  pose proof (alloc_contiguous_correct small_fa 200 small_WF ltac:(lia)) as H.
  assert (fst (alloc_contiguous 200 small_fa) = Some 0x100000) as E by (vm_compute; reflexivity).
  destruct (alloc_contiguous 200 small_fa) as [[a|] fa']; cbn [fst] in E;
    [apply Some_inj in E; subst a|discriminate].
  destruct H as (s & Hs & _ & _ & _ & _ & Hset & _ & HWF). exists fa'.
  assert (s = 256) as -> by (unfold PAGE_SIZE in Hs; lia).
  split_and!; [reflexivity|exact HWF|]. rewrite Hset, elem_of_difference, elem_of_page_block. lia.
Defined.

(** C7: in any run of a client that only gives back pages it was handed, the
    invariant holds, no page is both free and owned, and owned and free pages
    together are the pages that were free at the start; so no frame is ever
    handed out twice, and none is lost. *)
Theorem frames_conserved (fa fa' : FrameAllocator) (owned : gset Z)
  (HWF : WF fa) (Hrun : rtc client_step (fa, ∅) (fa', owned)) :
  WF fa' /\ owned ## free_set fa' /\ owned ∪ free_set fa' = free_set fa /\
  forall a fa'', alloc fa' = (Some a, fa'') -> a / PAGE_SIZE ∉ owned.
Proof.
  destruct (client_conserved fa (fa', owned) HWF Hrun) as (HWF' & Hd & Hu). simpl in *.
  split_and!; [done|done|done|]. intros a fa'' E Ho.
  pose proof (alloc_spec fa' HWF') as H. rewrite E in H.
  destruct H as (p & Hp & _ & -> & _). rewrite page_of_addr in Ho. set_solver.
Qed.

Lemma frames_conserved_witness :
  exists fa' owned, 0 ∈ owned /\ owned ## free_set fa' /\ owned ∪ free_set fa' = free_set small_fa.
Proof.
  assert (fst (alloc small_fa) = Some 0) as E by (vm_compute; reflexivity).
  destruct (alloc small_fa) as [o fa'] eqn:Ea. cbn [fst] in E. subst o.
  exists fa', ({[0 / PAGE_SIZE]} ∪ ∅).
  destruct (frames_conserved small_fa fa' ({[0 / PAGE_SIZE]} ∪ ∅) small_WF) as (_ & Hd & Hu & _).
  - apply rtc_once. by constructor.
  - split_and!; [|exact Hd|exact Hu]. apply elem_of_union_l, elem_of_singleton. reflexivity.
Defined.

(** C17: giving back a page that [alloc] handed out restores the free set and
    the counters' relation to it; and [free] of any page below 4 GiB, reserved
    or owned by someone else, puts it into the free pool as well. *)
Theorem free_correct (fa : FrameAllocator) (H : WF fa) :
  (forall a fa', alloc fa = (Some a, fa') ->
     WF (free a fa') /\ free_set (free a fa') = free_set fa /\
     free_count (free a fa') = free_count fa) /\
  (forall p, 0 <= p < MAX_PAGES ->
     WF (free (p * PAGE_SIZE) fa) /\
     free_set (free (p * PAGE_SIZE) fa) = {[p]} ∪ free_set fa /\
     (is_allocated fa p = true -> first_free (free (p * PAGE_SIZE) fa) <= p)).
Proof.
  split.
  - intros a fa' E. pose proof (alloc_spec fa H) as Hs. rewrite E in Hs.
    destruct Hs as (p & Hp & _ & -> & ->).
    pose proof (proj1 (elem_of_free_set fa p) Hp) as [Hr _].
    pose proof (take_page_WF fa p H Hp) as HWF.
    destruct (free_spec (take_page p fa) (p * PAGE_SIZE) HWF) as (HWF' & Hset & _);
      [unfold PAGE_SIZE; lia|].
    rewrite page_of_addr, decide_True, free_set_take_page in Hset by (done || lia).
    assert (free_set (free (p * PAGE_SIZE) (take_page p fa)) = free_set fa) as Heq.
    { rewrite Hset. apply set_eq. intros q. destruct (decide (q = p)); set_solver. }
    split_and!; [done|done|]. unfold free_count. by rewrite (wf_count _ HWF'), (wf_count _ H), Heq.
  - intros p Hp.
    destruct (free_spec fa (p * PAGE_SIZE) H) as (HWF' & Hset & Hff); [unfold PAGE_SIZE; lia|].
    rewrite page_of_addr in *. rewrite decide_True in Hset by lia. split_and!; [done|done|].
    intros Ha. rewrite Hff, Ha. destruct (Z.ltb_spec p MAX_PAGES); simpl; lia.
Qed.

Lemma free_correct_witness :
  exists fa', alloc small_fa = (Some 0, fa') /\ free_set (free 0 fa') = free_set small_fa.
Proof.
  destruct (free_correct small_fa small_WF) as [H _].
  assert (fst (alloc small_fa) = Some 0) as E by (vm_compute; reflexivity).
  destruct (alloc small_fa) as [o fa'] eqn:Ea. cbn [fst] in E. subst o. exists fa'.
  split; [reflexivity|]. apply (H 0 fa' eq_refl).
Defined.

(** Without a memory map [init] reports all of the 4 GiB as free but leaves
    every page marked allocated: each request fails, forever. *)
Theorem init_without_map_starves (boot_info : BootInfo) (Hnone : no_memory_map boot_info = true) :
  let fa := init boot_info new in
  free_count fa = MAX_PAGES /\ total_count fa = MAX_PAGES /\
  alloc fa = (None, fa) /\ forall n, 0 <= n -> alloc_contiguous n fa = (None, fa).
Proof.
  assert (init boot_info new = mkFA (bitmap reserved) 0 MAX_PAGES MAX_PAGES) as ->
    by (unfold init; by rewrite Hnone).
  cbn zeta. set (fa := mkFA _ _ _ _).
  assert (forall p, 0 <= p -> is_allocated fa p = true) as Hall
    by (intros; apply is_allocated_filled; [apply new_length|done]).
  split_and!; [done|done| |].
  - unfold alloc. pose proof (search_spec fa 0 MAX_PAGES ltac:(page_lia)) as H.
    change (first_free fa) with 0. change (total_pages fa) with MAX_PAGES.
    destruct (for_range 0 MAX_PAGES try_page fa) as [fa' [a|]].
    + destruct H as (p & Hp & Hf & _). rewrite Hall in Hf by lia. done.
    + destruct H as [-> _]. by rewrite for_range_empty.
  - intros n Hn. unfold alloc_contiguous. destruct (Z.eqb_spec n 0); [done|].
    change (free_pages fa) with MAX_PAGES. change (first_free fa) with 0.
    change (total_pages fa) with MAX_PAGES.
    destruct (Z.ltb_spec MAX_PAGES n); [done|]. simpl orb. cbn iota.
    rewrite sub64_small by page_lia.
    pose proof (block_search_spec fa n 0 (MAX_PAGES - n + 1) Hn ltac:(lia)) as HL.
    destruct (for_range _ _ (try_block n) fa) as [fa' [a|]]; [|by destruct HL as [-> _]].
    destruct HL as (s & Hs & Hok & _). specialize (Hok s ltac:(lia)). by rewrite Hall in Hok by lia.
Qed.

Lemma init_without_map_starves_witness :
  let fa := init (mkBootInfo 0 None 0 (framebuffer small_map) X86_64 0 0 0 0 None 0) new in
  free_count fa = 1048576 /\ alloc fa = (None, fa).
Proof.
  intros fa.
  destruct (init_without_map_starves
              (mkBootInfo 0 None 0 (framebuffer small_map) X86_64 0 0 0 0 None 0) eq_refl)
    as (Hf & _ & Ha & _).
  split; [exact Hf|exact Ha].
Defined.

(** [alloc_contiguous] does not wrap around as [alloc] does: after a first
    block is handed out from the upper region, a request for 100 pages fails
    although 159 contiguous pages below [first_free] are free. *)
Theorem alloc_contiguous_misses_block :
  exists fa' : FrameAllocator,
    alloc_contiguous 200 small_fa = (Some 0x100000, fa') /\
    fst (alloc_contiguous 100 fa') = None /\
    (forall p, 0 <= p < 159 -> is_allocated fa' p = false) /\ 100 <= free_count fa'.
Proof.
  set (r := alloc_contiguous 200 small_fa).
  exists (snd r). split; [|split; [|split]].
  - rewrite (surjective_pairing r) at 1.
    assert (fst r = Some 0x100000) as -> by (vm_compute; reflexivity). reflexivity.
  - vm_compute. reflexivity.
  - intros p Hp.
    assert (forallb (fun q => negb (is_allocated (snd r) q)) (seqZ 0 159) = true) as Hall
      by (vm_compute; reflexivity).
    rewrite forallb_forall in Hall. specialize (Hall p).
    rewrite <- list_elem_of_In, elem_of_seqZ, negb_true_iff in Hall. apply Hall. lia.
  - vm_compute. discriminate.
Qed.
