(* ===== verification/Paging.v ===== *)
(** [kernel/src/arch/x86_64/paging.rs]: page table entries, the boot page
    tables, [map_page], [unmap_page] and [translate].

    Page tables live in the physical memory ([Ram]); the statics [KPML4],
    [KPDPT] and [KPD] are at addresses the linker chooses, a [Statics] of the
    model.  The kernel follows the physical address of an entry as a pointer,
    which the boot page tables make valid by mapping the first 4 GiB to
    themselves; a pointer access is therefore an access to the physical memory.
    [map_page] takes frames from any [FrameSource]. *)
From S2P Require Import Prelude Ram Mem Frames.
From stdpp Require Import base numbers list gmap sets strings tactics.
From Stdlib Require Import ZArith Lia.
Open Scope Z_scope.
Open Scope word_scope.

(** * Page table entries *)

Module flags.
Definition PRESENT : Z := Z.shiftl 1 0.
Definition WRITABLE : Z := Z.shiftl 1 1.
Definition USER_ACCESSIBLE : Z := Z.shiftl 1 2.
Definition WRITE_THROUGH : Z := Z.shiftl 1 3.
Definition CACHE_DISABLE : Z := Z.shiftl 1 4.
Definition ACCESSED : Z := Z.shiftl 1 5.
Definition DIRTY : Z := Z.shiftl 1 6.
Definition HUGE_PAGE : Z := Z.shiftl 1 7.
Definition GLOBAL : Z := Z.shiftl 1 8.
Definition NO_EXECUTE : Z := Z.shiftl 1 63.
End flags.

Definition ADDR_MASK : Z := 0x000FFFFFFFFFF000.
Definition FLAG_MASK : Z := 0x8000000000000FFF.

(** [PageTableEntry] is a transparent wrapper of a [u64]. *)
Definition PageTableEntry : Type := Z.

Definition pte_empty : PageTableEntry := 0.

Definition pte_new (addr flags : Z) : PageTableEntry :=
  Z.lor (Z.land addr ADDR_MASK) (Z.land flags FLAG_MASK).

Definition pte_addr (e : PageTableEntry) : Z := Z.land e ADDR_MASK.

Definition pte_flags (e : PageTableEntry) : Z := Z.land e FLAG_MASK.

Definition set_addr (addr : Z) (e : PageTableEntry) : PageTableEntry :=
  Z.lor (Z.land e FLAG_MASK) (Z.land addr ADDR_MASK).

Definition set_flags (flags : Z) (e : PageTableEntry) : PageTableEntry :=
  Z.lor (Z.land e ADDR_MASK) (Z.land flags FLAG_MASK).

Definition is_present (e : PageTableEntry) : bool :=
  negb (Z.land (pte_flags e) flags.PRESENT =? 0).
Definition is_writable (e : PageTableEntry) : bool :=
  negb (Z.land (pte_flags e) flags.WRITABLE =? 0).
Definition is_user_accessible (e : PageTableEntry) : bool :=
  negb (Z.land (pte_flags e) flags.USER_ACCESSIBLE =? 0).
Definition is_write_through (e : PageTableEntry) : bool :=
  negb (Z.land (pte_flags e) flags.WRITE_THROUGH =? 0).
Definition is_cache_disabled (e : PageTableEntry) : bool :=
  negb (Z.land (pte_flags e) flags.CACHE_DISABLE =? 0).
Definition is_accessed (e : PageTableEntry) : bool :=
  negb (Z.land (pte_flags e) flags.ACCESSED =? 0).
Definition is_dirty (e : PageTableEntry) : bool :=
  negb (Z.land (pte_flags e) flags.DIRTY =? 0).
Definition is_huge_page (e : PageTableEntry) : bool :=
  negb (Z.land (pte_flags e) flags.HUGE_PAGE =? 0).
Definition is_global (e : PageTableEntry) : bool :=
  negb (Z.land (pte_flags e) flags.GLOBAL =? 0).
Definition is_no_execute (e : PageTableEntry) : bool :=
  negb (Z.land (pte_flags e) flags.NO_EXECUTE =? 0).

(** The flags of a link to the next table, and of a huge page. *)
Definition PW : Z := Z.lor flags.PRESENT flags.WRITABLE.
Definition PWH : Z := Z.lor (Z.lor flags.PRESENT flags.WRITABLE) flags.HUGE_PAGE.

(** * Virtual addresses *)

Record PageTableIndices : Type := mkIndices {
  pml4 : Z;
  pdpt : Z;
  pd : Z;
  pt : Z;
  offset : Z
}.

Definition indices (virt : Z) : PageTableIndices :=
  mkIndices
    (Z.land (Z.shiftr virt 39) 0x1FF)
    (Z.land (Z.shiftr virt 30) 0x1FF)
    (Z.land (Z.shiftr virt 21) 0x1FF)
    (Z.land (Z.shiftr virt 12) 0x1FF)
    (Z.land virt 0xFFF).

(** * The machine *)

(** Where the linker puts the static tables; [KPD] is an array of 4 tables. *)
Record Statics : Type := mkStatics {
  KPML4 : Z;
  KPDPT : Z;
  KPD : Z
}.

(** The state [paging] works on: the memory, the frame allocator, the static
    [PAGE_TABLE_PHYS], the register CR3, and the [invlpg]s executed so far, the
    last one first. *)
Record Machine (A : Type) : Type := mkMachine {
  mem : ram;
  frames : A;
  PAGE_TABLE_PHYS : Z;
  cr3 : Z;
  invlpgs : list Z
}.
Arguments mkMachine {A} _ _ _ _ _.
Arguments mem {A} _.
Arguments frames {A} _.
Arguments PAGE_TABLE_PHYS {A} _.
Arguments cr3 {A} _.
Arguments invlpgs {A} _.

(** Entry [i] of the table at [t]: an array of 512 entries of 8 bytes. *)
Definition entry_at (t i : Z) : Z := t + 8 * i.

(** [write_bytes(table, 0, 1)] *)
Definition zero_table (m : ram) (t : Z) : ram := fill (Z.to_nat PAGE_SIZE) m t 0.
#[global] Arguments zero_table : simpl never.

Section paging.
Context {A : Type} {FS : FrameSource A}.
Variable L : Statics.

Abbreviation M := (stateE (Machine A) string).

Definition set_mem (m : ram) (s : Machine A) : Machine A :=
  mkMachine m (frames s) (PAGE_TABLE_PHYS s) (cr3 s) (invlpgs s).
Definition set_frames (a : A) (s : Machine A) : Machine A :=
  mkMachine (mem s) a (PAGE_TABLE_PHYS s) (cr3 s) (invlpgs s).

Definition read_entry (c : Z) : M PageTableEntry := gets (fun s => rd64 (mem s) c).
Definition write_entry (c : Z) (e : PageTableEntry) : M unit :=
  modify (fun s => set_mem (wr64 (mem s) c e) s).
Definition zero (t : Z) : M unit := modify (fun s => set_mem (zero_table (mem s) t) s).
Definition alloc_frame_m : M (option Z) := fun s =>
  let (o, a) := alloc_frame (frames s) in (Ok o, set_frames a s).
Definition invlpg (virt : Z) : M unit :=
  modify (fun s => mkMachine (mem s) (frames s) (PAGE_TABLE_PHYS s) (cr3 s) (virt :: invlpgs s)).
Definition write_cr3 (v : Z) : M unit :=
  modify (fun s => mkMachine (mem s) (frames s) (PAGE_TABLE_PHYS s) v (invlpgs s)).
Definition set_page_table_phys (v : Z) : M unit :=
  modify (fun s => mkMachine (mem s) (frames s) v (cr3 s) (invlpgs s)).

(** ** init *)


(** The address of [KPD[i]]. *)
Definition kpd (i : Z) : Z := KPD L + PAGE_SIZE * i.

Definition init_tables (m : ram) : ram :=
  let m := wr64 m (entry_at (KPML4 L) 0) (pte_new (KPDPT L) PW) in
  let m := wr64 m (entry_at (KPML4 L) 511) (pte_new (KPDPT L) PW) in
  let m := for_each 0 4 (fun i m => wr64 m (entry_at (KPDPT L) i) (pte_new (kpd i) PW)) m in
  for_each 0 4 (fun j m =>
    for_each 0 512 (fun i m =>
      wr64 m (entry_at (kpd j) i) (pte_new ((j * 512 + i) * 0x200000) PWH)) m) m.

Definition init : M unit :=
  modify (fun s => set_mem (init_tables (mem s)) s);;
  set_page_table_phys (KPML4 L);;
  write_cr3 (KPML4 L).

(** ** map_page *)

(** One level of the descent of [map_page]: if the entry at [c] is not
    present, allocate a table, link it and clear it; the address of the next
    table. *)
Definition next_table (msg : string) (c : Z) : M Z :=
  e ← read_entry c;
  (if negb (is_present e) then
     o ← alloc_frame_m;
     t ← ok_or msg o;
     write_entry c (pte_new t PW);;
     e ← read_entry c;
     zero (pte_addr e)
   else mret tt);;
  e ← read_entry c;
  mret (pte_addr e).

Definition map_page (virt phys flags : Z) : M unit :=
  let ix := indices virt in
  pdpt_t ← next_table "Failed to allocate frame for PDPT" (entry_at (KPML4 L) (pml4 ix));
  pd_t ← next_table "Failed to allocate frame for PD" (entry_at pdpt_t (pdpt ix));
  pt_t ← next_table "Failed to allocate frame for PT" (entry_at pd_t (pd ix));
  write_entry (entry_at pt_t (pt ix)) (pte_new phys (Z.lor flags flags.PRESENT));;
  invlpg virt.

(** ** unmap_page *)

(** Follow a present entry, or fail with [msg]. *)
Definition follow (msg : string) (c : Z) : M Z :=
  e ← read_entry c;
  if negb (is_present e) then fail msg else mret (pte_addr e).

Definition unmap_page (virt : Z) : M Z :=
  let ix := indices virt in
  pdpt_t ← follow "PML4 entry not present" (entry_at (KPML4 L) (pml4 ix));
  pd_t ← follow "PDPT entry not present" (entry_at pdpt_t (pdpt ix));
  pt_t ← follow "PD entry not present" (entry_at pd_t (pd ix));
  phys ← follow "PT entry not present" (entry_at pt_t (pt ix));
  write_entry (entry_at pt_t (pt ix)) pte_empty;;
  invlpg virt;;
  mret phys.

(** ** translate *)

Definition translate (m : ram) (virt : Z) : option Z :=
  let ix := indices virt in
  let pml4_entry := rd64 m (entry_at (KPML4 L) (pml4 ix)) in
  if negb (is_present pml4_entry) then None
  else
    let pdpt_entry := rd64 m (entry_at (pte_addr pml4_entry) (pdpt ix)) in
    if negb (is_present pdpt_entry) then None
    else if is_huge_page pdpt_entry then
      Some (pte_addr pdpt_entry ⊕ Z.land virt 0x3FFFFFFF)
    else
      let pd_entry := rd64 m (entry_at (pte_addr pdpt_entry) (pd ix)) in
      if negb (is_present pd_entry) then None
      else if is_huge_page pd_entry then
        Some (pte_addr pd_entry ⊕ Z.land virt 0x1FFFFF)
      else
        let pt_entry := rd64 m (entry_at (pte_addr pd_entry) (pt ix)) in
        if negb (is_present pt_entry) then None
        else Some (pte_addr pt_entry ⊕ offset ix).
End paging.

(** * Facts about entries *)

Lemma testbit_ADDR_MASK (i : Z) : 0 <= i -> Z.testbit ADDR_MASK i = (12 <=? i) && (i <? 52).
Proof.
  intros. change ADDR_MASK with (Z.shiftl (Z.ones 40) 12). zbits_simpl. zbits_split; lia || done.
Qed.

Lemma testbit_FLAG_MASK (i : Z) : 0 <= i -> Z.testbit FLAG_MASK i = (i <? 12) || (i =? 63).
Proof.
  intros. change FLAG_MASK with (Z.lor (2 ^ 63) (Z.ones 12)). zbits_simpl.
  zbits_split; lia || done.
Qed.
#[export] Hint Rewrite testbit_ADDR_MASK testbit_FLAG_MASK using lia : testbit.

Ltac pte_bits := unfold pte_new, pte_addr, pte_flags, set_addr, set_flags, pte_empty; zbits.

Lemma pte_addr_new (a f : Z) : pte_addr (pte_new a f) = Z.land a ADDR_MASK.
Proof. pte_bits. Qed.

Lemma pte_flags_new (a f : Z) : pte_flags (pte_new a f) = Z.land f FLAG_MASK.
Proof. pte_bits. Qed.

Lemma pte_new_addr_flags (e : Z) :
  0 <= e < 2 ^ 64 -> pte_new (pte_addr e) (pte_flags e) = Z.land e (Z.lor ADDR_MASK FLAG_MASK).
Proof. intros. pte_bits. Qed.

Lemma set_addr_new (a e : Z) : set_addr a e = pte_new a (pte_flags e).
Proof. pte_bits. Qed.

Lemma set_flags_new (f e : Z) : set_flags f e = pte_new (pte_addr e) f.
Proof. pte_bits. Qed.

Lemma land_ADDR_MASK (a : Z) : Z.land a ADDR_MASK = (a / 4096) mod 2 ^ 40 * 4096.
Proof.
  change ADDR_MASK with (Z.shiftl (Z.ones 40) 12). rewrite land_field by lia.
  by rewrite Z.shiftr_div_pow2, Z.shiftl_mul_pow2 by lia.
Qed.

(** The test of flag [k], for the flags an entry keeps. *)
Lemma flag_test (e k : Z) :
  0 <= k < 12 \/ k = 63 ->
  negb (Z.land (pte_flags e) (Z.shiftl 1 k) =? 0) = Z.testbit e k.
Proof.
  intros Hk. rewrite land_bit_eqb, negb_involutive by lia. unfold pte_flags.
  rewrite Z.land_spec, testbit_FLAG_MASK by lia. zbits_split; try lia; by rewrite andb_true_r.
Qed.

Lemma is_present_testbit (e : Z) : is_present e = Z.testbit e 0.
Proof. apply flag_test. lia. Qed.

Lemma is_huge_page_testbit (e : Z) : is_huge_page e = Z.testbit e 7.
Proof. apply flag_test. lia. Qed.

Lemma testbit_pte_new (a f k : Z) :
  0 <= k < 12 \/ k = 63 -> Z.testbit (pte_new a f) k = Z.testbit f k.
Proof.
  intros Hk. unfold pte_new. rewrite Z.lor_spec, !Z.land_spec.
  rewrite testbit_ADDR_MASK, testbit_FLAG_MASK by lia.
  zbits_split; try lia; by rewrite ?andb_false_r, ?andb_true_r, ?orb_false_l.
Qed.

Lemma pte_new_range (a f : Z) : 0 <= pte_new a f < 2 ^ 64.
Proof.
  unfold pte_new. apply lor_range; [lia| |]; rewrite Z.land_comm; apply land_range; unfold ADDR_MASK, FLAG_MASK; lia.
Qed.

Lemma pte_addr_range (e : Z) : 0 <= pte_addr e < 2 ^ 52.
Proof. unfold pte_addr. rewrite Z.land_comm. apply land_range; unfold ADDR_MASK; lia. Qed.

Lemma pte_addr_page (e : Z) : pte_addr e = pte_addr e / 4096 * 4096.
Proof. unfold pte_addr. rewrite land_ADDR_MASK. by rewrite Z.div_mul by lia. Qed.

(** A page-aligned address below 2^52 survives in an entry. *)
Lemma pte_addr_new_page (p f : Z) :
  0 <= p < 2 ^ 40 -> pte_addr (pte_new (p * 4096) f) = p * 4096.
Proof.
  intros. rewrite pte_addr_new, land_ADDR_MASK, Z.div_mul by lia. by rewrite Z.mod_small by lia.
Qed.

Lemma pte_new_PW (a : Z) : is_present (pte_new a PW) = true /\ is_huge_page (pte_new a PW) = false.
Proof. rewrite is_present_testbit, is_huge_page_testbit, !testbit_pte_new by lia. done. Qed.

Lemma pte_new_PWH (a : Z) : is_present (pte_new a PWH) = true /\ is_huge_page (pte_new a PWH) = true.
Proof. rewrite is_present_testbit, is_huge_page_testbit, !testbit_pte_new by lia. done. Qed.

Lemma pte_new_present (a f : Z) : is_present (pte_new a (Z.lor f flags.PRESENT)) = true.
Proof. rewrite is_present_testbit, testbit_pte_new, Z.lor_spec by lia. apply orb_true_r. Qed.

Lemma not_present_empty : is_present pte_empty = false.
Proof. done. Qed.

(** * Facts about virtual addresses *)

Lemma indices_div (v : Z) :
  indices v = mkIndices (v / 2 ^ 39 mod 512) (v / 2 ^ 30 mod 512) (v / 2 ^ 21 mod 512)
                (v / 2 ^ 12 mod 512) (v mod 4096).
Proof.
  unfold indices. change 0x1FF with (Z.ones 9). change 0xFFF with (Z.ones 12).
  by rewrite !shiftr_land_ones, Z.land_ones by lia.
Qed.

Lemma indices_range (v : Z) :
  0 <= pml4 (indices v) < 512 /\ 0 <= pdpt (indices v) < 512 /\ 0 <= pd (indices v) < 512 /\
  0 <= pt (indices v) < 512 /\ 0 <= offset (indices v) < 4096.
Proof. rewrite indices_div. cbn. repeat split; apply Z.mod_pos_bound; lia. Qed.

(** The four indices and the offset are the digits of the low 48 bits. *)
Lemma indices_value (v : Z) :
  v mod 2 ^ 48 =
    ((((pml4 (indices v) * 512 + pdpt (indices v)) * 512 + pd (indices v)) * 512
      + pt (indices v)) * 4096 + offset (indices v)).
Proof.
  rewrite indices_div. cbn [pml4 pdpt pd pt offset].
  assert (forall n, 0 <= n -> v / 2 ^ (n + 9) = v / 2 ^ n / 512) as Hd.
  { intros n Hn. rewrite Z.div_div by lia. by rewrite Z.pow_add_r by lia. }
  rewrite (Hd 30 ltac:(lia) : v / 2 ^ 39 = _), (Hd 21 ltac:(lia) : v / 2 ^ 30 = _),
    (Hd 12 ltac:(lia) : v / 2 ^ 21 = _).
  change (2 ^ 12) with 4096. change (2 ^ 48) with (4096 * (512 * (512 * (512 * 512)))).
  rewrite !Z.rem_mul_r by lia. lia.
Qed.

(** * Properties *)

(** A page table entry is its fields: [new] keeps the page bits 12 to 51
    of the address (all of it, when the address is page-aligned and below 2^52)
    and the flag bits 0 to 11 and 63; the setters change one field and keep the
    other; an entry with no reserved bit is rebuilt from its fields; and each
    test reads the bit of its flag. *)
Theorem page_table_entry_fields (e addr f : Z) (He : 0 <= e < 2 ^ 64) :
  pte_addr (pte_new addr f) = addr / 2 ^ 12 mod 2 ^ 40 * 2 ^ 12 /\
  (addr mod 4096 = 0 -> 0 <= addr < 2 ^ 52 -> pte_addr (pte_new addr f) = addr) /\
  pte_flags (pte_new addr f) = Z.land f FLAG_MASK /\
  0 <= pte_new addr f < 2 ^ 64 /\
  pte_addr (set_addr addr e) = pte_addr (pte_new addr f) /\
  pte_flags (set_addr addr e) = pte_flags e /\
  pte_flags (set_flags f e) = pte_flags (pte_new addr f) /\
  pte_addr (set_flags f e) = pte_addr e /\
  (e / 2 ^ 52 mod 2 ^ 11 = 0 -> pte_new (pte_addr e) (pte_flags e) = e) /\
  [is_present e; is_writable e; is_user_accessible e; is_write_through e; is_cache_disabled e;
   is_accessed e; is_dirty e; is_huge_page e; is_global e; is_no_execute e]
  = Z.testbit e <$> [0; 1; 2; 3; 4; 5; 6; 7; 8; 63].
Proof.
  assert (pte_addr (pte_new addr f) = addr / 2 ^ 12 mod 2 ^ 40 * 2 ^ 12) as Ha.
  { rewrite pte_addr_new, land_ADDR_MASK. done. }
  split_and!.
  - exact Ha.
  - intros Hal Hr. rewrite Ha. change (2 ^ 12) with 4096.
    rewrite Z.mod_small by (Z.div_mod_to_equations; lia). Z.div_mod_to_equations. lia.
  - apply pte_flags_new.
  - apply pte_new_range.
  - apply pte_new_range.
  - rewrite set_addr_new. by rewrite !pte_addr_new.
  - pte_bits.
  - pte_bits.
  - pte_bits.
  - intros Hres. rewrite pte_new_addr_flags by done.
    rewrite <- Z.shiftr_div_pow2, <- Z.land_ones in Hres by lia.
    apply Z.bits_inj'. intros i Hi. rewrite Z.land_spec, Z.lor_spec, testbit_ADDR_MASK, testbit_FLAG_MASK by lia.
    pose proof (f_equal (fun z => Z.testbit z (i - 52)) Hres) as Hb. cbv beta in Hb.
    rewrite Z.land_spec, Z.testbit_0_l in Hb.
    destruct (decide (52 <= i < 63)) as [Hin|Hout].
    + rewrite Z.shiftr_spec, testbit_ones_eq in Hb by lia.
      replace (i - 52 + 52) with i in Hb by lia.
      rewrite (proj2 (Z.leb_le _ _)), (proj2 (Z.ltb_lt _ _)), !andb_true_r in Hb by lia. by rewrite Hb.
    + destruct (decide (64 <= i)); [by rewrite (testbit_range e 64)|].
      zbits_split; try lia; by rewrite andb_true_r.
  - unfold is_present, is_writable, is_user_accessible, is_write_through,
      is_cache_disabled, is_accessed, is_dirty, is_huge_page, is_global, is_no_execute.
    change (Z.testbit e <$> [0; 1; 2; 3; 4; 5; 6; 7; 8; 63]) with
      [Z.testbit e 0; Z.testbit e 1; Z.testbit e 2; Z.testbit e 3; Z.testbit e 4; Z.testbit e 5;
       Z.testbit e 6; Z.testbit e 7; Z.testbit e 8; Z.testbit e 63].
    repeat (apply (f_equal2 cons); [apply flag_test; lia|]). reflexivity.
Qed.

Lemma page_table_entry_fields_witness :
  pte_new (pte_addr 0x8000000012345087) (pte_flags 0x8000000012345087) = 0x8000000012345087 /\
  is_no_execute 0x8000000012345087 = true /\ is_huge_page 0x8000000012345087 = true.
Proof.
  destruct (page_table_entry_fields 0x8000000012345087 0 0 ltac:(lia))
    as (_ & _ & _ & _ & _ & _ & _ & _ & Hr & _).
  split; [apply Hr; reflexivity|]. split; reflexivity.
Defined.

(** The indices and the offset [VirtualAddress::indices] computes index
    their tables and are exactly the low 48 bits of the address. *)
Theorem indices_decompose (v : Z) :
  let ix := indices v in
  0 <= pml4 ix < 512 /\ 0 <= pdpt ix < 512 /\ 0 <= pd ix < 512 /\ 0 <= pt ix < 512 /\
  0 <= offset ix < 4096 /\
  pml4 ix * 2 ^ 39 + pdpt ix * 2 ^ 30 + pd ix * 2 ^ 21 + pt ix * 2 ^ 12 + offset ix = v mod 2 ^ 48.
Proof.
  cbv zeta. destruct (indices_range v) as (H4 & H3 & H2 & H1 & H0). split_and!; try lia.
  rewrite indices_value. lia.
Qed.
