(* ===== verification/PageWalk.v ===== *)
(** The correctness of [paging.rs]: an invariant on the tree of page tables,
    kept by every operation, and what [map_page], [unmap_page] and [init] do to
    the translation of every virtual address. *)
From S2P Require Import Prelude Ram Mem Frames Phys Paging.
From stdpp Require Import base numbers list gmap sets strings tactics.
From Stdlib Require Import ZArith Lia.
Open Scope Z_scope.
Open Scope word_scope.

#[local] Arguments indices : simpl never.

(** * The tree of tables

    A table has a role: the list of the indices that lead to it from the root.
    The root's entries 0 and 511 lead to the same role, because [init] links
    both to [KPDPT] and mappings made through one appear under the other. *)
Abbreviation role := (list Z).

Definition child (r : role) (i : Z) : role :=
  match r with
  | [] => [if i =? 511 then 0 else i]
  | _ => r ++ [i]
  end.

(** The address of entry [i] of the table in page [p]. *)
Definition cell (p i : Z) : Z := entry_at (p * 4096) i.

(** An entry that maps a huge page instead of linking a table: levels 3 and 2. *)
Definition leaf (r : role) (e : PageTableEntry) : bool :=
  negb (Nat.eqb (length r) 0) && is_huge_page e.

Record tables_ok (L : Statics) (m : ram) (T : gmap Z role) : Prop := {
  ok_root : exists p, KPML4 L = p * 4096 /\ T !! p = Some [];
  ok_page p r : T !! p = Some r -> 0 <= p < 2 ^ 40 /\ (length r <= 3)%nat;
  ok_child p r i :
    T !! p = Some r -> (length r <= 2)%nat -> 0 <= i < 512 ->
    is_present (rd64 m (cell p i)) = true -> leaf r (rd64 m (cell p i)) = false ->
    T !! (pte_addr (rd64 m (cell p i)) / 4096) = Some (child r i)
}.

Lemma cell_disjoint p i q j :
  0 <= i < 512 -> 0 <= j < 512 -> (p, i) <> (q, j) -> disjoint_ranges (cell p i) 8 (cell q j) 8.
Proof.
  intros Hi Hj Hne. unfold disjoint_ranges, cell, entry_at.
  destruct (decide (p = q)) as [->|]; [|lia].
  destruct (decide (i = j)) as [->|]; [done|lia].
Qed.

Lemma rd64_zero_in m q j : 0 <= j < 512 -> rd64 (zero_table m (q * 4096)) (cell q j) = 0.
Proof.
  intros. unfold zero_table, cell, entry_at. change (Z.to_nat PAGE_SIZE) with 4096%nat.
  apply rd64_fill_in; lia.
Qed.

Lemma rd64_zero_out m q p j :
  0 <= j < 512 -> p <> q -> rd64 (zero_table m (q * 4096)) (cell p j) = rd64 m (cell p j).
Proof.
  intros. unfold zero_table, cell, entry_at. change (Z.to_nat PAGE_SIZE) with 4096%nat.
  apply rd64_fill_out. unfold disjoint_ranges. lia.
Qed.

Lemma rd64_wr64_cell_same m p i a f : rd64 (wr64 m (cell p i) (pte_new a f)) (cell p i) = pte_new a f.
Proof. apply rd64_wr64_same, pte_new_range. Qed.

Lemma rd64_wr64_cell_ne m p i e q j :
  0 <= i < 512 -> 0 <= j < 512 -> (p, i) <> (q, j) ->
  rd64 (wr64 m (cell p i) e) (cell q j) = rd64 m (cell q j).
Proof. intros. by apply rd64_wr64_ne, cell_disjoint. Qed.

Lemma entry_at_addr e i : entry_at (pte_addr e) i = cell (pte_addr e / 4096) i.
Proof. unfold cell. by rewrite <- pte_addr_page. Qed.

(** * Walks

    [walk] is what [translate], [map_page] and [unmap_page] have in common: the
    entries read on the way to an address. *)
Record steps : Type := mkSteps { e4 : Z; e3 : Z; e2 : Z; e1 : Z }.

Definition walk (L : Statics) (m : ram) (v : Z) : steps :=
  let ix := indices v in
  let x4 := rd64 m (entry_at (KPML4 L) (pml4 ix)) in
  let x3 := rd64 m (entry_at (pte_addr x4) (pdpt ix)) in
  let x2 := rd64 m (entry_at (pte_addr x3) (pd ix)) in
  let x1 := rd64 m (entry_at (pte_addr x2) (pt ix)) in
  mkSteps x4 x3 x2 x1.

(** The walk to [v] meets a huge page: a present [PDPT] or [PD] entry with the
    [HUGE_PAGE] bit. *)
Definition huge_on_path (L : Statics) (m : ram) (v : Z) : bool :=
  let w := walk L m v in
  is_present (e4 w) && is_present (e3 w) &&
  (is_huge_page (e3 w) || (is_present (e2 w) && is_huge_page (e2 w))).

Definition translate_walk (w : steps) (v : Z) : option Z :=
  if negb (is_present (e4 w)) then None
  else if negb (is_present (e3 w)) then None
  else if is_huge_page (e3 w) then Some (pte_addr (e3 w) ⊕ Z.land v 0x3FFFFFFF)
  else if negb (is_present (e2 w)) then None
  else if is_huge_page (e2 w) then Some (pte_addr (e2 w) ⊕ Z.land v 0x1FFFFF)
  else if negb (is_present (e1 w)) then None
  else Some (pte_addr (e1 w) ⊕ offset (indices v)).

Lemma translate_eq L m v : translate L m v = translate_walk (walk L m v) v.
Proof. done. Qed.

(** * Adding tables

    [grows T m m']: of the entries of the tables [T], [m'] only changes some
    that were not present, linking them to tables that are all zero. *)
Definition grows (T : gmap Z role) (m m' : ram) : Prop :=
  forall p r i, T !! p = Some r -> 0 <= i < 512 ->
    rd64 m' (cell p i) = rd64 m (cell p i) \/
    is_present (rd64 m (cell p i)) = false /\ (length r <= 2)%nat /\
    is_huge_page (rd64 m' (cell p i)) = false /\
    forall j, 0 <= j < 512 -> rd64 m' (cell (pte_addr (rd64 m' (cell p i)) / 4096) j) = 0.

Lemma grows_step L T m m' p r i :
  tables_ok L m T -> grows T m m' -> T !! p = Some r -> 0 <= i < 512 ->
  let e := rd64 m (cell p i) in
  let e' := rd64 m' (cell p i) in
  e' = e /\
    (is_present e = true -> (length r <= 2)%nat -> leaf r e = false ->
     exists q r', pte_addr e = q * 4096 /\ T !! q = Some r' /\ length r' = S (length r)) \/
  is_present e = false /\ is_huge_page e' = false /\ (length r <= 2)%nat /\
    forall j, 0 <= j < 512 -> rd64 m' (entry_at (pte_addr e') j) = 0.
Proof.
  intros Hok Hg Hp Hi e e'. destruct (Hg p r i Hp Hi) as [Heq|(Hn & Hl & Hh & Hz)].
  - left. split; [done|]. intros Hpr Hl Hlf.
    pose proof (ok_child _ _ _ Hok p r i Hp Hl Hi Hpr Hlf) as Hc.
    eexists _, _. split; [apply pte_addr_page|]. split; [exact Hc|].
    destruct r; [done|]. cbn. rewrite length_app. cbn. lia.
  - right. repeat split; [done|done|done|]. intros j Hj.
    rewrite entry_at_addr. by apply Hz.
Qed.

Lemma zero_not_present : is_present 0 = false.
Proof. done. Qed.

(** Adding empty tables changes no translation. *)
Lemma grows_translate L T m m' v :
  tables_ok L m T -> grows T m m' -> translate L m' v = translate L m v.
Proof.
  intros Hok Hg. destruct (ok_root _ _ _ Hok) as (p4 & Hr & Hp4).
  destruct (indices_range v) as (H4 & H3 & H2 & H1 & _).
  unfold translate. rewrite Hr.
  destruct (grows_step _ _ _ _ p4 _ _ Hok Hg Hp4 H4) as [[E4 N4]|(E4 & _ & _ & Z4)];
    change (entry_at (p4 * 4096)) with (cell p4).
  2:{ rewrite E4. cbn [negb]. destruct (is_present (rd64 m' (cell p4 _))); [|done]. cbn [negb]. by rewrite Z4. }
  rewrite E4. destruct (is_present (rd64 m (cell p4 _))) eqn:P4; [|done]. cbn [negb].
  destruct N4 as (p3 & r3 & A3 & Hp3 & L3); [done|cbn; lia|done|]. rewrite A3.
  destruct (grows_step _ _ _ _ p3 _ _ Hok Hg Hp3 H3) as [[E3 N3]|(E3 & F3 & _ & Z3)];
    change (entry_at (p3 * 4096)) with (cell p3).
  2:{ rewrite E3, F3. cbn [negb]. destruct (is_present (rd64 m' (cell p3 _))); [|done]. cbn [negb]. by rewrite Z3. }
  rewrite E3. destruct (is_present (rd64 m (cell p3 _))) eqn:P3; [|done]. cbn [negb].
  destruct (is_huge_page (rd64 m (cell p3 _))) eqn:G3; [done|].
  destruct N3 as (p2 & r2 & A2 & Hp2 & L2); [done|rewrite L3; cbn; lia|unfold leaf; by rewrite G3, andb_false_r|].
  rewrite A2.
  destruct (grows_step _ _ _ _ p2 _ _ Hok Hg Hp2 H2) as [[E2 N2]|(E2 & F2 & _ & Z2)];
    change (entry_at (p2 * 4096)) with (cell p2).
  2:{ rewrite E2, F2. cbn [negb]. destruct (is_present (rd64 m' (cell p2 _))); [|done]. cbn [negb]. by rewrite Z2. }
  rewrite E2. destruct (is_present (rd64 m (cell p2 _))) eqn:P2; [|done]. cbn [negb].
  destruct (is_huge_page (rd64 m (cell p2 _))) eqn:G2; [done|].
  destruct N2 as (p1 & r1 & A1 & Hp1 & L1); [done|rewrite L2, L3; cbn; lia|unfold leaf; by rewrite G2, andb_false_r|].
  rewrite A1.
  destruct (grows_step _ _ _ _ p1 _ _ Hok Hg Hp1 H1) as [[E1 _]|(_ & _ & Hbad & _)];
    change (entry_at (p1 * 4096)) with (cell p1); [by rewrite E1|].
  rewrite L1, L2, L3 in Hbad. cbn in Hbad. lia.
Qed.

(** Linking the entry [i] of the table in page [p] to a fresh page [q], and
    clearing [q], in the order of [map_page]. *)
Definition link (m : ram) (p i q : Z) : ram :=
  zero_table (wr64 m (cell p i) (pte_new (q * 4096) PW)) (q * 4096).

Lemma child_length r j : length (child r j) = S (length r).
Proof. destruct r; [done|]. cbn. rewrite length_app. cbn. lia. Qed.

Lemma link_new m p i q j : 0 <= j < 512 -> rd64 (link m p i q) (cell q j) = 0.
Proof. apply rd64_zero_in. Qed.

Section link.
Context (L : Statics) (m : ram) (T : gmap Z role) (p i q : Z) (r : role).
Context (Hok : tables_ok L m T) (Hp : T !! p = Some r) (Hl : (length r <= 2)%nat).
Context (Hi : 0 <= i < 512) (Hn : is_present (rd64 m (cell p i)) = false).
Context (Hq : T !! q = None) (Hq40 : 0 <= q < 2 ^ 40).

Local Lemma link_ne p' r' : T !! p' = Some r' -> p' <> q.
Proof. congruence. Qed.

Lemma link_same : rd64 (link m p i q) (cell p i) = pte_new (q * 4096) PW.
Proof.
  unfold link. rewrite rd64_zero_out by (done || by eapply link_ne). apply rd64_wr64_cell_same.
Qed.

Lemma link_other p' r' j :
  T !! p' = Some r' -> 0 <= j < 512 -> (p', j) <> (p, i) ->
  rd64 (link m p i q) (cell p' j) = rd64 m (cell p' j).
Proof.
  intros Hp' Hj Hne. unfold link. rewrite rd64_zero_out by (done || by eapply link_ne).
  by apply rd64_wr64_cell_ne.
Qed.

Lemma link_target : pte_addr (rd64 (link m p i q) (cell p i)) = q * 4096.
Proof. rewrite link_same. by apply pte_addr_new_page. Qed.

Lemma link_target_page : pte_addr (rd64 (link m p i q) (cell p i)) / 4096 = q.
Proof. rewrite link_target. by apply Z.div_mul. Qed.

Lemma link_grows : grows T m (link m p i q).
Proof.
  intros p' r' j Hp' Hj.
  destruct (decide ((p', j) = (p, i))) as [[= -> ->]|Hne]; [|left; by eapply link_other].
  right. split; [done|]. assert (r' = r) as -> by congruence. split; [done|].
  rewrite link_target_page, link_same. split; [apply pte_new_PW|]. apply link_new.
Qed.

Lemma link_tables_ok : tables_ok L (link m p i q) (<[q := child r i]> T).
Proof.
  constructor.
  - destruct (ok_root _ _ _ Hok) as (p4 & ? & ?). exists p4. split; [done|].
    rewrite lookup_insert_ne by (intros ->; congruence). done.
  - intros p' r'. rewrite lookup_insert_Some. intros [[-> <-]|[? Hp']].
    + rewrite child_length. lia.
    + by apply (ok_page _ _ _ Hok).
  - intros p' r' j. rewrite lookup_insert_Some. intros [[-> <-]|[? Hp']] Hl' Hj.
    { rewrite link_new by done. done. }
    destruct (decide ((p', j) = (p, i))) as [[= -> ->]|Hne].
    + intros _ _. rewrite link_target_page. rewrite lookup_insert_eq. f_equal. congruence.
    + rewrite (link_other p' r') by done. intros Hpr Hlf.
      pose proof (ok_child _ _ _ Hok p' r' j Hp' Hl' Hj Hpr Hlf) as Hc.
      rewrite lookup_insert_ne by (intros ->; congruence). done.
Qed.
End link.

(** * Paths

    The roles of the tables a walk to [v] goes through, and the slot of [v]:
    the last table's role and the index in it.  Two addresses have the same
    slot iff they are in the same page, up to the two halves of the root. *)
Definition path3 (v : Z) : role := child [] (pml4 (indices v)).
Definition path2 (v : Z) : role := child (path3 v) (pdpt (indices v)).
Definition path1 (v : Z) : role := child (path2 v) (pd (indices v)).
Definition slot (v : Z) : role * Z := (path1 v, pt (indices v)).

Definition on_walk (v : Z) (r : role) (j : Z) : Prop :=
  r = [] /\ j = pml4 (indices v) \/ r = path3 v /\ j = pdpt (indices v) \/
  r = path2 v /\ j = pd (indices v) \/ (r, j) = slot v.

Lemma path_lengths v : length (path3 v) = 1%nat /\ length (path2 v) = 2%nat /\ length (path1 v) = 3%nat.
Proof. unfold path1, path2, path3. rewrite !child_length. done. Qed.

(** Following a link of a well-formed tree. *)
Lemma ok_next L m T p r i :
  tables_ok L m T -> T !! p = Some r -> (length r <= 2)%nat -> 0 <= i < 512 ->
  is_present (rd64 m (cell p i)) = true -> leaf r (rd64 m (cell p i)) = false ->
  exists q, pte_addr (rd64 m (cell p i)) = q * 4096 /\ T !! q = Some (child r i).
Proof.
  intros Hok Hp Hl Hi Hpr Hlf. eexists. split; [apply pte_addr_page|].
  by eapply ok_child.
Qed.

(** [translate] only reads the cells on the walk. *)
Lemma translate_agree L m m' T v :
  tables_ok L m T ->
  (forall p r j, T !! p = Some r -> 0 <= j < 512 -> on_walk v r j ->
                 rd64 m' (cell p j) = rd64 m (cell p j)) ->
  translate L m' v = translate L m v.
Proof.
  intros Hok Heq. destruct (ok_root _ _ _ Hok) as (p4 & Hr & Hp4).
  destruct (indices_range v) as (H4 & H3 & H2 & H1 & _).
  destruct (path_lengths v) as (L3 & L2 & L1).
  unfold translate. rewrite Hr. change (entry_at (p4 * 4096)) with (cell p4).
  rewrite (Heq p4 [] _ Hp4 H4) by (left; done).
  destruct (is_present (rd64 m (cell p4 _))) eqn:P4; [|done]. cbn [negb].
  destruct (ok_next _ _ _ _ _ _ Hok Hp4 (Nat.le_0_l _) H4 P4 eq_refl) as (p3 & A3 & Hp3).
  rewrite A3. change (entry_at (p3 * 4096)) with (cell p3).
  rewrite (Heq p3 _ _ Hp3 H3) by (right; left; done).
  destruct (is_present (rd64 m (cell p3 _))) eqn:P3; [|done]. cbn [negb].
  destruct (is_huge_page (rd64 m (cell p3 _))) eqn:G3; [done|].
  destruct (ok_next _ _ _ p3 _ _ Hok Hp3 ltac:(fold (path3 v); lia) H3 P3
              ltac:(unfold leaf; by rewrite G3, andb_false_r)) as (p2 & A2 & Hp2).
  rewrite A2. change (entry_at (p2 * 4096)) with (cell p2).
  rewrite (Heq p2 _ _ Hp2 H2) by (right; right; left; done).
  destruct (is_present (rd64 m (cell p2 _))) eqn:P2; [|done]. cbn [negb].
  destruct (is_huge_page (rd64 m (cell p2 _))) eqn:G2; [done|].
  destruct (ok_next _ _ _ p2 _ _ Hok Hp2 ltac:(fold (path3 v) (path2 v); lia) H2 P2
              ltac:(unfold leaf; by rewrite G2, andb_false_r)) as (p1 & A1 & Hp1).
  rewrite A1. change (entry_at (p1 * 4096)) with (cell p1).
  rewrite (Heq p1 _ _ Hp1 H1) by (right; right; right; done). done.
Qed.

(** * The last level *)

(** The walk to [v] goes through the tables in pages [p4], ..., [p1] and meets
    no huge page. *)
Record reaches (L : Statics) (m : ram) (v p4 p3 p2 p1 : Z) : Prop := {
  re_root : KPML4 L = p4 * 4096;
  re_4 : is_present (rd64 m (cell p4 (pml4 (indices v)))) = true;
  re_a4 : pte_addr (rd64 m (cell p4 (pml4 (indices v)))) = p3 * 4096;
  re_3 : is_present (rd64 m (cell p3 (pdpt (indices v)))) = true;
  re_h3 : is_huge_page (rd64 m (cell p3 (pdpt (indices v)))) = false;
  re_a3 : pte_addr (rd64 m (cell p3 (pdpt (indices v)))) = p2 * 4096;
  re_2 : is_present (rd64 m (cell p2 (pd (indices v)))) = true;
  re_h2 : is_huge_page (rd64 m (cell p2 (pd (indices v)))) = false;
  re_a2 : pte_addr (rd64 m (cell p2 (pd (indices v)))) = p1 * 4096
}.

Lemma reaches_translate L m v p4 p3 p2 p1 :
  reaches L m v p4 p3 p2 p1 ->
  translate L m v =
    (let e := rd64 m (cell p1 (pt (indices v))) in
     if is_present e then Some (pte_addr e ⊕ offset (indices v)) else None).
Proof.
  intros [Hr P4 A4 P3 G3 A3 P2 G2 A2]. unfold translate. rewrite Hr.
  change (entry_at (p4 * 4096)) with (cell p4).
  rewrite P4, A4. change (entry_at (p3 * 4096)) with (cell p3).
  rewrite P3, G3, A3. change (entry_at (p2 * 4096)) with (cell p2).
  rewrite P2, G2, A2. change (entry_at (p1 * 4096)) with (cell p1).
  cbn [negb]. by destruct (is_present (rd64 m (cell p1 _))).
Qed.

Lemma leaf_write_ok L m T q i e r :
  tables_ok L m T -> T !! q = Some r -> length r = 3%nat -> 0 <= i < 512 ->
  tables_ok L (wr64 m (cell q i) e) T.
Proof.
  intros Hok Hq Hl Hi. constructor.
  - apply (ok_root _ _ _ Hok).
  - apply (ok_page _ _ _ Hok).
  - intros p r' j Hp Hl' Hj.
    assert (p <> q) by (intros ->; assert (r = r') by congruence; subst; lia).
    rewrite rd64_wr64_cell_ne by (done || congruence). by apply (ok_child _ _ _ Hok).
Qed.

(** Writing an entry of the last level changes no translation that does not
    use the entry. *)
Lemma leaf_write_translate L m T q i e r v :
  tables_ok L m T -> T !! q = Some r -> length r = 3%nat -> 0 <= i < 512 ->
  (r, i) <> slot v -> translate L (wr64 m (cell q i) e) v = translate L m v.
Proof.
  intros Hok Hq Hl Hi Hne. apply (translate_agree _ _ _ _ _ Hok).
  intros p r' j Hp Hj Hw. apply rd64_wr64_cell_ne; [done|done|].
  intros [= -> ->]. assert (r' = r) as -> by congruence.
  destruct (path_lengths v) as (L3 & L2 & L1).
  destruct Hw as [[-> _]|[[-> _]|[[-> _]|Hw]]]; [done|congruence|congruence|done].
Qed.

(** * The operations *)

#[local] Opaque zero_table.

Section operations.
Context {A : Type} {FS : FrameSource A} {FL : FrameLaws A}.
Variable L : Statics.
Implicit Types (s : Machine A) (T : gmap Z role).

(** The invariant of [paging]: a well-formed tree of tables, and no page that
    the frame allocator may hand out is a table. *)
Record paging_inv (s : Machine A) (T : gmap Z role) : Prop := {
  pi_tables : tables_ok L (mem s) T;
  pi_frames : fs_inv (frames s);
  pi_sep q : q ∈ fs_free (frames s) -> T !! q = None
}.

(** What a step that only adds tables does: [n] bounds the frames it takes. *)
Record extends (n : nat) (s : Machine A) (T : gmap Z role) (s' : Machine A) (T' : gmap Z role) : Prop := {
  ex_inv : paging_inv s' T';
  ex_T : T ⊆ T';
  ex_kept p r j :
    T !! p = Some r -> 0 <= j < 512 -> is_present (rd64 (mem s) (cell p j)) = true ->
    rd64 (mem s') (cell p j) = rd64 (mem s) (cell p j);
  ex_trans v : translate L (mem s') v = translate L (mem s) v;
  ex_free : fs_free (frames s') ⊆ fs_free (frames s);
  ex_size : (size (fs_free (frames s)) <= size (fs_free (frames s')) + n)%nat;
  ex_phys : PAGE_TABLE_PHYS s' = PAGE_TABLE_PHYS s;
  ex_cr3 : cr3 s' = cr3 s;
  ex_invlpgs : invlpgs s' = invlpgs s
}.

Lemma extends_refl n s T : paging_inv s T -> extends n s T s T.
Proof. intros. constructor; auto. lia. Qed.

Lemma extends_trans n n' s T s' T' s'' T'' :
  extends n s T s' T' -> extends n' s' T' s'' T'' -> extends (n + n') s T s'' T''.
Proof.
  intros [I1 T1 K1 V1 F1 Z1 P1 C1 N1] [I2 T2 K2 V2 F2 Z2 P2 C2 N2].
  constructor; [done|by etrans| | |by etrans|lia|congruence|congruence|congruence].
  - intros p r j Hp Hj He. rewrite <- (K1 p r j) by done.
    apply (K2 p r); [by eapply lookup_weaken|done|]. by rewrite (K1 p r j).
  - intros v. by rewrite V2.
Qed.

(** The result of [next_table] on the entry [i] of a table of role [r]. *)
Definition next_post (s : Machine A) (T : gmap Z role) (p i : Z) (r : role)
    (t : Z) (s' : Machine A) : Prop :=
  exists q T',
    t = q * 4096 /\ extends 1 s T s' T' /\ T' !! q = Some (child r i) /\
    is_present (rd64 (mem s') (cell p i)) = true /\
    leaf r (rd64 (mem s') (cell p i)) = false /\
    pte_addr (rd64 (mem s') (cell p i)) = q * 4096 /\
    (is_present (rd64 (mem s) (cell p i)) = true /\ s' = s \/
     forall j, 0 <= j < 512 -> rd64 (mem s') (cell q j) = 0).

Lemma next_table_spec msg s T p i r :
  paging_inv s T -> T !! p = Some r -> (length r <= 2)%nat -> 0 <= i < 512 ->
  (is_present (rd64 (mem s) (cell p i)) = true -> leaf r (rd64 (mem s) (cell p i)) = false) ->
  match next_table msg (cell p i) s with
  | (Ok t, s') => next_post s T p i r t s'
  | (Err e, s') => e = msg /\ s' = s /\ fs_free (frames s) = ∅
  end.
Proof.
  intros Hinv Hp Hl Hi Hlf. pose proof Hinv as [Hok Hfr Hsep].
  unfold next_table, read_entry, write_entry, zero, alloc_frame_m, gets, modify, ok_or,
    mbind, stateE_bind, mret, stateE_ret, fail.
  destruct (is_present (rd64 (mem s) (cell p i))) eqn:Hpr; cbn [negb].
  { destruct (ok_next _ _ _ _ _ _ Hok Hp Hl Hi Hpr (Hlf eq_refl)) as (q & Hq & HTq).
    exists q, T. rewrite Hpr. split_and!; auto using extends_refl. }
  destruct (alloc_frame (frames s)) as [[a|] fs] eqn:Ha.
  2:{ destruct (fs_alloc_none _ _ Hfr Ha) as [-> ?]. by destruct s. }
  destruct (fs_alloc_some _ _ _ Hfr Ha) as (Hfr' & q & -> & Hq & Hqin & Hfree).
  pose proof (Hsep _ Hqin) as HTq.
  cbn [mem set_mem set_frames frames].
  change (q * PAGE_SIZE) with (q * 4096).
  rewrite rd64_wr64_cell_same, pte_addr_new_page by lia.
  change (zero_table (wr64 (mem s) (cell p i) (pte_new (q * 4096) PW)) (q * 4096))
    with (link (mem s) p i q).
  assert (0 <= q < 2 ^ 40) as Hq40 by lia.
  exists q, (<[q := child r i]> T).
  unfold set_mem, set_frames. cbn [mem frames PAGE_TABLE_PHYS cr3 invlpgs].
  rewrite (link_same _ T _ _ _ r) by done. rewrite pte_addr_new_page by done.
  destruct (pte_new_PW (q * 4096)) as [Hpw Hhw].
  split; [done|]. split; [|split; [by rewrite lookup_insert_eq|]].
  2:{ split; [done|]. split; [unfold leaf; by rewrite Hhw, andb_false_r|].
      split; [done|]. right. intros. by apply link_new. }
  constructor; cbn [mem frames PAGE_TABLE_PHYS cr3 invlpgs];
    [| | | | | |reflexivity|reflexivity|reflexivity].
  - constructor; cbn [mem frames]; [by apply link_tables_ok|done|].
    intros q' Hq'. rewrite Hfree in Hq'. apply elem_of_difference in Hq' as [Hin Hne].
    rewrite lookup_insert_ne; [by apply Hsep|]. intros ->. by apply Hne, elem_of_singleton.
  - by apply insert_subseteq.
  - intros p' r' j Hp' Hj He. eapply (link_other _ T); [done|done|exact Hp'|done|].
    intros [= -> ->]. congruence.
  - intros v. eapply grows_translate; [exact Hok|]. by eapply link_grows.
  - rewrite Hfree. by apply subseteq_difference_l.
  - rewrite Hfree, size_difference, size_singleton by by apply singleton_subseteq_l. lia.
Qed.

(** ** map_page *)

Definition pdpt_msg : string := "Failed to allocate frame for PDPT".
Definition pd_msg : string := "Failed to allocate frame for PD".
Definition pt_msg : string := "Failed to allocate frame for PT".

(** [map_page] after its descent: the tables down to page [q], and the write. *)
Definition mapped (s : Machine A) (T : gmap Z role) (v p f : Z) (s' : Machine A) : Prop :=
  exists s3 T' p4 p3 p2 q,
    extends 3 s T s3 T' /\ reaches L (mem s3) v p4 p3 p2 q /\ T' !! q = Some (path1 v) /\
    s' = mkMachine
           (wr64 (mem s3) (cell q (pt (indices v))) (pte_new p (Z.lor f flags.PRESENT)))
           (frames s3) (PAGE_TABLE_PHYS s3) (cr3 s3) (v :: invlpgs s3).

Definition map_failed (s : Machine A) (T : gmap Z role) (e : string) (s' : Machine A) : Prop :=
  e ∈ [pdpt_msg; pd_msg; pt_msg] /\ fs_free (frames s') = ∅ /\ exists T', extends 2 s T s' T'.

Lemma extends_le n n' s T s' T' : (n <= n')%nat -> extends n s T s' T' -> extends n' s T s' T'.
Proof. intros ? []. constructor; auto. lia. Qed.

(** Without a huge page on its path, the entries of an address are no leaves. *)
Lemma path_no_leaf v m p4 p3 :
  KPML4 L = p4 * 4096 -> huge_on_path L m v = false ->
  is_present (rd64 m (cell p4 (pml4 (indices v)))) = true ->
  pte_addr (rd64 m (cell p4 (pml4 (indices v)))) = p3 * 4096 ->
  is_present (rd64 m (cell p3 (pdpt (indices v)))) = true ->
  leaf (path3 v) (rd64 m (cell p3 (pdpt (indices v)))) = false /\
  forall p2, pte_addr (rd64 m (cell p3 (pdpt (indices v)))) = p2 * 4096 ->
    is_present (rd64 m (cell p2 (pd (indices v)))) = true ->
    leaf (path2 v) (rd64 m (cell p2 (pd (indices v)))) = false.
Proof.
  intros Hr Hh P4 A4 P3. unfold huge_on_path, walk in Hh. cbn [e4 e3 e2] in Hh. rewrite Hr in Hh.
  change (entry_at (p4 * 4096)) with (cell p4) in Hh. rewrite P4, A4 in Hh.
  change (entry_at (p3 * 4096)) with (cell p3) in Hh. rewrite P3 in Hh. cbn [andb] in Hh.
  apply orb_false_elim in Hh as [H3 H2]. split; [unfold leaf; by rewrite H3, andb_false_r|].
  intros p2 A3 P2. rewrite A3 in H2. change (entry_at (p2 * 4096)) with (cell p2) in H2.
  rewrite P2 in H2. cbn [andb] in H2. unfold leaf. by rewrite H2, andb_false_r.
Qed.

Lemma map_page_spec v p f s T :
  paging_inv s T -> huge_on_path L (mem s) v = false ->
  match map_page L v p f s with
  | (Ok _, s') => mapped s T v p f s'
  | (Err e, s') => map_failed s T e s'
  end.
Proof.
  intros Hinv Hh. pose proof (pi_tables _ _ Hinv) as Hok.
  destruct (ok_root _ _ _ Hok) as (p4 & Hr & Hp4).
  destruct (indices_range v) as (H4 & H3 & H2 & H1 & _).
  destruct (path_lengths v) as (L3 & L2 & L1).
  unfold map_page. cbv zeta. rewrite Hr.
  change (entry_at (p4 * 4096)) with (cell p4) in *.
  pose proof (next_table_spec pdpt_msg s T p4 _ [] Hinv Hp4 (Nat.le_0_l _) H4 (fun _ => eq_refl)) as N4.
  unfold pdpt_msg in N4.
  destruct (next_table _ (cell p4 _) s) as [[t3|e] s3] eqn:E4.
  2:{ rewrite (bind_err _ _ _ _ _ E4). destruct N4 as (-> & -> & Hf).
      split; [left|]. split; [done|]. exists T. by apply extends_refl. }
  rewrite (bind_ok _ _ _ _ _ E4). clear E4.
  destruct N4 as (p3 & T3 & -> & X4 & Hp3 & P4 & F4 & A4 & C4). fold (path3 v) in Hp3.
  change (entry_at (p3 * 4096)) with (cell p3).
  assert (is_present (rd64 (mem s3) (cell p3 (pdpt (indices v)))) = true ->
          leaf (path3 v) (rd64 (mem s3) (cell p3 (pdpt (indices v)))) = false /\
          s3 = s) as Hleaf3.
  { destruct C4 as [[Hpr ->]|Hz]; [|by rewrite Hz].
    intros P3. split; [|done]. by destruct (path_no_leaf v (mem s) p4 p3 Hr Hh Hpr A4 P3). }
  pose proof (next_table_spec pd_msg s3 T3 p3 _ (path3 v) (ex_inv _ _ _ _ _ X4) Hp3
                ltac:(lia) H3 (fun H => proj1 (Hleaf3 H))) as N3.
  unfold pd_msg in N3.
  destruct (next_table _ (cell p3 _) s3) as [[t2|e] s2] eqn:E3.
  2:{ rewrite (bind_err _ _ _ _ _ E3). destruct N3 as (-> & -> & Hf).
      split; [right; left|]. split; [done|]. exists T3. by eapply extends_le; [|exact X4]; lia. }
  rewrite (bind_ok _ _ _ _ _ E3). clear E3.
  destruct N3 as (p2 & T2 & -> & X3 & Hp2 & P3 & F3 & A3 & C3). fold (path2 v) in Hp2.
  change (entry_at (p2 * 4096)) with (cell p2).
  assert (is_present (rd64 (mem s2) (cell p2 (pd (indices v)))) = true ->
          leaf (path2 v) (rd64 (mem s2) (cell p2 (pd (indices v)))) = false) as Hleaf2.
  { destruct C3 as [[Hpr ->]|Hz]; [|by rewrite Hz].
    destruct (Hleaf3 Hpr) as [_ ->]. 
    destruct (path_no_leaf v (mem s) p4 p3 Hr Hh P4 A4 Hpr) as [_ Hn]. by apply Hn. }
  pose proof (next_table_spec pt_msg s2 T2 p2 _ (path2 v) (ex_inv _ _ _ _ _ X3) Hp2
                ltac:(lia) H2 Hleaf2) as N2.
  unfold pt_msg in N2. pose proof (extends_trans _ _ _ _ _ _ _ _ X4 X3) as X43.
  destruct (next_table _ (cell p2 _) s2) as [[t1|e] s1] eqn:E2.
  2:{ rewrite (bind_err _ _ _ _ _ E2). destruct N2 as (-> & -> & Hf).
      split; [right; right; left|]. split; [done|]. by exists T2. }
  rewrite (bind_ok _ _ _ _ _ E2). clear E2.
  destruct N2 as (p1 & T1 & -> & X2 & Hp1 & P2 & F2 & A2 & _). fold (path1 v) in Hp1.
  change (entry_at (p1 * 4096)) with (cell p1).
  pose proof (ex_kept _ _ _ _ _ X3 p4 [] _ (lookup_weaken _ _ _ _ Hp4 (ex_T _ _ _ _ _ X4)) H4 P4) as K43.
  pose proof (ex_T _ _ _ _ _ X43) as HT.
  pose proof (ex_kept _ _ _ _ _ X2 p4 [] _ (lookup_weaken _ _ _ _ Hp4 HT) H4) as K42.
  rewrite K43 in K42. specialize (K42 P4).
  pose proof (ex_kept _ _ _ _ _ X2 p3 _ _ (lookup_weaken _ _ _ _ Hp3 (ex_T _ _ _ _ _ X3)) H3 P3) as K32.
  exists s1, T1, p4, p3, p2, p1. split; [by apply (extends_trans 2 1 _ _ _ _ _ _ X43)|].
  split; [|split; [done|reflexivity]].
  unfold leaf in F3, F2. rewrite L3 in F3. rewrite L2 in F2. cbn [Nat.eqb negb andb] in F3, F2.
  constructor; rewrite ?K42, ?K32; done.
Qed.

Lemma same_page_indices v v' :
  v' / 4096 mod 2 ^ 36 = v / 4096 mod 2 ^ 36 ->
  pml4 (indices v') = pml4 (indices v) /\ pdpt (indices v') = pdpt (indices v) /\
  pd (indices v') = pd (indices v) /\ pt (indices v') = pt (indices v).
Proof.
  intros Hp. rewrite !indices_div. cbn [pml4 pdpt pd pt].
  assert (forall x n, 0 <= n <= 27 -> x / 2 ^ (12 + n) mod 512 = x / 4096 mod 2 ^ 36 / 2 ^ n mod 512) as Hd.
  { intros x n Hn. change 512 with (2 ^ 9). change 4096 with (2 ^ 12).
    rewrite <- !Z.shiftr_div_pow2, <- !Z.land_ones by lia. zbits. }
  rewrite !(Hd _ 27 ltac:(lia) : _ / 2 ^ 39 mod 512 = _), !(Hd _ 18 ltac:(lia) : _ / 2 ^ 30 mod 512 = _),
    !(Hd _ 9 ltac:(lia) : _ / 2 ^ 21 mod 512 = _), !(Hd _ 0 ltac:(lia) : _ / 2 ^ 12 mod 512 = _).
  by rewrite Hp.
Qed.

(** What [map_page] and [unmap_page] leave: the tables with [e] written at the
    last level. *)
Lemma reaches_write s T v p4 p3 p2 q e :
  paging_inv s T -> reaches L (mem s) v p4 p3 p2 q -> T !! q = Some (path1 v) -> 0 <= e < 2 ^ 64 ->
  let m' := wr64 (mem s) (cell q (pt (indices v))) e in
  tables_ok L m' T /\
  (forall v', v' / 4096 mod 2 ^ 36 = v / 4096 mod 2 ^ 36 ->
     translate L m' v' = if is_present e then Some (pte_addr e ⊕ v' mod 4096) else None) /\
  (forall v', slot v' <> slot v -> translate L m' v' = translate L (mem s) v').
Proof.
  intros [Hok _ _] [Hr P4 A4 P3 G3 A3 P2 G2 A2] Hq He m'.
  destruct (indices_range v) as (H4 & H3 & H2 & H1 & _).
  destruct (path_lengths v) as (L3 & L2 & L1).
  destruct (ok_root _ _ _ Hok) as (p4' & Hr' & Hp4).
  assert (p4' = p4) as -> by lia.
  assert (T !! p3 = Some (path3 v)) as Hp3.
  { pose proof (ok_child _ _ _ Hok _ _ _ Hp4 (Nat.le_0_l _) H4 P4 eq_refl) as Hc.
    by rewrite A4, Z.div_mul in Hc. }
  assert (T !! p2 = Some (path2 v)) as Hp2.
  { pose proof (ok_child _ _ _ Hok _ _ _ Hp3 ltac:(lia) H3 P3
                  ltac:(unfold leaf; by rewrite G3, andb_false_r)) as Hc.
    by rewrite A3, Z.div_mul in Hc. }
  split; [by eapply leaf_write_ok|].
  assert (forall p r j, T !! p = Some r -> (length r < 3)%nat -> 0 <= j < 512 ->
            rd64 m' (cell p j) = rd64 (mem s) (cell p j)) as Hup.
  { intros p r j Hp Hl Hj. apply rd64_wr64_cell_ne; [done|done|].
    intros Hc. apply (f_equal fst) in Hc. cbn [fst] in Hc.
    assert (r = path1 v) as -> by congruence. lia. }
  split.
  - intros v' Hv'. destruct (same_page_indices v v' Hv') as (I4 & I3 & I2 & I1).
    rewrite (reaches_translate L m' v' p4 p3 p2 q).
    + cbv zeta. rewrite I1. unfold m'. rewrite rd64_wr64_same by done.
      destruct (is_present e); [|done]. by rewrite indices_div.
    + constructor; rewrite ?I4, ?I3, ?I2, ?(Hup p4 _ _ Hp4), ?(Hup p3 _ _ Hp3), ?(Hup p2 _ _ Hp2)
        by (cbn; lia); done.
  - intros v' Hne. eapply leaf_write_translate; [exact Hok|exact Hq|done|done|]. done.
Qed.

Lemma mapped_inv s T v p f s' :
  mapped s T v p f s' -> exists T', T ⊆ T' /\ paging_inv s' T'.
Proof.
  intros (s3 & T' & p4 & p3 & p2 & q & X & R & Hq & ->).
  destruct (reaches_write s3 T' v p4 p3 p2 q _ (ex_inv _ _ _ _ _ X) R Hq
              (pte_new_range p (Z.lor f flags.PRESENT))) as (Hok & _ & _).
  destruct X as [[_ Hfr Hsep] HT _ _ _ _ _ _ _]. exists T'. by split; [|constructor].
Qed.

(** C3: [map_page] on a well-formed tree, when no huge page covers the address.
  If it returns [Ok], every address of the page translates to the frame it was
  given (and to the same offset in it), the translation of every address of
  another slot is what it was, the invariant holds (so no table is a page the
  frame allocator may hand out later), at most three frames were taken, and
  the page was invalidated in the TLB.  It fails only when it ran out of
  frames, having had fewer than three; then no translation has changed. *)
Theorem map_page_correct v p f s T :
  paging_inv s T -> huge_on_path L (mem s) v = false ->
  match map_page L v p f s with
  | (Ok _, s') =>
      exists T', T ⊆ T' /\ paging_inv s' T' /\
      (forall v', v' / 4096 mod 2 ^ 36 = v / 4096 mod 2 ^ 36 ->
         translate L (mem s') v' = Some (Z.land p ADDR_MASK + v' mod 4096)) /\
      (forall v', slot v' <> slot v -> translate L (mem s') v' = translate L (mem s) v') /\
      fs_free (frames s') ⊆ fs_free (frames s) /\
      (size (fs_free (frames s)) <= size (fs_free (frames s')) + 3)%nat /\
      invlpgs s' = v :: invlpgs s
  | (Err e, s') =>
      e ∈ [pdpt_msg; pd_msg; pt_msg] /\
      (size (fs_free (frames s)) < 3)%nat /\ fs_free (frames s') = ∅ /\
      (exists T', T ⊆ T' /\ paging_inv s' T') /\
      (forall v', translate L (mem s') v' = translate L (mem s) v') /\
      invlpgs s' = invlpgs s
  end.
Proof.
  intros Hinv Hh. pose proof (map_page_spec v p f s T Hinv Hh) as H.
  destruct (map_page L v p f s) as [[[]|e] s'].
  2:{ destruct H as (He & Hf & T' & [I HT _ Ht _ Hsz _ _ Hi]). rewrite Hf, size_empty in Hsz.
      split_and!; [done|lia|done|by exists T'|done|done]. }
  destruct H as (s3 & T' & p4 & p3 & p2 & q & X & R & Hq & ->).
  destruct (reaches_write s3 T' v p4 p3 p2 q _ (ex_inv _ _ _ _ _ X) R Hq (pte_new_range p (Z.lor f flags.PRESENT)))
    as (Hok & Hmap & Hother).
  destruct X as [[_ Hfr Hsep] HT _ Ht Hf Hsz _ _ Hi].
  exists T'. cbn [mem frames invlpgs]. split_and!; [done|by constructor| | |done|done|by rewrite Hi].
  - intros v' Hv'. rewrite Hmap, pte_new_present, pte_addr_new by done.
    rewrite add64_small; [done|]. pose proof (pte_addr_range p). unfold pte_addr in *.
    pose proof (Z.mod_pos_bound v' 4096 ltac:(lia)). lia.
  - intros v' Hv'. rewrite Hother by done. apply Ht.
Qed.

(** ** unmap_page *)

Definition unmap_msgs : list string :=
  ["PML4 entry not present"; "PDPT entry not present"; "PD entry not present"; "PT entry not present"].

Lemma follow_eq msg c s :
  follow msg c s =
    (if is_present (rd64 (mem s) c) then Ok (pte_addr (rd64 (mem s) c)) else Err msg, s).
Proof.
  unfold follow, read_entry, gets, mbind, stateE_bind. by destruct (is_present _).
Qed.

Lemma unmap_page_spec v s T :
  tables_ok L (mem s) T -> huge_on_path L (mem s) v = false ->
  (exists p4 p3 p2 q,
     let c := cell q (pt (indices v)) in
     reaches L (mem s) v p4 p3 p2 q /\ T !! q = Some (path1 v) /\
     is_present (rd64 (mem s) c) = true /\
     unmap_page L v s = (Ok (pte_addr (rd64 (mem s) c)),
       mkMachine (wr64 (mem s) c pte_empty) (frames s) (PAGE_TABLE_PHYS s) (cr3 s) (v :: invlpgs s))) \/
  (exists e, e ∈ unmap_msgs /\ unmap_page L v s = (Err e, s) /\ translate L (mem s) v = None).
Proof.
  intros Hok Hh. destruct (ok_root _ _ _ Hok) as (p4 & Hr & Hp4).
  destruct (indices_range v) as (H4 & H3 & H2 & H1 & _).
  destruct (path_lengths v) as (L3 & L2 & L1).
  unfold huge_on_path, walk in Hh. cbn [e4 e3 e2] in Hh.
  unfold unmap_page, translate, mbind, stateE_bind. rewrite Hr in *. cbv zeta.
  rewrite follow_eq. change (entry_at (p4 * 4096)) with (cell p4) in *.
  destruct (is_present (rd64 (mem s) (cell p4 _))) eqn:P4; cbn [negb];
    [|right; eexists; split; [|split; reflexivity]; left].
  destruct (ok_next _ _ _ _ _ _ Hok Hp4 (Nat.le_0_l _) H4 P4 eq_refl) as (p3 & A3 & Hp3).
  fold (path3 v) in Hp3.
  rewrite A3 in *. rewrite follow_eq. change (entry_at (p3 * 4096)) with (cell p3) in *.
  destruct (is_present (rd64 (mem s) (cell p3 _))) eqn:P3; cbn [negb];
    [|right; eexists; split; [|split; reflexivity]; right; left].
  cbn [andb] in Hh. apply orb_false_elim in Hh as [G3 Hh]. rewrite G3.
  destruct (ok_next _ _ _ p3 _ _ Hok Hp3 ltac:(lia) H3 P3
              ltac:(unfold leaf; by rewrite G3, andb_false_r)) as (p2 & A2 & Hp2).
  fold (path2 v) in Hp2.
  rewrite A2 in *. rewrite follow_eq. change (entry_at (p2 * 4096)) with (cell p2) in *.
  destruct (is_present (rd64 (mem s) (cell p2 _))) eqn:P2; cbn [negb];
    [|right; eexists; split; [|split; reflexivity]; right; right; left].
  cbn [andb] in Hh. rewrite Hh.
  destruct (ok_next _ _ _ p2 _ _ Hok Hp2 ltac:(lia) H2 P2
              ltac:(unfold leaf; by rewrite Hh, andb_false_r)) as (p1 & A1 & Hp1).
  rewrite A1. rewrite follow_eq. change (entry_at (p1 * 4096)) with (cell p1).
  destruct (is_present (rd64 (mem s) (cell p1 _))) eqn:P1; cbn [negb];
    [|right; eexists; split; [|split; reflexivity]; right; right; right; left].
  left. exists p4, p3, p2, p1. cbv zeta. split; [by constructor|]. done.
Qed.

(** C4: [unmap_page] on a well-formed tree, when no huge page covers the
    address: it returns the frame the address's page was mapped to, after
    which the page is not mapped, and no other slot's translation changed; or
    it fails, exactly when the address was not mapped, and changes nothing. *)
Theorem unmap_page_correct v s T :
  paging_inv s T -> huge_on_path L (mem s) v = false ->
  match unmap_page L v s with
  | (Ok a, s') =>
      (forall v', v' / 4096 mod 2 ^ 36 = v / 4096 mod 2 ^ 36 ->
         translate L (mem s) v' = Some (a + v' mod 4096) /\
         translate L (mem s') v' = None) /\
      (forall v', slot v' <> slot v -> translate L (mem s') v' = translate L (mem s) v') /\
      paging_inv s' T /\ frames s' = frames s /\ invlpgs s' = v :: invlpgs s
  | (Err e, s') =>
      translate L (mem s) v = None /\ s' = s /\
      e ∈ unmap_msgs
  end.
Proof.
  intros Hinv Hh. pose proof (pi_tables _ _ Hinv) as Hok.
  destruct (unmap_page_spec v s T Hok Hh) as [(p4 & p3 & p2 & q & R & Hq & P1 & ->)|(e & He & -> & Ht)];
    [|done].
  set (x := rd64 _ _) in *.
  destruct (reaches_write s T v p4 p3 p2 q pte_empty Hinv R Hq ltac:(done)) as (Hok' & Hmap & Hother).
  cbn [mem frames invlpgs]. split_and!; [|done| |done|done].
  - intros v' Hv'. split; [|by rewrite Hmap].
    destruct (same_page_indices v v' Hv') as (I4 & I3 & I2 & I1).
    rewrite (reaches_translate L (mem s) v' p4 p3 p2 q).
    + cbv zeta. rewrite I1. fold x. rewrite P1, indices_div. cbn [offset].
      rewrite add64_small; [done|]. pose proof (pte_addr_range x).
      pose proof (Z.mod_pos_bound v' 4096 ltac:(lia)). lia.
    + destruct R. constructor; by rewrite ?I4, ?I3, ?I2.
  - destruct Hinv. by constructor.
Qed.
End operations.

(** * Witnesses *)

(** A machine whose memory is all zero: an empty root, in page 160, which the
    allocator of [Phys.small_fa] does not hand out. *)
Definition zero_statics : Statics := mkStatics (160 * 4096) (161 * 4096) (162 * 4096).
Definition zero_machine : Machine FrameAllocator := mkMachine ∅ small_fa 0 0 [].
Definition zero_roles : gmap Z role := {[160 := []]}.

Lemma rd64_empty c : rd64 ∅ c = 0.
Proof. reflexivity. Qed.

Lemma zero_inv : paging_inv zero_statics zero_machine zero_roles.
Proof.
  unfold zero_roles. constructor; [constructor| |]; cbn [mem frames zero_machine].
  - exists 160. by split; [|apply lookup_insert_eq].
  - intros p r [<- <-]%lookup_singleton_Some. cbn. lia.
  - intros p r i _ _ _ H. rewrite rd64_empty in H. discriminate.
  - exact small_WF.
  - intros q Hq%small_free. apply lookup_singleton_None. lia.
Qed.

Lemma map_page_correct_witness :
  exists s', map_page zero_statics 0x400000 0x5000 0 zero_machine = (Ok tt, s') /\
             translate zero_statics (mem s') 0x400123 = Some 0x5123.
Proof.
  pose proof (map_page_correct zero_statics 0x400000 0x5000 0 zero_machine zero_roles zero_inv eq_refl) as H.
  assert (is_ok (fst (map_page zero_statics 0x400000 0x5000 0 zero_machine)) = true) as E
    by (vm_compute; reflexivity).
  destruct (map_page zero_statics 0x400000 0x5000 0 zero_machine) as [[[]|e] s']; [|discriminate E].
  exists s'. destruct H as (T' & _ & _ & Hmap & _). split; [reflexivity|].
  rewrite (Hmap 0x400123 eq_refl). reflexivity.
Defined.

(** The machine after a mapping. *)
Definition mapped_machine : Machine FrameAllocator :=
  snd (map_page zero_statics 0x400000 0x5000 0 zero_machine).

Lemma mapped_machine_inv : exists T, paging_inv zero_statics mapped_machine T.
Proof.
  pose proof (map_page_spec zero_statics 0x400000 0x5000 0 zero_machine zero_roles zero_inv eq_refl) as H.
  assert (is_ok (fst (map_page zero_statics 0x400000 0x5000 0 zero_machine)) = true) as E
    by (vm_compute; reflexivity).
  unfold mapped_machine.
  destruct (map_page zero_statics 0x400000 0x5000 0 zero_machine) as [[[]|e] s']; [|discriminate E].
  destruct (mapped_inv _ _ _ _ _ _ _ H) as (T & _ & HT). by exists T.
Qed.

Lemma unmap_page_correct_witness :
  exists s', unmap_page zero_statics 0x400000 mapped_machine = (Ok 0x5000, s') /\
             translate zero_statics (mem s') 0x400123 = None.
Proof.
  destruct mapped_machine_inv as [T HT].
  assert (huge_on_path zero_statics (mem mapped_machine) 0x400000 = false) as Hh
    by (vm_compute; reflexivity).
  pose proof (unmap_page_correct zero_statics 0x400000 mapped_machine T HT Hh) as H.
  assert (fst (unmap_page zero_statics 0x400000 mapped_machine) = Ok 0x5000) as E
    by (vm_compute; reflexivity).
  destruct (unmap_page zero_statics 0x400000 mapped_machine) as [r s']. cbn [fst] in E. subst r.
  exists s'. destruct H as (Hp & _). split; [reflexivity|]. apply (Hp 0x400123). reflexivity.
Defined.
