(* ===== verification/PageBoot.v ===== *)
(** The page tables [paging::init] builds: the identity mapping of the first
    4 GiB, in both halves, and what [map_page] does to an address inside it. *)
From S2P Require Import Prelude Ram Mem Frames Phys Paging PageWalk.
From stdpp Require Import base numbers list gmap sets strings tactics.
From Stdlib Require Import ZArith Lia.
Open Scope Z_scope.
Open Scope word_scope.

#[local] Arguments indices : simpl never.

(** * Where the tables are *)

(** The pages of [KPML4], [KPDPT] and the first table of [KPD]: the statics are
    [align(4096)] and do not overlap. *)
Record Pages : Type := mkPages { k4 : Z; k3 : Z; kd : Z }.

Definition statics_of (K : Pages) : Statics :=
  mkStatics (k4 K * 4096) (k3 K * 4096) (kd K * 4096).

Definition is_table (K : Pages) (p : Z) : bool :=
  (p =? k4 K) || (p =? k3 K) || ((kd K <=? p) && (p <? kd K + 4)).

Record layout_ok (K : Pages) : Prop := {
  ly_k4 : 0 <= k4 K < 2 ^ 20;
  ly_k3 : 0 <= k3 K < 2 ^ 20;
  ly_kd : 0 <= kd K /\ kd K + 4 <= 2 ^ 20;
  ly_43 : k4 K <> k3 K;
  ly_4d : k4 K < kd K \/ kd K + 4 <= k4 K;
  ly_3d : k3 K < kd K \/ kd K + 4 <= k3 K
}.

(** The statics before [init]: [PageTable::empty()]. *)
Definition tables_empty (K : Pages) (m : ram) : Prop :=
  forall p i, is_table K p = true -> 0 <= i < 512 -> rd64 m (cell p i) = 0.

(** The contents [init] gives the tables. *)
Record boot_tables (K : Pages) (m : ram) : Prop := {
  bt_4 i : 0 <= i < 512 ->
    rd64 m (cell (k4 K) i) = if (i =? 0) || (i =? 511) then pte_new (k3 K * 4096) PW else 0;
  bt_3 i : 0 <= i < 512 ->
    rd64 m (cell (k3 K) i) = if i <? 4 then pte_new ((kd K + i) * 4096) PW else 0;
  bt_d j i : 0 <= j < 4 -> 0 <= i < 512 ->
    rd64 m (cell (kd K + j) i) = pte_new ((j * 512 + i) * 0x200000) PWH
}.

(** The roles of the six tables. *)
Definition boot_roles (K : Pages) : gmap Z role :=
  <[k4 K := []]> (<[k3 K := [0]]> (<[kd K := [0; 0]]> (<[kd K + 1 := [0; 1]]>
    (<[kd K + 2 := [0; 2]]> {[kd K + 3 := [0; 3]]})))).

(** * init *)

Section init.
Context (K : Pages) (HK : layout_ok K).

Lemma entry_cell p i : entry_at (p * 4096) i = cell p i.
Proof. done. Qed.

(** The entries of the tables [q] outside a set of pages are untouched. *)
Definition same_outside (P : Z -> Prop) (m m' : ram) : Prop :=
  forall q i, ~ P q -> 0 <= i < 512 -> rd64 m' (cell q i) = rd64 m (cell q i).

Lemma same_outside_trans P m m' m'' :
  same_outside P m m' -> same_outside P m' m'' -> same_outside P m m''.
Proof. intros H1 H2 q i Hq Hi. by rewrite H2, H1. Qed.

Lemma same_outside_wr P m p i e :
  P p -> 0 <= i < 512 -> same_outside P m (wr64 m (cell p i) e).
Proof. intros Hp Hi q j Hq Hj. apply rd64_wr64_cell_ne; [done|done|]. intros [= -> ->]. done. Qed.

(** A loop that writes entries [0 .. n) of one table. *)
Lemma write_table (p n : Z) (f : Z -> Z) m :
  0 <= n <= 512 -> (forall i, 0 <= f i < 2 ^ 64) ->
  let m' := for_each 0 n (fun i m => wr64 m (cell p i) (f i)) m in
  (forall i, 0 <= i < n -> rd64 m' (cell p i) = f i) /\
  (forall i, n <= i < 512 -> rd64 m' (cell p i) = rd64 m (cell p i)) /\
  same_outside (fun q => q = p) m m'.
Proof.
  intros Hn Hf m'.
  pose proof (for_each_rule
    (fun k m' => (forall i, 0 <= i < k -> rd64 m' (cell p i) = f i) /\
                 (forall i, k <= i < 512 -> rd64 m' (cell p i) = rd64 m (cell p i)) /\
                 same_outside (fun q => q = p) m m')
    0 n (fun i m => wr64 m (cell p i) (f i)) m) as HL.
  apply HL; clear HL; [lia|split_and!; [lia|done|done]|].
  intros k m1 Hk (H1 & H2 & H3). split_and!.
  - intros i Hi. destruct (decide (i = k)) as [->|]; [by apply rd64_wr64_same|].
    rewrite rd64_wr64_cell_ne by (lia || (intros [=]; lia)). apply H1. lia.
  - intros i Hi. rewrite rd64_wr64_cell_ne by (lia || (intros [=]; lia)). apply H2. lia.
  - eapply same_outside_trans; [exact H3|]. apply same_outside_wr; [done|lia].
Qed.

Lemma kpd_statics i : kpd (statics_of K) i = (kd K + i) * 4096.
Proof. unfold kpd. cbn [KPD statics_of]. change PAGE_SIZE with 4096. lia. Qed.

Definition huge_entry (j i : Z) : Z := pte_new ((j * 512 + i) * 0x200000) PWH.

(** The loop over the four page directories. *)
Definition write_directory (j : Z) (m : ram) : ram :=
  for_each 0 512 (fun i m => wr64 m (entry_at (kpd (statics_of K) j) i) (huge_entry j i)) m.

Lemma write_directories m :
  let m' := for_each 0 4 write_directory m in
  (forall j i, 0 <= j < 4 -> 0 <= i < 512 -> rd64 m' (cell (kd K + j) i) = huge_entry j i) /\
  same_outside (fun q => kd K <= q < kd K + 4) m m'.
Proof.
  intros m'.
  pose proof (for_each_rule
    (fun k m' => (forall j i, 0 <= j < k -> 0 <= i < 512 ->
                    rd64 m' (cell (kd K + j) i) = huge_entry j i) /\
                 same_outside (fun q => kd K <= q < kd K + 4) m m')
    0 4 write_directory m) as HL.
  apply HL; clear HL; [lia|split; [lia|done]|].
  intros k m1 Hk (H1 & H2). unfold write_directory. rewrite kpd_statics.
  destruct (write_table (kd K + k) 512 (huge_entry k) m1) as (W1 & _ & W3);
    [lia|intros; apply pte_new_range|].
  split.
  - intros j i Hj Hi. destruct (decide (j = k)) as [->|]; [by apply W1|].
    etrans; [apply (W3 (kd K + j) i); lia|]. apply H1; lia.
  - eapply same_outside_trans; [exact H2|]. intros q i Hq Hi. apply W3; lia.
Qed.

Definition write_pdpt (m : ram) : ram :=
  for_each 0 4 (fun i m => wr64 m (cell (k3 K) i) (pte_new (kpd (statics_of K) i) PW)) m.

Definition write_pml4 (m : ram) : ram :=
  wr64 (wr64 m (cell (k4 K) 0) (pte_new (k3 K * 4096) PW)) (cell (k4 K) 511) (pte_new (k3 K * 4096) PW).

Lemma init_tables_eq m :
  init_tables (statics_of K) m = for_each 0 4 write_directory (write_pdpt (write_pml4 m)).
Proof.
  unfold init_tables, write_pdpt, write_pml4, write_directory, cell, huge_entry.
  cbn [KPML4 KPDPT statics_of]. reflexivity.
Qed.

Lemma init_tables_boot m : tables_empty K m -> boot_tables K (init_tables (statics_of K) m).
Proof using HK.
  intros Hz. destruct HK as [A4 A3 Ad D43 D4d D3d]. rewrite init_tables_eq.
  set (m1 := write_pml4 m).
  destruct (write_table (k3 K) 4 (fun i => pte_new (kpd (statics_of K) i) PW) m1
              ltac:(lia) (fun i => pte_new_range _ _)) as (W1 & W2 & W3).
  fold (write_pdpt m1) in W1, W2, W3. set (m2 := write_pdpt m1) in *.
  destruct (write_directories m2) as (D1 & D2).
  set (m3 := for_each 0 4 _ m2) in *.
  assert (forall p i, is_table K p = true -> p <> k4 K -> 0 <= i < 512 -> rd64 m1 (cell p i) = 0) as Hm1.
  { intros p i Hp Hne Hi. unfold m1, write_pml4.
    rewrite !rd64_wr64_ne by (apply (cell_disjoint (k4 K) _ p); (lia || congruence)). by apply Hz. }
  assert (is_table K (k4 K) = true /\ is_table K (k3 K) = true) as [T4 T3].
  { unfold is_table. by rewrite !Z.eqb_refl, orb_true_r. }
  constructor.
  - intros i Hi. etrans; [apply (D2 (k4 K) i); lia|]. etrans; [apply (W3 (k4 K) i); [done|lia]|].
    unfold m1, write_pml4.
    destruct (decide (i = 511)) as [->|H511]; [by rewrite rd64_wr64_cell_same|].
    rewrite rd64_wr64_cell_ne by (lia || (intros [=]; lia)).
    destruct (decide (i = 0)) as [->|H0]; [by rewrite rd64_wr64_cell_same|].
    rewrite rd64_wr64_cell_ne by (lia || (intros [=]; lia)).
    rewrite (proj2 (Z.eqb_neq i 0) H0), (proj2 (Z.eqb_neq i 511) H511). by apply Hz.
  - intros i Hi. etrans; [apply (D2 (k3 K) i); lia|]. destruct (Z.ltb_spec i 4).
    + rewrite W1 by lia. by rewrite kpd_statics.
    + rewrite W2 by lia. apply Hm1; [done|congruence|done].
  - apply D1.
Qed.

Lemma is_table_false p :
  is_table K p = false <-> p <> k4 K /\ p <> k3 K /\ ~ (kd K <= p < kd K + 4).
Proof. unfold is_table. lia. Qed.

Lemma init_tables_outside m p i :
  is_table K p = false -> 0 <= i < 512 ->
  rd64 (init_tables (statics_of K) m) (cell p i) = rd64 m (cell p i).
Proof.
  intros (N4 & N3 & Nd)%is_table_false Hi. rewrite init_tables_eq.
  etrans; [by apply (proj2 (write_directories _))|].
  etrans; [by apply (proj2 (proj2 (write_table (k3 K) 4 (fun i => pte_new (kpd (statics_of K) i) PW) _
              ltac:(lia) (fun i => pte_new_range _ _))))|].
  unfold write_pml4. rewrite !rd64_wr64_cell_ne by (lia || congruence). done.
Qed.
End init.

(** * The mapping *)

(** The addresses the boot tables map: the first 4 GiB of either half. *)
Definition identity_mapped (v : Z) : Prop :=
  v mod 2 ^ 48 < 2 ^ 32 \/ 511 * 2 ^ 39 <= v mod 2 ^ 48 < 511 * 2 ^ 39 + 2 ^ 32.

#[export] Instance identity_mapped_dec v : Decision (identity_mapped v).
Proof. unfold identity_mapped. apply _. Defined.

Lemma mod_mod_pow2 v a b : 0 <= a <= b -> (v mod 2 ^ b) mod 2 ^ a = v mod 2 ^ a.
Proof.
  intros. apply Z.mod_mod_divide.
  exists (2 ^ (b - a)). rewrite <- Z.pow_add_r by lia. f_equal. lia.
Qed.

Lemma identity_indices v :
  identity_mapped v <->
  (pml4 (indices v) = 0 \/ pml4 (indices v) = 511) /\ pdpt (indices v) < 4.
Proof.
  unfold identity_mapped. pose proof (indices_range v). rewrite indices_value. lia.
Qed.

Lemma mod21_indices v : v mod 2 ^ 21 = pt (indices v) * 4096 + offset (indices v).
Proof.
  pose proof (indices_range v). rewrite <- (mod_mod_pow2 v 21 48), indices_value by lia.
  symmetry. eapply Z.mod_unique; [left; lia|]. instantiate (1 := _).
  transitivity (2 ^ 21 * ((pml4 (indices v) * 512 + pdpt (indices v)) * 512 + pd (indices v))
                + (pt (indices v) * 4096 + offset (indices v))); [lia|reflexivity].
Qed.

Lemma mod32_indices v :
  pdpt (indices v) < 4 ->
  v mod 2 ^ 32 = (pdpt (indices v) * 512 + pd (indices v)) * 0x200000 + v mod 2 ^ 21.
Proof.
  intros H3. pose proof (indices_range v). rewrite mod21_indices.
  rewrite <- (mod_mod_pow2 v 32 48), indices_value by lia.
  symmetry. apply (Z.mod_unique _ _ (pml4 (indices v) * 128)); [left; lia|]. lia.
Qed.

Section boot.
Context (K : Pages) (HK : layout_ok K) (m : ram) (Hm : boot_tables K m).
Abbreviation L := (statics_of K).

Lemma boot_roles_Some p r :
  boot_roles K !! p = Some r ->
  (p = k4 K /\ r = []) \/ (p = k3 K /\ r = [0]) \/
  (exists j, 0 <= j < 4 /\ p = kd K + j /\ r = [0; j]).
Proof.
  unfold boot_roles. rewrite !lookup_insert_Some, lookup_singleton_Some.
  intros [[<- <-]|(_ & [[<- <-]|(_ & [[<- <-]|(_ & [[<- <-]|(_ & [[<- <-]|(_ & <- & <-)])])])])];
    [by left|by right; left| | | |]; right; right.
  - exists 0. split; [lia|]. by rewrite Z.add_0_r.
  - by exists 1.
  - by exists 2.
  - by exists 3.
Qed.

Lemma boot_roles_is_table p r : boot_roles K !! p = Some r -> is_table K p = true.
Proof.
  unfold is_table. intros [[-> _]|[[-> _]|(j & Hj & -> & _)]]%boot_roles_Some; lia.
Qed.

Lemma boot_role_4 : boot_roles K !! k4 K = Some [].
Proof. apply lookup_insert_eq. Qed.

Lemma boot_role_3 : boot_roles K !! k3 K = Some [0].
Proof using HK.
  destruct HK. unfold boot_roles. rewrite lookup_insert_ne by done. apply lookup_insert_eq.
Qed.

Lemma boot_role_d j : 0 <= j < 4 -> boot_roles K !! (kd K + j) = Some [0; j].
Proof using HK.
  intros Hj. destruct HK. unfold boot_roles.
  rewrite (lookup_insert_ne _ (k4 K)), (lookup_insert_ne _ (k3 K)) by lia.
  assert (j = 0 \/ j = 1 \/ j = 2 \/ j = 3) as [->|[->|[->| ->]]] by lia;
    rewrite ?Z.add_0_r, ?lookup_insert_eq; rewrite ?lookup_insert_ne by lia;
    rewrite ?lookup_insert_eq; try done; rewrite ?lookup_insert_ne by lia;
    rewrite ?lookup_insert_eq, ?lookup_singleton_eq; done.
Qed.

Lemma boot_tables_ok : tables_ok L m (boot_roles K).
Proof using HK Hm.
  destruct Hm as [B4 B3 Bd]. constructor.
  - exists (k4 K). split; [done|apply boot_role_4].
  - destruct HK. intros p r [[-> ->]|[[-> ->]|(j & Hj & -> & ->)]]%boot_roles_Some; cbn; lia.
  - intros p r i [[-> ->]|[[-> ->]|(j & Hj & -> & ->)]]%boot_roles_Some Hl Hi.
    + rewrite B4 by done. destruct (Z.eqb_spec i 0) as [->|]; [|destruct (Z.eqb_spec i 511) as [->|]];
        cbn [orb]; [| |done]; rewrite pte_addr_new_page, Z.div_mul by (destruct HK; lia);
        intros _ _; apply boot_role_3.
    + rewrite B3 by done. destruct (Z.ltb_spec i 4); [|done].
      rewrite pte_addr_new_page, Z.div_mul by (destruct HK; lia).
      intros _ _. apply boot_role_d. lia.
    + rewrite Bd by done. intros _. unfold leaf. by rewrite (proj2 (pte_new_PWH _)).
Qed.

(** The walk of an identity-mapped address ends at its huge page. *)
Lemma boot_walk v :
  identity_mapped v ->
  let w := walk L m v in
  is_present (e4 w) = true /\ pte_addr (e4 w) = k3 K * 4096 /\
  is_present (e3 w) = true /\ is_huge_page (e3 w) = false /\
  pte_addr (e3 w) = (kd K + pdpt (indices v)) * 4096 /\
  e2 w = huge_entry (pdpt (indices v)) (pd (indices v)).
Proof using HK Hm.
  intros [H4 H3]%identity_indices. destruct Hm as [B4 B3 Bd].
  destruct (indices_range v) as (R4 & R3 & R2 & R1 & _). unfold walk. cbn [e4 e3 e2 KPML4 statics_of].
  rewrite entry_cell, B4 by done.
  assert (((pml4 (indices v) =? 0) || (pml4 (indices v) =? 511)) = true) as ->.
  { destruct H4 as [-> | ->]; done. }
  destruct (pte_new_PW (k3 K * 4096)) as [-> _].
  rewrite (pte_addr_new_page (k3 K)) by (destruct HK; lia).
  rewrite entry_cell, B3 by done. rewrite (proj2 (Z.ltb_lt _ _) H3).
  destruct (pte_new_PW ((kd K + pdpt (indices v)) * 4096)) as [-> ->].
  rewrite (pte_addr_new_page (kd K + _)) by (destruct HK; lia).
  rewrite entry_cell, Bd by lia. done.
Qed.

Lemma boot_huge v : identity_mapped v -> huge_on_path L m v = true.
Proof using HK Hm.
  intros Hv. destruct (boot_walk v Hv) as (P4 & _ & P3 & G3 & _ & E2). unfold huge_on_path. cbv zeta.
  rewrite P4, P3, G3, E2. destruct (pte_new_PWH ((pdpt (indices v) * 512 + pd (indices v)) * 0x200000)) as [H1 H2].
  unfold huge_entry. by rewrite H1, H2.
Qed.

Lemma huge_entry_addr j i :
  0 <= j < 4 -> 0 <= i < 512 -> pte_addr (huge_entry j i) = (j * 512 + i) * 0x200000.
Proof using.
  intros. unfold huge_entry. replace ((j * 512 + i) * 0x200000) with ((j * 512 + i) * 512 * 4096) by lia.
  apply pte_addr_new_page. lia.
Qed.

Lemma boot_translate v :
  translate L m v = if decide (identity_mapped v) then Some (v mod 2 ^ 32) else None.
Proof using HK Hm.
  destruct (indices_range v) as (R4 & R3 & R2 & R1 & _).
  destruct (decide (identity_mapped v)) as [Hv|Hv].
  - destruct (boot_walk v Hv) as (P4 & _ & P3 & G3 & _ & E2).
    apply identity_indices in Hv as [_ H3].
    rewrite translate_eq. unfold translate_walk. rewrite P4, P3, G3, E2. cbn [negb].
    destruct (pte_new_PWH ((pdpt (indices v) * 512 + pd (indices v)) * 0x200000)) as [H1 H2].
    fold (huge_entry (pdpt (indices v)) (pd (indices v))) in H1, H2. rewrite H1, H2. cbn [negb].
    rewrite huge_entry_addr by lia. rewrite (mod32_indices v H3).
    change 0x1FFFFF with (Z.ones 21). rewrite Z.land_ones by lia.
    pose proof (Z.mod_pos_bound v (2 ^ 21) ltac:(lia)). by rewrite add64_small by lia.
  - rewrite identity_indices in Hv. destruct Hm as [B4 B3 Bd]. unfold translate.
    cbn [KPML4 statics_of]. rewrite entry_cell, B4 by done.
    destruct (decide (pml4 (indices v) = 0 \/ pml4 (indices v) = 511)) as [H4|H4].
    2:{ rewrite (proj2 (Z.eqb_neq _ 0)), (proj2 (Z.eqb_neq _ 511)) by lia. done. }
    assert (((pml4 (indices v) =? 0) || (pml4 (indices v) =? 511)) = true) as ->.
    { destruct H4 as [-> | ->]; done. }
    destruct (pte_new_PW (k3 K * 4096)) as [-> _]. cbn [negb].
    rewrite (pte_addr_new_page (k3 K)) by (destruct HK; lia).
    rewrite entry_cell, B3 by done. rewrite (proj2 (Z.ltb_ge _ _)) by lia. done.
Qed.

(** A write outside the six tables leaves them as they are. *)
Lemma boot_tables_write a v :
  is_table K (a / 4096) = false -> a mod 8 = 0 -> boot_tables K (wr64 m a v).
Proof using HK Hm.
  intros Ha H8.
  assert (forall p i, is_table K p = true -> 0 <= i < 512 ->
            rd64 (wr64 m a v) (cell p i) = rd64 m (cell p i)) as Hout.
  { intros p i Hp Hi. apply rd64_wr64_ne. unfold disjoint_ranges, cell, entry_at.
    assert (p <> a / 4096) by congruence. Z.div_mod_to_equations. lia. }
  assert (is_table K (k4 K) = true /\ is_table K (k3 K) = true) as [T4 T3].
  { unfold is_table. by rewrite !Z.eqb_refl, orb_true_r. }
  destruct Hm as [B4 B3 Bd]. constructor.
  - intros i Hi. rewrite Hout by done. by apply B4.
  - intros i Hi. rewrite Hout by done. by apply B3.
  - intros j i Hj Hi. rewrite Hout; [by apply Bd| |done]. unfold is_table.
    rewrite (proj2 (Z.leb_le _ _)), (proj2 (Z.ltb_lt _ _)) by lia. by rewrite orb_true_r.
Qed.
End boot.

(** * The operations on the boot tables *)

(** Where [map_page] writes the entry of an identity-mapped page: an offset in
    the huge page itself. *)
Definition overwritten (v : Z) : Z := v mod 2 ^ 32 / 2 ^ 21 * 2 ^ 21 + 8 * pt (indices v).

Section boot_ops.
Context {A : Type} {FS : FrameSource A} {FL : FrameLaws A}.
Implicit Types (K : Pages) (s : Machine A).

Lemma next_table_present msg c s :
  is_present (rd64 (mem s) c) = true -> next_table msg c s = (Ok (pte_addr (rd64 (mem s) c)), s).
Proof.
  intros Hp. unfold next_table, read_entry, gets, mbind, stateE_bind, mret, stateE_ret. by rewrite Hp.
Qed.

Lemma overwritten_eq v :
  identity_mapped v ->
  overwritten v = entry_at ((pdpt (indices v) * 512 + pd (indices v)) * 0x200000) (pt (indices v)).
Proof.
  intros [_ H3]%identity_indices. pose proof (Z.mod_pos_bound v (2 ^ 21) ltac:(lia)).
  unfold overwritten, entry_at. rewrite mod32_indices by done.
  change (2 ^ 21) with 0x200000 in *. rewrite Z.div_add_l, (Z.div_small (v mod _)) by lia. lia.
Qed.

Lemma overwritten_range v : identity_mapped v -> 0 <= overwritten v < 2 ^ 32 /\ overwritten v mod 8 = 0.
Proof.
  intros Hv. rewrite overwritten_eq by done. apply identity_indices in Hv as [_ H3].
  destruct (indices_range v) as (R4 & R3 & R2 & R1 & _). unfold entry_at.
  split; [lia|]. Z.div_mod_to_equations. lia.
Qed.

Lemma map_over_huge K v p f s :
  layout_ok K -> boot_tables K (mem s) -> identity_mapped v ->
  map_page (statics_of K) v p f s =
    (Ok tt, mkMachine (wr64 (mem s) (overwritten v) (pte_new p (Z.lor f flags.PRESENT)))
              (frames s) (PAGE_TABLE_PHYS s) (cr3 s) (v :: invlpgs s)).
Proof.
  intros HK Hb Hv. destruct (boot_walk K HK _ Hb v Hv) as (P4 & A4 & P3 & G3 & A3 & E2).
  rewrite overwritten_eq by done.
  apply identity_indices in Hv as [_ H3]. destruct (indices_range v) as (R4 & R3 & R2 & R1 & _).
  unfold walk in *. cbn [e4 e3 e2] in *.
  unfold map_page. cbv zeta.
  rewrite (bind_ok _ _ _ _ _ (next_table_present _ _ _ P4)).
  rewrite (bind_ok _ _ _ _ _ (next_table_present _ _ _ P3)).
  assert (is_present (huge_entry (pdpt (indices v)) (pd (indices v))) = true) as P2 by apply pte_new_PWH.
  rewrite <- E2 in P2.
  rewrite (bind_ok _ _ _ _ _ (next_table_present _ _ _ P2)).
  rewrite E2, huge_entry_addr by lia. done.
Qed.

(** C2: [paging::init] identity-maps the first 4 GiB, in the lower half and at
    the top of the upper half, and nothing else; it points CR3 and
    [PAGE_TABLE_PHYS] at the root, changes no entry of memory outside its six
    tables, and establishes the invariant [map_page] needs. *)
Theorem paging_init_correct K s :
  layout_ok K -> tables_empty K (mem s) ->
  let (r, s') := init (statics_of K) s in
  r = Ok tt /\ cr3 s' = k4 K * 4096 /\ PAGE_TABLE_PHYS s' = k4 K * 4096 /\
  (forall v, translate (statics_of K) (mem s') v =
     if decide (v mod 2 ^ 48 < 2 ^ 32 \/ 511 * 2 ^ 39 <= v mod 2 ^ 48 < 511 * 2 ^ 39 + 2 ^ 32)
     then Some (v mod 2 ^ 32) else None) /\
  (forall p i, is_table K p = false -> 0 <= i < 512 ->
     rd64 (mem s') (cell p i) = rd64 (mem s) (cell p i)) /\
  frames s' = frames s /\ invlpgs s' = invlpgs s /\
  (fs_inv (frames s) -> (forall q, q ∈ fs_free (frames s) -> is_table K q = false) ->
   paging_inv (statics_of K) s' (boot_roles K)).
Proof.
  intros HK Hz. pose proof (init_tables_boot K HK (mem s) Hz) as Hb.
  unfold init, modify, set_page_table_phys, write_cr3, mbind, stateE_bind. cbv beta iota.
  cbn [mem frames cr3 PAGE_TABLE_PHYS invlpgs set_mem KPML4 statics_of].
  split_and!; [done|done|done| |by apply init_tables_outside|done|done|].
  - intros v. by rewrite (boot_translate K HK _ Hb).
  - intros Hfr Hsep. constructor; cbn [mem frames]; [by apply boot_tables_ok|done|].
    intros q Hq. specialize (Hsep q Hq).
    destruct (boot_roles K !! q) as [r|] eqn:E; [|done].
    apply boot_roles_is_table in E. congruence.
Qed.

(** C39: the tables [init] builds have no last level, and [map_page] does not
    look for a huge page: asked to map an address of the first 4 GiB, it
    returns [Ok] having taken the 2 MiB page for a page table, that is having
    overwritten 8 bytes of the memory the address is in.  No translation
    changes (unless those 8 bytes are in a page table). *)
Theorem map_page_overwrites_huge_page K v p f s :
  layout_ok K -> boot_tables K (mem s) -> identity_mapped v ->
  let (r, s') := map_page (statics_of K) v p f s in
  r = Ok tt /\ frames s' = frames s /\
  mem s' = wr64 (mem s) (v mod 2 ^ 32 / 2 ^ 21 * 2 ^ 21 + 8 * pt (indices v))
             (pte_new p (Z.lor f flags.PRESENT)) /\
  (is_table K (overwritten v / 4096) = false ->
   forall v', translate (statics_of K) (mem s') v' = translate (statics_of K) (mem s) v').
Proof.
  intros HK Hb Hv. rewrite map_over_huge by done. cbv beta iota. cbn [frames mem].
  split; [done|]. split; [done|]. split; [done|]. intros Ho v'.
  assert (boot_tables K (wr64 (mem s) (overwritten v) (pte_new p (Z.lor f flags.PRESENT)))) as Hb'.
  { apply boot_tables_write; [done|done|done|]. by apply overwritten_range. }
  fold (overwritten v). by rewrite (boot_translate K HK _ Hb'), (boot_translate K HK _ Hb).
Qed.
End boot_ops.

(** * Witnesses *)

(** The kernel's tables in the pages 160 to 165. *)
Definition some_pages : Pages := mkPages 160 161 162.

Lemma some_layout : layout_ok some_pages.
Proof. constructor; cbn; lia. Qed.

Lemma paging_init_correct_witness :
  let s' := snd (init (statics_of some_pages) zero_machine) in
  translate (statics_of some_pages) (mem s') 0xFFFFFF8012345678 = Some 0x12345678 /\
  translate (statics_of some_pages) (mem s') 0x100000000 = None /\
  paging_inv (statics_of some_pages) s' (boot_roles some_pages).
Proof.
  pose proof (paging_init_correct some_pages zero_machine some_layout (fun p i _ _ => rd64_empty _)) as H.
  destruct (init (statics_of some_pages) zero_machine) as [r s'].
  destruct H as (_ & _ & _ & Ht & _ & _ & _ & Hinv). cbn [snd]. split; [|split].
  - rewrite Ht. reflexivity.
  - rewrite Ht. reflexivity.
  - apply Hinv; cbn [frames zero_machine]; [exact small_WF|]. intros q Hq%small_free.
    apply is_table_false. cbn. lia.
Defined.

Lemma map_page_overwrites_huge_page_witness :
  let s := snd (init (statics_of some_pages) zero_machine) in
  exists s',
    map_page (statics_of some_pages) 0x2001000 0x5000 PW s = (Ok tt, s') /\
    mem s' = wr64 (mem s) 0x2000008 0x5003 /\
    translate (statics_of some_pages) (mem s') 0x2001000 = Some 0x2001000.
Proof.
  pose proof (init_tables_boot some_pages some_layout ∅ (fun p i _ _ => rd64_empty _)) as Hb.
  pose proof (map_page_overwrites_huge_page some_pages 0x2001000 0x5000 PW
                (snd (init (statics_of some_pages) zero_machine)) some_layout Hb
                (or_introl eq_refl)) as H.
  cbv zeta. set (s := snd (init _ _)) in *.
  destruct (map_page (statics_of some_pages) 0x2001000 0x5000 PW s) as [r s'].
  destruct H as (-> & _ & Hm & Ht). exists s'. split; [reflexivity|].
  split; [exact Hm|]. rewrite Ht by reflexivity.
  rewrite (boot_translate some_pages some_layout (mem s) Hb). reflexivity.
Defined.
