(* ===== verification/Heap.v ===== *)
(** [kernel/src/mem/heap.rs]: the kernel heap, which maps more pages and tells
    the inner allocator when an allocation fails.

    The inner allocator is [linked_list_allocator::LockedHeap], a third-party
    crate: its operations are the class [InnerHeap] and what its documentation
    promises is [InnerLaws].  The locks are taken and released within each
    operation, and the model runs one operation at a time. *)
From S2P Require Import Prelude Ram Mem Frames Phys Paging PageWalk PageBoot.
From stdpp Require Import base numbers list gmap sets strings tactics.
From Stdlib Require Import ZArith Lia.
Open Scope Z_scope.
Open Scope word_scope.

Definition HEAP_START : Z := 0x2000000.
Definition INITIAL_HEAP_SIZE : Z := 4 * 1024 * 1024.
Definition EXTEND_CHUNK_SIZE : Z := 4 * 1024 * 1024.
Definition MAX_HEAP_SIZE : Z := 512 * 1024 * 1024.

(** [core::alloc::Layout] *)
Record Layout : Type := mkLayout { layout_size : Z; layout_align : Z }.

(** The operations of [LockedHeap] the kernel calls. *)
Class InnerHeap (H : Type) : Type := {
  inner_empty : H;
  inner_init : Z -> Z -> H -> H;
  inner_extend : Z -> H -> H;
  allocate_first_fit : Layout -> H -> option Z * H;
  inner_deallocate : Z -> Layout -> H -> H;
  inner_free : H -> Z;
  inner_used : H -> Z
}.

(** The documented behaviour: the heap manages one region; [init] sets it,
    [extend] moves its top, and an allocation is a block inside it with the
    alignment asked for. *)
Class InnerLaws (H : Type) {I : InnerHeap H} : Type := {
  region : H -> Z * Z;
  region_init bottom size h : region (inner_init bottom size h) = (bottom, bottom + size);
  region_extend by_ h : region (inner_extend by_ h) = (fst (region h), snd (region h) + by_);
  region_alloc l h : region (snd (allocate_first_fit l h)) = region h;
  region_dealloc p l h : region (inner_deallocate p l h) = region h;
  alloc_block l h p h' :
    allocate_first_fit l h = (Some p, h') ->
    fst (region h) <= p /\ p + layout_size l <= snd (region h) /\ p mod layout_align l = 0
}.

(** [AutoExtendHeap], with the machine its operations work on. *)
Record AutoExtendHeap (A H : Type) : Type := mkHeap {
  machine : Machine A;
  inner : H;
  heap_end : Z
}.
Arguments mkHeap {A H} _ _ _.
Arguments machine {A H} _.
Arguments inner {A H} _.
Arguments heap_end {A H} _.

Section heap.
Context {A : Type} {FS : FrameSource A} {H : Type} {IH : InnerHeap H}.
Variable L : Statics.

Abbreviation AEH := (AutoExtendHeap A H).

Definition set_machine (s : Machine A) (h : AEH) : AEH := mkHeap s (inner h) (heap_end h).
Definition set_inner (i : H) (h : AEH) : AEH := mkHeap (machine h) i (heap_end h).
Definition set_heap_end (e : Z) (h : AEH) : AEH := mkHeap (machine h) (inner h) e.

(** A pointer is null iff it is 0. *)
Definition as_ptr (o : option Z) : Z := match o with Some p => p | None => 0 end.

Definition new (s : Machine A) : AEH := mkHeap s inner_empty HEAP_START.

(** ** init *)

Definition initial_pages : Z := (INITIAL_HEAP_SIZE + PAGE_SIZE - 1) / PAGE_SIZE.

Definition init_page (i : Z) : stateE AEH stop unit := fun h =>
  match alloc_frame_m (machine h) with
  | (Ok (Some phys), s) =>
      let virt := HEAP_START ⊕ (i ⊗ PAGE_SIZE) in
      match map_page L virt phys PW s with
      | (Ok _, s) => (Ok tt, set_machine s h)
      | (Err _, s) => (Err (Panic "Failed to map heap page"), set_machine s h)
      end
  | (_, s) => (Err (Panic "Failed to allocate frame for initial heap"), set_machine s h)
  end.

Definition heap_init : stateE AEH stop unit :=
  for_m 0 initial_pages init_page;;
  (let mapped := initial_pages ⊗ PAGE_SIZE in
   modify (set_heap_end (HEAP_START ⊕ mapped)));;
  modify (fun h => set_inner (inner_init HEAP_START (initial_pages ⊗ PAGE_SIZE) (inner h)) h).

(** ** try_extend *)

(** The body of the loop: the state is the machine and [mapped_pages], and
    [Some tt] is a [break]. *)
Definition extend_page (heap_end i : Z) (st : Machine A * Z) : (Machine A * Z) * option unit :=
  let '(s, mapped_pages) := st in
  match alloc_frame_m s with
  | (Ok (Some frame), s) =>
      let virt := heap_end ⊕ (i ⊗ PAGE_SIZE) in
      match map_page L virt frame PW s with
      | (Ok _, s) => ((s, mapped_pages + 1), None)
      | (Err _, s) => ((set_frames (free_frame frame (frames s)) s, mapped_pages), Some tt)
      end
  | (_, s) => ((s, mapped_pages), Some tt)
  end.

Definition extend_pages (current_size min_bytes : Z) : Z :=
  let want := Z.max min_bytes EXTEND_CHUNK_SIZE in
  let capped := Z.min want (MAX_HEAP_SIZE ⊖ current_size) in
  (capped ⊕ PAGE_SIZE ⊖ 1) / PAGE_SIZE.

Definition try_extend (min_bytes : Z) (h : AEH) : bool * AEH :=
  let current_size := heap_end h ⊖ HEAP_START in
  if MAX_HEAP_SIZE <=? current_size then (false, h)
  else
    let num_pages := extend_pages current_size min_bytes in
    let '((s, mapped_pages), _) :=
      for_range 0 num_pages (extend_page (heap_end h)) (machine h, 0) in
    let h := set_machine s h in
    if mapped_pages =? 0 then (false, h)
    else
      let added := mapped_pages ⊗ PAGE_SIZE in
      let h := set_inner (inner_extend added (inner h)) h in
      let h := set_heap_end (heap_end h ⊕ added) h in
      (true, h).

(** ** alloc and dealloc *)

Definition allocate (layout : Layout) (h : AEH) : Z * AEH :=
  let (o, i) := allocate_first_fit layout (inner h) in (as_ptr o, set_inner i h).

Definition heap_alloc (layout : Layout) (h : AEH) : Z * AEH :=
  let (ptr, h) := allocate layout h in
  if negb (ptr =? 0) then (ptr, h)
  else
    let (extended, h) := try_extend (layout_size layout) h in
    if extended then allocate layout h else (0, h).

Definition heap_dealloc (ptr : Z) (layout : Layout) (h : AEH) : AEH :=
  set_inner (inner_deallocate ptr layout (inner h)) h.

(** ** Statistics *)

Definition heap_stats (h : AEH) : Z * Z := (inner_free (inner h), inner_used (inner h)).

Definition heap_size (h : AEH) : Z := heap_end h ⊖ HEAP_START.
End heap.

(** * Facts *)

(** The invariant of the heap: its end is a page boundary between the start and
    the cap, and the inner allocator manages exactly the mapped region. *)
Record heap_ok {A H} {I : InnerHeap H} {IL : InnerLaws H} (h : AutoExtendHeap A H) : Prop := {
  ho_range : HEAP_START <= heap_end h <= HEAP_START + MAX_HEAP_SIZE;
  ho_page : heap_end h mod PAGE_SIZE = 0;
  ho_region : region (inner h) = (HEAP_START, heap_end h)
}.

Ltac heap_consts :=
  unfold HEAP_START, MAX_HEAP_SIZE, EXTEND_CHUNK_SIZE, INITIAL_HEAP_SIZE, PAGE_SIZE in *.

Section heap_facts.
Context {A : Type} {FS : FrameSource A} {H : Type} {IH : InnerHeap H} {IL : InnerLaws H}.
Variable L : Statics.
Implicit Types (h : AutoExtendHeap A H).

Lemma current_size_eq h :
  HEAP_START <= heap_end h <= HEAP_START + MAX_HEAP_SIZE ->
  heap_end h ⊖ HEAP_START = heap_end h - HEAP_START.
Proof. intros. apply sub64_small. heap_consts. lia. Qed.

(** The number of pages of an extension: at least one, and never past the cap. *)
Lemma extend_pages_bounds cur n :
  0 <= cur < MAX_HEAP_SIZE -> cur mod PAGE_SIZE = 0 ->
  1 <= extend_pages cur n /\ cur + extend_pages cur n * PAGE_SIZE <= MAX_HEAP_SIZE /\
  (n <= MAX_HEAP_SIZE - cur -> n <= extend_pages cur n * PAGE_SIZE).
Proof.
  intros Hc Hp. unfold extend_pages. heap_consts.
  rewrite (sub64_small _ cur) by lia.
  rewrite (add64_small (Z.min _ _)) by lia. rewrite sub64_small by lia.
  Z.div_mod_to_equations. lia.
Qed.

Lemma extend_pages_upper cur n :
  0 <= cur < MAX_HEAP_SIZE ->
  (extend_pages cur n - 1) * PAGE_SIZE < Z.max n EXTEND_CHUNK_SIZE.
Proof.
  intros Hc. unfold extend_pages. heap_consts.
  rewrite (sub64_small _ cur) by lia.
  rewrite (add64_small (Z.min _ _)) by lia. rewrite sub64_small by lia.
  Z.div_mod_to_equations. lia.
Qed.

Lemma extend_loop_count e n (s : Machine A) :
  0 <= n ->
  let '((_, k), _) := for_range 0 n (extend_page L e) (s, 0) in 0 <= k <= n.
Proof.
  intros Hn.
  pose proof (for_range_rule (fun i (st : Machine A * Z) => 0 <= snd st <= i)
    (fun i (st : Machine A * Z) _ => 0 <= snd st <= i) 0 n (extend_page L e) (s, 0)) as HL.
  destruct (for_range _ _ _ _) as [[s' k] [r|]].
  - destruct HL as (i & Hi & Hk); [done|cbn; lia| |cbn in Hk; lia].
    intros i [s1 k1] Hi Hk. unfold extend_page, alloc_frame_m. cbn in Hk.
    destruct (alloc_frame _) as [[f|] a]; [|cbn; lia].
    destruct (map_page _ _ _ _ _) as [[] ?]; cbn; lia.
  - apply HL; [done|cbn; lia|].
    intros i [s1 k1] Hi Hk. unfold extend_page, alloc_frame_m. cbn in Hk.
    destruct (alloc_frame _) as [[f|] a]; [|cbn; lia].
    destruct (map_page _ _ _ _ _) as [[] ?]; cbn; lia.
Qed.

(** What [try_extend] does to the heap itself, whatever the mapping does. *)
Lemma try_extend_spec n h :
  heap_ok h ->
  match try_extend L n h with
  | (true, h') =>
      heap_ok h' /\
      exists k, 1 <= k <= extend_pages (heap_end h - HEAP_START) n /\
        heap_end h' = heap_end h + k * PAGE_SIZE /\
        inner h' = inner_extend (k * PAGE_SIZE) (inner h)
  | (false, h') => heap_ok h' /\ inner h' = inner h /\ heap_end h' = heap_end h
  end.
Proof.
  intros Hok. pose proof Hok as [Hr Hp Hreg]. unfold try_extend. rewrite current_size_eq by done.
  destruct (Z.leb_spec MAX_HEAP_SIZE (heap_end h - HEAP_START)) as [|Hlt]; [done|].
  destruct (extend_pages_bounds (heap_end h - HEAP_START) n) as (Hn1 & Hn2 & _).
  { lia. } { heap_consts. Z.div_mod_to_equations. lia. }
  pose proof (extend_loop_count (heap_end h) (extend_pages (heap_end h - HEAP_START) n) (machine h)
                ltac:(lia)) as Hk.
  destruct (for_range _ _ _ _) as [[s' k] r].
  destruct (Z.eqb_spec k 0) as [->|Hk0]; [by split; [constructor|]|].
  assert (k ⊗ PAGE_SIZE = k * PAGE_SIZE) as Hadd.
  { apply mul64_small. heap_consts. lia. }
  assert (heap_end h ⊕ k ⊗ PAGE_SIZE = heap_end h + k * PAGE_SIZE) as Hend.
  { rewrite Hadd. apply add64_small. heap_consts. lia. }
  cbn [heap_end set_machine set_inner set_heap_end inner]. rewrite Hend, Hadd.
  split; [constructor|exists k; split_and!; try done; lia];
    cbn [heap_end inner set_heap_end set_inner set_machine].
  - heap_consts. lia.
  - heap_consts. Z.div_mod_to_equations. lia.
  - by rewrite region_extend, Hreg.
Qed.
End heap_facts.

(** * Under the boot page tables

    The heap lies in the identity-mapped 4 GiB, which the boot tables map with
    huge pages: [map_page] does not map its pages to the frames it is given. *)

(** The linker places no page table in the heap's range. *)
Definition heap_clear (K : Pages) : Prop :=
  forall p, HEAP_START / PAGE_SIZE <= p < (HEAP_START + MAX_HEAP_SIZE) / PAGE_SIZE -> is_table K p = false.

(** The address of page [i] of a block at [e]. *)
Definition heap_page (e i : Z) : Z := e + i * PAGE_SIZE.

Definition heap_range (v : Z) : Prop :=
  HEAP_START <= v < HEAP_START + MAX_HEAP_SIZE /\ v mod PAGE_SIZE = 0.

Lemma heap_identity v : heap_range v -> identity_mapped v.
Proof.
  unfold heap_range, identity_mapped. heap_consts. intros. left.
  rewrite Z.mod_small; lia.
Qed.

Lemma pt_div v : pt (indices v) = v / 4096 mod 512.
Proof. by rewrite indices_div. Qed.

Lemma overwritten_heap v :
  heap_range v -> overwritten v = v / 2 ^ 21 * 2 ^ 21 + 8 * (v / 4096 mod 512).
Proof.
  unfold heap_range, overwritten. heap_consts. intros. rewrite pt_div.
  by rewrite (Z.mod_small v (2 ^ 32)) by lia.
Qed.

Lemma overwritten_heap_range v :
  heap_range v -> HEAP_START <= overwritten v < HEAP_START + MAX_HEAP_SIZE /\ overwritten v <= v.
Proof.
  intros Hv. rewrite overwritten_heap by done. unfold heap_range in Hv. heap_consts.
  Z.div_mod_to_equations. lia.
Qed.

(** Different pages overwrite different entries. *)
Lemma overwritten_disjoint v w :
  heap_range v -> heap_range w -> v <> w -> disjoint_ranges (overwritten v) 8 (overwritten w) 8.
Proof.
  intros Hv Hw Hne. rewrite !overwritten_heap by done. unfold disjoint_ranges.
  unfold heap_range in *. heap_consts. Z.div_mod_to_equations. lia.
Qed.

Section boot_heap.
Context {A : Type} {FS : FrameSource A} {FL : FrameLaws A}.
Context (K : Pages) (HK : layout_ok K) (HC : heap_clear K).
Implicit Types (s : Machine A).

Lemma overwritten_not_table v : heap_range v -> is_table K (overwritten v / 4096) = false.
Proof using HC.
  intros Hv. apply HC. destruct (overwritten_heap_range v Hv) as [Hr _].
  heap_consts. Z.div_mod_to_equations. lia.
Qed.

(** Mapping one heap page. *)
Definition heap_write (s : Machine A) (v p : Z) : Machine A :=
  mkMachine (wr64 (mem s) (overwritten v) (pte_new p PW)) (frames s) (PAGE_TABLE_PHYS s) (cr3 s)
    (v :: invlpgs s).

Lemma map_heap_page s v p :
  boot_tables K (mem s) -> heap_range v ->
  map_page (statics_of K) v p PW s = (Ok tt, heap_write s v p) /\
  boot_tables K (mem (heap_write s v p)).
Proof using HK HC.
  intros Hb Hv. split.
  - rewrite (map_over_huge K) by (done || by apply heap_identity). done.
  - apply boot_tables_write; [done|done|by apply overwritten_not_table|].
    by apply overwritten_range, heap_identity.
Qed.

(** What the pages [0 .. i) of a block at [e] leave behind, from the machine
    [s0]: [i] frames are gone, the tables are as they were, and the entry the
    mapping of page [j] wrote holds one of the frames. *)
Record pages_written (s0 : Machine A) (e i : Z) (s : Machine A) : Prop := {
  pw_boot : boot_tables K (mem s);
  pw_inv : fs_inv (frames s);
  pw_frames : frames s = Nat.iter (Z.to_nat i) (fun a => snd (alloc_frame a)) (frames s0);
  pw_free : fs_free (frames s) ⊆ fs_free (frames s0);
  pw_size : Z.of_nat (size (fs_free (frames s0))) = Z.of_nat (size (fs_free (frames s))) + i;
  pw_entry j : 0 <= j < i ->
    exists f, f ∈ fs_free (frames s0) /\ (f ∉ fs_free (frames s)) /\
      rd64 (mem s) (overwritten (heap_page e j)) = pte_new (f * PAGE_SIZE) PW
}.

Lemma pages_written_0 s e :
  boot_tables K (mem s) -> fs_inv (frames s) -> pages_written s e 0 s.
Proof using. intros. constructor; auto; lia. Qed.

(** One iteration of either loop: the frame is there and the page is
    "mapped", or no frame is left. *)
Lemma page_step s0 e i n s :
  (forall j, 0 <= j < n -> heap_range (heap_page e j)) -> 0 <= i < n ->
  pages_written s0 e i s ->
  match alloc_frame (frames s) with
  | (Some f, a) =>
      map_page (statics_of K) (heap_page e i) f PW (set_frames a s)
        = (Ok tt, heap_write (set_frames a s) (heap_page e i) f) /\
      pages_written s0 e (i + 1) (heap_write (set_frames a s) (heap_page e i) f)
  | (None, a) => a = frames s /\ fs_free (frames s) = ∅
  end.
Proof using HK HC.
  intros Hrange Hi [Hb Hinv Hiter Hfree Hsize Hent].
  destruct (alloc_frame (frames s)) as [[f|] a] eqn:Ha.
  2:{ by destruct (fs_alloc_none _ _ Hinv Ha). }
  destruct (fs_alloc_some _ _ _ Hinv Ha) as (Hinv' & p & -> & Hp & Hin & Hrem).
  pose proof (Hrange i ltac:(lia)) as Hri.
  destruct (map_heap_page (set_frames a s) (heap_page e i) (p * PAGE_SIZE) Hb Hri) as [Hmap Hb'].
  split; [done|]. constructor; cbn [mem frames heap_write set_frames].
  - exact Hb'.
  - done.
  - replace (Z.to_nat (i + 1)) with (S (Z.to_nat i)) by lia.
    rewrite Nat.iter_succ, <- Hiter. by rewrite Ha.
  - rewrite Hrem. by apply subseteq_difference_l.
  - rewrite Hrem, size_difference, size_singleton by by apply singleton_subseteq_l.
    assert (size (fs_free (frames s)) <> O); [|lia].
    intros Hz%size_empty_iff. rewrite Hz in Hin. by apply not_elem_of_empty in Hin.
  - intros j Hj. destruct (decide (j = i)) as [->|Hne].
    + exists p. split; [by apply Hfree|]. split.
      * rewrite Hrem. by intros [_ []%not_elem_of_singleton]%elem_of_difference.
      * apply rd64_wr64_same, pte_new_range.
    + destruct (Hent j ltac:(lia)) as (f & Hf0 & Hf & Hrd). exists f. split; [done|]. split.
      * rewrite Hrem. by intros [? _]%elem_of_difference.
      * rewrite <- Hrd. apply rd64_wr64_ne, overwritten_disjoint; [done|by apply Hrange; lia|].
        unfold heap_page. heap_consts. lia.
Qed.

(** The translations of a machine with the boot tables. *)
Lemma boot_translate_eq s s' v :
  boot_tables K (mem s) -> boot_tables K (mem s') ->
  translate (statics_of K) (mem s') v = translate (statics_of K) (mem s) v.
Proof using HK. intros H1 H2. by rewrite !(boot_translate K HK). Qed.
End boot_heap.

Section boot_operations.
Context {A : Type} {FS : FrameSource A} {FL : FrameLaws A}.
Context {H : Type} {IH : InnerHeap H} {IL : InnerLaws H}.
Implicit Types (K : Pages) (h : AutoExtendHeap A H).

Lemma init_heap_range j : 0 <= j < 1024 -> heap_range (heap_page HEAP_START j).
Proof. unfold heap_range, heap_page. heap_consts. intros. Z.div_mod_to_equations. lia. Qed.

Lemma heap_page_eq e i :
  HEAP_START <= e <= HEAP_START + MAX_HEAP_SIZE -> 0 <= i < 2 ^ 32 ->
  e ⊕ i ⊗ PAGE_SIZE = heap_page e i.
Proof.
  unfold heap_page. heap_consts. intros. rewrite (mul64_small i) by lia. apply add64_small. lia.
Qed.

Lemma heap_init_spec K h :
  layout_ok K -> heap_clear K -> boot_tables K (mem (machine h)) -> fs_inv (frames (machine h)) ->
  match heap_init (statics_of K) h with
  | (Ok _, h') =>
      pages_written K (machine h) HEAP_START 1024 (machine h') /\
      heap_end h' = HEAP_START + INITIAL_HEAP_SIZE /\
      inner h' = inner_init HEAP_START INITIAL_HEAP_SIZE (inner h)
  | (Err e, h') =>
      e = Panic "Failed to allocate frame for initial heap" /\
      fs_free (frames (machine h')) = ∅ /\ (size (fs_free (frames (machine h))) < 1024)%nat
  end.
Proof.
  intros HK HC Hb Hfr. unfold heap_init.
  pose proof (for_m_rule
    (fun i (h' : AutoExtendHeap A H) =>
       pages_written K (machine h) HEAP_START i (machine h') /\ inner h' = inner h)
    (fun i h' e => e = Panic "Failed to allocate frame for initial heap" /\
       fs_free (frames (machine h')) = ∅ /\ (size (fs_free (frames (machine h))) < 1024)%nat)
    0 initial_pages (init_page (statics_of K)) h ltac:(done)) as HL.
  assert (forall i s, 0 <= i < initial_pages ->
    pages_written K (machine h) HEAP_START i (machine s) /\ inner s = inner h ->
    match init_page (statics_of K) i s with
    | (Ok _, s') => pages_written K (machine h) HEAP_START (i + 1) (machine s') /\ inner s' = inner h
    | (Err e, s') => e = Panic "Failed to allocate frame for initial heap" /\
        fs_free (frames (machine s')) = ∅ /\ (size (fs_free (frames (machine h))) < 1024)%nat
    end) as Hstep.
  { intros i s Hi [Hw Hin]. change initial_pages with 1024 in Hi.
    pose proof (page_step K HK HC _ _ i 1024 _ init_heap_range Hi Hw) as Hs.
    unfold init_page, alloc_frame_m. rewrite heap_page_eq by (heap_consts; lia).
    destruct (alloc_frame _) as [[f|] a].
    - destruct Hs as [-> Hs]. by split.
    - destruct Hs as [-> He]. cbn [machine set_machine frames set_frames]. split_and!; [done|done|].
      destruct Hw as [_ _ _ _ Hsz _]. rewrite He, size_empty in Hsz. lia. }
  specialize (HL (conj (pages_written_0 K (machine h) HEAP_START Hb Hfr) eq_refl) Hstep).
  destruct (for_m _ _ _ _) as [[[]|e] h1] eqn:E.
  - rewrite (bind_ok _ _ _ _ _ E). destruct HL as [Hw Hi].
    unfold modify, mbind, stateE_bind.
    cbn [machine inner heap_end set_heap_end set_inner]. by rewrite Hi.
  - rewrite (bind_err _ _ _ _ _ E). by destruct HL as (i & _ & HQ).
Qed.

(** The loop of [try_extend]: it stops early only when no frame is left. *)
Lemma extend_loop_spec K (s0 : Machine A) e n :
  layout_ok K -> heap_clear K -> boot_tables K (mem s0) -> fs_inv (frames s0) ->
  HEAP_START <= e <= HEAP_START + MAX_HEAP_SIZE -> 0 <= n < 2 ^ 32 ->
  (forall j, 0 <= j < n -> heap_range (heap_page e j)) ->
  let '((s, k), _) := for_range 0 n (extend_page (statics_of K) e) (s0, 0) in
  0 <= k <= n /\ pages_written K s0 e k s /\ (k = n \/ fs_free (frames s) = ∅).
Proof.
  intros HK HC Hb Hfr He Hn Hrange.
  pose proof (for_range_rule
    (fun i (st : Machine A * Z) => snd st = i /\ pages_written K s0 e i (fst st))
    (fun i (st : Machine A * Z) (_ : unit) => snd st = i /\ pages_written K s0 e i (fst st) /\
       fs_free (frames (fst st)) = ∅)
    0 n (extend_page (statics_of K) e) (s0, 0) ltac:(lia)
    (conj eq_refl (pages_written_0 K s0 e Hb Hfr))) as HL.
  assert (forall i st, 0 <= i < n -> snd st = i /\ pages_written K s0 e i (fst st) ->
    match extend_page (statics_of K) e i st with
    | (st', Some _) => snd st' = i /\ pages_written K s0 e i (fst st') /\ fs_free (frames (fst st')) = ∅
    | (st', None) => snd st' = i + 1 /\ pages_written K s0 e (i + 1) (fst st')
    end) as Hstep.
  { intros i [s k] Hi [Hk Hw]. cbn [fst snd] in Hk, Hw. subst k.
    pose proof (page_step K HK HC _ _ i n _ Hrange Hi Hw) as Hs.
    unfold extend_page, alloc_frame_m. rewrite heap_page_eq by (heap_consts; lia).
    destruct (alloc_frame _) as [[f|] a]; [by destruct Hs as [-> Hs]|].
    destruct Hs as [-> Hf]. cbn [fst snd]. destruct s. done. }
  specialize (HL Hstep).
  destruct (for_range _ _ _ _) as [[s k] [[]|]]; cbn [fst snd] in HL.
  - destruct HL as (i & Hi & -> & Hw & Hf). split_and!; [lia|lia|done|by right].
  - destruct HL as (-> & Hw). split_and!; [lia|lia|done|by left].
Qed.

(** The pages of an extension are in the heap's range. *)
Lemma extend_range h n j :
  heap_ok h -> heap_end h - HEAP_START < MAX_HEAP_SIZE ->
  0 <= j < extend_pages (heap_end h - HEAP_START) n -> heap_range (heap_page (heap_end h) j).
Proof.
  intros [Hr Hp _] Hlt Hj.
  destruct (extend_pages_bounds (heap_end h - HEAP_START) n) as (_ & Hn & _).
  { lia. } { heap_consts. Z.div_mod_to_equations. lia. }
  unfold heap_range, heap_page. heap_consts. Z.div_mod_to_equations. lia.
Qed.

Lemma try_extend_boot_spec K n h :
  layout_ok K -> heap_clear K -> heap_ok h -> boot_tables K (mem (machine h)) -> fs_inv (frames (machine h)) ->
  heap_end h - HEAP_START < MAX_HEAP_SIZE ->
  let (b, h') := try_extend (statics_of K) n h in
  exists k, 0 <= k <= extend_pages (heap_end h - HEAP_START) n /\
    pages_written K (machine h) (heap_end h) k (machine h') /\
    (k = extend_pages (heap_end h - HEAP_START) n \/ fs_free (frames (machine h')) = ∅) /\
    b = negb (k =? 0) /\ heap_end h' = heap_end h + k * PAGE_SIZE.
Proof.
  intros HK HC Hok Hb Hfr Hlt. pose proof Hok as [Hr Hp _].
  destruct (extend_pages_bounds (heap_end h - HEAP_START) n) as (Hn1 & Hn & _).
  { lia. } { heap_consts. Z.div_mod_to_equations. lia. }
  unfold try_extend. rewrite current_size_eq by done.
  rewrite (proj2 (Z.leb_gt _ _)) by lia.
  pose proof (extend_loop_spec K (machine h) (heap_end h) (extend_pages (heap_end h - HEAP_START) n)
                HK HC Hb Hfr Hr ltac:(heap_consts; lia) (fun j => extend_range h n j Hok Hlt)) as HL.
  destruct (for_range _ _ _ _) as [[s k] r]. destruct HL as (Hk & Hw & Hend).
  assert (heap_end h ⊕ k ⊗ PAGE_SIZE = heap_end h + k * PAGE_SIZE) as He.
  { apply heap_page_eq; [done|]. heap_consts. lia. }
  destruct (Z.eqb_spec k 0) as [->|Hk0].
  - exists 0. cbn [machine set_machine heap_end]. split_and!; try done; lia.
  - exists k. rewrite (proj2 (Z.eqb_neq k 0) Hk0).
    cbn [machine set_machine set_heap_end set_inner heap_end]. by rewrite He.
Qed.
End boot_operations.

(** * Properties *)

Section properties.
Context {A : Type} {FS : FrameSource A} {H : Type} {IH : InnerHeap H} {IL : InnerLaws H}.
Implicit Types (h : AutoExtendHeap A H).


(** An allocation that succeeds at once, after the extension, or not at all. *)
Lemma heap_alloc_spec (L : Statics) (layout : Layout) h (Hok : heap_ok h) :
  let (p, h') := heap_alloc L layout h in
  heap_ok h' /\ heap_end h <= heap_end h' /\
  (p <> 0 -> HEAP_START <= p /\ p + layout_size layout <= heap_end h' /\
             p mod layout_align layout = 0) /\
  (p = 0 ->
     as_ptr (fst (allocate_first_fit layout (inner h))) = 0 /\
     exists b h1,
       try_extend L (layout_size layout) (set_inner (snd (allocate_first_fit layout (inner h))) h) = (b, h1) /\
       (b = true -> as_ptr (fst (allocate_first_fit layout (inner h1))) = 0)).
Proof.
  assert (forall h1 p h2, heap_ok h1 -> allocate layout h1 = (p, h2) ->
            heap_ok h2 /\ heap_end h2 = heap_end h1 /\
            as_ptr (fst (allocate_first_fit layout (inner h1))) = p /\
            h2 = set_inner (snd (allocate_first_fit layout (inner h1))) h1 /\
            (p <> 0 -> HEAP_START <= p /\ p + layout_size layout <= heap_end h1 /\
                       p mod layout_align layout = 0)) as Hallocate.
  { intros h1 p h2 [Hr Hp Hreg]. unfold allocate.
    pose proof (region_alloc layout (inner h1)) as Hra. pose proof (alloc_block layout (inner h1)) as Hab.
    destruct (allocate_first_fit layout (inner h1)) as [o i]. intros [= <- <-].
    cbn [snd fst heap_end set_inner] in *. split; [constructor; cbn [heap_end inner set_inner]; congruence|].
    split_and!; [done|done|done|]. intros Hne. destruct o as [q|]; [|done]. cbn [as_ptr] in *.
    specialize (Hab q i eq_refl). by rewrite Hreg in Hab. }
  unfold heap_alloc. destruct (allocate layout h) as [p h1] eqn:E1.
  destruct (Hallocate h p h1 Hok E1) as (Hok1 & He1 & Hp1 & Hh1 & Hblock).
  destruct (Z.eqb_spec p 0) as [->|Hne]; cbn [negb]; [|by rewrite He1].
  pose proof (try_extend_spec L (layout_size layout) h1 Hok1) as Hs.
  destruct (try_extend L (layout_size layout) h1) as [[] h2] eqn:E2.
  2:{ destruct Hs as (Hok2 & _ & He2). split_and!; [done|lia|done|].
      intros _. split; [done|]. exists false, h2. by rewrite <- Hh1. }
  destruct Hs as (Hok2 & k & Hk & He2 & _).
  destruct (allocate layout h2) as [q h3] eqn:E3.
  destruct (Hallocate h2 q h3 Hok2 E3) as (Hok3 & He3 & Hp3 & _ & Hblock3).
  split_and!; [done|heap_consts; lia|by rewrite He3|].
  intros ->. split; [done|]. exists true, h2. by rewrite <- Hh1.
Qed.

End properties.

Section boot_properties.
Context {A : Type} {FS : FrameSource A} {FL : FrameLaws A}.
Context {H : Type} {IH : InnerHeap H} {IL : InnerLaws H}.
Implicit Types (K : Pages) (h : AutoExtendHeap A H).

(** [heap::init] on the tables [paging::init] built. It succeeds iff 1024
    frames are free, and panics for want of a frame otherwise. When it
    succeeds the heap is [HEAP_START .. HEAP_START + 4 MiB], the invariant
    holds and 1024 frames are gone; but every heap address still translates
    to itself: none of those frames is mapped anywhere, the heap is the
    physical memory at 32 MiB, whoever owns it. *)
Theorem heap_init_correct K h
  (HK : layout_ok K) (HC : heap_clear K) (Hb : boot_tables K (mem (machine h)))
  (Hfr : fs_inv (frames (machine h))) :
  match heap_init (statics_of K) h with
  | (Ok _, h') =>
      heap_ok h' /\ heap_end h' = HEAP_START + INITIAL_HEAP_SIZE /\
      Z.of_nat (size (fs_free (frames (machine h)))) =
        Z.of_nat (size (fs_free (frames (machine h')))) + 1024 /\
      (forall v, HEAP_START <= v < heap_end h' ->
         translate (statics_of K) (mem (machine h')) v = Some v) /\
      (forall v, translate (statics_of K) (mem (machine h')) v =
                 translate (statics_of K) (mem (machine h)) v)
  | (Err e, h') =>
      e = Panic "Failed to allocate frame for initial heap" /\
      (size (fs_free (frames (machine h))) < 1024)%nat
  end.
Proof.
  pose proof (heap_init_spec K h HK HC Hb Hfr) as Hs.
  destruct (heap_init (statics_of K) h) as [[[]|e] h']; [|by destruct Hs as (? & _ & ?)].
  destruct Hs as ([Hb' _ _ _ Hsz _] & He & Hi). split_and!; [|done|done| |].
  - constructor; rewrite He; [heap_consts; lia|done|]. by rewrite Hi, region_init.
  - intros v Hv. rewrite (boot_translate K HK _ Hb'). rewrite He in Hv. heap_consts.
    rewrite Z.mod_small by lia. rewrite decide_True; [done|].
    left. rewrite Z.mod_small by lia. lia.
  - intros v. by apply boot_translate_eq.
Qed.

(** [try_extend] on those tables, below the cap: it "maps" as many pages
    as were asked for or, if fewer, as many as there are free frames, each
    costing one frame; it succeeds iff that is at least one; and no
    translation changes. *)
Theorem try_extend_boot K n h
  (HK : layout_ok K) (HC : heap_clear K) (Hok : heap_ok h)
  (Hb : boot_tables K (mem (machine h))) (Hfr : fs_inv (frames (machine h)))
  (Hlt : heap_size h < MAX_HEAP_SIZE) :
  let (b, h') := try_extend (statics_of K) n h in
  let k := Z.min (extend_pages (heap_size h) n) (Z.of_nat (size (fs_free (frames (machine h))))) in
  b = negb (k =? 0) /\ heap_end h' = heap_end h + k * PAGE_SIZE /\
  Z.of_nat (size (fs_free (frames (machine h')))) =
    Z.of_nat (size (fs_free (frames (machine h)))) - k /\
  forall v, translate (statics_of K) (mem (machine h')) v =
            translate (statics_of K) (mem (machine h)) v.
Proof.
  pose proof (try_extend_boot_spec K n h HK HC Hok Hb Hfr) as Hs.
  unfold heap_size in *. rewrite current_size_eq in * by apply Hok. specialize (Hs Hlt).
  destruct (try_extend (statics_of K) n h) as [b h'].
  destruct Hs as (k & Hk & [Hb' _ _ _ Hsz _] & Hend & -> & He).
  assert (k = Z.min (extend_pages (heap_end h - HEAP_START) n)
                (Z.of_nat (size (fs_free (frames (machine h)))))) as <-.
  { destruct Hend as [-> | Hempty]; [lia|]. rewrite Hempty, size_empty in Hsz. lia. }
  split_and!; [done|done|lia|]. intros v. by apply boot_translate_eq.
Qed.

(** An extension of a heap whose end is not 2 MiB-aligned overwrites 8
    bytes of the heap in use, below its end, with a page table entry: the
    extension of a heap that an earlier request of, say, 5 MiB extended. *)
Theorem try_extend_overwrites_live_heap K n h
  (HK : layout_ok K) (HC : heap_clear K) (Hok : heap_ok h)
  (Hb : boot_tables K (mem (machine h))) (Hfr : fs_inv (frames (machine h)))
  (Hlt : heap_size h < MAX_HEAP_SIZE)
  (Hal : heap_end h mod 0x200000 <> 0) (Hsome : fs_free (frames (machine h)) <> ∅) :
  let (_, h') := try_extend (statics_of K) n h in
  exists a f,
    HEAP_START <= a /\ a + 8 <= heap_end h /\ f ∈ fs_free (frames (machine h)) /\
    rd64 (mem (machine h')) a = pte_new (f * PAGE_SIZE) PW.
Proof.
  pose proof (try_extend_boot_spec K n h HK HC Hok Hb Hfr) as Hs.
  unfold heap_size in *. rewrite current_size_eq in * by apply Hok. specialize (Hs Hlt).
  destruct (try_extend (statics_of K) n h) as [b h'].
  destruct Hs as (k & Hk & [_ _ _ _ Hsz Hent] & Hend & _ & _).
  destruct (extend_pages_bounds (heap_end h - HEAP_START) n) as (Hn & _).
  { destruct Hok. lia. } { destruct Hok. heap_consts. Z.div_mod_to_equations. lia. }
  assert (0 < k).
  { destruct Hend as [-> | Hempty]; [lia|]. rewrite Hempty, size_empty in Hsz.
    assert (size (fs_free (frames (machine h))) <> O); [|lia].
    intros Hz%size_empty_iff. by apply Hsome, leibniz_equiv. }
  destruct (Hent 0 ltac:(lia)) as (f & Hf & _ & Hrd).
  exists (overwritten (heap_page (heap_end h) 0)), f.
  pose proof (extend_range h n 0 Hok Hlt ltac:(lia)) as Hr.
  destruct (overwritten_heap_range _ Hr) as [Hor _].
  split_and!; [lia| |done|exact Hrd].
  rewrite overwritten_heap by done. destruct Hok as [_ Hp _]. unfold heap_page. heap_consts.
  Z.div_mod_to_equations. lia.
Qed.
End boot_properties.

Lemma iter_alloc_frame n (fa : FrameAllocator) :
  Nat.iter n (fun fa => snd (alloc_frame fa)) fa = allocs n fa.
Proof. reflexivity. Qed.

(** The allocator goes on to hand out the heap's own memory. With the
    frame allocator of [phys.rs], a page of the heap that was free before
    [heap::init], with at least 1024 free pages before it in the search, is
    still free after it, although the heap's addresses translate to it: a later
    [alloc_frame] will return it to someone else. *)
Theorem heap_memory_stays_free {H : Type} {IH : InnerHeap H} {IL : InnerLaws H}
  (K : Pages) (h : AutoExtendHeap FrameAllocator H) (q : Z)
  (HK : layout_ok K) (HC : heap_clear K) (Hb : boot_tables K (mem (machine h)))
  (HWF : WF (frames (machine h)))
  (Hq : HEAP_START <= q * PAGE_SIZE < HEAP_START + INITIAL_HEAP_SIZE)
  (Hfree : q ∈ free_set (frames (machine h)))
  (Hbefore : (Z.to_nat 1024 <= size (free_before (frames (machine h)) q))%nat) :
  exists h', heap_init (statics_of K) h = (Ok tt, h') /\
    translate (statics_of K) (mem (machine h')) (q * PAGE_SIZE) = Some (q * PAGE_SIZE) /\
    q ∈ free_set (frames (machine h')).
Proof.
  pose proof (heap_init_spec K h HK HC Hb HWF) as Hs.
  destruct (heap_init (statics_of K) h) as [[[]|e] h'].
  - destruct Hs as ([Hb' _ Hiter _ _ _] & _ & _). exists h'. split; [done|]. split.
    + rewrite (boot_translate K HK _ Hb'). heap_consts. rewrite Z.mod_small by lia.
      rewrite decide_True; [done|]. left. rewrite Z.mod_small by lia. lia.
    + rewrite Hiter, iter_alloc_frame. exact (allocs_keep _ _ _ HWF Hfree Hbefore).
  - destruct Hs as (_ & _ & Hsz). exfalso.
    pose proof (subseteq_size _ _ (free_before_subseteq (frames (machine h)) q)).
    cbn [fs_free phys_laws] in Hsz. lia.
Qed.

(** * Witnesses *)

(** A trivial inner allocator: every block starts at the bottom of the region. *)
Record bottom_heap : Type := mkBottom { lo : Z; hi : Z; live : bool }.

Definition bottom_alloc (l : Layout) (h : bottom_heap) : option Z * bottom_heap :=
  if (lo h + layout_size l <=? hi h) && (lo h mod layout_align l =? 0) && negb (live h)
  then (Some (lo h), mkBottom (lo h) (hi h) true)
  else (None, h).

#[export] Instance bottom_inner : InnerHeap bottom_heap := {
  inner_empty := mkBottom 0 0 false;
  inner_init bottom size _ := mkBottom bottom (bottom + size) false;
  inner_extend n h := mkBottom (lo h) (hi h + n) (live h);
  allocate_first_fit := bottom_alloc;
  inner_deallocate _ _ h := mkBottom (lo h) (hi h) false;
  inner_free h := if live h then 0 else hi h - lo h;
  inner_used h := if live h then hi h - lo h else 0
}.

#[export] Program Instance bottom_laws : InnerLaws bottom_heap := {
  region h := (lo h, hi h)
}.
Next Obligation. done. Qed.
Next Obligation. done. Qed.
Next Obligation. intros l h. cbn. unfold bottom_alloc. by destruct (_ && _). Qed.
Next Obligation. done. Qed.
Next Obligation.
  intros l h p h'. cbn. unfold bottom_alloc.
  destruct (Z.leb_spec (lo h + layout_size l) (hi h)); [|done].
  destruct (Z.eqb_spec (lo h mod layout_align l) 0); [|done].
  cbn. destruct (live h); [done|]. intros [= <- <-]. lia.
Qed.

(** The heap of a machine after [paging::init]. *)
Definition boot_heap (fa : FrameAllocator) : AutoExtendHeap FrameAllocator bottom_heap :=
  new (snd (Paging.init (statics_of some_pages) (mkMachine ∅ fa 0 0 []))).

Lemma boot_heap_tables fa : boot_tables some_pages (mem (machine (boot_heap fa))).
Proof. exact (init_tables_boot some_pages some_layout ∅ (fun p i _ _ => rd64_empty _)). Qed.

Lemma boot_heap_frames fa : frames (machine (boot_heap fa)) = fa.
Proof. reflexivity. Qed.

Lemma some_clear : heap_clear some_pages.
Proof. intros p Hp. apply is_table_false. cbn. heap_consts. Z.div_mod_to_equations. lia. Qed.

(** A machine with 64 MiB. *)
Definition ram64_map : BootInfo :=
  mkBootInfo 0 (Some [mkEntry 0 0x9f000 Available; mkEntry 0x100000 0x3f00000 Available]) 2
    (mkFb 0xb8000 80 25 160 16 16 8 16 0 0 0) X86_64 0 0 0 0 None 0.

Definition ram64 : FrameAllocator := Phys.init ram64_map Phys.new.

Lemma ram64_spec :
  WF ram64 /\ first_free ram64 = 0 /\ forall p, 256 <= p < 16384 -> p ∈ free_set ram64.
Proof.
  destruct (init_spec ram64_map (map_list ram64_map) [] eq_refl eq_refl) as (HWF & Hff & Hset).
  { repeat constructor; cbn; unfold PAGE_SIZE; lia. }
  { discriminate. }
  split; [exact HWF|]. split; [exact Hff|]. intros p Hp. unfold ram64. rewrite Hset.
  split; [rewrite MAX_PAGES_eq; lia|]. exists (mkEntry 0x100000 0x3f00000 Available).
  split; [right; left|]. split; [done|]. cbn. unfold PAGE_SIZE. lia.
Qed.

Lemma ram64_before : (Z.to_nat 1024 <= size (free_before (frames (machine (boot_heap ram64))) 0x2000))%nat.
Proof.
  rewrite boot_heap_frames. destruct ram64_spec as (_ & Hff & Hset).
  apply (page_block_size 256). intros p Hp%elem_of_page_block.
  apply elem_of_free_before. rewrite Hff. split; [lia|]. apply Hset. lia.
Qed.

Lemma heap_init_correct_witness :
  exists h', heap_init (statics_of some_pages) (boot_heap ram64) = (Ok tt, h') /\
    heap_end h' = 0x2400000 /\
    translate (statics_of some_pages) (mem (machine h')) 0x2000123 = Some 0x2000123.
Proof.
  assert (fs_inv (frames (machine (boot_heap ram64)))) as Hinv.
  { rewrite boot_heap_frames. exact (proj1 ram64_spec). }
  pose proof (heap_init_correct some_pages (boot_heap ram64) some_layout some_clear
                (boot_heap_tables _) Hinv) as H.
  destruct (heap_init (statics_of some_pages) (boot_heap ram64)) as [[[]|e] h'].
  - destruct H as (_ & He & _ & Ht & _). exists h'. split; [reflexivity|]. split; [exact He|].
    apply Ht. rewrite He. unfold HEAP_START, INITIAL_HEAP_SIZE. lia.
  - exfalso. destruct H as [_ Hsz]. pose proof ram64_before as Hb.
    pose proof (subseteq_size _ _ (free_before_subseteq (frames (machine (boot_heap ram64))) 0x2000)).
    cbn [fs_free phys_laws] in Hsz. lia.
Defined.

Lemma heap_memory_stays_free_witness :
  exists h', heap_init (statics_of some_pages) (boot_heap ram64) = (Ok tt, h') /\
    HEAP_START / PAGE_SIZE ∈ free_set (frames (machine h')).
Proof.
  destruct ram64_spec as (HWF & _ & Hset).
  destruct (heap_memory_stays_free some_pages (boot_heap ram64) 0x2000 some_layout some_clear
              (boot_heap_tables _)) as (h' & Hi & _ & Hf).
  - rewrite boot_heap_frames. exact HWF.
  - unfold HEAP_START, INITIAL_HEAP_SIZE, PAGE_SIZE. lia.
  - rewrite boot_heap_frames. apply Hset. lia.
  - exact ram64_before.
  - exists h'. split; [exact Hi|exact Hf].
Defined.

(** A heap one page below its cap, on the small machine. *)
Definition near_cap : AutoExtendHeap FrameAllocator bottom_heap :=
  mkHeap (machine (boot_heap small_fa))
    (mkBottom HEAP_START (HEAP_START + MAX_HEAP_SIZE - PAGE_SIZE) false)
    (HEAP_START + MAX_HEAP_SIZE - PAGE_SIZE).

Lemma near_cap_ok : heap_ok near_cap.
Proof. constructor; cbn; [heap_consts; lia|reflexivity|reflexivity]. Qed.

Lemma near_cap_inv : fs_inv (frames (machine near_cap)).
Proof. cbn [machine near_cap]. rewrite boot_heap_frames. exact small_WF. Qed.

Lemma near_cap_some : fs_free (frames (machine near_cap)) <> ∅.
Proof.
  cbn [machine near_cap]. rewrite boot_heap_frames. cbn [fs_free phys_laws]. intros He.
  pose proof small_has as Hs. rewrite He in Hs. by apply not_elem_of_empty in Hs.
Qed.



Lemma try_extend_boot_witness :
  let (b, h') := try_extend (statics_of some_pages) 1 near_cap in
  translate (statics_of some_pages) (mem (machine h')) 0x2500000 = Some 0x2500000.
Proof.
  pose proof (try_extend_boot some_pages 1 near_cap some_layout some_clear near_cap_ok
                (boot_heap_tables _) near_cap_inv eq_refl) as H.
  destruct (try_extend (statics_of some_pages) 1 near_cap) as [b h'].
  destruct H as (_ & _ & _ & Ht). rewrite Ht.
  rewrite (boot_translate some_pages some_layout _ (boot_heap_tables small_fa)). reflexivity.
Defined.

Lemma try_extend_overwrites_live_heap_witness :
  exists a f, HEAP_START <= a < HEAP_START + MAX_HEAP_SIZE - PAGE_SIZE /\
    rd64 (mem (machine (snd (try_extend (statics_of some_pages) 1 near_cap)))) a = pte_new (f * PAGE_SIZE) PW.
Proof.
  pose proof (try_extend_overwrites_live_heap some_pages 1 near_cap some_layout some_clear near_cap_ok
                (boot_heap_tables _) near_cap_inv eq_refl ltac:(discriminate) near_cap_some) as H.
  destruct (try_extend (statics_of some_pages) 1 near_cap) as [b h'].
  destruct H as (a & f & Hlo & Hhi & _ & Hrd). exists a, f. cbn [snd]. split; [|exact Hrd].
  cbn [heap_end near_cap] in Hhi. lia.
Defined.
