(* ===== verification/BootInfo.v ===== *)
(** [kernel/src/bootinfo.rs]: [BootInfo::from_bootloader], the parser of the
    multiboot2 information structure, over the bytes of the memory.

    The loop over the tags runs with fuel; [OutOfFuel] stands for a run that
    goes on.  Pointers are 64-bit words and their sums wrap. *)
From S2P Require Import Prelude Ram Mem.
From stdpp Require Import base numbers list gmap strings tactics.
From Stdlib Require Import ZArith Lia.
Open Scope Z_scope.
Open Scope word_scope.

(** * The parser *)

Definition BUFFER_LEN : Z := 128.

(** The static buffer and its count. *)
Record MapBuffer : Type := mkBuffer {
  MEMORY_MAP_BUFFER : list MemoryMapEntry;
  MEMORY_MAP_COUNT : Z
}.

Definition empty_buffer : MapBuffer := mkBuffer (replicate (Z.to_nat BUFFER_LEN) (mkEntry 0 0 Reserved)) 0.

(** [Architecture::current()] on the target of the kernel. *)
Definition current_arch : Architecture := X86_64.

(** The initial values of the locals [framebuffer_*]. *)
Definition default_framebuffer : FramebufferInfo := mkFb 0xb8000 80 25 160 16 16 8 16 0 0 0.

Definition mem_type_of (mb_type : Z) : MemoryType :=
  match mb_type with
  | 1 => Available
  | 3 => AcpiReclaimable
  | 4 => AcpiNvs
  | 5 => BadMemory
  | _ => Reserved
  end.

(** The inner loop; it runs at most [BUFFER_LEN] times, which is its fuel. *)
Fixpoint entry_loop (fuel : nat) (m : ram) (entry_size entries_end entry_addr count : Z)
    (buffer : list MemoryMapEntry) : list MemoryMapEntry * Z :=
  match fuel with
  | O => (buffer, count)
  | S fuel' =>
      if (entry_addr ⊕ entry_size <=? entries_end) && (count <? BUFFER_LEN) then
        let base := rd64 m entry_addr in
        let length := rd64 m (entry_addr ⊕ 8) in
        let mb_type := rd32 m (entry_addr ⊕ 16) in
        let entry := mkEntry base length (mem_type_of mb_type) in
        entry_loop fuel' m entry_size entries_end (entry_addr ⊕ entry_size) (count + 1)
          (<[Z.to_nat count := entry]> buffer)
      else (buffer, count)
  end.

(** The tag of type 6 at [addr]. *)
Definition memory_map_tag (m : ram) (addr tag_size : Z) (b : MapBuffer) : MapBuffer :=
  let entry_size := rd32 m (addr ⊕ 8) in
  let entries_start := addr ⊕ 16 in
  let entries_end := addr ⊕ tag_size in
  let (buffer, count) :=
    entry_loop (Z.to_nat BUFFER_LEN) m entry_size entries_end entries_start 0 (MEMORY_MAP_BUFFER b) in
  mkBuffer buffer count.

(** The tag of type 8 at [addr]; [None] is the panic. *)
Definition framebuffer_tag (m : ram) (addr : Z) : option FramebufferInfo :=
  let fb_type := rd8 m (addr ⊕ 29) in
  if negb (fb_type =? 1) then None
  else
    Some (mkFb (rd64 m (addr ⊕ 8)) (rd32 m (addr ⊕ 20)) (rd32 m (addr ⊕ 24)) (rd32 m (addr ⊕ 16))
            (rd8 m (addr ⊕ 28))
            (rd8 m (addr ⊕ 32)) (rd8 m (addr ⊕ 34)) (rd8 m (addr ⊕ 36))
            (rd8 m (addr ⊕ 33)) (rd8 m (addr ⊕ 35)) (rd8 m (addr ⊕ 37))).

Fixpoint tag_loop (fuel : nat) (m : ram) (end_ addr : Z) (fb : FramebufferInfo) (b : MapBuffer) :
    result stop (FramebufferInfo * MapBuffer) :=
  match fuel with
  | O => Err OutOfFuel
  | S fuel' =>
      if negb (addr <? end_) then Ok (fb, b)
      else
        let tag_type := rd32 m addr in
        let tag_size := rd32 m (addr ⊕ 4) in
        if tag_type =? 0 then Ok (fb, b)
        else
          match (if tag_type =? 8 then framebuffer_tag m addr else Some fb) with
          | None => Err (Panic "Unsupported framebuffer type")
          | Some fb =>
              let b := if tag_type =? 6 then memory_map_tag m addr tag_size b else b in
              tag_loop fuel' m end_ (addr ⊕ Z.land (tag_size ⊕ 7) (not_w 64 7)) fb b
          end
  end.

Definition from_bootloader (fuel : nat) (m : ram) (multiboot_info : Z) (b : MapBuffer) :
    result stop (BootInfo * MapBuffer) :=
  match
    (if negb (multiboot_info =? 0) then
       let total_size := rd32 m multiboot_info in
       tag_loop fuel m (multiboot_info ⊕ total_size) (multiboot_info ⊕ 8) default_framebuffer b
     else Ok (default_framebuffer, b))
  with
  | Err e => Err e
  | Ok (fb, b) =>
      Ok (mkBootInfo multiboot_info (Some (MEMORY_MAP_BUFFER b)) (MEMORY_MAP_COUNT b) fb current_arch
            0 0 0 0 None 0, b)
  end.

(** * The abstract view: a list of tags *)

Record raw_entry : Type := mkRaw { raw_base : Z; raw_length : Z; raw_type : Z }.

(** A memory map tag with its entry size, an RGB framebuffer tag with its size,
    and any other tag with its type and size. *)
Inductive tag : Type :=
| MapTag (entry_size : Z) (es : list raw_entry)
| FbTag (size : Z) (fb : FramebufferInfo)
| OtherTag (type size : Z).

Definition tag_size (t : tag) : Z :=
  match t with
  | MapTag entry_size es => 16 + entry_size * Z.of_nat (length es)
  | FbTag size _ => size
  | OtherTag _ size => size
  end.

Definition align8 (n : Z) : Z := (n + 7) / 8 * 8.

(** The layout of a tag at [a], as the multiboot2 format has it. *)
Definition tag_at (m : ram) (a : Z) (t : tag) : Prop :=
  rd32 m (a + 4) = tag_size t /\
  match t with
  | MapTag sz es =>
      rd32 m a = 6 /\ rd32 m (a + 8) = sz /\ 0 < sz /\
      forall i e, es !! i = Some e ->
        rd64 m (a + 16 + sz * Z.of_nat i) = raw_base e /\
        rd64 m (a + 16 + sz * Z.of_nat i + 8) = raw_length e /\
        rd32 m (a + 16 + sz * Z.of_nat i + 16) = raw_type e
  | FbTag size fb =>
      rd32 m a = 8 /\ 0 < size /\ rd8 m (a + 29) = 1 /\
      rd64 m (a + 8) = fb_address fb /\ rd32 m (a + 16) = fb_pitch fb /\
      rd32 m (a + 20) = fb_width fb /\ rd32 m (a + 24) = fb_height fb /\
      rd8 m (a + 28) = fb_bpp fb /\
      rd8 m (a + 32) = fb_red_shift fb /\ rd8 m (a + 33) = fb_red_mask fb /\
      rd8 m (a + 34) = fb_green_shift fb /\ rd8 m (a + 35) = fb_green_mask fb /\
      rd8 m (a + 36) = fb_blue_shift fb /\ rd8 m (a + 37) = fb_blue_mask fb
  | OtherTag ty size => rd32 m a = ty /\ (ty ∉ [0; 6; 8]) /\ 0 < size
  end.

(** [tags_at m end_ a ts b]: the tags [ts] follow each other from [a] to [b],
    each starting before [end_]. *)
Fixpoint tags_at (m : ram) (end_ a : Z) (ts : list tag) (b : Z) : Prop :=
  match ts with
  | [] => a = b
  | t :: ts => a < end_ /\ tag_at m a t /\ tags_at m end_ (a + align8 (tag_size t)) ts b
  end.

(** What a tag means. *)
Definition entry_of (e : raw_entry) : MemoryMapEntry :=
  mkEntry (raw_base e) (raw_length e) (mem_type_of (raw_type e)).

Definition put_entries (es : list MemoryMapEntry) (buffer : list MemoryMapEntry) : list MemoryMapEntry :=
  es ++ drop (length es) buffer.

Definition apply_tag (t : tag) (st : FramebufferInfo * MapBuffer) : FramebufferInfo * MapBuffer :=
  let (fb, b) := st in
  match t with
  | MapTag _ es =>
      let es := take (Z.to_nat BUFFER_LEN) (entry_of <$> es) in
      (fb, mkBuffer (put_entries es (MEMORY_MAP_BUFFER b)) (Z.of_nat (length es)))
  | FbTag _ fb' => (fb', b)
  | OtherTag _ _ => (fb, b)
  end.

Definition apply_tags (ts : list tag) (st : FramebufferInfo * MapBuffer) : FramebufferInfo * MapBuffer :=
  fold_left (fun st t => apply_tag t st) ts st.

(** * Facts *)

Lemma align8_word n : 0 <= n < 2 ^ 32 -> Z.land (n ⊕ 7) (not_w 64 7) = align8 n.
Proof.
  intros. rewrite add64_small by lia. change 7 with (Z.ones 3) at 2. rewrite land_not_ones by lia.
  unfold align8. change (2 ^ 3) with 8. Z.div_mod_to_equations. lia.
Qed.

Lemma align8_bounds n : 0 < n -> n <= align8 n <= n + 7 /\ 8 <= align8 n.
Proof. intros. unfold align8. Z.div_mod_to_equations. lia. Qed.

(** Adding a small offset to an address that does not wrap. *)
Ltac addr_simpl := rewrite ?add64_small by lia.

(** The inner loop reads the entries of the tag, up to the end of the buffer. *)
Lemma entry_loop_spec m sz a es : forall rest k fuel done_ buffer,
  (forall i e, es !! i = Some e ->
     rd64 m (a + sz * Z.of_nat i) = raw_base e /\
     rd64 m (a + sz * Z.of_nat i + 8) = raw_length e /\
     rd32 m (a + sz * Z.of_nat i + 16) = raw_type e) ->
  0 < sz < 2 ^ 32 -> 0 <= a -> a + sz * Z.of_nat (length es) + 2 ^ 33 < 2 ^ 64 ->
  es = done_ ++ rest -> k = length done_ ->
  (k + fuel = Z.to_nat BUFFER_LEN)%nat -> length buffer = Z.to_nat BUFFER_LEN ->
  entry_loop fuel m sz (a + sz * Z.of_nat (length es)) (a + sz * Z.of_nat k) (Z.of_nat k)
    (put_entries (entry_of <$> done_) buffer) =
  (put_entries (take (Z.to_nat BUFFER_LEN) (entry_of <$> es)) buffer,
   Z.of_nat (length (take (Z.to_nat BUFFER_LEN) (entry_of <$> es)))).
Proof.
  intros rest k fuel. revert rest k.
  induction fuel as [|fuel IH]; intros rest k done_ buffer Hes Hsz Ha Hend Hsplit Hk Hfuel Hbuf; cbn [entry_loop].
  - assert (take (Z.to_nat BUFFER_LEN) (entry_of <$> es) = entry_of <$> done_) as ->.
    { rewrite Hsplit, fmap_app, take_app_le by (rewrite length_fmap; lia).
      apply take_ge. rewrite length_fmap. lia. }
    rewrite length_fmap. by rewrite Hk.
  - rewrite (add64_small _ sz) by (rewrite Hsplit, length_app in *; nia).
    destruct rest as [|e rest].
    + rewrite app_nil_r in Hsplit. subst done_.
      rewrite (proj2 (Z.leb_gt _ _)) by (subst k; lia). cbn [andb].
      rewrite take_ge by (rewrite length_fmap; lia). rewrite length_fmap. by subst k.
    + assert (es !! k = Some e) as He by (rewrite Hsplit; apply list_lookup_middle; done).
      assert (k < length es)%nat as Hlt by (apply lookup_lt_Some in He; done).
      rewrite (proj2 (Z.leb_le _ _)) by nia.
      rewrite (proj2 (Z.ltb_lt _ _)) by (unfold BUFFER_LEN in *; lia). cbn [andb].
      destruct (Hes k e He) as (Hb & Hl & Ht).
      rewrite !add64_small by nia. rewrite Hb, Hl, Ht.
      replace (a + sz * Z.of_nat k + sz) with (a + sz * Z.of_nat (S k)) by lia.
      replace (Z.of_nat k + 1) with (Z.of_nat (S k)) by lia.
      rewrite <- (IH rest (S k) (done_ ++ [e]) buffer); [|done..| | | |done].
      * f_equal. rewrite Nat2Z.id. unfold put_entries. rewrite fmap_app. cbn [fmap list_fmap].
        rewrite insert_app_r_alt by (rewrite length_fmap; lia).
        rewrite length_fmap, <- Hk, Nat.sub_diag.
        rewrite length_app, length_fmap. cbn [length]. rewrite <- Hk.
        destruct (drop k buffer) as [|x l] eqn:Hd.
        { apply (f_equal length) in Hd. rewrite length_drop in Hd. cbn in Hd. lia. }
        rewrite <- app_assoc. cbn [app]. do 2 f_equal.
        replace (k + 1)%nat with (S k) by lia.
        assert (drop 1 (drop k buffer) = l) as <- by (by rewrite Hd).
        rewrite drop_drop. replace (k + 1)%nat with (S k) by lia. done.
      * rewrite Hsplit. by rewrite <- app_assoc.
      * rewrite length_app. cbn. lia.
      * lia.
Qed.

Definition buffer_ok (b : MapBuffer) : Prop :=
  length (MEMORY_MAP_BUFFER b) = Z.to_nat BUFFER_LEN /\ 0 <= MEMORY_MAP_COUNT b <= BUFFER_LEN.

Lemma put_entries_length es buffer :
  (length es <= length buffer)%nat -> length (put_entries es buffer) = length buffer.
Proof. intros. unfold put_entries. rewrite length_app, length_drop. lia. Qed.

Lemma apply_tag_buffer t fb b : buffer_ok b -> buffer_ok (snd (apply_tag t (fb, b))).
Proof.
  intros [Hl Hc]. destruct t as [sz es| |]; [|done|done]. cbn [apply_tag snd].
  assert (length (take (Z.to_nat BUFFER_LEN) (entry_of <$> es)) <= Z.to_nat BUFFER_LEN)%nat
    by (rewrite length_take; lia).
  split; cbn [MEMORY_MAP_BUFFER MEMORY_MAP_COUNT]; [rewrite put_entries_length; lia|]. lia.
Qed.

Section walk.
Context (m : ram) (end_ : Z) (Hend : 0 <= end_ < 2 ^ 63).

Lemma map_tag_step a sz es b :
  0 <= a < end_ -> buffer_ok b -> tag_at m a (MapTag sz es) ->
  memory_map_tag m a (tag_size (MapTag sz es)) b =
    mkBuffer (put_entries (take (Z.to_nat BUFFER_LEN) (entry_of <$> es)) (MEMORY_MAP_BUFFER b))
      (Z.of_nat (length (take (Z.to_nat BUFFER_LEN) (entry_of <$> es)))).
Proof.
  intros Ha [Hl Hc] (Hsize & _ & Hsz & Hpos & Hes). pose proof (rd32_range m (a + 8)) as Hr8.
  pose proof (rd32_range m (a + 4)) as Hr4. rewrite Hsize in Hr4. rewrite Hsz in Hr8.
  cbn [tag_size] in *. unfold memory_map_tag. rewrite !add64_small by lia. rewrite Hsz.
  pose proof (entry_loop_spec m sz (a + 16) es es 0 (Z.to_nat BUFFER_LEN) [] (MEMORY_MAP_BUFFER b)
                Hes ltac:(lia) ltac:(lia) ltac:(lia) eq_refl eq_refl eq_refl Hl) as HL.
  change (Z.of_nat 0) with 0 in HL. rewrite Z.mul_0_r, Z.add_0_r in HL. cbn [fmap list_fmap] in HL.
  change (put_entries [] (MEMORY_MAP_BUFFER b)) with (MEMORY_MAP_BUFFER b) in HL.
  replace (a + (16 + sz * Z.of_nat (length es))) with (a + 16 + sz * Z.of_nat (length es)) by lia.
  rewrite HL. done.
Qed.

Lemma tag_size_pos a t : tag_at m a t -> 0 < tag_size t < 2 ^ 32.
Proof.
  intros [Hs Ht]. pose proof (rd32_range m (a + 4)) as Hr. rewrite Hs in Hr.
  split; [|lia]. destruct t; cbn [tag_size]; [|by destruct Ht as (_ & ? & _)|by destruct Ht as (_ & _ & ?)].
  destruct Ht as (_ & _ & ? & _). lia.
Qed.

(** One iteration of the loop on a tag. *)
Lemma tag_step fuel a t fb b :
  0 <= a < end_ -> buffer_ok b -> tag_at m a t ->
  tag_loop (S fuel) m end_ a fb b =
    tag_loop fuel m end_ (a + align8 (tag_size t)) (fst (apply_tag t (fb, b))) (snd (apply_tag t (fb, b))).
Proof.
  intros Ha Hb Ht. pose proof (tag_size_pos a t Ht) as Hpos. pose proof Ht as [Hs Hk].
  pose proof (align8_bounds (tag_size t) ltac:(lia)) as Hal.
  cbn [tag_loop]. rewrite (proj2 (Z.ltb_lt a end_)) by lia. cbn [negb].
  rewrite !(add64_small a 4), Hs, align8_word, (add64_small a (align8 _)) by lia.
  destruct t as [sz es|size fb'|ty size].
  - destruct Hk as (Hty & _). rewrite Hty. cbn [Z.eqb].
    change (6 =? 0) with false. change (6 =? 8) with false. change (6 =? 6) with true. cbv iota.
    by rewrite (map_tag_step a sz es b Ha Hb Ht).
  - destruct Hk as (Hty & _ & H29 & H8 & H16 & H20 & H24 & H28 & H32 & H33 & H34 & H35 & H36 & H37).
    rewrite Hty. change (8 =? 0) with false. change (8 =? 8) with true. change (8 =? 6) with false.
    cbv iota. unfold framebuffer_tag. rewrite !add64_small by lia.
    rewrite H29, H8, H16, H20, H24, H28, H32, H33, H34, H35, H36, H37. by destruct fb'.
  - destruct Hk as (Hty & Hne & _). rewrite Hty.
    rewrite (proj2 (Z.eqb_neq ty 0)) by (intros ->; apply Hne; left).
    rewrite (proj2 (Z.eqb_neq ty 8)) by (intros ->; apply Hne; right; right; left).
    rewrite (proj2 (Z.eqb_neq ty 6)) by (intros ->; apply Hne; right; left). done.
Qed.

Lemma tags_run ts : forall fuel a b' fb b,
  0 <= a -> buffer_ok b -> tags_at m end_ a ts b' ->
  let st := apply_tags ts (fb, b) in
  a <= b' /\ buffer_ok (snd st) /\
  tag_loop (length ts + fuel) m end_ a fb b = tag_loop fuel m end_ b' (fst st) (snd st).
Proof.
  induction ts as [|t ts IH]; intros fuel a b' fb b Ha Hb Hts; cbn in Hts.
  { subst b'. done. }
  destruct Hts as (Hlt & Ht & Hts). pose proof (tag_size_pos a t Ht) as Hpos.
  pose proof (align8_bounds (tag_size t) ltac:(lia)) as Hal.
  pose proof (apply_tag_buffer t fb b Hb) as Hb'.
  destruct (IH fuel (a + align8 (tag_size t)) b' (fst (apply_tag t (fb, b))) (snd (apply_tag t (fb, b)))
              ltac:(lia) Hb' Hts) as (Hle & Hok & Hrun).
  unfold apply_tags in *. cbn [fold_left length Nat.add].
  rewrite <- surjective_pairing in Hok, Hrun. cbv zeta.
  split; [lia|]. split; [done|]. rewrite (tag_step _ a t) by done. exact Hrun.
Qed.

Lemma tags_short ts : forall fuel a b' fb b,
  0 <= a -> buffer_ok b -> tags_at m end_ a ts b' -> (fuel <= length ts)%nat ->
  tag_loop fuel m end_ a fb b = Err OutOfFuel.
Proof.
  induction ts as [|t ts IH]; intros [|fuel] a b' fb b Ha Hb Hts Hf; cbn in Hts, Hf; try done; [lia|].
  destruct Hts as (Hlt & Ht & Hts). pose proof (tag_size_pos a t Ht) as Hpos.
  pose proof (align8_bounds (tag_size t) ltac:(lia)) as Hal.
  rewrite (tag_step _ a t) by done.
  eapply IH; [lia|by apply apply_tag_buffer|exact Hts|lia].
Qed.

(** Every iteration goes at least 8 bytes on, unless the size is 0. *)
Lemma tag_loop_terminates fuel : forall a fb b,
  0 <= a -> (forall c, a <= c < end_ -> rd32 m (c + 4) <> 0) ->
  (0 < fuel)%nat -> end_ - a <= 8 * (Z.of_nat fuel - 1) ->
  tag_loop fuel m end_ a fb b <> Err OutOfFuel.
Proof.
  induction fuel as [|fuel IH]; intros a fb b Ha Hnz Hf0 Hf; cbn [tag_loop].
  - lia.
  - destruct (Z.ltb_spec a end_); [|done]. cbn [negb].
    rewrite (add64_small a 4) by lia. pose proof (rd32_range m (a + 4)).
    pose proof (Hnz a ltac:(lia)). pose proof (align8_bounds (rd32 m (a + 4)) ltac:(lia)).
    destruct (rd32 m a =? 0); [done|].
    destruct (if rd32 m a =? 8 then framebuffer_tag m a else Some fb) as [fb'|]; [|done].
    rewrite align8_word, add64_small by lia. apply IH; [lia| |lia|lia].
    intros c Hc. apply Hnz. lia.
Qed.

(** A tag of size 0 is read again and again. *)
Lemma tag_loop_stuck fuel : forall a fb b,
  0 <= a < end_ -> rd32 m (a + 4) = 0 -> rd32 m a <> 0 -> (rd32 m a = 8 -> rd8 m (a + 29) = 1) ->
  tag_loop fuel m end_ a fb b = Err OutOfFuel.
Proof.
  induction fuel as [|fuel IH]; intros a fb b Ha Hs Ht H8; [done|]. cbn [tag_loop].
  rewrite (proj2 (Z.ltb_lt a end_)) by lia. cbn [negb]. rewrite (add64_small a 4), Hs by lia.
  rewrite (proj2 (Z.eqb_neq _ 0)) by done.
  change (Z.land (0 ⊕ 7) (not_w 64 7)) with 0. rewrite (add64_small a 0), Z.add_0_r by lia.
  destruct (Z.eqb_spec (rd32 m a) 8) as [H|]; [|by apply IH].
  unfold framebuffer_tag. rewrite (add64_small a 29) by lia. rewrite H8 by done. by apply IH.
Qed.
End walk.

(** The run of the parser on a well-formed structure. *)
Lemma from_bootloader_run (m : ram) (p : Z) (ts : list tag) (e : Z) (b : MapBuffer) (fuel : nat)
  (Hp : 0 < p < 2 ^ 62) (Hb : buffer_ok b)
  (Hts : tags_at m (p + rd32 m p) (p + 8) ts e)
  (Hend : p + rd32 m p <= e \/ rd32 m e = 0)
  (Hfuel : (length ts < fuel)%nat) :
  let (fb, b') := apply_tags ts (default_framebuffer, b) in
  from_bootloader fuel m p b =
    Ok (mkBootInfo p (Some (MEMORY_MAP_BUFFER b')) (MEMORY_MAP_COUNT b') fb X86_64 0 0 0 0 None 0, b') /\
  buffer_ok b'.
Proof.
  pose proof (rd32_range m p) as Hr.
  destruct (tags_run m (p + rd32 m p) ltac:(lia) ts (fuel - length ts) (p + 8) e default_framebuffer b
              ltac:(lia) Hb Hts) as (Hle & Hok & Hrun).
  destruct (apply_tags ts (default_framebuffer, b)) as [fb b']. cbn [fst snd] in Hok, Hrun.
  split; [|done]. unfold from_bootloader. rewrite (proj2 (Z.eqb_neq p 0)) by lia. cbn [negb].
  rewrite !add64_small by lia.
  replace (length ts + (fuel - length ts))%nat with fuel in Hrun by lia. rewrite Hrun.
  destruct (fuel - length ts)%nat as [|f] eqn:E; [lia|]. cbn [tag_loop].
  destruct Hend as [Hend|Hend].
  - rewrite (proj2 (Z.ltb_ge e _)) by lia. done.
  - destruct (negb (e <? p + rd32 m p)); [done|]. by rewrite Hend.
Qed.

(** * Properties *)

(** C15: the parser reads what the structure says. On a multiboot2 structure
    whose tags are [ts], ended by a tag of type 0 or by the total size, it
    returns (with any fuel above the number of tags) the framebuffer of the
    last framebuffer tag, or the text mode defaults without one, and the
    entries of the last memory map tag, at most 128 of them; it keeps the
    buffer at its 128 entries. *)
Theorem from_bootloader_correct (m : ram) (p : Z) (ts : list tag) (e : Z) (b : MapBuffer) (fuel : nat)
  (Hp : 0 < p < 2 ^ 62) (Hb : buffer_ok b)
  (Hts : tags_at m (p + rd32 m p) (p + 8) ts e)
  (Hend : p + rd32 m p <= e \/ rd32 m e = 0)
  (Hfuel : (length ts < fuel)%nat) :
  let (fb, b') := apply_tags ts (default_framebuffer, b) in
  from_bootloader fuel m p b =
    Ok (mkBootInfo p (Some (MEMORY_MAP_BUFFER b')) (MEMORY_MAP_COUNT b') fb X86_64 0 0 0 0 None 0, b') /\
  buffer_ok b'.
Proof. exact (from_bootloader_run m p ts e b fuel Hp Hb Hts Hend Hfuel). Qed.


(** It does not terminate when it meets a tag of size 0 before the end:
    no amount of fuel is enough. *)
Theorem from_bootloader_diverges (m : ram) (p : Z) (ts : list tag) (e : Z) (b : MapBuffer) (fuel : nat)
  (Hp : 0 < p < 2 ^ 62) (Hb : buffer_ok b)
  (Hts : tags_at m (p + rd32 m p) (p + 8) ts e) (Hbefore : e < p + rd32 m p)
  (Hsize : rd32 m (e + 4) = 0) (Htype : rd32 m e ∉ [0; 8]) :
  from_bootloader fuel m p b = Err OutOfFuel.
Proof.
  pose proof (rd32_range m p) as Hr. unfold from_bootloader.
  rewrite (proj2 (Z.eqb_neq p 0)) by lia. cbn [negb]. rewrite !add64_small by lia.
  destruct (tags_run m (p + rd32 m p) ltac:(lia) ts (fuel - length ts) (p + 8) e default_framebuffer b
              ltac:(lia) Hb Hts) as (Hle & _ & Hrun).
  destruct (decide (fuel <= length ts)%nat) as [Hf|Hf].
  { by rewrite (tags_short m (p + rd32 m p) ltac:(lia) ts fuel (p + 8) e) by (done || lia). }
  replace (length ts + (fuel - length ts))%nat with fuel in Hrun by lia. rewrite Hrun.
  rewrite tag_loop_stuck; [done|lia|lia|done| |].
  - intros H0. apply Htype. rewrite H0. left.
  - intros H8. exfalso. apply Htype. rewrite H8. right. left.
Qed.

(** It panics exactly on a framebuffer that is not RGB: when the tags [ts]
    are followed by a framebuffer tag of another type. *)
Theorem from_bootloader_panics (m : ram) (p : Z) (ts : list tag) (e : Z) (b : MapBuffer) (fuel : nat)
  (Hp : 0 < p < 2 ^ 62) (Hb : buffer_ok b)
  (Hts : tags_at m (p + rd32 m p) (p + 8) ts e) (Hbefore : e < p + rd32 m p)
  (Htype : rd32 m e = 8) (Hfb : rd8 m (e + 29) <> 1) (Hfuel : (length ts < fuel)%nat) :
  from_bootloader fuel m p b = Err (Panic "Unsupported framebuffer type").
Proof.
  pose proof (rd32_range m p) as Hr. unfold from_bootloader.
  rewrite (proj2 (Z.eqb_neq p 0)) by lia. cbn [negb]. rewrite !add64_small by lia.
  destruct (tags_run m (p + rd32 m p) ltac:(lia) ts (fuel - length ts) (p + 8) e default_framebuffer b
              ltac:(lia) Hb Hts) as (Hle & _ & Hrun).
  replace (length ts + (fuel - length ts))%nat with fuel in Hrun by lia. rewrite Hrun.
  destruct (fuel - length ts)%nat as [|f] eqn:E; [lia|]. cbn [tag_loop].
  rewrite (proj2 (Z.ltb_lt e _)) by lia. cbn [negb]. rewrite Htype.
  change (8 =? 0) with false. change (8 =? 8) with true. cbv iota.
  unfold framebuffer_tag. rewrite (add64_small e 29) by lia.
  by rewrite (proj2 (Z.eqb_neq _ 1) Hfb).
Qed.

(** * Witnesses *)

(** The structure a boot loader leaves at 0x10000: a command line tag, a memory
    map with two entries, an RGB framebuffer, the end tag. *)
Definition some_map : list raw_entry := [mkRaw 0 0x9fc00 1; mkRaw 0x100000 0x7f00000 1].
Definition some_fb : FramebufferInfo := mkFb 0xfd000000 1024 768 4096 32 16 8 0 8 8 8.
Definition some_tags : list tag := [OtherTag 1 9; MapTag 24 some_map; FbTag 38 some_fb].

Definition some_info : list Z :=
  enc 4 136 ++ enc 4 0 ++
  enc 4 1 ++ enc 4 9 ++ enc 8 0 ++
  enc 4 6 ++ enc 4 64 ++ enc 4 24 ++ enc 4 0 ++
  enc 8 0 ++ enc 8 0x9fc00 ++ enc 4 1 ++ enc 4 0 ++
  enc 8 0x100000 ++ enc 8 0x7f00000 ++ enc 4 1 ++ enc 4 0 ++
  enc 4 8 ++ enc 4 38 ++ enc 8 0xfd000000 ++ enc 4 4096 ++ enc 4 1024 ++ enc 4 768 ++
  enc 1 32 ++ enc 1 1 ++ enc 2 0 ++ enc 1 16 ++ enc 1 8 ++ enc 1 8 ++ enc 1 8 ++ enc 1 0 ++ enc 1 8 ++ enc 2 0 ++
  enc 4 0 ++ enc 4 8.

Definition some_mem : ram := copy_bytes some_info ∅ 0x10000.

Lemma some_tags_at : tags_at some_mem (0x10000 + rd32 some_mem 0x10000) 0x10008 some_tags 0x10080.
Proof.
  cbn [tags_at some_tags tag_size].
  repeat match goal with
    | |- _ /\ _ => split
    | |- tag_at _ _ _ => unfold tag_at
    | |- _ = _ => vm_compute; reflexivity
    | |- _ < _ => vm_compute; reflexivity
    | |- _ ∉ _ => by intros Hin; repeat (apply elem_of_cons in Hin as [Hin|Hin]; [discriminate|]);
                    apply not_elem_of_nil in Hin
    end.
  intros [|[|i]] e He; cbn in He; [| |discriminate]; injection He as <-; vm_compute; done.
Qed.

Lemma empty_buffer_ok : buffer_ok empty_buffer.
Proof. split; cbn; [by rewrite length_replicate|]. unfold BUFFER_LEN. lia. Qed.

Lemma from_bootloader_correct_witness :
  exists bi b', from_bootloader 4 some_mem 0x10000 empty_buffer = Ok (bi, b') /\
    framebuffer bi = some_fb /\ memory_map_entries bi = 2 /\
    take 2 (MEMORY_MAP_BUFFER b') = [mkEntry 0 0x9fc00 Available; mkEntry 0x100000 0x7f00000 Available].
Proof.
  pose proof (from_bootloader_correct some_mem 0x10000 some_tags 0x10080 empty_buffer 4 ltac:(lia)
                empty_buffer_ok some_tags_at (or_intror eq_refl) ltac:(cbn; lia)) as H.
  eexists _, _. split; [exact (proj1 H)|]. split; [reflexivity|]. split; reflexivity.
Defined.

(** A structure whose only tag has no size. *)
Definition stuck_mem : ram := copy_bytes (enc 4 16 ++ enc 4 0 ++ enc 4 1 ++ enc 4 0) ∅ 0x10000.

Lemma from_bootloader_diverges_witness : from_bootloader 1000 stuck_mem 0x10000 empty_buffer = Err OutOfFuel.
Proof.
  apply (from_bootloader_diverges stuck_mem 0x10000 [] 0x10008 empty_buffer 1000);
    [lia|exact empty_buffer_ok|reflexivity|reflexivity|reflexivity|].
  by intros Hin; repeat (apply elem_of_cons in Hin as [Hin|Hin]; [discriminate|]);
    apply not_elem_of_nil in Hin.
Defined.


(** An EGA text framebuffer. *)
Definition ega_mem : ram :=
  copy_bytes (enc 4 48 ++ enc 4 0 ++ enc 4 8 ++ enc 4 32 ++ enc 8 0xb8000 ++ enc 4 160 ++ enc 4 80 ++ enc 4 25 ++
              enc 1 16 ++ enc 1 2) ∅ 0x10000.

Lemma from_bootloader_panics_witness :
  from_bootloader 1 ega_mem 0x10000 empty_buffer = Err (Panic "Unsupported framebuffer type").
Proof.
  apply (from_bootloader_panics ega_mem 0x10000 [] 0x10008 empty_buffer 1);
    [lia|exact empty_buffer_ok|reflexivity|reflexivity|reflexivity| |cbn; lia].
  vm_compute. discriminate.
Defined.
