(* ===== verification/Gdt.v ===== *)
(** [kernel/src/arch/x86_64/gdt.rs]: the descriptors, the task state segment
    and [gdt::init].

    The structs are [repr(C, packed)]: their bytes in memory are their fields,
    little-endian, in order.  What the processor reads in a descriptor is in
    the section [hardware], after the Intel and AMD manuals. *)
From S2P Require Import Prelude Ram.
From stdpp Require Import base numbers list gmap tactics.
From Stdlib Require Import ZArith Lia.
Open Scope Z_scope.
Open Scope word_scope.

(** * Flags *)

Module Access.
Definition ACCESSED : Z := 0x01.
Definition READ_WRITE : Z := 0x02.
Definition EXPANSION : Z := 0x04.
Definition EXECUTABLE : Z := 0x08.
Definition DESCRIPTOR : Z := 0x10.
Definition PRIV_RING0 : Z := 0x00.
Definition PRIV_RING1 : Z := 0x20.
Definition PRIV_RING2 : Z := 0x40.
Definition PRIV_RING3 : Z := 0x60.
Definition PRESENT : Z := 0x80.
End Access.

Module Granularity.
Definition LIMIT_HIGH_MASK : Z := 0x0F.
Definition AVL : Z := 0x10.
Definition LONG_MODE : Z := 0x20.
Definition DEFAULT_OPSIZE : Z := 0x40.
Definition GRANULARITY_4K : Z := 0x80.
End Granularity.

(** * Descriptors *)

Record GdtEntry : Type := mkGdtEntry {
  limit_low : Z;
  base_low : Z;
  base_mid : Z;
  access : Z;
  granularity : Z;
  base_high : Z
}.

Definition gdt_entry_new (base limit access granularity : Z) : GdtEntry :=
  mkGdtEntry
    (wrap 16 (Z.land limit 0xFFFF))
    (wrap 16 (Z.land base 0xFFFF))
    (wrap 8 (Z.land (Z.shiftr base 16) 0xFF))
    access
    (Z.lor (wrap 8 (Z.land (Z.shiftr limit 16) 0x0F)) (Z.land granularity 0xF0))
    (wrap 8 (Z.land (Z.shiftr base 24) 0xFF)).

Definition KERNEL_CODE_ACCESS : Z :=
  Z.lor (Z.lor (Z.lor Access.PRESENT Access.DESCRIPTOR) Access.EXECUTABLE) Access.READ_WRITE.
Definition KERNEL_CODE_GRANULARITY : Z := Z.lor Granularity.GRANULARITY_4K Granularity.LONG_MODE.
Definition KERNEL_DATA_ACCESS : Z :=
  Z.lor (Z.lor Access.PRESENT Access.DESCRIPTOR) Access.READ_WRITE.
Definition KERNEL_DATA_GRANULARITY : Z := Z.lor Granularity.GRANULARITY_4K Granularity.DEFAULT_OPSIZE.
Definition USER_CODE_ACCESS : Z := Z.lor KERNEL_CODE_ACCESS Access.PRIV_RING3.
Definition USER_CODE_GRANULARITY : Z := Z.lor Granularity.GRANULARITY_4K Granularity.LONG_MODE.
Definition USER_DATA_ACCESS : Z := Z.lor KERNEL_DATA_ACCESS Access.PRIV_RING3.
Definition USER_DATA_GRANULARITY : Z := Z.lor Granularity.GRANULARITY_4K Granularity.DEFAULT_OPSIZE.

Definition code : GdtEntry := gdt_entry_new 0 0xFFFFF KERNEL_CODE_ACCESS KERNEL_CODE_GRANULARITY.
Definition data : GdtEntry := gdt_entry_new 0 0xFFFFF KERNEL_DATA_ACCESS KERNEL_DATA_GRANULARITY.
Definition user_code : GdtEntry := gdt_entry_new 0 0xFFFFF USER_CODE_ACCESS USER_CODE_GRANULARITY.
Definition user_data : GdtEntry := gdt_entry_new 0 0xFFFFF USER_DATA_ACCESS USER_DATA_GRANULARITY.
Definition null : GdtEntry := gdt_entry_new 0 0 0 0.

Definition gdt_entry_bytes (e : GdtEntry) : list Z :=
  enc 2 (limit_low e) ++ enc 2 (base_low e) ++ enc 1 (base_mid e) ++ enc 1 (access e) ++
  enc 1 (granularity e) ++ enc 1 (base_high e).

Record TssEntry : Type := mkTssEntry {
  tss_length : Z;
  tss_base_low : Z;
  tss_base_mid : Z;
  tss_flags1 : Z;
  tss_flags2 : Z;
  tss_base_high : Z;
  tss_base_upper : Z;
  tss_reserved : Z
}.

Definition tss_entry_null : TssEntry := mkTssEntry 0 0 0 0 0 0 0 0.

Definition tss_entry_new (tss_addr tss_size : Z) : TssEntry :=
  mkTssEntry
    tss_size
    (wrap 16 (Z.land tss_addr 0xFFFF))
    (wrap 8 (Z.land (Z.shiftr tss_addr 16) 0xFF))
    0x89
    0
    (wrap 8 (Z.land (Z.shiftr tss_addr 24) 0xFF))
    (wrap 32 (Z.shiftr tss_addr 32))
    0.

Definition tss_entry_bytes (e : TssEntry) : list Z :=
  enc 2 (tss_length e) ++ enc 2 (tss_base_low e) ++ enc 1 (tss_base_mid e) ++ enc 1 (tss_flags1 e) ++
  enc 1 (tss_flags2 e) ++ enc 1 (tss_base_high e) ++ enc 4 (tss_base_upper e) ++ enc 4 (tss_reserved e).

(** * The task state segment *)

Record TaskStateSegment : Type := mkTss {
  reserved1 : Z;
  rsps : list Z;
  reserved2 : Z;
  ists : list Z;
  reserved3 : Z;
  reserved4 : Z;
  io_map_base : Z
}.

Definition tss_bytes (t : TaskStateSegment) : list Z :=
  enc 4 (reserved1 t) ++ mjoin (enc 8 <$> rsps t) ++ enc 8 (reserved2 t) ++ mjoin (enc 8 <$> ists t) ++
  enc 8 (reserved3 t) ++ enc 2 (reserved4 t) ++ enc 2 (io_map_base t).

(** [size_of::<TaskStateSegment>()]: 4 + 24 + 8 + 56 + 8 + 2 + 2 *)
Definition TSS_SIZE : Z := 104.

Definition tss_new : TaskStateSegment :=
  mkTss 0 (replicate 3 0) 0 (replicate 7 0) 0 0 (wrap 16 TSS_SIZE).

(** * The table *)

Record Gdt : Type := mkGdt {
  gdt_null : GdtEntry;
  kernel_code : GdtEntry;
  kernel_data : GdtEntry;
  gdt_user_code : GdtEntry;
  gdt_user_data : GdtEntry;
  tss_entry : TssEntry
}.

Definition GDT : Gdt := mkGdt null code data user_code user_data tss_entry_null.

Definition gdt_bytes (g : Gdt) : list Z :=
  gdt_entry_bytes (gdt_null g) ++ gdt_entry_bytes (kernel_code g) ++ gdt_entry_bytes (kernel_data g) ++
  gdt_entry_bytes (gdt_user_code g) ++ gdt_entry_bytes (gdt_user_data g) ++ tss_entry_bytes (tss_entry g).

(** [size_of::<Gdt>()]: five entries of 8 bytes and one of 16 *)
Definition GDT_SIZE : Z := 56.

Definition KERNEL_CODE_SELECTOR : Z := 0x08.
Definition KERNEL_DATA_SELECTOR : Z := 0x10.
Definition USER_CODE_SELECTOR : Z := Z.lor 0x18 3.
Definition USER_DATA_SELECTOR : Z := Z.lor 0x20 3.
Definition TSS_SELECTOR : Z := 0x28.

Definition KERNEL_STACK_LEN : Z := 32768.
Definition IST_STACK0_LEN : Z := 16384.

(** Where the linker puts the statics. *)
Record GdtAddrs : Type := mkGdtAddrs {
  GDT_addr : Z;
  TSS_addr : Z;
  KERNEL_STACK_addr : Z;
  IST_STACK0_addr : Z
}.

(** The registers [init] loads. *)
Record SegmentRegs : Type := mkSegs {
  gdtr_limit : Z;
  gdtr_base : Z;
  cs : Z;
  ds : Z;
  es : Z;
  fs : Z;
  gs : Z;
  ss : Z;
  tr : Z
}.

Record GdtState : Type := mkGdtState {
  gdt : Gdt;
  tss : TaskStateSegment;
  segs : SegmentRegs
}.

Definition load_gdt (limit base : Z) (r : SegmentRegs) : SegmentRegs :=
  mkSegs limit base (cs r) (ds r) (es r) (fs r) (gs r) (ss r) (tr r).

(** The far return loads CS from RAX, the moves load the others from DX. *)
Definition reload_segments (r : SegmentRegs) : SegmentRegs :=
  let rax := KERNEL_CODE_SELECTOR in
  let dx := KERNEL_DATA_SELECTOR in
  mkSegs (gdtr_limit r) (gdtr_base r) rax dx dx dx dx dx (tr r).

Definition load_tss (selector : Z) (r : SegmentRegs) : SegmentRegs :=
  mkSegs (gdtr_limit r) (gdtr_base r) (cs r) (ds r) (es r) (fs r) (gs r) (ss r) selector.

Definition set_rsp (i : nat) (v : Z) (t : TaskStateSegment) : TaskStateSegment :=
  mkTss (reserved1 t) (<[i := v]> (rsps t)) (reserved2 t) (ists t) (reserved3 t) (reserved4 t) (io_map_base t).
Definition set_ist (i : nat) (v : Z) (t : TaskStateSegment) : TaskStateSegment :=
  mkTss (reserved1 t) (rsps t) (reserved2 t) (<[i := v]> (ists t)) (reserved3 t) (reserved4 t) (io_map_base t).

Definition init (a : GdtAddrs) (s : GdtState) : GdtState :=
  let tss_addr := TSS_addr a in
  let tss_size := wrap 16 (TSS_SIZE - 1) in
  let t := set_rsp 0 (KERNEL_STACK_addr a ⊕ (KERNEL_STACK_LEN - 1)) (tss s) in
  let t := set_ist 0 (IST_STACK0_addr a ⊕ (IST_STACK0_LEN - 1)) t in
  let g := gdt s in
  let g := mkGdt (gdt_null g) (kernel_code g) (kernel_data g) (gdt_user_code g) (gdt_user_data g)
             (tss_entry_new tss_addr tss_size) in
  let r := load_gdt (wrap 16 (GDT_SIZE - 1)) (GDT_addr a) (segs s) in
  let r := reload_segments r in
  let r := load_tss TSS_SELECTOR r in
  mkGdtState g t r.

(** * The hardware's reading of a descriptor *)

Definition desc_limit (d : Z) : Z := d mod 2 ^ 16 + d / 2 ^ 48 mod 2 ^ 4 * 2 ^ 16.
Definition desc_base (d : Z) : Z := d / 2 ^ 16 mod 2 ^ 24 + d / 2 ^ 56 mod 2 ^ 8 * 2 ^ 24.
Definition desc_type (d : Z) : Z := d / 2 ^ 40 mod 2 ^ 4.
Definition desc_code_or_data (d : Z) : bool := Z.testbit d 44.
Definition desc_dpl (d : Z) : Z := d / 2 ^ 45 mod 4.
Definition desc_present (d : Z) : bool := Z.testbit d 47.
Definition desc_long (d : Z) : bool := Z.testbit d 53.
Definition desc_default_size (d : Z) : bool := Z.testbit d 54.
Definition desc_page_units (d : Z) : bool := Z.testbit d 55.

(** A 64-bit code segment, and a writable data segment, of the flat 4 GiB. *)
Definition flat (d : Z) (dpl : Z) : Prop :=
  desc_present d = true /\ desc_code_or_data d = true /\ desc_dpl d = dpl /\
  desc_base d = 0 /\ desc_limit d = 0xFFFFF /\ desc_page_units d = true.

Definition code_segment (d : Z) (dpl : Z) : Prop :=
  flat d dpl /\ Z.testbit (desc_type d) 3 = true /\ desc_long d = true /\ desc_default_size d = false.

Definition data_segment (d : Z) (dpl : Z) : Prop :=
  flat d dpl /\ Z.testbit (desc_type d) 3 = false /\ Z.testbit (desc_type d) 1 = true.

(** An available 64-bit task state segment: 16 bytes, [d] and then [d']. *)
Definition tss_segment (d d' base limit : Z) : Prop :=
  desc_present d = true /\ desc_code_or_data d = false /\ desc_type d = 9 /\ desc_dpl d = 0 /\
  desc_base d + d' mod 2 ^ 32 * 2 ^ 32 = base /\ desc_limit d = limit /\ desc_page_units d = false.

(** The descriptor a selector designates, the requested privilege in its low
    two bits. *)
Definition descriptor (m : ram) (r : SegmentRegs) (selector : Z) : Z :=
  rd64 m (gdtr_base r + selector / 8 * 8).

(** * Facts *)

Lemma dec_byte (b : Z) bs : dec (enc 1 b ++ bs) = b mod 256 + 256 * dec bs.
Proof. done. Qed.

Lemma dec_enc_app n v bs :
  dec (enc n v ++ bs) = v mod 256 ^ Z.of_nat n + 256 ^ Z.of_nat n * dec bs.
Proof. by rewrite dec_app, dec_enc, enc_length. Qed.

(** The 64-bit value of a descriptor. *)
Lemma gdt_entry_value e :
  dec (gdt_entry_bytes e) =
    limit_low e mod 2 ^ 16 + 2 ^ 16 * (base_low e mod 2 ^ 16) + 2 ^ 32 * (base_mid e mod 2 ^ 8) +
    2 ^ 40 * (access e mod 2 ^ 8) + 2 ^ 48 * (granularity e mod 2 ^ 8) + 2 ^ 56 * (base_high e mod 2 ^ 8).
Proof.
  unfold gdt_entry_bytes. rewrite !dec_enc_app, dec_enc.
  change (256 ^ Z.of_nat 2) with (2 ^ 16). change (256 ^ Z.of_nat 1) with (2 ^ 8).
  set (x := _ mod 2 ^ 16). lia.
Qed.

Lemma land_low x n k : 0 <= k <= n -> wrap n (Z.land x (Z.ones k)) = x mod 2 ^ k.
Proof.
  intros. rewrite Z.land_ones by lia. apply wrap_small.
  pose proof (Z.mod_pos_bound x (2 ^ k) ltac:(lia)).
  pose proof (Z.pow_le_mono_r 2 k n ltac:(lia) ltac:(lia)). lia.
Qed.

Lemma granularity_value limit gran :
  Z.lor (wrap 8 (Z.land (Z.shiftr limit 16) 0x0F)) (Z.land gran 0xF0) =
    limit / 2 ^ 16 mod 2 ^ 4 + 2 ^ 4 * (gran / 2 ^ 4 mod 2 ^ 4).
Proof.
  change 0x0F with (Z.ones 4). rewrite land_low, Z.shiftr_div_pow2 by lia.
  change 0xF0 with (Z.shiftl (Z.ones 4) 4). rewrite land_field, Z.shiftr_div_pow2 by lia.
  rewrite Z.lor_comm, lor_shiftl_add by (try lia; apply Z.mod_pos_bound; lia). lia.
Qed.

Lemma gdt_entry_new_value base limit acc gran :
  0 <= acc < 2 ^ 8 ->
  dec (gdt_entry_bytes (gdt_entry_new base limit acc gran)) =
    limit mod 2 ^ 16 + 2 ^ 16 * (base mod 2 ^ 16) + 2 ^ 32 * (base / 2 ^ 16 mod 2 ^ 8) +
    2 ^ 40 * acc + 2 ^ 48 * (limit / 2 ^ 16 mod 2 ^ 4) + 2 ^ 52 * (gran / 2 ^ 4 mod 2 ^ 4) +
    2 ^ 56 * (base / 2 ^ 24 mod 2 ^ 8).
Proof.
  intros Ha. rewrite gdt_entry_value. unfold gdt_entry_new.
  cbn [limit_low base_low base_mid access granularity base_high].
  rewrite granularity_value. change 0xFFFF with (Z.ones 16). change 0xFF with (Z.ones 8).
  rewrite !land_low, !Z.shiftr_div_pow2 by lia.
  rewrite !(Z.mod_small (_ mod _)) by (apply Z.mod_pos_bound; lia).
  rewrite (Z.mod_small acc) by lia.
  pose proof (Z.mod_pos_bound (limit / 2 ^ 16) (2 ^ 4) ltac:(lia)).
  pose proof (Z.mod_pos_bound (gran / 2 ^ 4) (2 ^ 4) ltac:(lia)).
  rewrite (Z.mod_small (_ + _)) by lia. lia.
Qed.

(** Extracting a field of a sum of fields. *)
Lemma field_slice lo x hi d n k :
  0 <= n -> 0 <= k -> 0 <= lo < 2 ^ n -> 0 <= x < 2 ^ k -> d = lo + 2 ^ n * (x + 2 ^ k * hi) ->
  d / 2 ^ n mod 2 ^ k = x.
Proof.
  intros Hn Hk Hlo Hx ->. rewrite (Z.mul_comm (2 ^ n)), Z.div_add, (Z.div_small lo) by lia.
  rewrite Z.add_0_l, (Z.mul_comm (2 ^ k)), Z.mod_add by lia. by apply Z.mod_small.
Qed.

Lemma gdt_entry_fields (base limit acc gran : Z)
  (Hbase : 0 <= base < 2 ^ 32) (Hlimit : 0 <= limit < 2 ^ 32)
  (Hacc : 0 <= acc < 2 ^ 8) (Hgran : 0 <= gran < 2 ^ 8) :
  let d := dec (gdt_entry_bytes (gdt_entry_new base limit acc gran)) in
  0 <= d < 2 ^ 64 /\ desc_base d = base /\ desc_limit d = limit mod 2 ^ 20 /\
  d / 2 ^ 40 mod 2 ^ 8 = acc /\ d / 2 ^ 52 mod 2 ^ 4 = gran / 2 ^ 4.
Proof.
  intros d.
  assert (exists b0 b1 b2 l0 l1 g, d = l0 + 2 ^ 16 * b0 + 2 ^ 32 * b1 + 2 ^ 40 * acc + 2 ^ 48 * l1 +
                                       2 ^ 52 * g + 2 ^ 56 * b2 /\
            0 <= b0 < 2 ^ 16 /\ 0 <= b1 < 2 ^ 8 /\ 0 <= b2 < 2 ^ 8 /\ base = b0 + 2 ^ 16 * b1 + 2 ^ 24 * b2 /\
            0 <= l0 < 2 ^ 16 /\ 0 <= l1 < 2 ^ 4 /\ limit mod 2 ^ 20 = l0 + 2 ^ 16 * l1 /\
            0 <= g < 2 ^ 4 /\ g = gran / 2 ^ 4)
    as (b0 & b1 & b2 & l0 & l1 & g & -> & Hb0 & Hb1 & Hb2 & -> & Hl0 & Hl1 & -> & Hg & <-).
  { eexists _, _, _, _, _, _. split; [by apply gdt_entry_new_value|].
    clear d. split_and!; try (apply Z.mod_pos_bound; lia); Z.div_mod_to_equations; lia. }
  unfold desc_base, desc_limit. split; [lia|]. split_and!.
  - rewrite (field_slice l0 (b0 + 2 ^ 16 * b1) (acc + 2 ^ 8 * l1 + 2 ^ 12 * g + 2 ^ 16 * b2)) by lia.
    rewrite (field_slice (l0 + 2 ^ 16 * b0 + 2 ^ 32 * b1 + 2 ^ 40 * acc + 2 ^ 48 * l1 + 2 ^ 52 * g) b2 0) by lia.
    lia.
  - rewrite (field_slice (l0 + 2 ^ 16 * b0 + 2 ^ 32 * b1 + 2 ^ 40 * acc) l1 (g + 2 ^ 4 * b2)) by lia.
    rewrite <- (Z.div_1_r (_ + 2 ^ 56 * b2)). change 1 with (2 ^ 0) at 1.
    rewrite (field_slice 0 l0 (b0 + 2 ^ 16 * b1 + 2 ^ 24 * acc + 2 ^ 32 * l1 + 2 ^ 36 * g + 2 ^ 40 * b2)) by lia.
    lia.
  - apply (field_slice (l0 + 2 ^ 16 * b0 + 2 ^ 32 * b1) acc (l1 + 2 ^ 4 * g + 2 ^ 8 * b2)); lia.
  - apply (field_slice (l0 + 2 ^ 16 * b0 + 2 ^ 32 * b1 + 2 ^ 40 * acc + 2 ^ 48 * l1) g b2); lia.
Qed.

(** The task state segment descriptor is a segment descriptor followed by the
    upper half of the base. *)
Lemma tss_entry_bytes_eq a size :
  0 <= a < 2 ^ 64 -> 0 <= size < 2 ^ 16 ->
  tss_entry_bytes (tss_entry_new a size) =
    gdt_entry_bytes (gdt_entry_new (a mod 2 ^ 32) size 0x89 0) ++ enc 8 (a / 2 ^ 32).
Proof.
  intros Ha Hs. unfold tss_entry_bytes, gdt_entry_bytes, tss_entry_new, gdt_entry_new.
  cbn [tss_length tss_base_low tss_base_mid tss_flags1 tss_flags2 tss_base_high tss_base_upper
       tss_reserved limit_low base_low base_mid access granularity base_high].
  rewrite granularity_value. change 0xFFFF with (Z.ones 16). change 0xFF with (Z.ones 8).
  rewrite !land_low, !Z.shiftr_div_pow2 by lia.
  rewrite (Z.mod_small size (2 ^ 16)), (Z.div_small size (2 ^ 16)) by lia.
  assert (a mod 2 ^ 32 mod 2 ^ 16 = a mod 2 ^ 16) as -> by (Z.div_mod_to_equations; lia).
  assert (a mod 2 ^ 32 / 2 ^ 16 mod 2 ^ 8 = a / 2 ^ 16 mod 2 ^ 8) as -> by (Z.div_mod_to_equations; lia).
  assert (a mod 2 ^ 32 / 2 ^ 24 mod 2 ^ 8 = a / 2 ^ 24 mod 2 ^ 8) as -> by (Z.div_mod_to_equations; lia).
  assert (wrap 32 (a / 2 ^ 32) = a / 2 ^ 32) as ->.
  { apply wrap_small. Z.div_mod_to_equations. lia. }
  rewrite <- !app_assoc. do 6 f_equal. unfold enc. cbn [app]. do 4 f_equal.
  assert (a / 2 ^ 32 / 256 / 256 / 256 / 256 = 0) as ->; [|done].
  Z.div_mod_to_equations. lia.
Qed.

(** The bits of the access byte and of the flags. *)
Lemma access_bits d :
  0 <= d ->
  desc_type d = d / 2 ^ 40 mod 2 ^ 8 mod 16 /\ desc_dpl d = d / 2 ^ 40 mod 2 ^ 8 / 32 mod 4 /\
  desc_code_or_data d = Z.testbit (d / 2 ^ 40 mod 2 ^ 8) 4 /\
  desc_present d = Z.testbit (d / 2 ^ 40 mod 2 ^ 8) 7 /\
  desc_page_units d = Z.testbit (d / 2 ^ 52 mod 2 ^ 4) 3.
Proof.
  intros Hd. unfold desc_type, desc_dpl, desc_code_or_data, desc_present, desc_page_units.
  rewrite !Z.mod_pow2_bits_low, !Z.div_pow2_bits by lia. split_and!; try done.
  - Z.div_mod_to_equations. lia.
  - Z.div_mod_to_equations. lia.
Qed.

Lemma tss_entry_segment addr limit :
  0 <= addr < 2 ^ 64 -> 0 <= limit < 2 ^ 16 ->
  tss_segment (dec (gdt_entry_bytes (gdt_entry_new (addr mod 2 ^ 32) limit 0x89 0)))
    (dec (enc 8 (addr / 2 ^ 32))) addr limit.
Proof.
  intros Ha Hl.
  destruct (gdt_entry_fields (addr mod 2 ^ 32) limit 0x89 0) as (Hr & Hb & Hlim & Hacc & Hg);
    [apply Z.mod_pos_bound; lia|lia|lia|lia|].
  unfold tss_segment. destruct (access_bits _ (proj1 Hr)) as (-> & -> & -> & -> & ->).
  rewrite Hacc, Hg, Hb, Hlim, dec_enc. split_and!; try reflexivity.
  - change (256 ^ Z.of_nat 8) with (2 ^ 64). Z.div_mod_to_equations. lia.
  - apply Z.mod_small. lia.
Qed.

Lemma words_bytes l : Forall (fun b => 0 <= b < 256) (mjoin (enc 8 <$> l)).
Proof. induction l as [|x l IH]; [constructor|]. apply Forall_app_2; [apply enc_bytes|exact IH]. Qed.
#[local] Hint Resolve words_bytes : bytes.

Lemma gdt_bytes_range g : Forall (fun b => 0 <= b < 256) (gdt_bytes g).
Proof. unfold gdt_bytes, gdt_entry_bytes, tss_entry_bytes. auto 30 with bytes. Qed.

Lemma tss_bytes_range t : Forall (fun b => 0 <= b < 256) (tss_bytes t).
Proof. unfold tss_bytes. auto 30 with bytes. Qed.

(** * Properties *)

(** What the processor reads in the 8 bytes of [GdtEntry::new]: the 32-bit
    base, the low 20 bits of the limit, the access byte, and the flags of the
    high half of the granularity byte. *)
Theorem gdt_entry_roundtrip (base limit acc gran : Z)
  (Hbase : 0 <= base < 2 ^ 32) (Hlimit : 0 <= limit < 2 ^ 32)
  (Hacc : 0 <= acc < 2 ^ 8) (Hgran : 0 <= gran < 2 ^ 8) :
  let d := dec (gdt_entry_bytes (gdt_entry_new base limit acc gran)) in
  0 <= d < 2 ^ 64 /\ desc_base d = base /\ desc_limit d = limit mod 2 ^ 20 /\
  d / 2 ^ 40 mod 2 ^ 8 = acc /\ d / 2 ^ 52 mod 2 ^ 4 = gran / 2 ^ 4.
Proof. by apply gdt_entry_fields. Qed.

Lemma gdt_entry_roundtrip_witness :
  desc_base (dec (gdt_entry_bytes (gdt_entry_new 0x12345678 0xABCDE 0x9A 0xC0))) = 0x12345678.
Proof.
  by destruct (gdt_entry_roundtrip 0x12345678 0xABCDE 0x9A 0xC0 ltac:(lia) ltac:(lia) ltac:(lia) ltac:(lia))
    as (_ & H & _).
Defined.

(** C19: after [gdt::init] each segment register and each user selector
    designates, in the table the GDTR points to, the segment it is named after
    with the privilege of the selector: 64-bit flat code for CS, flat writable
    data for the others; TR designates the 64-bit task state segment at [TSS],
    whose first kernel stack pointer and first interrupt stack are the last
    bytes of the two static stacks. All selectors lie within the table's
    limit. *)
Theorem gdt_init_correct (a : GdtAddrs) (r : SegmentRegs) (m : ram)
  (Htss : 0 <= TSS_addr a < 2 ^ 64)
  (Hk : 0 <= KERNEL_STACK_addr a < 2 ^ 63) (Hi : 0 <= IST_STACK0_addr a < 2 ^ 63) :
  let s := init a (mkGdtState GDT tss_new r) in
  let m1 := copy_bytes (gdt_bytes (gdt s)) m (GDT_addr a) in
  let m2 := copy_bytes (tss_bytes (tss s)) m (TSS_addr a) in
  gdtr_base (segs s) = GDT_addr a /\
  gdtr_limit (segs s) + 1 = Z.of_nat (length (gdt_bytes (gdt s))) /\
  descriptor m1 (segs s) 0 = 0 /\
  code_segment (descriptor m1 (segs s) (cs (segs s))) (cs (segs s) mod 4) /\
  Forall (fun sel => data_segment (descriptor m1 (segs s) sel) (sel mod 4))
    [ds (segs s); es (segs s); fs (segs s); gs (segs s); ss (segs s)] /\
  code_segment (descriptor m1 (segs s) USER_CODE_SELECTOR) 3 /\ USER_CODE_SELECTOR mod 4 = 3 /\
  data_segment (descriptor m1 (segs s) USER_DATA_SELECTOR) 3 /\ USER_DATA_SELECTOR mod 4 = 3 /\
  tss_segment (descriptor m1 (segs s) (tr (segs s))) (descriptor m1 (segs s) (tr (segs s) + 8))
    (TSS_addr a) (Z.of_nat (length (tss_bytes (tss s))) - 1) /\
  rd64 m2 (TSS_addr a + 4) = KERNEL_STACK_addr a + KERNEL_STACK_LEN - 1 /\
  rd64 m2 (TSS_addr a + 36) = IST_STACK0_addr a + IST_STACK0_LEN - 1 /\
  tr (segs s) + 15 <= gdtr_limit (segs s).
Proof.
  intros s m1 m2.
  assert (forall (k : nat) (sel : Z), sel / 8 * 8 = Z.of_nat k -> (k + 8 <= 56)%nat ->
            descriptor m1 (segs s) sel = dec (take 8 (drop k (gdt_bytes (gdt s))))) as Hdesc.
  { intros k sel Hsel Hk8. unfold descriptor. change (gdtr_base (segs s)) with (GDT_addr a).
    rewrite Hsel. apply (rd_copy_bytes 8); [apply gdt_bytes_range|exact Hk8]. }
  assert (forall (k : nat) x, (k + 8 <= 104)%nat -> take 8 (drop k (tss_bytes (tss s))) = enc 8 x ->
            0 <= x < 2 ^ 64 -> rd64 m2 (TSS_addr a + Z.of_nat k) = x) as Htssf.
  { intros k x Hk8 Hx Hr. unfold rd64. etrans; [apply (rd_copy_bytes 8); [apply tss_bytes_range|exact Hk8]|].
    rewrite Hx, dec_enc. apply Z.mod_small. lia. }
  assert (forall (k : nat) sel e, sel / 8 * 8 = Z.of_nat k -> (k + 8 <= 56)%nat ->
            take 8 (drop k (gdt_bytes (gdt s))) = gdt_entry_bytes e ->
            descriptor m1 (segs s) sel = dec (gdt_entry_bytes e)) as Hentry.
  { intros k sel e Hsel Hk8 <-. by apply Hdesc. }
  split; [reflexivity|]. split; [reflexivity|].
  split; [by rewrite (Hentry 0%nat 0 null) by (reflexivity || lia)|].
  split; [rewrite (Hentry 8%nat _ code) by (reflexivity || lia); vm_compute; split_and!; done|].
  split.
  { repeat constructor; rewrite (Hentry 16%nat _ data) by (reflexivity || lia); vm_compute; done. }
  split; [rewrite (Hentry 24%nat _ user_code) by (reflexivity || lia); vm_compute; split_and!; done|].
  split; [reflexivity|].
  split; [rewrite (Hentry 32%nat _ user_data) by (reflexivity || lia); vm_compute; split_and!; done|].
  split; [reflexivity|].
  split; [|split; [|split; [|discriminate]]].
  - assert (drop 40 (gdt_bytes (gdt s)) =
              gdt_entry_bytes (gdt_entry_new (TSS_addr a mod 2 ^ 32) 103 0x89 0) ++ enc 8 (TSS_addr a / 2 ^ 32))
      as Hdrop.
    { rewrite <- tss_entry_bytes_eq by lia. reflexivity. }
    rewrite (Hentry 40%nat _ (gdt_entry_new (TSS_addr a mod 2 ^ 32) 103 0x89 0));
      [|reflexivity|lia|by rewrite Hdrop].
    rewrite (Hdesc 48%nat) by (reflexivity || lia).
    change 48%nat with (40 + 8)%nat. rewrite <- drop_drop, Hdrop.
    change (Z.of_nat (length (tss_bytes (tss s))) - 1) with 103. apply tss_entry_segment; [done|lia].
  - change 4 with (Z.of_nat 4). rewrite (Htssf 4%nat (KERNEL_STACK_addr a ⊕ (KERNEL_STACK_LEN - 1))); [|lia|reflexivity|apply wrap_range; lia].
    unfold KERNEL_STACK_LEN. rewrite add64_small; lia.
  - change 36 with (Z.of_nat 36). rewrite (Htssf 36%nat (IST_STACK0_addr a ⊕ (IST_STACK0_LEN - 1))); [|lia|reflexivity|apply wrap_range; lia].
    unfold IST_STACK0_LEN. rewrite add64_small; lia.
Qed.

Lemma gdt_init_correct_witness :
  let s := init (mkGdtAddrs 0x105000 0x106000 0x107000 0x110000)
             (mkGdtState GDT tss_new (mkSegs 0 0 0 0 0 0 0 0 0)) in
  let m1 := copy_bytes (gdt_bytes (gdt s)) ∅ 0x105000 in
  descriptor m1 (segs s) (cs (segs s)) = 0x00AF9A000000FFFF /\
  code_segment (descriptor m1 (segs s) (cs (segs s))) 0.
Proof.
  intros s m1.
  destruct (gdt_init_correct (mkGdtAddrs 0x105000 0x106000 0x107000 0x110000) (mkSegs 0 0 0 0 0 0 0 0 0) ∅
              ltac:(cbn; lia) ltac:(cbn; lia) ltac:(cbn; lia)) as (_ & _ & _ & Hcs & _).
  split; [vm_compute; reflexivity|exact Hcs].
Defined.
