(* ===== verification/Cpu.v ===== *)
(** [kernel/src/arch/x86_64/mod.rs] and [kernel/src/arch/mod.rs]: the
    instructions the kernel uses on ports, model-specific registers, memory-
    mapped registers, control registers and the interrupt flag.

    The devices are a parameter, the class [Device]: what an access reads and
    how it changes the devices.  The model logs every access, in order, so that
    a theorem can state the exact sequence of accesses an operation makes with
    any device behind the ports. *)
From S2P Require Import Prelude.
From stdpp Require Import base numbers list strings tactics.
From Stdlib Require Import ZArith Lia.
Open Scope Z_scope.
Open Scope word_scope.

(** * Devices *)

(** An access: its kind with the width in bytes of a port, its address, and the
    value read or written. *)
Inductive access : Type :=
| PortIn (width : Z) (port : Z) (value : Z)
| PortOut (width : Z) (port : Z) (value : Z)
| RdMsr (msr : Z) (value : Z)
| WrMsr (msr : Z) (value : Z)
| RdMmio (addr : Z) (value : Z)
| WrMmio (addr : Z) (value : Z).

#[export] Instance access_eq_dec : EqDecision access.
Proof. solve_decision. Defined.

(** The four registers [cpuid] returns. *)
Record Cpuid : Type := mkCpuid { eax : Z; ebx : Z; ecx : Z; edx : Z }.

Class Device (D : Type) : Type := {
  dev_in : Z -> Z -> D -> Z * D;
  dev_out : Z -> Z -> Z -> D -> D;
  dev_rdmsr : Z -> D -> Z * D;
  dev_wrmsr : Z -> Z -> D -> D;
  dev_read : Z -> D -> Z * D;
  dev_write : Z -> Z -> D -> D;
  dev_cpuid : Z -> Cpuid
}.

(** The processor: the devices, the accesses so far (the oldest first), RFLAGS
    and the control registers. *)
Record Cpu (D : Type) : Type := mkCpu {
  dev : D;
  accesses : list access;
  rflags : Z;
  cr0 : Z;
  cr2 : Z;
  cr3 : Z;
  cr4 : Z;
  halts : nat
}.
Arguments mkCpu {D} _ _ _ _ _ _ _ _.
Arguments dev {D} _.
Arguments accesses {D} _.
Arguments rflags {D} _.
Arguments cr0 {D} _.
Arguments cr2 {D} _.
Arguments cr3 {D} _.
Arguments cr4 {D} _.
Arguments halts {D} _.

Section cpu.
Context {D : Type} {DEV : Device D}.

Abbreviation M := (stateE (Cpu D) stop).

Definition set_dev (d : D) (a : access) (s : Cpu D) : Cpu D :=
  mkCpu d (accesses s ++ [a]) (rflags s) (cr0 s) (cr2 s) (cr3 s) (cr4 s) (halts s).

Definition set_rflags (f : Z) (s : Cpu D) : Cpu D :=
  mkCpu (dev s) (accesses s) f (cr0 s) (cr2 s) (cr3 s) (cr4 s) (halts s).

(** * Ports *)

Definition port_in (width port : Z) : M Z := fun s =>
  let (v, d) := dev_in width port (dev s) in
  let v := wrap (8 * width) v in
  (Ok v, set_dev d (PortIn width port v) s).

Definition port_out (width port value : Z) : M unit := fun s =>
  (Ok tt, set_dev (dev_out width port value (dev s)) (PortOut width port value) s).

Definition inb (port : Z) : M Z := port_in 1 port.
Definition outb (port value : Z) : M unit := port_out 1 port value.
Definition inw (port : Z) : M Z := port_in 2 port.
Definition outw (port value : Z) : M unit := port_out 2 port value.
Definition inl (port : Z) : M Z := port_in 4 port.
Definition outl (port value : Z) : M unit := port_out 4 port value.

(** * Model-specific registers, [cpuid], memory-mapped registers *)

(** The instruction leaves the halves in EDX and EAX. *)
Definition rdmsr (msr : Z) : M Z := fun s =>
  let (v, d) := dev_rdmsr msr (dev s) in
  let low := wrap 32 v in
  let high := wrap 32 (Z.shiftr v 32) in
  let r := Z.lor (Z.shiftl high 32) low in
  (Ok r, set_dev d (RdMsr msr r) s).

Definition wrmsr (msr value : Z) : M unit := fun s =>
  let low := wrap 32 value in
  let high := wrap 32 (Z.shiftr value 32) in
  let v := Z.lor (Z.shiftl high 32) low in
  (Ok tt, set_dev (dev_wrmsr msr v (dev s)) (WrMsr msr v) s).

Definition cpuid (leaf : Z) : M (Z * Z * Z * Z) :=
  let r := dev_cpuid leaf in
  mret (wrap 32 (eax r), wrap 32 (ebx r), wrap 32 (ecx r), wrap 32 (edx r)).

(** [read_volatile] and [write_volatile] of a [u32] register. *)
Definition read_volatile (addr : Z) : M Z := fun s =>
  let (v, d) := dev_read addr (dev s) in
  let v := wrap 32 v in
  (Ok v, set_dev d (RdMmio addr v) s).

Definition write_volatile (addr value : Z) : M unit := fun s =>
  (Ok tt, set_dev (dev_write addr value (dev s)) (WrMmio addr value) s).

(** * Control registers *)

Definition read_cr0 : M Z := gets cr0.
Definition read_cr2 : M Z := gets cr2.
Definition read_cr3 : M Z := gets cr3.
Definition read_cr4 : M Z := gets cr4.
Definition write_cr0 (v : Z) : M unit :=
  modify (fun s => mkCpu (dev s) (accesses s) (rflags s) v (cr2 s) (cr3 s) (cr4 s) (halts s)).
Definition write_cr3 (v : Z) : M unit :=
  modify (fun s => mkCpu (dev s) (accesses s) (rflags s) (cr0 s) (cr2 s) v (cr4 s) (halts s)).
Definition write_cr4 (v : Z) : M unit :=
  modify (fun s => mkCpu (dev s) (accesses s) (rflags s) (cr0 s) (cr2 s) (cr3 s) v (halts s)).

(** * Interrupts *)

(** Bit 9 of RFLAGS is IF. *)
Definition disable_interrupts : M unit := modify (fun s => set_rflags (Z.clearbit (rflags s) 9) s).
Definition enable_interrupts : M unit := modify (fun s => set_rflags (Z.setbit (rflags s) 9) s).

Definition halt : M unit :=
  modify (fun s => mkCpu (dev s) (accesses s) (rflags s) (cr0 s) (cr2 s) (cr3 s) (cr4 s) (S (halts s))).

Definition interrupts_enabled : M bool :=
  flags ← gets rflags;
  mret (negb (Z.land flags (Z.shiftl 1 9) =? 0)).

Definition without_interrupts {R} (f : M R) : M R :=
  enabled ← interrupts_enabled;
  (if enabled : bool then disable_interrupts else mret tt);;
  result ← f;
  (if enabled : bool then enable_interrupts else mret tt);;
  mret result.

(** * Facts *)

Definition if_flag (s : Cpu D) : bool := Z.testbit (rflags s) 9.

Lemma interrupts_enabled_eq s : interrupts_enabled s = (Ok (if_flag s), s).
Proof.
  unfold interrupts_enabled, gets, mbind, stateE_bind, mret, stateE_ret, if_flag.
  by rewrite land_bit_eqb, negb_involutive by lia.
Qed.

Lemma if_flag_disabled s : if_flag (set_rflags (Z.clearbit (rflags s) 9) s) = false.
Proof. unfold if_flag. cbn [rflags set_rflags]. apply Z.clearbit_eq. Qed.

Lemma if_flag_enabled s : if_flag (set_rflags (Z.setbit (rflags s) 9) s) = true.
Proof. unfold if_flag. cbn [rflags set_rflags]. apply Z.setbit_eq. lia. Qed.

Lemma set_clear_bit x : 0 <= x -> Z.testbit x 9 = true -> Z.setbit (Z.clearbit x 9) 9 = x.
Proof.
  intros Hx Hb. apply Z.bits_inj'. intros i Hi.
  rewrite Z.setbit_eqb, Z.clearbit_eqb by lia.
  destruct (Z.eqb_spec 9 i) as [<-|]; [by rewrite Hb|]. by rewrite andb_true_r.
Qed.

(** * Properties *)

(** C38: [without_interrupts] runs its closure with the interrupt flag clear,
    whatever it was; its result is the closure's; if interrupts were enabled
    they are enabled again after it, and if they were not the flags are as the
    closure left them. So around a closure that does not touch the flags, and
    nested at any depth, it leaves RFLAGS as it found it. A panic of the closure
    is its own, and leaves interrupts off. *)
Theorem without_interrupts_correct {R} (f : M R) (s : Cpu D) (Hflags : 0 <= rflags s) :
  exists s1, if_flag s1 = false /\ dev s1 = dev s /\ accesses s1 = accesses s /\
    match f s1 with
    | (Ok r, s2) =>
        exists s3, without_interrupts f s = (Ok r, s3) /\
          dev s3 = dev s2 /\ accesses s3 = accesses s2 /\
          (if_flag s = true -> if_flag s3 = true) /\
          (if_flag s = false -> s3 = s2) /\
          (rflags s2 = rflags s1 -> rflags s3 = rflags s)
    | (Err e, s2) => without_interrupts f s = (Err e, s2)
    end.
Proof.
  unfold without_interrupts. destruct (if_flag s) eqn:Hif.
  - exists (set_rflags (Z.clearbit (rflags s) 9) s).
    split; [apply if_flag_disabled|]. split; [done|]. split; [done|].
    rewrite (bind_ok _ _ _ _ _ (interrupts_enabled_eq s)), Hif.
    unfold mbind, stateE_bind, disable_interrupts, enable_interrupts, modify, mret, stateE_ret.
    destruct (f _) as [[r|e] s2]; [|done].
    exists (set_rflags (Z.setbit (rflags s2) 9) s2). split; [done|]. split; [done|]. split; [done|].
    split; [intros _; apply if_flag_enabled|]. split; [done|].
    cbn [rflags set_rflags]. intros ->. by apply set_clear_bit.
  - exists s. split; [done|]. split; [done|]. split; [done|].
    rewrite (bind_ok _ _ _ _ _ (interrupts_enabled_eq s)), Hif.
    unfold mbind, stateE_bind, mret, stateE_ret.
    destruct (f s) as [[r|e] s2]; [|done]. by exists s2.
Qed.
End cpu.

(** * No device *)

(** A machine with nothing behind its ports: every read gives 0. *)
#[export] Instance no_device : Device unit := {
  dev_in _ _ u := (0, u);
  dev_out _ _ _ u := u;
  dev_rdmsr _ u := (0, u);
  dev_wrmsr _ _ u := u;
  dev_read _ u := (0, u);
  dev_write _ _ u := u;
  dev_cpuid _ := mkCpuid 0 0 0 0
}.

Lemma without_interrupts_correct_witness :
  exists s3, without_interrupts (outb 0x20 0x20) (mkCpu tt [] 0x202 0 0 0 0 0) = (Ok tt, s3) /\
             rflags s3 = 0x202.
Proof.
  destruct (without_interrupts_correct (outb 0x20 0x20) (mkCpu tt [] 0x202 0 0 0 0 0) ltac:(cbn; lia))
    as (s1 & Hif & Hd & Ha & H).
  unfold outb, port_out in H. cbv iota in H. destruct H as (s3 & E & _ & _ & _ & _ & Hf).
  exists s3. split; [exact E|]. apply Hf. reflexivity.
Defined.
