(* ===== verification/Serial.v ===== *)
(** [kernel/src/arch/x86_64/serial.rs]: the 16550 serial port.

    The polling loop of [write_byte] runs with fuel: it is the device that
    decides when it ends. *)
From S2P Require Import Prelude Cpu.
From stdpp Require Import base numbers list strings tactics.
From Stdlib Require Import ZArith Lia.
Open Scope Z_scope.
Open Scope word_scope.

(** * Constants *)

Definition COM1 : Z := 0x3F8.

Definition REG_DATA : Z := 0.
Definition REG_IER : Z := 1.
Definition REG_BAUD_LO : Z := 0.
Definition REG_BAUD_HI : Z := 1.
Definition REG_FCR : Z := 2.
Definition REG_LCR : Z := 3.
Definition REG_MCR : Z := 4.
Definition REG_LSR : Z := 5.

Definition LCR_8N1 : Z := 0x03.
Definition LCR_DLAB : Z := 0x80.
Definition FCR_ENABLE_14B : Z := 0xC7.
Definition MCR_LOOPBACK : Z := 0x1E.
Definition MCR_NORMAL : Z := 0x0F.
Definition LSR_DATA_READY : Z := 0x01.
Definition LSR_THR_EMPTY : Z := 0x20.
Definition BAUD_115200 : Z * Z := (0x01, 0x00).
Definition LOOPBACK_TEST_BYTE : Z := 0xAE.

Record Serial : Type := mkSerial { port : Z }.

(** [Default], and the static [SERIAL]. *)
Definition SERIAL : Serial := mkSerial COM1.

Definition reg (self : Serial) (offset : Z) : Z := wrap 16 (port self + offset).

Section serial.
Context {D : Type} {DEV : Device D}.

Abbreviation M := (stateE (Cpu D) stop).

(** * Operations *)

Definition serial_disable_interrupts (self : Serial) : M unit := outb (reg self REG_IER) 0x00.

Definition set_baud (divisor : Z * Z) (self : Serial) : M unit :=
  outb (reg self REG_LCR) LCR_DLAB;;
  outb (reg self REG_BAUD_LO) (fst divisor);;
  outb (reg self REG_BAUD_HI) (snd divisor).

Definition configure_line (lcr : Z) (self : Serial) : M unit := outb (reg self REG_LCR) lcr.

Definition configure_fifo (fcr : Z) (self : Serial) : M unit := outb (reg self REG_FCR) fcr.

Definition loopback_test (self : Serial) : M unit :=
  outb (reg self REG_MCR) MCR_LOOPBACK;;
  outb (reg self REG_DATA) LOOPBACK_TEST_BYTE;;
  result ← inb (reg self REG_DATA);
  (if negb (result =? LOOPBACK_TEST_BYTE) then fail (Panic "Serial self-test failed") else mret tt);;
  outb (reg self REG_MCR) MCR_NORMAL.

Definition init (self : Serial) : M unit :=
  serial_disable_interrupts self;;
  set_baud BAUD_115200 self;;
  configure_line LCR_8N1 self;;
  configure_fifo FCR_ENABLE_14B self;;
  loopback_test self.

(** [while inb(LSR) & LSR_THR_EMPTY == 0 {}] *)
Fixpoint wait_thr_empty (fuel : nat) (self : Serial) : M unit :=
  match fuel with
  | O => fail OutOfFuel
  | S fuel' =>
      lsr ← inb (reg self REG_LSR);
      if Z.land lsr LSR_THR_EMPTY =? 0 then wait_thr_empty fuel' self else mret tt
  end.

Definition write_byte (fuel : nat) (byte : Z) (self : Serial) : M unit :=
  wait_thr_empty fuel self;;
  outb (reg self REG_DATA) byte.

Definition read_byte (self : Serial) : M (option Z) :=
  lsr ← inb (reg self REG_LSR);
  if negb (Z.land lsr LSR_DATA_READY =? 0) then
    b ← inb (reg self REG_DATA);
    mret (Some b)
  else mret None.

(** [s.bytes()] is a list of bytes. *)
Fixpoint write_string (fuel : nat) (s : list Z) (self : Serial) : M unit :=
  match s with
  | [] => mret tt
  | byte :: s' =>
      (if byte =? 10 then write_byte fuel 13 self else mret tt);;
      write_byte fuel byte self;;
      write_string fuel s' self
  end.

(** * What is transmitted *)

(** Each line feed is sent as a carriage return and a line feed. *)
Definition crlf (s : list Z) : list Z :=
  mjoin ((fun b => if b =? 10 then [13; 10] else [b]) <$> s).

(** A read of the line status while the transmitter is busy. *)
Definition busy_poll (self : Serial) (a : access) : Prop :=
  exists v, a = PortIn 1 (reg self REG_LSR) v /\ Z.testbit v 5 = false.

(** The accesses that transmit the bytes [bs] by the rules of the device: each
    is written to the data register right after a status read with the
    transmitter empty, and nothing else is accessed but the status. *)
Fixpoint transmission (self : Serial) (bs : list Z) (l : list access) : Prop :=
  match bs with
  | [] => l = []
  | b :: bs =>
      exists polls v rest,
        l = polls ++ PortIn 1 (reg self REG_LSR) v :: PortOut 1 (reg self REG_DATA) b :: rest /\
        Forall (busy_poll self) polls /\ Z.testbit v 5 = true /\ transmission self bs rest
  end.

(** Reading the line status at most [n + 1] times finds the transmitter empty. *)
Fixpoint ready_within (n : nat) (self : Serial) (d : D) : Prop :=
  let (v, d') := dev_in 1 (reg self REG_LSR) d in
  Z.testbit v 5 = true \/
  match n with
  | O => False
  | S n' => ready_within n' self d'
  end.

(** * Facts *)

Lemma crlf_app s t : crlf (s ++ t) = crlf s ++ crlf t.
Proof. unfold crlf. by rewrite fmap_app, join_app. Qed.

Lemma thr_empty_bit v : (Z.land (wrap 8 v) LSR_THR_EMPTY =? 0) = negb (Z.testbit v 5).
Proof.
  change LSR_THR_EMPTY with (Z.shiftl 1 5). rewrite land_bit_eqb by lia.
  unfold wrap. by rewrite Z.mod_pow2_bits_low by lia.
Qed.

Lemma inb_eq p s :
  let (v, d) := dev_in 1 p (dev s) in inb p s = (Ok (wrap 8 v), set_dev d (PortIn 1 p (wrap 8 v)) s).
Proof. unfold inb, port_in. by destruct (dev_in 1 p (dev s)). Qed.

Lemma wait_spec fuel self s :
  match wait_thr_empty fuel self s with
  | (Ok _, s') =>
      exists polls v, accesses s' = accesses s ++ polls ++ [PortIn 1 (reg self REG_LSR) v] /\
        Forall (busy_poll self) polls /\ Z.testbit v 5 = true
  | (Err e, s') => e = OutOfFuel /\ exists polls, accesses s' = accesses s ++ polls /\
        Forall (busy_poll self) polls
  end.
Proof.
  revert s. induction fuel as [|fuel IH]; intros s; cbn [wait_thr_empty].
  { split; [done|]. exists []. by rewrite app_nil_r. }
  pose proof (inb_eq (reg self REG_LSR) s) as Hin.
  destruct (dev_in 1 (reg self REG_LSR) (dev s)) as [v d].
  rewrite (bind_ok _ _ _ _ _ Hin), thr_empty_bit.
  assert (Z.testbit (wrap 8 v) 5 = Z.testbit v 5) as Hbit.
  { unfold wrap. by rewrite Z.mod_pow2_bits_low by lia. }
  destruct (Z.testbit v 5) eqn:Hv; cbn [negb].
  - exists [], (wrap 8 v). by rewrite Hbit.
  - specialize (IH (set_dev d (PortIn 1 (reg self REG_LSR) (wrap 8 v)) s)).
    assert (busy_poll self (PortIn 1 (reg self REG_LSR) (wrap 8 v))) as Hbusy.
    { eexists. split; [done|]. by rewrite Hbit. }
    destruct (wait_thr_empty _ _ _) as [[[]|e] s'].
    + destruct IH as (polls & w & -> & Hp & Hw). exists (PortIn 1 (reg self REG_LSR) (wrap 8 v) :: polls), w.
      cbn [accesses set_dev]. rewrite <- app_assoc. split; [done|]. split; [by constructor|done].
    + destruct IH as (-> & polls & -> & Hp). split; [done|].
      exists (PortIn 1 (reg self REG_LSR) (wrap 8 v) :: polls). cbn [accesses set_dev].
      rewrite <- app_assoc. split; [done|by constructor].
Qed.

Lemma write_byte_spec fuel b self s :
  match write_byte fuel b self s with
  | (Ok _, s') => exists l, accesses s' = accesses s ++ l /\ transmission self [b] l
  | (Err e, _) => e = OutOfFuel
  end.
Proof.
  unfold write_byte. pose proof (wait_spec fuel self s) as Hw.
  destruct (wait_thr_empty fuel self s) as [[[]|e] s'] eqn:E.
  - rewrite (bind_ok _ _ _ _ _ E). destruct Hw as (polls & v & Ha & Hp & Hv).
    unfold outb, port_out. cbn [accesses set_dev]. rewrite Ha. eexists. split; [by rewrite <- app_assoc|].
    exists polls, v, []. by rewrite <- app_assoc.
  - rewrite (bind_err _ _ _ _ _ E). by destruct Hw.
Qed.

Lemma transmission_app self bs cs l l' :
  transmission self bs l -> transmission self cs l' -> transmission self (bs ++ cs) (l ++ l').
Proof.
  revert l. induction bs as [|b bs IH]; intros l; cbn; [by intros ->|].
  intros (polls & v & rest & -> & Hp & Hv & Ht) Hc. exists polls, v, (rest ++ l').
  rewrite <- app_assoc. split; [done|]. split; [done|]. split; [done|]. by apply IH.
Qed.

(** The carriage return, when there is one. *)
Lemma write_cr_spec fuel b self s :
  match (if b =? 10 then write_byte fuel 13 self else mret tt) s with
  | (Ok _, s') => exists l, accesses s' = accesses s ++ l /\
                            transmission self (if b =? 10 then [13] else []) l
  | (Err e, _) => e = OutOfFuel
  end.
Proof.
  destruct (b =? 10); [apply write_byte_spec|]. exists []. by rewrite app_nil_r.
Qed.

(** A device that is ready within [n] more reads is waited for with enough fuel. *)
Lemma wait_ready n fuel self s :
  ready_within n self (dev s) -> (n < fuel)%nat -> exists s', wait_thr_empty fuel self s = (Ok tt, s').
Proof.
  revert fuel s. induction n as [|n IH]; intros [|fuel] s Hr Hf; try lia; cbn [wait_thr_empty];
    cbn [ready_within] in Hr; pose proof (inb_eq (reg self REG_LSR) s) as Hin;
    destruct (dev_in 1 (reg self REG_LSR) (dev s)) as [v d];
    rewrite (bind_ok _ _ _ _ _ Hin), thr_empty_bit;
    destruct (Z.testbit v 5) eqn:Hv; cbn [negb]; try (by eexists).
  - by destruct Hr.
  - destruct Hr as [|Hr]; [done|]. apply IH; [done|lia].
Qed.

(** What [write_string] transmits. *)
Lemma write_string_spec (fuel : nat) (bs : list Z) (self : Serial) (s : Cpu D) :
  match write_string fuel bs self s with
  | (Ok _, s') => exists l, accesses s' = accesses s ++ l /\ transmission self (crlf bs) l
  | (Err e, _) => e = OutOfFuel
  end.
Proof.
  revert s. induction bs as [|b bs IH]; intros s; cbn [write_string].
  { exists []. by rewrite app_nil_r. }
  pose proof (write_cr_spec fuel b self s) as H1.
  destruct ((if b =? 10 then write_byte fuel 13 self else mret tt) s) as [[[]|e] s1] eqn:E1;
    [rewrite (bind_ok _ _ _ _ _ E1)|by rewrite (bind_err _ _ _ _ _ E1)].
  pose proof (write_byte_spec fuel b self s1) as H2.
  destruct (write_byte fuel b self s1) as [[[]|e] s2] eqn:E2;
    [rewrite (bind_ok _ _ _ _ _ E2)|by rewrite (bind_err _ _ _ _ _ E2)].
  specialize (IH s2). destruct (write_string fuel bs self s2) as [[[]|e] s3]; [|done].
  destruct H1 as (l1 & Ha1 & Ht1). destruct H2 as (l2 & Ha2 & Ht2). destruct IH as (l3 & -> & Ht3).
  exists (l1 ++ l2 ++ l3). rewrite Ha2, Ha1, <- !app_assoc. split; [done|].
  assert (crlf (b :: bs) = (if b =? 10 then [13] else []) ++ [b] ++ crlf bs) as ->.
  { unfold crlf. cbn [fmap list_fmap mjoin list_join]. destruct (Z.eqb_spec b 10) as [->|]; done. }
  by apply transmission_app, transmission_app.
Qed.


Lemma write_string_app fuel xs ys self s :
  write_string fuel (xs ++ ys) self s = (write_string fuel xs self;; write_string fuel ys self) s.
Proof.
  revert s. induction xs as [|b xs IH]; intros s; [done|]. cbn [app write_string].
  unfold mbind, stateE_bind in IH |- *. destruct ((if b =? 10 then write_byte fuel 13 self else mret tt) s) as [[[]|] s1]; [|done].
  destruct (write_byte fuel b self s1) as [[[]|] s2]; [|done]. apply IH.
Qed.

(** * Properties *)

(** [Serial::init], with any device behind the ports: the exact accesses it
    makes, in order; it panics iff the byte read back is not the test byte, and
    then the port is left in loopback mode. *)
Theorem serial_init_correct (self : Serial) (s : Cpu D) :
  exists v,
    let before :=
      [PortOut 1 (reg self 1) 0; PortOut 1 (reg self 3) 0x80; PortOut 1 (reg self 0) 1;
       PortOut 1 (reg self 1) 0; PortOut 1 (reg self 3) 3; PortOut 1 (reg self 2) 0xC7;
       PortOut 1 (reg self 4) 0x1E; PortOut 1 (reg self 0) 0xAE; PortIn 1 (reg self 0) v] in
    match init self s with
    | (Ok _, s') => v = 0xAE /\ accesses s' = accesses s ++ before ++ [PortOut 1 (reg self 4) 0x0F]
    | (Err e, s') => v <> 0xAE /\ e = Panic "Serial self-test failed" /\ accesses s' = accesses s ++ before
    end.
Proof.
  unfold init, serial_disable_interrupts, set_baud, configure_line, configure_fifo, loopback_test,
    mbind, stateE_bind, outb, port_out, inb, port_in, mret, stateE_ret, fail.
  cbn [dev set_dev fst snd BAUD_115200].
  destruct (dev_in _ _ _) as [v d]. exists (wrap 8 v). change (8 * 1) with 8.
  destruct (Z.eqb_spec (wrap 8 v) LOOPBACK_TEST_BYTE) as [Hv|Hv]; cbn [negb].
  - split; [exact Hv|]. cbn [accesses set_dev]. rewrite <- !app_assoc. reflexivity.
  - split; [exact Hv|]. split; [reflexivity|]. cbn [accesses set_dev]. rewrite <- !app_assoc. reflexivity.
Qed.

(** [write_string], with any device: if it returns, it has transmitted the
    bytes of the string, each line feed preceded by a carriage return, each byte
    written right after the status said the transmitter was empty, and accessed
    nothing else. It never panics. *)
Theorem write_string_correct (fuel : nat) (bs : list Z) (self : Serial) (s : Cpu D) :
  match write_string fuel bs self s with
  | (Ok _, s') => exists l, accesses s' = accesses s ++ l /\ transmission self (crlf bs) l
  | (Err e, _) => e = OutOfFuel
  end.
Proof. apply write_string_spec. Qed.

(** It returns with a device that becomes ready. *)
Lemma write_string_returns (n fuel : nat) (bs : list Z) (self : Serial) (s : Cpu D)
  (Hready : forall d : D, ready_within n self d) (Hfuel : (n < fuel)%nat) :
  exists s', write_string fuel bs self s = (Ok tt, s').
Proof.
  assert (forall b s, exists s', write_byte fuel b self s = (Ok tt, s')) as Hb.
  { intros b s1. unfold write_byte.
    destruct (wait_ready n fuel self s1 (Hready _) Hfuel) as [s2 E]. rewrite (bind_ok _ _ _ _ _ E).
    by eexists. }
  revert s. induction bs as [|b bs IH]; intros s; cbn [write_string]; [by eexists|].
  assert (exists s1, (if b =? 10 then write_byte fuel 13 self else mret tt) s = (Ok tt, s1)) as [s1 E1].
  { destruct (b =? 10); [apply Hb|by eexists]. }
  rewrite (bind_ok _ _ _ _ _ E1). destruct (Hb b s1) as [s2 E2]. rewrite (bind_ok _ _ _ _ _ E2). apply IH.
Qed.

(** Port accesses leave the registers of the processor alone. *)
Definition same_but_devices (s s' : Cpu D) : Prop :=
  rflags s' = rflags s /\ cr0 s' = cr0 s /\ cr2 s' = cr2 s /\ cr3 s' = cr3 s /\ cr4 s' = cr4 s /\ halts s' = halts s.

Lemma same_refl s : same_but_devices s s.
Proof. by repeat split. Qed.

Lemma same_trans s s' s'' : same_but_devices s s' -> same_but_devices s' s'' -> same_but_devices s s''.
Proof. intros (? & ? & ? & ? & ? & ?) (? & ? & ? & ? & ? & ?). repeat split; congruence. Qed.

Lemma same_bind {A B} (m : M A) (f : A -> M B) s :
  same_but_devices s (snd (m s)) -> (forall a s, same_but_devices s (snd (f a s))) ->
  same_but_devices s (snd ((m ≫= f) s)).
Proof.
  intros Hm Hf. unfold mbind, stateE_bind. destruct (m s) as [[a|e] s']; [|done].
  by apply (same_trans _ s').
Qed.

Lemma wait_cpu fuel self s : same_but_devices s (snd (wait_thr_empty fuel self s)).
Proof.
  revert s. induction fuel as [|fuel IH]; intros s; cbn [wait_thr_empty]; [apply same_refl|].
  apply same_bind.
  - unfold inb, port_in. by destruct (dev_in _ _ _).
  - intros v s1. destruct (_ =? 0); [apply IH|apply same_refl].
Qed.

Lemma write_byte_cpu fuel b self s : same_but_devices s (snd (write_byte fuel b self s)).
Proof. apply same_bind; [apply wait_cpu|]. intros [] s1. by repeat split. Qed.

Lemma write_string_cpu fuel bs self s : same_but_devices s (snd (write_string fuel bs self s)).
Proof.
  revert s. induction bs as [|b bs IH]; intros s; cbn [write_string]; [apply same_refl|].
  apply same_bind.
  - destruct (b =? 10); [apply write_byte_cpu|apply same_refl].
  - intros [] s1. apply same_bind; [apply write_byte_cpu|]. intros [] s2. apply IH.
Qed.

(** C30: [write_string] returns with a device that is never busy for more than
    [n] status reads, given fuel for [n + 1] polls a byte. It has then transmitted
    the bytes of the string, each line feed preceded by a carriage return, each
    byte written right after the status said the transmitter was empty; it has
    accessed nothing else and left the registers of the processor alone. *)
Theorem write_string_terminates (n fuel : nat) (bs : list Z) (self : Serial) (s : Cpu D)
  (Hready : forall d : D, ready_within n self d) (Hfuel : (n < fuel)%nat) :
  exists s' l, write_string fuel bs self s = (Ok tt, s') /\
    accesses s' = accesses s ++ l /\ transmission self (crlf bs) l /\ same_but_devices s s'.
Proof.
  destruct (write_string_returns n fuel bs self s Hready Hfuel) as [s' E].
  pose proof (write_string_spec fuel bs self s) as Hs. pose proof (write_string_cpu fuel bs self s) as Hc.
  rewrite E in Hs, Hc. destruct Hs as (l & Ha & Ht). by exists s', l.
Qed.

(** And it hangs, holding the port's lock, with a device whose transmitter
    never becomes empty: no amount of fuel is enough for one byte. *)
Theorem write_byte_hangs (fuel : nat) (b : Z) (self : Serial) (s : Cpu D)
  (Hbusy : forall d : D, Z.testbit (fst (dev_in 1 (reg self REG_LSR) d)) 5 = false) :
  fst (write_byte fuel b self s) = Err OutOfFuel.
Proof.
  assert (forall s, fst (wait_thr_empty fuel self s) = Err OutOfFuel) as Hw.
  { induction fuel as [|fuel IH]; intros s1; [done|]. cbn [wait_thr_empty].
    pose proof (inb_eq (reg self REG_LSR) s1) as Hin. specialize (Hbusy (dev s1)).
    destruct (dev_in 1 (reg self REG_LSR) (dev s1)) as [v d]. cbn [fst] in Hbusy.
    rewrite (bind_ok _ _ _ _ _ Hin), thr_empty_bit, Hbusy. apply IH. }
  unfold write_byte. specialize (Hw s). destruct (wait_thr_empty fuel self s) as [r s'] eqn:E.
  cbn [fst] in Hw. subst r. by rewrite (bind_err _ _ _ _ _ E).
Qed.
End serial.

(** * A 16550 *)

(** The port as its data sheet describes it, at [COM1]: the divisor latch
    behind DLAB, the receive FIFO, the loopback of MCR, a transmitter that is
    always empty; [sent] is what went out on the line. *)
Record Uart : Type := mkUart {
  dll : Z;
  dlm : Z;
  ier : Z;
  fcr : Z;
  lcr : Z;
  mcr : Z;
  rx : list Z;
  sent : list Z
}.

Definition dlab (u : Uart) : bool := Z.testbit (lcr u) 7.
Definition loopback (u : Uart) : bool := Z.testbit (mcr u) 4.

Definition uart_in (p : Z) (u : Uart) : Z * Uart :=
  if p =? COM1 then
    if dlab u then (dll u, u)
    else match rx u with
         | [] => (0, u)
         | b :: rest => (b, mkUart (dll u) (dlm u) (ier u) (fcr u) (lcr u) (mcr u) rest (sent u))
         end
  else if p =? COM1 + 1 then (if dlab u then dlm u else ier u, u)
  else if p =? COM1 + 3 then (lcr u, u)
  else if p =? COM1 + 4 then (mcr u, u)
  else if p =? COM1 + 5 then (Z.lor 0x60 (match rx u with [] => 0 | _ => 1 end), u)
  else (0, u).

Definition uart_out (p v : Z) (u : Uart) : Uart :=
  if p =? COM1 then
    if dlab u then mkUart v (dlm u) (ier u) (fcr u) (lcr u) (mcr u) (rx u) (sent u)
    else if loopback u then mkUart (dll u) (dlm u) (ier u) (fcr u) (lcr u) (mcr u) (rx u ++ [v]) (sent u)
    else mkUart (dll u) (dlm u) (ier u) (fcr u) (lcr u) (mcr u) (rx u) (sent u ++ [v])
  else if p =? COM1 + 1 then
    if dlab u then mkUart (dll u) v (ier u) (fcr u) (lcr u) (mcr u) (rx u) (sent u)
    else mkUart (dll u) (dlm u) v (fcr u) (lcr u) (mcr u) (rx u) (sent u)
  else if p =? COM1 + 2 then
    mkUart (dll u) (dlm u) (ier u) v (lcr u) (mcr u) (if Z.testbit v 1 then [] else rx u) (sent u)
  else if p =? COM1 + 3 then mkUart (dll u) (dlm u) (ier u) (fcr u) v (mcr u) (rx u) (sent u)
  else if p =? COM1 + 4 then mkUart (dll u) (dlm u) (ier u) (fcr u) (lcr u) v (rx u) (sent u)
  else u.

#[export] Instance uart_device : Device Uart := {
  dev_in _ p u := uart_in p u;
  dev_out _ p v u := uart_out p v u;
  dev_rdmsr _ u := (0, u);
  dev_wrmsr _ _ u := u;
  dev_read _ u := (0, u);
  dev_write _ _ u := u;
  dev_cpuid _ := mkCpuid 0 0 0 0
}.

(** The port after [init], with what it has sent. *)
Definition configured (out : list Z) : Uart := mkUart 1 0 0 0xC7 0x03 0x0F [] out.

Lemma serial_init_uart (s : Cpu Uart) : dlab (dev s) = false ->
  exists s1, init SERIAL s = (Ok tt, s1) /\ dev s1 = configured (sent (dev s)).
Proof.
  intros Hdlab. set (u := dev s) in *.
  assert (exists s0, serial_disable_interrupts SERIAL s = (Ok tt, s0) /\
            dev s0 = mkUart (dll u) (dlm u) 0 (fcr u) (lcr u) (mcr u) (rx u) (sent u)) as (s0 & E0 & Hd0).
  { unfold serial_disable_interrupts, outb, port_out. eexists. split; [reflexivity|].
    cbn [dev set_dev dev_out uart_device]. fold u.
    change (reg SERIAL REG_IER) with (COM1 + 1). unfold uart_out.
    change (COM1 + 1 =? COM1) with false. rewrite Z.eqb_refl, Hdlab. done. }
  unfold init. rewrite (bind_ok _ _ _ _ _ E0). clearbody u.
  destruct s0 as [u0 a f c0 c2 c3 c4 h]. cbn [dev] in Hd0. subst u0.
  eexists. split; reflexivity.
Qed.

Lemma uart_write_byte n b (s : Cpu Uart) out : dev s = configured out ->
  exists s', write_byte (S n) b SERIAL s = (Ok tt, s') /\ dev s' = configured (out ++ [b]).
Proof.
  destruct s as [u0 a f c0 c2 c3 c4 h]. cbn [dev]. intros ->. eexists. split; reflexivity.
Qed.

Lemma uart_write_string n bs : forall (s : Cpu Uart) out, dev s = configured out ->
  exists s', write_string (S n) bs SERIAL s = (Ok tt, s') /\ dev s' = configured (out ++ crlf bs).
Proof.
  induction bs as [|b bs IH]; intros s1 out Hd.
  { exists s1. split; [done|]. by rewrite app_nil_r. }
  assert (exists s2, (if b =? 10 then write_byte (S n) 13 SERIAL else mret tt) s1 = (Ok tt, s2) /\
            dev s2 = configured (out ++ if b =? 10 then [13] else [])) as (s2 & E2 & Hd2).
  { destruct (b =? 10); [by apply uart_write_byte|]. exists s1. split; [done|]. by rewrite app_nil_r. }
  cbn [write_string]. rewrite (bind_ok _ _ _ _ _ E2).
  destruct (uart_write_byte n b s2 _ Hd2) as (s3 & E3 & Hd3). rewrite (bind_ok _ _ _ _ _ E3).
  destruct (IH s3 _ Hd3) as (s4 & E4 & Hd4). exists s4. split; [done|]. rewrite Hd4. f_equal.
  rewrite <- !app_assoc. f_equal. unfold crlf. cbn [fmap list_fmap mjoin list_join].
  destruct (Z.eqb_spec b 10) as [->|]; done.
Qed.

(** C20: on a 16550 with the divisor latch closed, [init] passes the self-test
    and leaves the port at 115200 baud (divisor 1), 8N1, interrupts off, FIFO on,
    out of loopback, with nothing received and nothing sent; and from there
    [write_string] puts exactly the string on the line, with its line ends. *)
Theorem serial_on_16550 (u : Uart) (bs : list Z) (s : Cpu Uart)
  (Hu : dev s = u) (Hdlab : dlab u = false) :
  exists s1 s2,
    init SERIAL s = (Ok tt, s1) /\
    dev s1 = mkUart 1 0 0 0xC7 0x03 0x0F [] (sent u) /\
    write_string 1 bs SERIAL s1 = (Ok tt, s2) /\
    dev s2 = mkUart 1 0 0 0xC7 0x03 0x0F [] (sent u ++ crlf bs).
Proof.
  subst u. destruct (serial_init_uart s Hdlab) as (s1 & E1 & Hd1).
  destruct (uart_write_string 0 bs s1 _ Hd1) as (s2 & E2 & Hd2). by exists s1, s2.
Qed.

(** * Witnesses *)

Definition reset_uart : Uart := mkUart 0x0C 0 0xFF 0 0 0 [] [].
Definition reset_cpu : Cpu Uart := mkCpu reset_uart [] 2 0 0 0 0 0.

Lemma serial_on_16550_witness :
  exists s1 s2, init SERIAL reset_cpu = (Ok tt, s1) /\ write_string 1 [104; 105; 10] SERIAL s1 = (Ok tt, s2) /\
                sent (dev s2) = [104; 105; 13; 10].
Proof.
  destruct (serial_on_16550 reset_uart [104; 105; 10] reset_cpu eq_refl eq_refl) as (s1 & s2 & E1 & _ & E2 & Hd).
  exists s1, s2. split; [exact E1|]. split; [exact E2|]. rewrite Hd. reflexivity.
Defined.

Lemma uart_ready (d : Uart) : ready_within 0 SERIAL d.
Proof. left. cbn -[Z.lor]. by destruct (rx d). Qed.

Lemma write_string_terminates_witness :
  exists s' l, write_string 1 [104; 10] SERIAL reset_cpu = (Ok tt, s') /\
    accesses s' = accesses reset_cpu ++ l /\ transmission SERIAL [104; 13; 10] l /\ same_but_devices reset_cpu s'.
Proof. exact (write_string_terminates 0 1 [104; 10] SERIAL reset_cpu uart_ready (le_n 1)). Defined.

Lemma write_byte_hangs_witness :
  fst (write_byte 1000 65 SERIAL (mkCpu tt [] 2 0 0 0 0 0)) = Err OutOfFuel.
Proof. apply (write_byte_hangs 1000 65 SERIAL (mkCpu tt [] 2 0 0 0 0 0)). intros []. reflexivity. Defined.
