(* ===== verification/Keyboard.v ===== *)
(** [kernel/src/drivers/keyboard.rs]: the PS/2 keyboard driver.

    The three statics are the fields of [KeyState]. Each lock is taken for one
    statement and the handler runs with interrupts off, so the model has no
    locks here; what happens when an interrupt arrives while a lock is held is
    in the file [Locks]. Characters are [ascii]: all those the driver makes
    are below 128. *)
From S2P Require Import Prelude Cpu.
From Stdlib Require Import ZArith Lia Ascii.
From stdpp Require Import base numbers list strings tactics.
Open Scope Z_scope.
Open Scope word_scope.

(** * Data *)

Module KeyCode.
Inductive t : Type :=
| Unknown | A | B | C | D | E | F | G | H | I | J | K | L | M | N | O | P | Q | R | S | T
| U | V | W | X | Y | Z | Key0 | Key1 | Key2 | Key3 | Key4 | Key5 | Key6 | Key7 | Key8
| Key9 | F1 | F2 | F3 | F4 | F5 | F6 | F7 | F8 | F9 | F10 | F11 | F12 | Escape | Tab
| CapsLock | LeftShift | RightShift | LeftCtrl | RightCtrl | LeftAlt | RightAlt | Space
| Enter | Backspace | Delete | Insert | Home | End | PageUp | PageDown | Up | Down | Left
| Right | Minus | Equals | LeftBracket | RightBracket | Backslash | Semicolon | Quote
| Grave | Comma | Period | Slash | NumLock | ScrollLock | Keypad0 | Keypad1 | Keypad2
| Keypad3 | Keypad4 | Keypad5 | Keypad6 | Keypad7 | Keypad8 | Keypad9 | KeypadPlus
| KeypadMinus | KeypadMultiply | KeypadDivide | KeypadEnter | KeypadPeriod.

(** The key codes, numbered: equality is decided on the numbers. *)
Definition all : list t :=
  [Unknown; A; B; C; D; E; F; G; H; I; J; K; L; M; N; O; P; Q; R; S; T; U; V; W; X; Y; Z; Key0;
  Key1; Key2; Key3; Key4; Key5; Key6; Key7; Key8; Key9; F1; F2; F3; F4; F5; F6; F7; F8; F9;
  F10; F11; F12; Escape; Tab; CapsLock; LeftShift; RightShift; LeftCtrl; RightCtrl; LeftAlt;
  RightAlt; Space; Enter; Backspace; Delete; Insert; Home; End; PageUp; PageDown; Up; Down;
  Left; Right; Minus; Equals; LeftBracket; RightBracket; Backslash; Semicolon; Quote; Grave;
  Comma; Period; Slash; NumLock; ScrollLock; Keypad0; Keypad1; Keypad2; Keypad3; Keypad4;
  Keypad5; Keypad6; Keypad7; Keypad8; Keypad9; KeypadPlus; KeypadMinus; KeypadMultiply;
  KeypadDivide; KeypadEnter; KeypadPeriod].

Definition index (k : t) : nat :=
  match k with
  | Unknown => 0 | A => 1 | B => 2 | C => 3 | D => 4 | E => 5 | F => 6 | G => 7 | H => 8
  | I => 9 | J => 10 | K => 11 | L => 12 | M => 13 | N => 14 | O => 15 | P => 16 | Q => 17
  | R => 18 | S => 19 | T => 20 | U => 21 | V => 22 | W => 23 | X => 24 | Y => 25 | Z => 26
  | Key0 => 27 | Key1 => 28 | Key2 => 29 | Key3 => 30 | Key4 => 31 | Key5 => 32 | Key6 => 33
  | Key7 => 34 | Key8 => 35 | Key9 => 36 | F1 => 37 | F2 => 38 | F3 => 39 | F4 => 40 | F5 => 41
  | F6 => 42 | F7 => 43 | F8 => 44 | F9 => 45 | F10 => 46 | F11 => 47 | F12 => 48
  | Escape => 49 | Tab => 50 | CapsLock => 51 | LeftShift => 52 | RightShift => 53
  | LeftCtrl => 54 | RightCtrl => 55 | LeftAlt => 56 | RightAlt => 57 | Space => 58
  | Enter => 59 | Backspace => 60 | Delete => 61 | Insert => 62 | Home => 63 | End => 64
  | PageUp => 65 | PageDown => 66 | Up => 67 | Down => 68 | Left => 69 | Right => 70
  | Minus => 71 | Equals => 72 | LeftBracket => 73 | RightBracket => 74 | Backslash => 75
  | Semicolon => 76 | Quote => 77 | Grave => 78 | Comma => 79 | Period => 80 | Slash => 81
  | NumLock => 82 | ScrollLock => 83 | Keypad0 => 84 | Keypad1 => 85 | Keypad2 => 86
  | Keypad3 => 87 | Keypad4 => 88 | Keypad5 => 89 | Keypad6 => 90 | Keypad7 => 91
  | Keypad8 => 92 | Keypad9 => 93 | KeypadPlus => 94 | KeypadMinus => 95 | KeypadMultiply => 96
  | KeypadDivide => 97 | KeypadEnter => 98 | KeypadPeriod => 99
  end.

Lemma all_index (k : t) : all !! index k = Some k.
Proof. by destruct k. Qed.

#[global] Instance index_inj : Inj (=) (=) index.
Proof. intros a b H. pose proof (all_index a) as Ha. rewrite H, all_index in Ha. by injection Ha. Qed.

Lemma elem_of_all k : k ∈ all.
Proof. apply (list_elem_of_lookup_2 _ (index k)), all_index. Qed.

#[global] Instance t_eq_dec : EqDecision t := fun a b =>
  match decide (index a = index b) with
  | left e => left (inj index a b e)
  | right n => right (fun e => n (f_equal index e))
  end.
End KeyCode.

Record Modifiers : Type := mkModifiers {
  shift : bool;
  ctrl : bool;
  alt : bool;
  caps_lock : bool;
  num_lock : bool
}.

Record KeyEvent : Type := mkKeyEvent {
  scancode : Z;
  keycode : KeyCode.t;
  modifiers : Modifiers;
  pressed : bool
}.

(** The statics. *)
Record KeyState : Type := mkKeyState {
  KEYBOARD_BUF : list KeyEvent;
  EXTENDED_KEY : bool;
  MODIFIERS : Modifiers
}.

Definition no_modifiers : Modifiers := mkModifiers false false false false false.
Definition initial : KeyState := mkKeyState [] false no_modifiers.

Definition KEYBOARD_CAP : nat := 100.

(** * Tables *)

(** After the prefix 0xE0. *)
Definition extended_scancode_to_keycode (scancode : Z) : KeyCode.t :=
  match scancode with
  | 0x1C => KeyCode.KeypadEnter
  | 0x1D => KeyCode.RightCtrl
  | 0x35 => KeyCode.KeypadDivide
  | 0x38 => KeyCode.RightAlt
  | 0x47 => KeyCode.Home
  | 0x48 => KeyCode.Up
  | 0x49 => KeyCode.PageUp
  | 0x4B => KeyCode.Left
  | 0x4D => KeyCode.Right
  | 0x4F => KeyCode.End
  | 0x50 => KeyCode.Down
  | 0x51 => KeyCode.PageDown
  | 0x52 => KeyCode.Insert
  | 0x53 => KeyCode.Delete
  | _ => KeyCode.Unknown
  end.

Definition scancode_to_keycode (scancode : Z) : KeyCode.t :=
  match scancode with
  | 0x01 => KeyCode.Escape
  | 0x02 => KeyCode.Key1
  | 0x03 => KeyCode.Key2
  | 0x04 => KeyCode.Key3
  | 0x05 => KeyCode.Key4
  | 0x06 => KeyCode.Key5
  | 0x07 => KeyCode.Key6
  | 0x08 => KeyCode.Key7
  | 0x09 => KeyCode.Key8
  | 0x0A => KeyCode.Key9
  | 0x0B => KeyCode.Key0
  | 0x0C => KeyCode.Minus
  | 0x0D => KeyCode.Equals
  | 0x0E => KeyCode.Backspace
  | 0x0F => KeyCode.Tab
  | 0x10 => KeyCode.Q
  | 0x11 => KeyCode.W
  | 0x12 => KeyCode.E
  | 0x13 => KeyCode.R
  | 0x14 => KeyCode.T
  | 0x15 => KeyCode.Y
  | 0x16 => KeyCode.U
  | 0x17 => KeyCode.I
  | 0x18 => KeyCode.O
  | 0x19 => KeyCode.P
  | 0x1A => KeyCode.LeftBracket
  | 0x1B => KeyCode.RightBracket
  | 0x1C => KeyCode.Enter
  | 0x1D => KeyCode.LeftCtrl
  | 0x1E => KeyCode.A
  | 0x1F => KeyCode.S
  | 0x20 => KeyCode.D
  | 0x21 => KeyCode.F
  | 0x22 => KeyCode.G
  | 0x23 => KeyCode.H
  | 0x24 => KeyCode.J
  | 0x25 => KeyCode.K
  | 0x26 => KeyCode.L
  | 0x27 => KeyCode.Semicolon
  | 0x28 => KeyCode.Quote
  | 0x29 => KeyCode.Grave
  | 0x2A => KeyCode.LeftShift
  | 0x2B => KeyCode.Backslash
  | 0x2C => KeyCode.Z
  | 0x2D => KeyCode.X
  | 0x2E => KeyCode.C
  | 0x2F => KeyCode.V
  | 0x30 => KeyCode.B
  | 0x31 => KeyCode.N
  | 0x32 => KeyCode.M
  | 0x33 => KeyCode.Comma
  | 0x34 => KeyCode.Period
  | 0x35 => KeyCode.Slash
  | 0x36 => KeyCode.RightShift
  | 0x37 => KeyCode.KeypadMultiply
  | 0x38 => KeyCode.LeftAlt
  | 0x39 => KeyCode.Space
  | 0x3A => KeyCode.CapsLock
  | 0x3B => KeyCode.F1
  | 0x3C => KeyCode.F2
  | 0x3D => KeyCode.F3
  | 0x3E => KeyCode.F4
  | 0x3F => KeyCode.F5
  | 0x40 => KeyCode.F6
  | 0x41 => KeyCode.F7
  | 0x42 => KeyCode.F8
  | 0x43 => KeyCode.F9
  | 0x44 => KeyCode.F10
  | 0x45 => KeyCode.NumLock
  | 0x46 => KeyCode.ScrollLock
  | 0x47 => KeyCode.Keypad7
  | 0x48 => KeyCode.Keypad8
  | 0x49 => KeyCode.Keypad9
  | 0x4A => KeyCode.KeypadMinus
  | 0x4B => KeyCode.Keypad4
  | 0x4C => KeyCode.Keypad5
  | 0x4D => KeyCode.Keypad6
  | 0x4E => KeyCode.KeypadPlus
  | 0x4F => KeyCode.Keypad1
  | 0x50 => KeyCode.Keypad2
  | 0x51 => KeyCode.Keypad3
  | 0x52 => KeyCode.Keypad0
  | 0x53 => KeyCode.KeypadPeriod
  | 0x57 => KeyCode.F11
  | 0x58 => KeyCode.F12
  | _ => KeyCode.Unknown
  end.

(** The characters are those of a US layout. *)
Definition keyevent_to_char (event : KeyEvent) : option ascii :=
  if negb (pressed event) then None
  else
    let upper := xorb (shift (modifiers event)) (caps_lock (modifiers event)) in
    let shift := shift (modifiers event) in
    match keycode event with
    | KeyCode.A => Some (if upper then "A" else "a")
    | KeyCode.B => Some (if upper then "B" else "b")
    | KeyCode.C => Some (if upper then "C" else "c")
    | KeyCode.D => Some (if upper then "D" else "d")
    | KeyCode.E => Some (if upper then "E" else "e")
    | KeyCode.F => Some (if upper then "F" else "f")
    | KeyCode.G => Some (if upper then "G" else "g")
    | KeyCode.H => Some (if upper then "H" else "h")
    | KeyCode.I => Some (if upper then "I" else "i")
    | KeyCode.J => Some (if upper then "J" else "j")
    | KeyCode.K => Some (if upper then "K" else "k")
    | KeyCode.L => Some (if upper then "L" else "l")
    | KeyCode.M => Some (if upper then "M" else "m")
    | KeyCode.N => Some (if upper then "N" else "n")
    | KeyCode.O => Some (if upper then "O" else "o")
    | KeyCode.P => Some (if upper then "P" else "p")
    | KeyCode.Q => Some (if upper then "Q" else "q")
    | KeyCode.R => Some (if upper then "R" else "r")
    | KeyCode.S => Some (if upper then "S" else "s")
    | KeyCode.T => Some (if upper then "T" else "t")
    | KeyCode.U => Some (if upper then "U" else "u")
    | KeyCode.V => Some (if upper then "V" else "v")
    | KeyCode.W => Some (if upper then "W" else "w")
    | KeyCode.X => Some (if upper then "X" else "x")
    | KeyCode.Y => Some (if upper then "Y" else "y")
    | KeyCode.Z => Some (if upper then "Z" else "z")
    | KeyCode.Key0 => Some (if shift then ")" else "0")
    | KeyCode.Key1 => Some (if shift then "!" else "1")
    | KeyCode.Key2 => Some (if shift then "@" else "2")
    | KeyCode.Key3 => Some (if shift then "#" else "3")
    | KeyCode.Key4 => Some (if shift then "$" else "4")
    | KeyCode.Key5 => Some (if shift then "%" else "5")
    | KeyCode.Key6 => Some (if shift then "^" else "6")
    | KeyCode.Key7 => Some (if shift then "&" else "7")
    | KeyCode.Key8 => Some (if shift then "*" else "8")
    | KeyCode.Key9 => Some (if shift then "(" else "9")
    | KeyCode.Space => Some " "
    | KeyCode.Enter => Some "010"
    | KeyCode.Tab => Some "009"
    | KeyCode.Backspace => Some "008"
    | KeyCode.Escape => Some "027"
    | KeyCode.Delete => Some "127"
    | KeyCode.Minus => Some (if shift then "_" else "-")
    | KeyCode.Equals => Some (if shift then "+" else "=")
    | KeyCode.LeftBracket => Some (if shift then "{" else "[")
    | KeyCode.RightBracket => Some (if shift then "}" else "]")
    | KeyCode.Backslash => Some (if shift then "|" else "\")
    | KeyCode.Semicolon => Some (if shift then ":" else ";")
    | KeyCode.Quote => Some (if shift then "034" else "'")
    | KeyCode.Grave => Some (if shift then "~" else "`")
    | KeyCode.Comma => Some (if shift then "<" else ",")
    | KeyCode.Period => Some (if shift then ">" else ".")
    | KeyCode.Slash => Some (if shift then "?" else "/")
    | KeyCode.Keypad0 => Some "0"
    | KeyCode.Keypad1 => Some "1"
    | KeyCode.Keypad2 => Some "2"
    | KeyCode.Keypad3 => Some "3"
    | KeyCode.Keypad4 => Some "4"
    | KeyCode.Keypad5 => Some "5"
    | KeyCode.Keypad6 => Some "6"
    | KeyCode.Keypad7 => Some "7"
    | KeyCode.Keypad8 => Some "8"
    | KeyCode.Keypad9 => Some "9"
    | KeyCode.KeypadPlus => Some "+"
    | KeyCode.KeypadMinus => Some "-"
    | KeyCode.KeypadMultiply => Some "*"
    | KeyCode.KeypadDivide => Some "/"
    | KeyCode.KeypadEnter => Some "010"
    | KeyCode.KeypadPeriod => Some "."
    | _ => None
    end%char.

(** * The handler *)

Abbreviation K := (stateE KeyState stop).

Definition set_buf (b : list KeyEvent) (s : KeyState) : KeyState :=
  mkKeyState b (EXTENDED_KEY s) (MODIFIERS s).
Definition set_extended (e : bool) (s : KeyState) : KeyState :=
  mkKeyState (KEYBOARD_BUF s) e (MODIFIERS s).
Definition set_modifiers (m : Modifiers) (s : KeyState) : KeyState :=
  mkKeyState (KEYBOARD_BUF s) (EXTENDED_KEY s) m.

(** The [match] on the key code that updates the modifiers. *)
Definition update_modifiers (keycode : KeyCode.t) (pressed : bool) (mods : Modifiers) : Modifiers :=
  match keycode with
  | KeyCode.LeftShift | KeyCode.RightShift =>
      mkModifiers pressed (ctrl mods) (alt mods) (caps_lock mods) (num_lock mods)
  | KeyCode.LeftCtrl | KeyCode.RightCtrl =>
      mkModifiers (shift mods) pressed (alt mods) (caps_lock mods) (num_lock mods)
  | KeyCode.LeftAlt | KeyCode.RightAlt =>
      mkModifiers (shift mods) (ctrl mods) pressed (caps_lock mods) (num_lock mods)
  | KeyCode.CapsLock =>
      if pressed then mkModifiers (shift mods) (ctrl mods) (alt mods) (negb (caps_lock mods)) (num_lock mods)
      else mods
  | KeyCode.NumLock =>
      if pressed then mkModifiers (shift mods) (ctrl mods) (alt mods) (caps_lock mods) (negb (num_lock mods))
      else mods
  | _ => mods
  end.

Definition handle_scancode (scancode : Z) (extended : bool) : K (option KeyEvent) :=
  let pressed := Z.land scancode 0x80 =? 0 in
  let code := Z.land scancode 0x7F in
  let keycode := if extended then extended_scancode_to_keycode code else scancode_to_keycode code in
  modify (fun s => set_modifiers (update_modifiers keycode pressed (MODIFIERS s)) s);;
  modifiers ← gets MODIFIERS;
  mret (Some (mkKeyEvent scancode keycode modifiers pressed)).

(** [EXTENDED_KEY] is read and cleared under its lock. *)
Definition take_extended : K bool := fun s => (Ok (EXTENDED_KEY s), set_extended false s).

Definition push_event (event : KeyEvent) : K unit :=
  buf ← gets KEYBOARD_BUF;
  if (length buf <? KEYBOARD_CAP)%nat then modify (set_buf (buf ++ [event])) else mret tt.

(** [handle_interrupt] after its [inb]. *)
Definition handle_byte (scancode : Z) : K unit :=
  if scancode =? 0xE0 then modify (set_extended true)
  else
    is_extended ← take_extended;
    event ← handle_scancode scancode is_extended;
    match event with
    | Some event => push_event event
    | None => mret tt
    end.

Definition handle_interrupt {D} `{Device D} : stateE (Cpu D * KeyState) stop unit :=
  scancode ← on_fst (inb 0x60);
  on_snd (handle_byte scancode).

(** * The readers *)

Definition read_key : K (option KeyEvent) := fun s =>
  match KEYBOARD_BUF s with
  | [] => (Ok None, s)
  | event :: rest => (Ok (Some event), set_buf rest s)
  end.

Definition read_char : K (option ascii) :=
  event ← read_key;
  match event with
  | Some event => mret (keyevent_to_char event)
  | None => mret None
  end.

(** The [while let] loop of [get_char]. *)
Fixpoint get_char (fuel : nat) : K (option ascii) :=
  match fuel with
  | O => fail OutOfFuel
  | Datatypes.S fuel' =>
      event ← read_key;
      match event with
      | Some event =>
          match keyevent_to_char event with
          | Some c => mret (Some c)
          | None => get_char fuel'
          end
      | None => mret None
      end
  end.

Definition has_key : K bool :=
  buf ← gets KEYBOARD_BUF;
  mret (negb (match buf with [] => true | _ => false end)).

(** * The abstract view

    A keystroke is sent as its code, with bit 7 set for a release, after the
    prefix 0xE0 when the key is an extended one. *)
Record Stroke : Type := mkStroke { extended : bool; code : Z; press : bool }.

Definition stroke_byte (k : Stroke) : Z := code k + if press k then 0 else 0x80.
Definition stroke_bytes (k : Stroke) : list Z := (if extended k then [0xE0] else []) ++ [stroke_byte k].

(** The codes are those of 7 bits; the release of code 0x60 would be the
    prefix, and no keyboard has it. *)
Definition stroke_ok (k : Stroke) : Prop := 0 <= code k < 0x80 /\ stroke_byte k <> 0xE0.

Definition stroke_key (k : Stroke) : KeyCode.t :=
  if extended k then extended_scancode_to_keycode (code k) else scancode_to_keycode (code k).

(** What the modifiers are, by the history of the strokes: a held modifier
    follows the last stroke of either of its two keys; a lock is on when its
    key was pressed an odd number of times. *)
Definition last_held (keys : list KeyCode.t) (past : list Stroke) : bool :=
  match list.last (filter (fun k => stroke_key k ∈ keys) past) with
  | Some k => press k
  | None => false
  end.

Definition toggled (key : KeyCode.t) (past : list Stroke) : bool :=
  Nat.odd (length (filter (fun k => stroke_key k = key /\ press k = true) past)).

Definition modifiers_after (past : list Stroke) : Modifiers :=
  mkModifiers
    (last_held [KeyCode.LeftShift; KeyCode.RightShift] past)
    (last_held [KeyCode.LeftCtrl; KeyCode.RightCtrl] past)
    (last_held [KeyCode.LeftAlt; KeyCode.RightAlt] past)
    (toggled KeyCode.CapsLock past)
    (toggled KeyCode.NumLock past).

Definition event_after (past : list Stroke) (k : Stroke) : KeyEvent :=
  mkKeyEvent (stroke_byte k) (stroke_key k) (modifiers_after (past ++ [k])) (press k).

(** The events of the strokes [ks] after [past]. *)
Fixpoint events_after (past ks : list Stroke) : list KeyEvent :=
  match ks with
  | [] => []
  | k :: ks => event_after past k :: events_after (past ++ [k]) ks
  end.

(** * The abstract queue *)

(** What happens to the driver: an interrupt with a byte, or a read. *)
Inductive op : Type := Irq (byte : Z) | Read.

Definition op_ok (o : op) : Prop := match o with Irq b => 0 <= b < 256 | Read => True end.

Fixpoint run (ops : list op) (s : KeyState) : list KeyEvent * KeyState :=
  match ops with
  | [] => ([], s)
  | Irq b :: ops => run ops (snd (handle_byte b s))
  | Read :: ops =>
      match read_key s with
      | (Ok (Some e), s) => let (outs, s) := run ops s in (e :: outs, s)
      | (_, s) => run ops s
      end
  end.

(** A first-in first-out queue of bounded capacity that drops what does not fit. *)
Inductive fifo_op : Type := Arrive (e : KeyEvent) | Take.

Definition offer (e : KeyEvent) (q : list KeyEvent) : list KeyEvent :=
  if (length q <? KEYBOARD_CAP)%nat then q ++ [e] else q.

Fixpoint fifo_run (ops : list fifo_op) (q : list KeyEvent) : list KeyEvent * list KeyEvent :=
  match ops with
  | [] => ([], q)
  | Arrive e :: ops => fifo_run ops (offer e q)
  | Take :: ops =>
      match q with
      | [] => fifo_run ops []
      | e :: q => let (outs, q) := fifo_run ops q in (e :: outs, q)
      end
  end.

Definition arrivals (ops : list fifo_op) : list KeyEvent :=
  omap (fun o => match o with Arrive e => Some e | Take => None end) ops.

(** The stroke a byte completes, after a prefix or not. *)
Definition stroke_of (prefixed : bool) (b : Z) : Stroke := mkStroke prefixed (b mod 0x80) (b <? 0x80).

Fixpoint strokes (prefixed : bool) (ops : list op) : list Stroke :=
  match ops with
  | [] => []
  | Irq b :: ops => if b =? 0xE0 then strokes true ops else stroke_of prefixed b :: strokes false ops
  | Read :: ops => strokes prefixed ops
  end.

Fixpoint prefix_pending (prefixed : bool) (ops : list op) : bool :=
  match ops with
  | [] => prefixed
  | Irq b :: ops => prefix_pending (b =? 0xE0) ops
  | Read :: ops => prefix_pending prefixed ops
  end.

Fixpoint abstract_ops (prefixed : bool) (past : list Stroke) (ops : list op) : list fifo_op :=
  match ops with
  | [] => []
  | Irq b :: ops =>
      if b =? 0xE0 then abstract_ops true past ops
      else Arrive (event_after past (stroke_of prefixed b))
             :: abstract_ops false (past ++ [stroke_of prefixed b]) ops
  | Read :: ops => Take :: abstract_ops prefixed past ops
  end.

(** * Facts *)

(** ** The modifiers *)

Lemma last_held_snoc keys past k :
  last_held keys (past ++ [k]) = if bool_decide (stroke_key k ∈ keys) then press k else last_held keys past.
Proof.
  unfold last_held. rewrite list.filter_app. case_bool_decide as Hk.
  - rewrite list.filter_cons_True, list.filter_nil by done. by rewrite list.last_snoc.
  - by rewrite list.filter_cons_False, list.filter_nil, app_nil_r by done.
Qed.

Lemma toggled_snoc key past k :
  toggled key (past ++ [k]) = xorb (bool_decide (stroke_key k = key) && press k) (toggled key past).
Proof.
  unfold toggled. rewrite list.filter_app, length_app.
  case_bool_decide as Hk; [destruct (press k) eqn:Hp|]; cbn [andb].
  - rewrite list.filter_cons_True, list.filter_nil by done. by rewrite Nat.add_1_r, Nat.odd_succ, <- Nat.negb_odd.
  - rewrite list.filter_cons_False, list.filter_nil, Nat.add_0_r by (intros [_ ?]; congruence). by rewrite xorb_false_l.
  - rewrite list.filter_cons_False, list.filter_nil, Nat.add_0_r by (intros [? _]; congruence). by rewrite xorb_false_l.
Qed.

(** The driver's update keeps the modifiers at what the history says. *)
Lemma update_modifiers_history past k :
  update_modifiers (stroke_key k) (press k) (modifiers_after past) = modifiers_after (past ++ [k]).
Proof.
  unfold modifiers_after. rewrite !last_held_snoc, !toggled_snoc.
  generalize (toggled KeyCode.CapsLock past), (toggled KeyCode.NumLock past),
    (last_held [KeyCode.LeftShift; KeyCode.RightShift] past),
    (last_held [KeyCode.LeftCtrl; KeyCode.RightCtrl] past),
    (last_held [KeyCode.LeftAlt; KeyCode.RightAlt] past).
  intros b1 b2 b3 b4 b5. by destruct (stroke_key k), (press k).
Qed.

(** ** One byte *)

Lemma pressed_bit b : 0 <= b < 256 -> (Z.land b 0x80 =? 0) = (b <? 0x80).
Proof.
  intros Hb. change 0x80 with (Z.shiftl 1 7) at 1. rewrite land_bit_eqb by lia.
  destruct (Z.ltb_spec b 0x80) as [H|H].
  - by rewrite (testbit_range b 7) by lia.
  - rewrite Z.testbit_odd, Z.shiftr_div_pow2 by lia.
    by replace (b / 2 ^ 7) with 1 by (Z.div_mod_to_equations; lia).
Qed.

Lemma handle_byte_eq b s :
  0 <= b < 256 ->
  handle_byte b s =
    (Ok tt,
     if b =? 0xE0 then set_extended true s
     else
       let k := stroke_of (EXTENDED_KEY s) b in
       let m := update_modifiers (stroke_key k) (press k) (MODIFIERS s) in
       mkKeyState (offer (mkKeyEvent b (stroke_key k) m (press k)) (KEYBOARD_BUF s)) false m).
Proof.
  intros Hb. unfold handle_byte. destruct (b =? 0xE0); [done|].
  unfold take_extended, handle_scancode, push_event, offer, mbind, stateE_bind, mret, stateE_ret, modify, gets.
  rewrite pressed_bit by done. change 0x7F with (Z.ones 7). rewrite Z.land_ones by lia.
  change (2 ^ 7) with 0x80. unfold stroke_of, stroke_key, set_modifiers, set_extended, set_buf.
  cbn [KEYBOARD_BUF EXTENDED_KEY MODIFIERS extended code press].
  by destruct (length _ <? _)%nat.
Qed.

Lemma stroke_of_byte p b : 0 <= b < 256 -> stroke_byte (stroke_of p b) = b.
Proof.
  intros Hb. unfold stroke_byte, stroke_of. cbn [code press].
  destruct (Z.ltb_spec b 0x80); Z.div_mod_to_equations; lia.
Qed.

(** A byte that completes a stroke, with the modifiers at their history. *)
Lemma handle_byte_history b s past :
  0 <= b < 256 -> b <> 0xE0 -> MODIFIERS s = modifiers_after past ->
  let k := stroke_of (EXTENDED_KEY s) b in
  handle_byte b s =
    (Ok tt, mkKeyState (offer (event_after past k) (KEYBOARD_BUF s)) false (modifiers_after (past ++ [k]))).
Proof.
  intros Hb Hne Hm k. rewrite handle_byte_eq by done. rewrite (proj2 (Z.eqb_neq _ _) Hne).
  cbv zeta. fold k. rewrite Hm, update_modifiers_history. unfold event_after.
  unfold k at 5. by rewrite stroke_of_byte.
Qed.

(** ** The queue *)

Lemma offer_cap e q : (length q <= KEYBOARD_CAP)%nat -> (length (offer e q) <= KEYBOARD_CAP)%nat.
Proof.
  intros H. unfold offer. destruct (Nat.ltb_spec (length q) KEYBOARD_CAP); [|done].
  rewrite length_app. cbn [length]. lia.
Qed.

Lemma fifo_cap ops : forall q, (length q <= KEYBOARD_CAP)%nat ->
  (length (snd (fifo_run ops q)) <= KEYBOARD_CAP)%nat.
Proof.
  induction ops as [|[e|] ops IH]; intros q Hq; cbn [fifo_run]; [done|by apply IH, offer_cap|].
  destruct q as [|e q]; [by apply IH|]. cbn [length] in Hq. specialize (IH q ltac:(lia)).
  by destruct (fifo_run ops q).
Qed.

(** Nothing is invented or reordered. *)
Lemma fifo_sublist ops : forall q,
  fst (fifo_run ops q) ++ snd (fifo_run ops q) `sublist_of` q ++ arrivals ops.
Proof.
  induction ops as [|[e|] ops IH]; intros q; cbn [fifo_run].
  - by rewrite app_nil_r.
  - change (arrivals (Arrive e :: ops)) with (e :: arrivals ops). etrans; [apply IH|]. unfold offer.
    destruct (_ <? _)%nat; [by rewrite <- app_assoc|].
    apply sublist_app; [done|]. by apply sublist_cons.
  - change (arrivals (Take :: ops)) with (arrivals ops). destruct q as [|e q]; [apply IH|].
    specialize (IH q). destruct (fifo_run ops q) as [outs q']. cbn [fst snd] in *.
    cbn [app]. by apply sublist_skip.
Qed.

(** Nothing is lost while the events all fit. *)
Lemma fifo_keeps ops : forall q, (length q + length (arrivals ops) <= KEYBOARD_CAP)%nat ->
  fst (fifo_run ops q) ++ snd (fifo_run ops q) = q ++ arrivals ops.
Proof.
  induction ops as [|[e|] ops IH]; intros q Hq; cbn [fifo_run].
  - by rewrite app_nil_r.
  - change (arrivals (Arrive e :: ops)) with (e :: arrivals ops) in *. cbn [length] in Hq.
    unfold offer. rewrite (proj2 (Nat.ltb_lt _ _)) by lia.
    rewrite IH by (rewrite length_app; cbn [length]; lia). by rewrite <- app_assoc.
  - change (arrivals (Take :: ops)) with (arrivals ops) in *. destruct q as [|e q]; [by apply IH|].
    cbn [length] in Hq. specialize (IH q ltac:(lia)). destruct (fifo_run ops q) as [outs q'].
    cbn [fst snd] in *. cbn [app]. by rewrite IH.
Qed.

(** The simulation. *)
Lemma run_simulates ops : forall s past,
  Forall op_ok ops -> MODIFIERS s = modifiers_after past ->
  let (outs, s') := run ops s in
  fifo_run (abstract_ops (EXTENDED_KEY s) past ops) (KEYBOARD_BUF s) = (outs, KEYBOARD_BUF s') /\
  MODIFIERS s' = modifiers_after (past ++ strokes (EXTENDED_KEY s) ops) /\
  EXTENDED_KEY s' = prefix_pending (EXTENDED_KEY s) ops.
Proof.
  induction ops as [|[b|] ops IH]; intros s past Hops Hm; cbn [run abstract_ops strokes prefix_pending].
  - by rewrite app_nil_r.
  - apply list.Forall_cons in Hops as [Hb Hops]. cbn in Hb. destruct (Z.eqb_spec b 0xE0) as [->|Hne].
    + rewrite handle_byte_eq by lia. cbn [snd]. apply (IH (set_extended true s) past Hops Hm).
    + rewrite (handle_byte_history b s past) by done. cbn [snd fifo_run].
      specialize (IH (mkKeyState (offer (event_after past (stroke_of (EXTENDED_KEY s) b)) (KEYBOARD_BUF s)) false
                        (modifiers_after (past ++ [stroke_of (EXTENDED_KEY s) b]))) _ Hops eq_refl).
      destruct (run ops _) as [outs s']. by rewrite <- app_assoc in IH.
  - apply list.Forall_cons in Hops as [_ Hops]. unfold read_key.
    destruct (KEYBOARD_BUF s) as [|e q] eqn:Hq; cbn [fifo_run].
    + specialize (IH s past Hops Hm). by rewrite Hq in IH.
    + specialize (IH (set_buf q s) past Hops Hm). destruct (run ops (set_buf q s)) as [outs s'].
      destruct IH as (IH & IHm & IHe). cbn [KEYBOARD_BUF EXTENDED_KEY set_buf] in IH, IHm, IHe.
      by rewrite IH.
Qed.

(** ** The readers *)

Lemma get_char_loop fuel : forall s,
  (length (KEYBOARD_BUF s) < fuel)%nat ->
  match get_char fuel s with
  | (Ok (Some c), s') =>
      exists skipped e, KEYBOARD_BUF s = skipped ++ e :: KEYBOARD_BUF s' /\
        Forall (fun e => keyevent_to_char e = None) skipped /\ keyevent_to_char e = Some c
  | (Ok None, s') => Forall (fun e => keyevent_to_char e = None) (KEYBOARD_BUF s) /\ KEYBOARD_BUF s' = []
  | (Err _, _) => False
  end.
Proof.
  induction fuel as [|fuel IH]; intros s Hf; [lia|]. cbn [get_char].
  unfold mbind, stateE_bind, read_key. destruct (KEYBOARD_BUF s) as [|e rest] eqn:Hb.
  - split; [constructor|done].
  - cbn [length] in Hf. destruct (keyevent_to_char e) as [c|] eqn:Hc.
    + exists [], e. split; [done|]. split; [constructor|done].
    + specialize (IH (set_buf rest s) ltac:(cbn; lia)).
      destruct (get_char fuel (set_buf rest s)) as [[[c|]|er] s']; [| |done]; cbn [KEYBOARD_BUF set_buf] in IH.
      * destruct IH as (skipped & e' & -> & Hs & He). exists (e :: skipped), e'.
        split; [done|]. split; [by constructor|done].
      * destruct IH as [Hs He]. split; [by constructor|done].
Qed.

(** ** The layout of a US keyboard, by character codes *)

Definition letter_keys : list (KeyCode.t * nat) :=
  zip [KeyCode.A; KeyCode.B; KeyCode.C; KeyCode.D; KeyCode.E; KeyCode.F; KeyCode.G; KeyCode.H; KeyCode.I;
       KeyCode.J; KeyCode.K; KeyCode.L; KeyCode.M; KeyCode.N; KeyCode.O; KeyCode.P; KeyCode.Q; KeyCode.R;
       KeyCode.S; KeyCode.T; KeyCode.U; KeyCode.V; KeyCode.W; KeyCode.X; KeyCode.Y; KeyCode.Z] (seq 97 26).

Definition digit_keys : list (KeyCode.t * nat) :=
  zip [KeyCode.Key0; KeyCode.Key1; KeyCode.Key2; KeyCode.Key3; KeyCode.Key4; KeyCode.Key5; KeyCode.Key6;
       KeyCode.Key7; KeyCode.Key8; KeyCode.Key9] (seq 48 10).

Definition symbol_keys : list (KeyCode.t * nat) :=
  [(KeyCode.Minus, 45); (KeyCode.Equals, 61); (KeyCode.LeftBracket, 91); (KeyCode.RightBracket, 93);
   (KeyCode.Backslash, 92); (KeyCode.Semicolon, 59); (KeyCode.Quote, 39); (KeyCode.Grave, 96);
   (KeyCode.Comma, 44); (KeyCode.Period, 46); (KeyCode.Slash, 47)]%nat.

Definition keypad_keys : list (KeyCode.t * nat) :=
  zip [KeyCode.Keypad0; KeyCode.Keypad1; KeyCode.Keypad2; KeyCode.Keypad3; KeyCode.Keypad4;
       KeyCode.Keypad5; KeyCode.Keypad6; KeyCode.Keypad7; KeyCode.Keypad8; KeyCode.Keypad9] (seq 48 10) ++
  [(KeyCode.KeypadPlus, 43); (KeyCode.KeypadMinus, 45); (KeyCode.KeypadMultiply, 42);
   (KeyCode.KeypadDivide, 47); (KeyCode.KeypadEnter, 10); (KeyCode.KeypadPeriod, 46)]%nat.

Definition control_keys : list (KeyCode.t * nat) :=
  [(KeyCode.Space, 32); (KeyCode.Enter, 10); (KeyCode.Tab, 9); (KeyCode.Backspace, 8);
   (KeyCode.Escape, 27); (KeyCode.Delete, 127)]%nat.

(** Shift on the digit row and the symbols. *)
Definition us_shift : list (nat * nat) :=
  [(49, 33); (50, 64); (51, 35); (52, 36); (53, 37); (54, 94); (55, 38); (56, 42); (57, 40); (48, 41);
   (45, 95); (61, 43); (91, 123); (93, 125); (92, 124); (59, 58); (39, 34); (96, 126); (44, 60); (46, 62);
   (47, 63)]%nat.

(** A letter is upper case with one of Shift and Caps Lock, not both; Shift
    alone acts on digits and symbols; nothing acts on the other keys. *)
Definition layout (event : KeyEvent) : option nat :=
  if pressed event then
    match alookup (keycode event) letter_keys with
    | Some c => Some (if xorb (shift (modifiers event)) (caps_lock (modifiers event)) then c - 32 else c)%nat
    | None =>
        match alookup (keycode event) (digit_keys ++ symbol_keys) with
        | Some c => if shift (modifiers event) then alookup c us_shift else Some c
        | None => alookup (keycode event) (control_keys ++ keypad_keys)
        end
    end
  else None.

(** Every key has a code, and only one. *)
Definition all_strokes : list (bool * Z) :=
  (pair false <$> seqZ 0 0x80) ++ (pair true <$> seqZ 0 0x80).

Definition key_of (p : bool * Z) : KeyCode.t :=
  if fst p then extended_scancode_to_keycode (snd p) else scancode_to_keycode (snd p).

Definition strokes_of_key (k : KeyCode.t) : list (bool * Z) := filter (fun p => key_of p = k) all_strokes.

Lemma one_stroke_per_key :
  forallb (fun k => bool_decide (k = KeyCode.Unknown) || (length (strokes_of_key k) =? 1)%nat) KeyCode.all = true.
Proof. vm_compute. reflexivity. Qed.

Lemma elem_of_all_strokes p : p ∈ all_strokes <-> 0 <= snd p < 0x80.
Proof.
  destruct p as [e c]. unfold all_strokes. rewrite elem_of_app, !list_elem_of_fmap.
  setoid_rewrite elem_of_seqZ. cbn [snd]. split.
  - intros [(y & [= -> ->] & H)|(y & [= -> ->] & H)]; lia.
  - intros H. destruct e; [right|left]; exists c; (split; [done|lia]).
Qed.

(** ** A keyboard controller *)

(** The bytes it has not delivered yet; port 0x60 gives the next one. *)
#[export] Instance i8042 : Device (list Z) := {
  dev_in _ p l := if p =? 0x60 then match l with b :: l => (b, l) | [] => (0, []) end else (0, l);
  dev_out _ _ _ l := l;
  dev_rdmsr _ l := (0, l);
  dev_wrmsr _ _ l := l;
  dev_read _ l := (0, l);
  dev_write _ _ l := l;
  dev_cpuid _ := mkCpuid 0 0 0 0
}.

Fixpoint interrupts (n : nat) : stateE (Cpu (list Z) * KeyState) stop unit :=
  match n with
  | O => mret tt
  | Datatypes.S n => handle_interrupt;; interrupts n
  end.

(** With any device the handler makes one access: it reads port 0x60. *)
Lemma handle_interrupt_eq {D} `{Device D} c s :
  let (v, d) := dev_in 1 0x60 (dev c) in
  handle_interrupt (c, s) =
    let (r, s') := handle_byte (wrap 8 v) s in (r, (set_dev d (PortIn 1 0x60 (wrap 8 v)) c, s')).
Proof.
  unfold handle_interrupt, mbind, stateE_bind, on_fst, on_snd, inb, port_in. cbn [fst snd].
  by destruct (dev_in 1 0x60 (dev c)).
Qed.

Lemma interrupt_byte b l c s :
  0 <= b < 256 -> dev c = b :: l ->
  exists c', dev c' = l /\ handle_interrupt (c, s) = (Ok tt, (c', snd (handle_byte b s))).
Proof.
  intros Hb Hd. pose proof (handle_interrupt_eq c s) as H. rewrite Hd in H. cbn in H.
  rewrite wrap_small in H by lia. rewrite handle_byte_eq in * by done.
  eexists. split; [|exact H]. done.
Qed.

Lemma stroke_bytes_ok k : stroke_ok k -> 0 <= stroke_byte k < 256 /\ stroke_of (extended k) (stroke_byte k) = k.
Proof.
  intros [Hc Hne]. unfold stroke_byte, stroke_of in *. destruct k as [e c p]. cbn [extended code press] in *.
  destruct p; (split; [lia|]); f_equal.
  - rewrite Z.add_0_r. apply Z.mod_small. lia.
  - apply Z.ltb_lt. lia.
  - Z.div_mod_to_equations. lia.
  - apply Z.ltb_ge. lia.
Qed.

(** The one or two interrupts of a stroke. *)
Lemma interrupts_stroke k past l c s :
  stroke_ok k -> EXTENDED_KEY s = false -> MODIFIERS s = modifiers_after past ->
  dev c = stroke_bytes k ++ l ->
  exists c', dev c' = l /\ forall n,
    interrupts (length (stroke_bytes k) + n) (c, s) =
    interrupts n (c', mkKeyState (offer (event_after past k) (KEYBOARD_BUF s)) false (modifiers_after (past ++ [k]))).
Proof.
  intros Hk He Hm Hd. destruct (stroke_bytes_ok k Hk) as [Hb Hof]. pose proof Hk as [_ Hne].
  unfold stroke_bytes in *. destruct (extended k) eqn:Hext; cbn [app length Nat.add] in *.
  - destruct (interrupt_byte 0xE0 (stroke_byte k :: l) c s ltac:(lia) Hd) as (c1 & Hd1 & E1).
    destruct (interrupt_byte (stroke_byte k) l c1 (set_extended true s) Hb Hd1) as (c2 & Hd2 & E2).
    exists c2. split; [done|]. intros n. cbn [interrupts].
    rewrite (bind_ok _ _ _ _ _ E1). rewrite handle_byte_eq by lia. change (0xE0 =? 0xE0) with true.
    cbn [snd]. rewrite (bind_ok _ _ _ _ _ E2).
    rewrite (handle_byte_history (stroke_byte k) (set_extended true s) past) by done. cbn [EXTENDED_KEY set_extended snd].
    by rewrite Hof.
  - destruct (interrupt_byte (stroke_byte k) l c s Hb Hd) as (c2 & Hd2 & E2).
    exists c2. split; [done|]. intros n. cbn [interrupts]. rewrite (bind_ok _ _ _ _ _ E2).
    rewrite (handle_byte_history (stroke_byte k) s past) by done. by rewrite He, Hof.
Qed.

Lemma interrupts_strokes ks : forall past c s,
  Forall stroke_ok ks -> EXTENDED_KEY s = false -> MODIFIERS s = modifiers_after past ->
  dev c = mjoin (stroke_bytes <$> ks) ->
  exists c', dev c' = [] /\
    interrupts (length (mjoin (stroke_bytes <$> ks))) (c, s) =
    (Ok tt, (c', mkKeyState (fold_left (fun q e => offer e q) (events_after past ks) (KEYBOARD_BUF s)) false
                   (modifiers_after (past ++ ks)))).
Proof.
  induction ks as [|k ks IH]; intros past c s Hks He Hm Hd.
  - exists c. split; [done|]. cbn. rewrite app_nil_r, <- Hm, <- He. by destruct s.
  - change (mjoin (stroke_bytes <$> k :: ks)) with (stroke_bytes k ++ mjoin (stroke_bytes <$> ks)) in *.
    cbn [events_after fold_left]. apply list.Forall_cons in Hks as [Hk Hks].
    destruct (interrupts_stroke k past _ c s Hk He Hm Hd) as (c1 & Hd1 & E1).
    rewrite length_app, E1.
    destruct (IH (past ++ [k]) c1 (mkKeyState (offer (event_after past k) (KEYBOARD_BUF s)) false
                (modifiers_after (past ++ [k]))) Hks eq_refl eq_refl Hd1) as (c' & Hd' & E).
    exists c'. split; [done|]. rewrite E. by rewrite <- app_assoc.
Qed.

Lemma offers_take es : forall q, (length q <= KEYBOARD_CAP)%nat ->
  fold_left (fun q e => offer e q) es q = take KEYBOARD_CAP (q ++ es).
Proof.
  induction es as [|e es IH]; intros q Hq; cbn [fold_left].
  - by rewrite app_nil_r, take_ge.
  - rewrite IH by (by apply offer_cap). unfold offer. destruct (Nat.ltb_spec (length q) KEYBOARD_CAP).
    + by rewrite <- app_assoc.
    + by rewrite !take_app_le, !take_ge by lia.
Qed.

Lemma arrivals_events ops : forall p past,
  arrivals (abstract_ops p past ops) = events_after past (strokes p ops).
Proof.
  induction ops as [|[b|] ops IH]; intros p past; cbn [abstract_ops strokes]; [done| |apply IH].
  destruct (b =? 0xE0); [apply IH|].
  change (arrivals (?o :: ?l)) with (arrivals [o] ++ arrivals l). cbn. by rewrite <- IH.
Qed.

(** * Properties *)

(** C11: whatever bytes the interrupts bring and wherever reads come between
    them, the driver is a first-in first-out queue of 100 events: it returns and
    keeps what the abstract bounded queue does, the events are those of the
    strokes the bytes spell, with the modifiers their history gives; nothing is
    invented or reordered, and nothing is lost when at most 100 events arrive. *)
Theorem keyboard_refines_fifo (ops : list op) (Hops : Forall op_ok ops) :
  let aops := abstract_ops false [] ops in
  let (outs, s) := run ops initial in
  fifo_run aops [] = (outs, KEYBOARD_BUF s) /\
  MODIFIERS s = modifiers_after (strokes false ops) /\
  EXTENDED_KEY s = prefix_pending false ops /\
  arrivals aops = events_after [] (strokes false ops) /\
  (length (KEYBOARD_BUF s) <= KEYBOARD_CAP)%nat /\
  outs ++ KEYBOARD_BUF s `sublist_of` arrivals aops /\
  ((length (arrivals aops) <= KEYBOARD_CAP)%nat -> outs ++ KEYBOARD_BUF s = arrivals aops).
Proof.
  intros aops. pose proof (run_simulates ops initial [] Hops eq_refl) as H.
  pose proof (fifo_cap aops [] ltac:(cbn; lia)) as Hcap. pose proof (fifo_sublist aops []) as Hsub.
  pose proof (fifo_keeps aops []) as Hkeep.
  destruct (run ops initial) as [outs s]. destruct H as (H & Hm & He).
  change (fifo_run aops [] = (outs, KEYBOARD_BUF s)) in H. rewrite H in Hcap, Hsub, Hkeep.
  split_and!; try done. apply arrivals_events.
Qed.

(** From the controller to the queue: when the controller holds the bytes of
    the strokes [ks], one interrupt for each byte leaves the queue with their
    events, the first 100 of them, each with its key and the modifiers held and
    locked at that moment; the controller is empty and no prefix is pending. *)
Theorem keyboard_decodes (ks : list Stroke) (c : Cpu (list Z))
  (Hks : Forall stroke_ok ks) (Hc : dev c = mjoin (stroke_bytes <$> ks)) :
  exists c', dev c' = [] /\
    interrupts (length (dev c)) (c, initial) =
    (Ok tt, (c', mkKeyState (take KEYBOARD_CAP (events_after [] ks)) false (modifiers_after ks))).
Proof.
  rewrite Hc. destruct (interrupts_strokes ks [] c initial Hks eq_refl eq_refl Hc) as (c' & Hd & E).
  exists c'. split; [done|]. by rewrite E, offers_take by (cbn; lia).
Qed.

(** C31: [get_char] ends: one more iteration than there are events is enough. It
    removes the events up to the first that has a character, and returns that
    character; without one it empties the queue and returns [None] at once: it
    does not block. *)
Theorem get_char_correct (fuel : nat) (s : KeyState) (Hfuel : (length (KEYBOARD_BUF s) < fuel)%nat) :
  match get_char fuel s with
  | (Ok (Some c), s') =>
      exists skipped e, KEYBOARD_BUF s = skipped ++ e :: KEYBOARD_BUF s' /\
        Forall (fun e => keyevent_to_char e = None) skipped /\ keyevent_to_char e = Some c
  | (Ok None, s') => Forall (fun e => keyevent_to_char e = None) (KEYBOARD_BUF s) /\ KEYBOARD_BUF s' = []
  | (Err _, _) => False
  end.
Proof. by apply get_char_loop. Qed.

(** The two tables are a bijection: each key code but [Unknown] is that of
    exactly one code, plain or extended. *)
Theorem keycode_tables_bijective (k : KeyCode.t) (Hk : k <> KeyCode.Unknown) :
  exists e c, 0 <= c < 0x80 /\ key_of (e, c) = k /\
    forall e' c', 0 <= c' < 0x80 -> key_of (e', c') = k -> (e', c') = (e, c).
Proof.
  pose proof one_stroke_per_key as H. rewrite forallb_forall in H.
  specialize (H k (proj1 (list_elem_of_In _ _) (KeyCode.elem_of_all k))).
  rewrite bool_decide_eq_false_2 in H by done. cbn [orb] in H. apply Nat.eqb_eq in H.
  destruct (strokes_of_key k) as [|[e c] [|]] eqn:E; [done| |done].
  assert (forall p, p ∈ strokes_of_key k <-> key_of p = k /\ 0 <= snd p < 0x80) as Hin.
  { intros p. unfold strokes_of_key. by rewrite list_elem_of_filter, elem_of_all_strokes. }
  rewrite E in Hin. destruct (proj1 (Hin (e, c)) ltac:(left)) as [Hkey Hc].
  exists e, c. split; [done|]. split; [done|]. intros e' c' Hc' Hk'.
  by apply list_elem_of_singleton, Hin.
Qed.

(** C32: the characters are those of the US layout: the letters in upper case
    with one of Shift and Caps Lock, the digits and symbols shifted by Shift
    alone, the keypad and the control characters whatever the modifiers; Control,
    Alt and Num Lock change nothing, and a release has no character. *)
Theorem keyevent_to_char_layout (event : KeyEvent) :
  nat_of_ascii <$> keyevent_to_char event = layout event.
Proof. destruct event as [sc k [[] ct al [] nl] []]; by destruct k. Qed.

(** Releasing one of the two Shift keys turns Shift off, the other still held. *)
Lemma shift_off_while_held :
  let s := run [Irq 0x2A; Irq 0x36; Irq 0xB6; Irq 0x1E] initial in
  shift (MODIFIERS (snd s)) = false /\
  (e ← list.last (KEYBOARD_BUF (snd s)); keyevent_to_char e) = Some "a"%char.
Proof. split; reflexivity. Qed.

(** The Pause key (E1 1D 45 E1 9D C5) turns Num Lock on: 0xE1 is not taken for a
    prefix. *)
Lemma pause_is_num_lock :
  num_lock (MODIFIERS (snd (run [Irq 0xE1; Irq 0x1D; Irq 0x45; Irq 0xE1; Irq 0x9D; Irq 0xC5] initial))) = true.
Proof. reflexivity. Qed.

(** * Witnesses *)

(** Shift, A, a read, the extended Up. *)
Definition some_ops : list op := [Irq 0x2A; Irq 0x1E; Read; Irq 0xE0; Irq 0x48; Read].

Lemma keyboard_refines_fifo_witness :
  keycode <$> fst (run some_ops initial) = [KeyCode.LeftShift; KeyCode.A] /\
  keycode <$> KEYBOARD_BUF (snd (run some_ops initial)) = [KeyCode.Up] /\
  fst (run some_ops initial) ++ KEYBOARD_BUF (snd (run some_ops initial)) =
    arrivals (abstract_ops false [] some_ops).
Proof.
  split; [reflexivity|]. split; [reflexivity|].
  apply (keyboard_refines_fifo some_ops ltac:(forall_cases ltac:(cbn; lia))). cbn. unfold KEYBOARD_CAP. lia.
Defined.

Definition some_strokes : list Stroke :=
  [mkStroke false 0x2A true; mkStroke false 0x1E true; mkStroke true 0x48 true; mkStroke true 0x48 false].

Lemma keyboard_decodes_witness :
  exists c', interrupts 6 (mkCpu [0x2A; 0x1E; 0xE0; 0x48; 0xE0; 0xC8] [] 2 0 0 0 0 0, initial) =
    (Ok tt, (c', mkKeyState (events_after [] some_strokes) false (modifiers_after some_strokes))).
Proof.
  destruct (keyboard_decodes some_strokes (mkCpu [0x2A; 0x1E; 0xE0; 0x48; 0xE0; 0xC8] [] 2 0 0 0 0 0)
              ltac:(forall_cases ltac:(split; [cbn; lia|by vm_compute])) eq_refl) as (c' & _ & E).
  exists c'. exact E.
Defined.

Lemma get_char_correct_witness :
  exists s', get_char 3 (snd (run [Irq 0x2A; Irq 0x1E] initial)) = (Ok (Some "A"%char), s') /\ KEYBOARD_BUF s' = [].
Proof.
  pose proof (get_char_correct 3 (snd (run [Irq 0x2A; Irq 0x1E] initial)) ltac:(vm_compute; lia)) as H.
  eexists. split; [reflexivity|]. destruct H as (skipped & e & _). reflexivity.
Defined.

Lemma keycode_tables_bijective_witness :
  exists e c, 0 <= c < 0x80 /\ key_of (e, c) = KeyCode.KeypadEnter.
Proof.
  destruct (keycode_tables_bijective KeyCode.KeypadEnter ltac:(discriminate)) as (e & c & Hc & Hk & _).
  by exists e, c.
Defined.
