(* ===== verification/Idt.v ===== *)
(** [kernel/src/arch/x86_64/idt.rs]: the gates, the table and the interrupt
    controllers.

    The addresses of the stubs are a parameter, for the linker chooses them; the
    code of the stubs is in the file [Stubs], that of the functions they call in
    [Handlers].  What the processor reads in a
    gate and what an 8259 controller does with the bytes it is sent are written
    here after their manuals. *)
From S2P Require Import Prelude Ram Gdt Cpu Keyboard.
From stdpp Require Import base numbers list gmap strings tactics.
From Stdlib Require Import ZArith Lia.
Open Scope Z_scope.
Open Scope word_scope.

(** * Gates *)

Inductive GateType : Type := Interrupt | Trap.

Definition gate_type_bits (t : GateType) : Z := match t with Interrupt => 0xE | Trap => 0xF end.

Record IdtEntry : Type := mkIdtEntry {
  offset_low : Z;
  selector : Z;
  ist : Z;
  type_attr : Z;
  offset_mid : Z;
  offset_high : Z;
  reserved : Z
}.

Definition idt_entry_null : IdtEntry := mkIdtEntry 0 0 0 0 0 0 0.

Definition idt_entry_new (handler selector ist : Z) (gate_type : GateType) (dpl : Z) : IdtEntry :=
  mkIdtEntry
    (wrap 16 (Z.land handler 0xFFFF))
    selector
    ist
    (Z.lor (Z.lor (Z.shiftl 1 7) (wrap 8 (Z.shiftl (Z.land dpl 3) 5))) (gate_type_bits gate_type))
    (wrap 16 (Z.land (Z.shiftr handler 16) 0xFFFF))
    (wrap 32 (Z.land (Z.shiftr handler 32) 0xFFFFFFFF))
    0.

Definition set_handler (handler : Z) (e : IdtEntry) : IdtEntry :=
  mkIdtEntry
    (wrap 16 (Z.land handler 0xFFFF))
    KERNEL_CODE_SELECTOR
    (ist e)
    (Z.lor (Z.shiftl 1 7) (gate_type_bits Interrupt))
    (wrap 16 (Z.land (Z.shiftr handler 16) 0xFFFF))
    (wrap 32 (Z.land (Z.shiftr handler 32) 0xFFFFFFFF))
    (reserved e).

Definition idt_entry_bytes (e : IdtEntry) : list Z :=
  enc 2 (offset_low e) ++ enc 2 (selector e) ++ enc 1 (ist e) ++ enc 1 (type_attr e) ++
  enc 2 (offset_mid e) ++ enc 4 (offset_high e) ++ enc 4 (reserved e).

(** * The table *)

(** The stubs. *)
Inductive stub : Type :=
| divide_error | debug | nmi | breakpoint | overflow | bound_range | invalid_opcode
| device_not_available | double_fault | invalid_tss | segment_not_present | stack_segment
| general_protection | page_fault | x87_fp_exception | alignment_check | machine_check
| simd_fp_exception | virtualization
| irq_stub (irq : Z)
| syscall_handler.

#[export] Instance stub_eq_dec : EqDecision stub.
Proof. solve_decision. Defined.

Definition IDT : list IdtEntry := replicate 256 idt_entry_null.

(** [size_of::<Idt>()]: 256 entries of 16 bytes *)
Definition IDT_SIZE : Z := 4096.

Definition idt_bytes (t : list IdtEntry) : list Z := mjoin (idt_entry_bytes <$> t).

Section table.
Context (addr : stub -> Z).

(** [IDT.entries[v].set_handler(s)] *)
Definition set (v : nat) (s : stub) (t : list IdtEntry) : list IdtEntry := alter (set_handler (addr s)) v t.

(** The assignments of [init], the oldest first. *)
Definition exception_gates (t : list IdtEntry) : list IdtEntry :=
  let t := set 0 divide_error t in
  let t := set 1 debug t in
  let t := set 2 nmi t in
  let t := set 3 breakpoint t in
  let t := set 4 overflow t in
  let t := set 5 bound_range t in
  let t := set 6 invalid_opcode t in
  let t := set 7 device_not_available t in
  let t := <[8%nat := idt_entry_new (addr double_fault) KERNEL_CODE_SELECTOR 1 Interrupt 0]> t in
  let t := set 10 invalid_tss t in
  let t := set 11 segment_not_present t in
  let t := set 12 stack_segment t in
  let t := set 13 general_protection t in
  let t := set 14 page_fault t in
  let t := set 16 x87_fp_exception t in
  let t := set 17 alignment_check t in
  let t := set 18 machine_check t in
  let t := set 19 simd_fp_exception t in
  set 20 virtualization t.

Definition irq_gates (t : list IdtEntry) : list IdtEntry :=
  let t := set 32 (irq_stub 0) t in
  let t := set 33 (irq_stub 1) t in
  let t := set 34 (irq_stub 2) t in
  let t := set 35 (irq_stub 3) t in
  let t := set 36 (irq_stub 4) t in
  let t := set 37 (irq_stub 5) t in
  let t := set 38 (irq_stub 6) t in
  let t := set 39 (irq_stub 7) t in
  let t := set 40 (irq_stub 8) t in
  let t := set 41 (irq_stub 9) t in
  let t := set 42 (irq_stub 10) t in
  let t := set 43 (irq_stub 11) t in
  let t := set 44 (irq_stub 12) t in
  let t := set 45 (irq_stub 13) t in
  let t := set 46 (irq_stub 14) t in
  set 47 (irq_stub 15) t.

Definition init_table (t : list IdtEntry) : list IdtEntry :=
  let t := exception_gates t in
  let t := irq_gates t in
  <[0x80%nat := idt_entry_new (addr syscall_handler) KERNEL_CODE_SELECTOR 0 Trap 3]> t.
End table.

(** The table, and the register [lidt] loads. *)
Record IdtState : Type := mkIdtState {
  idt : list IdtEntry;
  idtr_limit : Z;
  idtr_base : Z
}.

(** * The interrupt controllers *)

Definition PIC1_CMD : Z := 0x20.
Definition PIC1_DATA : Z := 0x21.
Definition PIC2_CMD : Z := 0xA0.
Definition PIC2_DATA : Z := 0xA1.

Section pic.
Context {D : Type} {DEV : Device D}.
Abbreviation M := (stateE (Cpu D) stop).

Definition init_pic : M unit :=
  _mask1 ← inb PIC1_DATA;
  _mask2 ← inb PIC2_DATA;
  outb PIC1_CMD 0x11;;
  outb PIC2_CMD 0x11;;
  outb PIC1_DATA 0x20;;
  outb PIC2_DATA 0x28;;
  outb PIC1_DATA 0x04;;
  outb PIC2_DATA 0x02;;
  outb PIC1_DATA 0x01;;
  outb PIC2_DATA 0x01;;
  outb PIC1_DATA 0x00;;
  outb PIC2_DATA 0x00.

Definition send_eoi (irq : Z) : M unit :=
  (if 8 <=? irq then outb PIC2_CMD 0x20 else mret tt);;
  outb PIC1_CMD 0x20.

(** [idt::init], the IDT at [base]. *)
Definition init (addr : stub -> Z) (base : Z) : stateE (Cpu D * IdtState) stop unit :=
  on_snd (modify (fun s => mkIdtState (init_table addr (idt s)) (idtr_limit s) (idtr_base s)));;
  on_snd (modify (fun s => mkIdtState (idt s) (wrap 16 (IDT_SIZE - 1)) base));;
  on_fst init_pic.

End pic.

(** * The hardware's reading of a gate *)

Record gate : Type := mkGate {
  gate_offset : Z;
  gate_selector : Z;
  gate_ist : Z;
  gate_type : Z;
  gate_dpl : Z;
  gate_present : bool
}.

Definition read_gate (m : ram) (a : Z) : gate :=
  mkGate (rd16 m a + 2 ^ 16 * rd16 m (a + 6) + 2 ^ 32 * rd32 m (a + 8))
    (rd16 m (a + 2))
    (rd8 m (a + 4) mod 8)
    (rd8 m (a + 5) mod 16)
    (rd8 m (a + 5) / 32 mod 4)
    (Z.testbit (rd8 m (a + 5)) 7).

(** * The hardware's events *)

(** The vectors of the exceptions, and which of them push an error code. *)
Definition exceptions : list (Z * (stub * bool)) :=
  [(0, (divide_error, false)); (1, (debug, false)); (2, (nmi, false)); (3, (breakpoint, false));
   (4, (overflow, false)); (5, (bound_range, false)); (6, (invalid_opcode, false));
   (7, (device_not_available, false)); (8, (double_fault, true)); (10, (invalid_tss, true));
   (11, (segment_not_present, true)); (12, (stack_segment, true)); (13, (general_protection, true));
   (14, (page_fault, true)); (16, (x87_fp_exception, false)); (17, (alignment_check, true));
   (18, (machine_check, false)); (19, (simd_fp_exception, false)); (20, (virtualization, false))].

(** What is behind a vector: the stub, its interrupt stack, its gate and the
    privilege that may call it. *)
Definition installed (v : Z) : option (stub * Z * GateType * Z) :=
  if v =? 0x80 then Some (syscall_handler, 0, Trap, 3)
  else if (32 <=? v) && (v <? 48) then Some (irq_stub (v - 32), 0, Interrupt, 0)
  else
    match alookup v exceptions with
    | Some (s, _) => Some (s, if v =? 8 then 1 else 0, Interrupt, 0)
    | None => None
    end.

(** ** The 8259 controllers *)

(** One controller: the initialisation word it waits for (0 when it runs), and
    its registers. *)
Record Pic : Type := mkPic {
  expects : Z;
  needs_icw4 : bool;
  offset : Z;
  cascade : Z;
  mask : Z;
  in_service : Z
}.

(** The end of interrupt: the most urgent line in service, the lowest, is done. *)
Definition eoi (isr : Z) : Z :=
  match list_find (fun n => Z.testbit isr n = true) (seqZ 0 8) with
  | Some (_, n) => Z.clearbit isr n
  | None => isr
  end.

Definition pic_cmd (v : Z) (p : Pic) : Pic :=
  if Z.testbit v 4 then mkPic 2 (Z.testbit v 0) (offset p) (cascade p) 0 0
  else if v =? 0x20 then mkPic (expects p) (needs_icw4 p) (offset p) (cascade p) (mask p) (eoi (in_service p))
  else p.

Definition pic_data (v : Z) (p : Pic) : Pic :=
  match expects p with
  | 2 => mkPic 3 (needs_icw4 p) (v / 8 * 8) (cascade p) (mask p) (in_service p)
  | 3 => mkPic (if needs_icw4 p then 4 else 0) (needs_icw4 p) (offset p) v (mask p) (in_service p)
  | 4 => mkPic 0 (needs_icw4 p) (offset p) (cascade p) (mask p) (in_service p)
  | _ => mkPic 0 (needs_icw4 p) (offset p) (cascade p) v (in_service p)
  end.

(** The pair of a PC: the master and the slave on its line 2. *)
Record Pics : Type := mkPics { master : Pic; slave : Pic }.

Definition pics_out (p v : Z) (s : Pics) : Pics :=
  if p =? PIC1_CMD then mkPics (pic_cmd v (master s)) (slave s)
  else if p =? PIC1_DATA then mkPics (pic_data v (master s)) (slave s)
  else if p =? PIC2_CMD then mkPics (master s) (pic_cmd v (slave s))
  else if p =? PIC2_DATA then mkPics (master s) (pic_data v (slave s))
  else s.

#[export] Instance i8259 : Device Pics := {
  dev_in _ p s := (if p =? PIC1_DATA then mask (master s) else if p =? PIC2_DATA then mask (slave s) else 0, s);
  dev_out _ p v s := pics_out p v s;
  dev_rdmsr _ s := (0, s);
  dev_wrmsr _ _ s := s;
  dev_read _ s := (0, s);
  dev_write _ _ s := s;
  dev_cpuid _ := mkCpuid 0 0 0 0
}.

(** Line [irq] of the pair is acknowledged: the vector, and the lines that are
    then in service; [None] when it is masked or the pair is not initialised. *)
Definition raise (irq : Z) (s : Pics) : option (Z * Pics) :=
  let m := master s in
  let sl := slave s in
  if negb ((expects m =? 0) && (expects sl =? 0)) then None
  else if irq <? 8 then
    if Z.testbit (mask m) irq then None
    else Some (offset m + irq,
               mkPics (mkPic 0 (needs_icw4 m) (offset m) (cascade m) (mask m) (Z.setbit (in_service m) irq)) sl)
  else if Z.testbit (mask m) 2 || Z.testbit (mask sl) (irq - 8) || negb (cascade m =? 4) || negb (cascade sl =? 2)
  then None
  else Some (offset sl + (irq - 8),
             mkPics (mkPic 0 (needs_icw4 m) (offset m) (cascade m) (mask m) (Z.setbit (in_service m) 2))
               (mkPic 0 (needs_icw4 sl) (offset sl) (cascade sl) (mask sl)
                  (Z.setbit (in_service sl) (irq - 8)))).

(** * Facts *)

(** ** The bytes of the table *)

Lemma drop_mjoin {A} n (ls : list (list A)) : Forall (fun l => length l = n) ls ->
  forall k l, ls !! k = Some l -> drop (k * n) (mjoin ls) = l ++ mjoin (drop (S k) ls).
Proof.
  induction 1 as [|l0 ls Hl0 Hls IH]; intros [|k] l Hk; try done.
  - by injection Hk as ->.
  - cbn [Nat.mul]. change (mjoin (l0 :: ls)) with (l0 ++ mjoin ls).
    rewrite <- drop_drop, drop_app_length' by done. by apply IH.
Qed.

Lemma idt_entry_bytes_length e : length (idt_entry_bytes e) = 16%nat.
Proof. unfold idt_entry_bytes. by rewrite !length_app, !enc_length. Qed.

Lemma idt_entry_bytes_range e : Forall (fun b => 0 <= b < 256) (idt_entry_bytes e).
Proof. unfold idt_entry_bytes. auto 30 with bytes. Qed.

Lemma idt_bytes_range t : Forall (fun b => 0 <= b < 256) (idt_bytes t).
Proof.
  induction t as [|e t IH]; [apply list.Forall_nil_2|].
  apply Forall_app_2; [apply idt_entry_bytes_range|exact IH].
Qed.

Lemma idt_bytes_length t : length (idt_bytes t) = (16 * length t)%nat.
Proof.
  induction t as [|e t IH]; [done|]. change (idt_bytes (e :: t)) with (idt_entry_bytes e ++ idt_bytes t).
  rewrite length_app, idt_entry_bytes_length, IH. cbn [length]. lia.
Qed.

(** A field of entry [v], read in memory. *)
Lemma rd_idt_entry t m a v e n k :
  t !! v = Some e -> (k + n <= 16)%nat ->
  rd n (copy_bytes (idt_bytes t) m a) (a + 16 * Z.of_nat v + Z.of_nat k) =
    dec (take n (drop k (idt_entry_bytes e))).
Proof.
  intros Hv Hk. pose proof (lookup_lt_Some _ _ _ Hv).
  replace (a + 16 * Z.of_nat v + Z.of_nat k) with (a + Z.of_nat (v * 16 + k)) by lia.
  rewrite rd_copy_bytes by (apply idt_bytes_range || (rewrite idt_bytes_length; lia)).
  f_equal. rewrite <- drop_drop. unfold idt_bytes. erewrite (drop_mjoin 16 (idt_entry_bytes <$> t)); [| |by rewrite list_lookup_fmap, Hv].
  - pose proof (idt_entry_bytes_length e). rewrite drop_app_le by lia.
    rewrite take_app_le by (rewrite length_drop; lia). done.
  - apply Forall_fmap, Forall_true. intros e'. apply idt_entry_bytes_length.
Qed.

(** ** The fields of a gate *)

Lemma type_attr_fields t dpl :
  0 <= dpl < 4 ->
  let x := Z.lor (Z.lor (Z.shiftl 1 7) (wrap 8 (Z.shiftl (Z.land dpl 3) 5))) (gate_type_bits t) in
  0 <= x < 256 /\ x mod 16 = gate_type_bits t /\ x / 32 mod 4 = dpl /\ Z.testbit x 7 = true.
Proof.
  intros Hd. assert (dpl = 0 \/ dpl = 1 \/ dpl = 2 \/ dpl = 3) as [-> | [-> | [-> | ->]]] by lia;
    destruct t; vm_compute; (split; [split; congruence|done]).
Qed.

Lemma offset_parts h : 0 <= h < 2 ^ 64 ->
  wrap 16 (Z.land h 0xFFFF) mod 2 ^ 16 + 2 ^ 16 * (wrap 16 (Z.land (Z.shiftr h 16) 0xFFFF) mod 2 ^ 16) +
  2 ^ 32 * (wrap 32 (Z.land (Z.shiftr h 32) 0xFFFFFFFF) mod 2 ^ 32) = h.
Proof.
  intros Hh. change 0xFFFF with (Z.ones 16). change 0xFFFFFFFF with (Z.ones 32).
  rewrite !land_low, !Z.shiftr_div_pow2, !Z.mod_mod by lia. Z.div_mod_to_equations. lia.
Qed.

Lemma read_gate_new t m a v h sel i ty dpl :
  t !! v = Some (idt_entry_new h sel i ty dpl) ->
  0 <= h < 2 ^ 64 -> 0 <= sel < 2 ^ 16 -> 0 <= i < 8 -> 0 <= dpl < 4 ->
  read_gate (copy_bytes (idt_bytes t) m a) (a + 16 * Z.of_nat v) = mkGate h sel i (gate_type_bits ty) dpl true.
Proof.
  intros Hv Hh Hsel Hi Hdpl. destruct (type_attr_fields ty dpl Hdpl) as (Hx & Hty & Hdp & Hp).
  set (mm := copy_bytes _ _ _). set (b := a + _).
  assert (forall n k z x, (k + n <= 16)%nat -> z = b + Z.of_nat k ->
            take n (drop k (idt_entry_bytes (idt_entry_new h sel i ty dpl))) = enc n x ->
            rd n mm z = x mod 256 ^ Z.of_nat n) as Hrd.
  { intros n k z x Hk -> Hb. unfold mm, b. rewrite (rd_idt_entry _ _ _ _ _ _ _ Hv Hk), Hb. apply dec_enc. }
  assert (forall z, rd8 mm z = rd 1 mm z) as Hrd8 by (intros z; cbn [rd]; lia).
  unfold read_gate, rd16, rd32. rewrite !Hrd8.
  rewrite (Hrd 2%nat 0%nat b _ ltac:(lia) ltac:(lia) eq_refl),
    (Hrd 2%nat 6%nat (b + 6) _ ltac:(lia) eq_refl eq_refl),
    (Hrd 4%nat 8%nat (b + 8) _ ltac:(lia) eq_refl eq_refl),
    (Hrd 2%nat 2%nat (b + 2) _ ltac:(lia) eq_refl eq_refl),
    (Hrd 1%nat 4%nat (b + 4) _ ltac:(lia) eq_refl eq_refl),
    (Hrd 1%nat 5%nat (b + 5) _ ltac:(lia) eq_refl eq_refl).
  cbn [offset_low selector ist type_attr offset_mid offset_high idt_entry_new].
  change (256 ^ Z.of_nat 2) with (2 ^ 16). change (256 ^ Z.of_nat 4) with (2 ^ 32).
  change (256 ^ Z.of_nat 1) with 256. rewrite offset_parts by done.
  rewrite (Z.mod_small sel), (Z.mod_small i 256), (Z.mod_small i 8) by lia.
  rewrite (Z.mod_small (Z.lor _ _) 256) by exact Hx. by rewrite Hty, Hdp, Hp.
Qed.

(** ** The table *)

Definition entry_for (addr : stub -> Z) (v : Z) : IdtEntry :=
  match installed v with
  | Some (s, i, ty, dpl) => idt_entry_new (addr s) KERNEL_CODE_SELECTOR i ty dpl
  | None => idt_entry_null
  end.

Lemma init_table_eq addr : init_table addr IDT = (fun v => entry_for addr (Z.of_nat v)) <$> seq 0 256.
Proof. reflexivity. Qed.

Lemma init_table_lookup addr v : 0 <= v < 256 -> init_table addr IDT !! Z.to_nat v = Some (entry_for addr v).
Proof.
  intros Hv. rewrite init_table_eq, list_lookup_fmap, lookup_seq_lt by lia. cbn [fmap option_fmap option_map].
  do 2 f_equal. lia.
Qed.

Lemma installed_ranges v s i ty dpl : installed v = Some (s, i, ty, dpl) -> 0 <= i < 8 /\ 0 <= dpl < 4.
Proof.
  unfold installed. destruct (v =? 0x80); [intros [= <- <- <- <-]; lia|].
  destruct ((32 <=? v) && (v <? 48)); [intros [= <- <- <- <-]; lia|].
  destruct (alookup v exceptions) as [[? ?]|]; [|done]. destruct (v =? 8); intros [= <- <- <- <-]; lia.
Qed.

(** ** The controllers *)

Section pic_facts.
Context {D : Type} {DEV : Device D}.

(** The accesses of [init_pic], with any device behind the ports. *)
Definition pic_accesses (mask1 mask2 : Z) : list Cpu.access :=
  [PortIn 1 0x21 mask1; PortIn 1 0xA1 mask2; PortOut 1 0x20 0x11; PortOut 1 0xA0 0x11;
   PortOut 1 0x21 0x20; PortOut 1 0xA1 0x28; PortOut 1 0x21 4; PortOut 1 0xA1 2;
   PortOut 1 0x21 1; PortOut 1 0xA1 1; PortOut 1 0x21 0; PortOut 1 0xA1 0].

Lemma init_pic_ok (c : Cpu D) :
  exists c' m1 m2, init_pic c = (Ok tt, c') /\ accesses c' = accesses c ++ pic_accesses m1 m2.
Proof.
  unfold init_pic, mbind, stateE_bind, inb, outb, port_in, port_out.
  destruct (dev_in 1 PIC1_DATA (dev c)) as [m1 d1]. cbn [dev set_dev].
  destruct (dev_in 1 PIC2_DATA d1) as [m2 d2].
  eexists _, (wrap 8 m1), (wrap 8 m2). split; [reflexivity|].
  cbn [accesses set_dev]. by rewrite <- !app_assoc.
Qed.

Definition eoi_accesses (irq : Z) : list Cpu.access :=
  (if 8 <=? irq then [PortOut 1 0xA0 0x20] else []) ++ [PortOut 1 0x20 0x20].

Lemma send_eoi_ok (irq : Z) (c : Cpu D) :
  exists c', send_eoi irq c = (Ok tt, c') /\ accesses c' = accesses c ++ eoi_accesses irq.
Proof.
  unfold send_eoi, eoi_accesses, mbind, stateE_bind, mret, stateE_ret, outb, port_out.
  destruct (8 <=? irq); eexists; (split; [reflexivity|]); cbn [accesses set_dev];
    rewrite <- ?app_assoc; done.
Qed.

End pic_facts.

(** The pair after [init_pic]. *)
Definition running_pics : Pics := mkPics (mkPic 0 true 0x20 4 0 0) (mkPic 0 true 0x28 2 0 0).

Lemma init_pic_running (c : Cpu Pics) :
  exists c', init_pic c = (Ok tt, c') /\ dev c' = running_pics.
Proof.
  destruct c as [[[e1 i1 o1 c1 m1 s1] [e2 i2 o2 c2 m2 s2]] a f x0 x2 x3 x4 h].
  eexists. split; reflexivity.
Qed.

(** A line of the running pair: its vector, and the end of interrupt. *)
Definition serviced (irq : Z) : bool :=
  match raise irq running_pics with
  | Some (v, p) =>
      (v =? 32 + irq) &&
      match installed v with
      | Some (irq_stub i, 0, Interrupt, 0) => i =? irq
      | _ => false
      end
  | None => false
  end.

Lemma lines_serviced : forallb serviced (seqZ 0 16) = true.
Proof. reflexivity. Qed.

Lemma line_ended irq p v (c : Cpu Pics) :
  0 <= irq < 16 -> raise irq running_pics = Some (v, p) -> dev c = p ->
  exists c', send_eoi irq c = (Ok tt, c') /\ dev c' = running_pics.
Proof.
  intros Hirq Hr Hc. destruct c as [d a f x0 x2 x3 x4 h]. cbn in Hc. subst d.
  assert (irq ∈ seqZ 0 16) as Hin by (apply elem_of_seqZ; lia).
  cbn in Hin. repeat (apply elem_of_cons in Hin as [->|Hin]; [vm_compute in Hr; injection Hr as <- <-;
    eexists; split; reflexivity|]). by apply not_elem_of_nil in Hin.
Qed.

(** What [idt::init] leaves. *)
Lemma idt_init_spec {D} `{Device D} (addr : stub -> Z) (base : Z) (c : Cpu D) (s : IdtState) (m : ram)
  (Haddr : forall x, 0 <= addr x < 2 ^ 64) (Hidt : idt s = IDT) :
  exists c' s' m1 m2,
    init addr base (c, s) = (Ok tt, (c', s')) /\ accesses c' = accesses c ++ pic_accesses m1 m2 /\
    idtr_base s' = base /\ idtr_limit s' + 1 = Z.of_nat (length (idt_bytes (idt s'))) /\
    forall v, 0 <= v < 256 ->
      let g := read_gate (copy_bytes (idt_bytes (idt s')) m base) (idtr_base s' + 16 * v) in
      match installed v with
      | Some (x, i, ty, dpl) => g = mkGate (addr x) KERNEL_CODE_SELECTOR i (gate_type_bits ty) dpl true
      | None => gate_present g = false
      end.
Proof.
  destruct (init_pic_ok c) as (c' & m1 & m2 & Ep & Ha).
  exists c', (mkIdtState (init_table addr (idt s)) 4095 base), m1, m2.
  split.
  { unfold init, mbind, stateE_bind, on_snd, on_fst, modify. cbn [fst snd idt]. by rewrite Ep. }
  split; [done|]. split; [done|]. cbn [idt idtr_limit idtr_base]. rewrite Hidt. split.
  { rewrite idt_bytes_length, init_table_eq, length_fmap, length_seq. reflexivity. }
  intros v Hv. pose proof (init_table_lookup addr v Hv) as Hl.
  unfold entry_for in Hl. generalize dependent (init_table addr IDT). intros t Hl.
  destruct (installed v) as [[[[x i] ty] dpl]|] eqn:Hi.
  - destruct (installed_ranges v x i ty dpl Hi).
    pose proof (read_gate_new t m base (Z.to_nat v) (addr x) KERNEL_CODE_SELECTOR i ty dpl Hl (Haddr x)
                  ltac:(unfold KERNEL_CODE_SELECTOR; lia) ltac:(done) ltac:(done)) as Hg.
    by rewrite Z2Nat.id in Hg by lia.
  - unfold read_gate. cbn [gate_present].
    pose proof (rd_idt_entry t m base (Z.to_nat v) idt_entry_null 1 5 Hl ltac:(lia)) as Hr.
    rewrite Z2Nat.id in Hr by lia. cbn [rd] in Hr. change (Z.of_nat 5) with 5 in Hr.
    rewrite Z.mul_0_r, Z.add_0_r in Hr. by rewrite Hr.
Qed.

(** * Properties *)

(** C13: after [idt::init] the processor finds behind each of the 256 vectors what
    the table [installed] says, by its own reading of the 16 bytes at the IDTR's
    base: the exceptions of the manual with their stubs, the double fault on the
    first interrupt stack, the sixteen lines at vectors 32 to 47, the system
    call at 0x80 callable from ring 3 with interrupts left on; every other
    vector is not present. All gates select the kernel code segment. *)
Theorem idt_init_correct {D} `{Device D} (addr : stub -> Z) (base : Z) (c : Cpu D) (s : IdtState) (m : ram)
  (Haddr : forall x, 0 <= addr x < 2 ^ 64) (Hidt : idt s = IDT) :
  exists c' s' m1 m2,
    init addr base (c, s) = (Ok tt, (c', s')) /\ accesses c' = accesses c ++ pic_accesses m1 m2 /\
    idtr_base s' = base /\ idtr_limit s' + 1 = Z.of_nat (length (idt_bytes (idt s'))) /\
    forall v, 0 <= v < 256 ->
      let g := read_gate (copy_bytes (idt_bytes (idt s')) m base) (idtr_base s' + 16 * v) in
      match installed v with
      | Some (x, i, ty, dpl) => g = mkGate (addr x) KERNEL_CODE_SELECTOR i (gate_type_bits ty) dpl true
      | None => gate_present g = false
      end.
Proof. exact (idt_init_spec addr base c s m Haddr Hidt). Qed.

(** The hardware interrupts reach their handlers: [init_pic] brings a pair of
    8259 controllers, whatever its state, to run with no line masked, and then
    line [irq] raises vector [32 + irq], behind which is the stub of [irq]; the
    end of interrupt the handler sends for it leaves no line in service, on the
    slave or on the master. *)
Theorem irq_route_correct (c : Cpu Pics) (irq : Z) (Hirq : 0 <= irq < 16) :
  exists c1 p,
    init_pic c = (Ok tt, c1) /\
    raise irq (dev c1) = Some (32 + irq, p) /\
    installed (32 + irq) = Some (irq_stub irq, 0, Interrupt, 0) /\
    forall c2, dev c2 = p -> exists c3, send_eoi irq c2 = (Ok tt, c3) /\ dev c3 = dev c1 /\
      in_service (master (dev c3)) = 0 /\ in_service (slave (dev c3)) = 0.
Proof.
  destruct (init_pic_running c) as (c1 & E & Hd). pose proof lines_serviced as Hs.
  rewrite forallb_forall in Hs.
  specialize (Hs irq (proj1 (list_elem_of_In _ _) (proj2 (elem_of_seqZ 0 16 irq) ltac:(lia)))).
  unfold serviced in Hs. destruct (raise irq running_pics) as [[v p]|] eqn:Hr; [|done].
  apply andb_prop in Hs as [Hv Hi]. apply Z.eqb_eq in Hv. subst v.
  exists c1, p. split; [done|]. rewrite Hd. split; [done|]. split.
  - destruct (installed (32 + irq)) as [[[[[] [| |]] []] [| |]]|]; try done. apply Z.eqb_eq in Hi. by subst.
  - intros c2 Hc2. destruct (line_ended irq p (32 + irq) c2 Hirq Hr Hc2) as (c3 & E3 & Hd3).
    exists c3. by rewrite Hd3.
Qed.


(** * Witnesses *)

Lemma idt_init_correct_witness :
  exists c' s', init (fun _ => 0xFFFFFFFF80001000) 0x5000 (mkCpu tt [] 2 0 0 0 0 0, mkIdtState IDT 0 0) =
      (Ok tt, (c', s')) /\
    read_gate (copy_bytes (idt_bytes (idt s')) ∅ 0x5000) (0x5000 + 16 * 8) =
      mkGate 0xFFFFFFFF80001000 8 1 0xE 0 true.
Proof.
  destruct (idt_init_correct (fun _ => 0xFFFFFFFF80001000) 0x5000 (mkCpu tt [] 2 0 0 0 0 0) (mkIdtState IDT 0 0) ∅
              ltac:(intros; lia) eq_refl) as (c' & s' & m1 & m2 & E & _ & Hb & _ & Hg).
  exists c', s'. split; [exact E|]. rewrite <- Hb at 2. exact (Hg 8 ltac:(lia)).
Defined.

Lemma irq_route_correct_witness :
  exists c1 p, init_pic (mkCpu (mkPics (mkPic 0 false 8 4 0xFF 3) (mkPic 0 false 0x70 2 0xFF 0)) [] 2 0 0 0 0 0) = (Ok tt, c1) /\
    raise 12 (dev c1) = Some (44, p).
Proof.
  destruct (irq_route_correct (mkCpu (mkPics (mkPic 0 false 8 4 0xFF 3) (mkPic 0 false 0x70 2 0xFF 0)) [] 2 0 0 0 0 0)
              12 ltac:(lia)) as (c1 & p & E & Hr & _).
  exists c1, p. split; [exact E|exact Hr].
Defined.
