(* ===== verification/Stubs.v ===== *)
(** [kernel/src/arch/x86_64/idt.rs]: the code of the interrupt stubs, on a
    machine with the general registers, a stack and what the processor saves.

    The stack is a map from addresses to 64-bit words. The functions the stubs
    call are a parameter: a Rust function that returns has its stack pointer
    back and has not written above it; it may change every other register. *)
From S2P Require Import Prelude Idt.
From Stdlib Require Import ZArith Lia.
From stdpp Require Import base numbers list gmap tactics.
Open Scope Z_scope.

(** * The machine *)

Inductive reg : Type :=
| RAX | RBX | RCX | RDX | RSI | RDI | RBP | R8 | R9 | R10 | R11 | R12 | R13 | R14 | R15.

#[export] Instance reg_eq_dec : EqDecision reg.
Proof. solve_decision. Defined.

Record Machine : Type := mkMachine {
  gpr : reg -> Z;
  rsp : Z;
  rip : Z;
  cs : Z;
  rflags : Z;
  ss : Z;
  cr2 : Z;
  stack : gmap Z Z
}.

Definition word (m : Machine) (a : Z) : Z := default 0 (stack m !! a).

Definition set_gpr (r : reg) (v : Z) (m : Machine) : Machine :=
  mkMachine (fun r' => if decide (r' = r) then v else gpr m r') (rsp m) (rip m) (cs m) (rflags m) (ss m) (cr2 m)
    (stack m).

Definition set_rsp (a : Z) (m : Machine) : Machine :=
  mkMachine (gpr m) a (rip m) (cs m) (rflags m) (ss m) (cr2 m) (stack m).

(** [push] of a value. *)
Definition push_word (v : Z) (m : Machine) : Machine :=
  mkMachine (gpr m) (rsp m - 8) (rip m) (cs m) (rflags m) (ss m) (cr2 m) (<[rsp m - 8 := v]> (stack m)).

Inductive instr : Type :=
| Push (r : reg)
| Pop (r : reg)
| MovRdiRsp
| MovRdi (v : Z)
| MovRsiCr2
| AddRsp (n : Z)
| Call
| Iretq.

Section machine.
(** What the called function does, from the stack pointer at its entry. *)
Context (f : Machine -> Machine).

Definition step (i : instr) (m : Machine) : Machine :=
  match i with
  | Push r => push_word (gpr m r) m
  | Pop r => set_gpr r (word m (rsp m)) (set_rsp (rsp m + 8) m)
  | MovRdiRsp => set_gpr RDI (rsp m) m
  | MovRdi v => set_gpr RDI v m
  | MovRsiCr2 => set_gpr RSI (cr2 m) m
  | AddRsp n => set_rsp (rsp m + n) m
  | Call => f m
  | Iretq =>
      mkMachine (gpr m) (word m (rsp m + 24)) (word m (rsp m)) (word m (rsp m + 8)) (word m (rsp m + 16))
        (word m (rsp m + 32)) (cr2 m) (stack m)
  end.

Fixpoint exec (l : list instr) (m : Machine) : Machine :=
  match l with
  | [] => m
  | i :: l => exec l (step i m)
  end.
End machine.

(** * The stubs *)

Definition push_order : list reg :=
  [RAX; RBX; RCX; RDX; RSI; RDI; RBP; R8; R9; R10; R11; R12; R13; R14; R15].

Definition pop_order : list reg :=
  [R15; R14; R13; R12; R11; R10; R9; R8; RBP; RDI; RSI; RDX; RCX; RBX; RAX].

Definition push_regs : list instr := Push <$> push_order.
Definition pop_regs : list instr := Pop <$> pop_order.

(** The expansions of the macros. *)
Definition exception_no_error : list instr :=
  push_regs ++ [MovRdiRsp; Call] ++ pop_regs ++ [Iretq].
Definition exception_with_error : list instr :=
  push_regs ++ [MovRdiRsp; Call] ++ pop_regs ++ [AddRsp 8; Iretq].
Definition irq_handler (irq : Z) : list instr :=
  push_regs ++ [MovRdi irq; Call] ++ pop_regs ++ [Iretq].
Definition page_fault_code : list instr :=
  push_regs ++ [MovRdiRsp; MovRsiCr2; Call] ++ pop_regs ++ [AddRsp 8; Iretq].
Definition syscall_code : list instr := push_regs ++ pop_regs ++ [Iretq].

(** The code of each stub. *)
Definition stub_code (s : stub) : list instr :=
  match s with
  | divide_error | debug | nmi | breakpoint | overflow | bound_range | invalid_opcode
  | device_not_available | x87_fp_exception | simd_fp_exception | virtualization | machine_check =>
      exception_no_error
  | double_fault | invalid_tss | general_protection | segment_not_present | stack_segment
  | alignment_check => exception_with_error
  | page_fault => page_fault_code
  | irq_stub irq => irq_handler irq
  | syscall_handler => syscall_code
  end.

(** What the called function reads at its first argument. *)
Record InterruptFrame : Type := mkFrame {
  f_r15 : Z; f_r14 : Z; f_r13 : Z; f_r12 : Z; f_r11 : Z; f_r10 : Z; f_r9 : Z; f_r8 : Z;
  f_rbp : Z; f_rdi : Z; f_rsi : Z; f_rdx : Z; f_rcx : Z; f_rbx : Z; f_rax : Z;
  f_rip : Z; f_cs : Z; f_rflags : Z; f_rsp : Z; f_ss : Z
}.

Record InterruptFrameWithError : Type := mkFrameE {
  e_r15 : Z; e_r14 : Z; e_r13 : Z; e_r12 : Z; e_r11 : Z; e_r10 : Z; e_r9 : Z; e_r8 : Z;
  e_rbp : Z; e_rdi : Z; e_rsi : Z; e_rdx : Z; e_rcx : Z; e_rbx : Z; e_rax : Z;
  error_code : Z;
  e_rip : Z; e_cs : Z; e_rflags : Z; e_rsp : Z; e_ss : Z
}.

(** The structs are [repr(C)] with 8-byte fields. *)
Definition read_frame (m : Machine) (a : Z) : InterruptFrame :=
  let w i := word m (a + 8 * i) in
  mkFrame (w 0) (w 1) (w 2) (w 3) (w 4) (w 5) (w 6) (w 7) (w 8) (w 9) (w 10) (w 11) (w 12) (w 13) (w 14)
    (w 15) (w 16) (w 17) (w 18) (w 19).

Definition read_frame_with_error (m : Machine) (a : Z) : InterruptFrameWithError :=
  let w i := word m (a + 8 * i) in
  mkFrameE (w 0) (w 1) (w 2) (w 3) (w 4) (w 5) (w 6) (w 7) (w 8) (w 9) (w 10) (w 11) (w 12) (w 13) (w 14)
    (w 15) (w 16) (w 17) (w 18) (w 19) (w 20).

(** * The processor *)

(** The delivery of an interrupt through a gate, with the stack at [top] (the
    interrupted stack pointer, or that of the task state segment): the stack is
    aligned to 16 bytes, the five words are pushed, and the error code if the
    exception has one; an interrupt gate clears IF. *)
Definition deliver (g : gate) (top : Z) (error : option Z) (m : Machine) : Machine :=
  let base := set_rsp (top / 16 * 16) m in
  let m1 := push_word (rip m) (push_word (cs m) (push_word (rflags m) (push_word (rsp m) (push_word (ss m) base)))) in
  let m2 := match error with Some e => push_word e m1 | None => m1 end in
  mkMachine (gpr m2) (rsp m2) (gate_offset g) (gate_selector g)
    (if gate_type g =? 0xE then Z.clearbit (rflags m) 9 else rflags m) (ss m2) (cr2 m2) (stack m2).

(** A function that returns has its stack pointer back and has not written at
    or above it. *)
Definition returns (f : Machine -> Machine) : Prop :=
  forall m, rsp (f m) = rsp m /\ forall a, rsp m <= a -> word (f m) a = word m a.

(** The same interrupted program: everything but the memory below [top], where
    the stub and the function it calls worked. *)
Definition resumed (top : Z) (m m' : Machine) : Prop :=
  (forall r, gpr m' r = gpr m r) /\ rsp m' = rsp m /\ rip m' = rip m /\ cs m' = cs m /\
  rflags m' = rflags m /\ ss m' = ss m /\ forall a, top / 16 * 16 <= a -> word m' a = word m a.

(** * Facts *)

Lemma word_push_eq v m : word (push_word v m) (rsp m - 8) = v.
Proof. unfold word, push_word. cbn [stack]. by rewrite lookup_insert_eq. Qed.

Lemma word_push_ne v m a : a <> rsp m - 8 -> word (push_word v m) a = word m a.
Proof. intros. unfold word, push_word. cbn [stack]. by rewrite lookup_insert_ne. Qed.

(** Words pushed one after the other: the last is at the stack pointer. *)
Definition push_words (ws : list Z) (m : Machine) : Machine := fold_left (fun m w => push_word w m) ws m.

Lemma push_words_regs ws : forall m, let m' := push_words ws m in
  gpr m' = gpr m /\ rip m' = rip m /\ cs m' = cs m /\ rflags m' = rflags m /\ ss m' = ss m /\ cr2 m' = cr2 m /\
  rsp m' = rsp m - 8 * Z.of_nat (length ws).
Proof.
  induction ws as [|w ws IH]; intros m; cbn [push_words fold_left length].
  - split_and!; (done || lia).
  - destruct (IH (push_word w m)) as (? & ? & ? & ? & ? & ? & Hr). cbn [rsp push_word] in Hr.
    split_and!; try done. fold (push_words ws (push_word w m)). rewrite Hr. lia.
Qed.

Lemma push_words_above ws : forall m a, rsp m <= a -> word (push_words ws m) a = word m a.
Proof.
  induction ws as [|w ws IH]; intros m a Ha; [done|].
  change (push_words (w :: ws) m) with (push_words ws (push_word w m)).
  rewrite IH by (cbn [rsp push_word]; lia). apply word_push_ne. lia.
Qed.

Lemma push_words_at ws : forall m i w, ws !! i = Some w ->
  word (push_words ws m) (rsp m - 8 * (Z.of_nat i + 1)) = w.
Proof.
  induction ws as [|w0 ws IH]; intros m [|i] w Hi; try done;
    change (push_words (w0 :: ws) m) with (push_words ws (push_word w0 m)).
  - injection Hi as ->. replace (rsp m - 8 * (Z.of_nat 0 + 1)) with (rsp m - 8) by lia.
    rewrite push_words_above by (cbn [rsp push_word]; lia). apply word_push_eq.
  - specialize (IH (push_word w0 m) i w Hi). cbn [rsp push_word] in IH. rewrite <- IH. f_equal. lia.
Qed.

Lemma exec_pushes f rs : forall m, exec f (Push <$> rs) m = push_words (gpr m <$> rs) m.
Proof. induction rs as [|r rs IH]; intros m; [done|]. apply (IH (push_word (gpr m r) m)). Qed.

Lemma push_regs_words f m : exec f push_regs m = push_words (gpr m <$> push_order) m.
Proof. apply exec_pushes. Qed.

Lemma exec_app f l k m : exec f (l ++ k) m = exec f k (exec f l m).
Proof. revert m. induction l as [|i l IH]; intros m; [done|]. apply IH. Qed.

(** Popping different registers. *)
Lemma exec_pops f rs : forall m, let m' := exec f (Pop <$> rs) m in
  NoDup rs ->
  (forall i r, rs !! i = Some r -> gpr m' r = word m (rsp m + 8 * Z.of_nat i)) /\
  (forall r, r ∉ rs -> gpr m' r = gpr m r) /\
  rsp m' = rsp m + 8 * Z.of_nat (length rs) /\ stack m' = stack m.
Proof.
  induction rs as [|r rs IH]; intros m m' Hnd.
  - split; [done|]. split; [done|]. cbn. split; [lia|done].
  - apply list.NoDup_cons in Hnd as [Hr Hnd].
    destruct (IH (step f (Pop r) m) Hnd) as (Hin & Hout & Hrsp & Hst).
    change (exec f (Pop <$> rs) (step f (Pop r) m)) with m' in Hin, Hout, Hrsp, Hst.
    cbn [step rsp set_gpr set_rsp stack] in Hin, Hout, Hrsp, Hst.
    split; [|split; [|split; [rewrite Hrsp; cbn [length]; lia|done]]].
    + intros [|i] r' Hi.
      * injection Hi as <-. rewrite Hout by done. cbn [step gpr set_gpr]. rewrite decide_True by done.
        f_equal. cbn. lia.
      * cbn in Hi. rewrite (Hin i r' Hi). unfold word. cbn [stack step set_gpr set_rsp]. do 2 f_equal. lia.
    + intros r' Hr'. apply not_elem_of_cons in Hr' as [Hne Hr']. rewrite Hout by done.
      cbn [step gpr set_gpr]. by rewrite decide_False.
Qed.

(** The order of the pops is the reverse of that of the pushes. *)
Lemma pop_reverse : pop_order = reverse push_order.
Proof. reflexivity. Qed.

Lemma pop_NoDup : NoDup pop_order.
Proof. apply (bool_decide_unpack _). vm_compute. exact I. Qed.

Lemma pop_all r : exists i, pop_order !! i = Some r /\ push_order !! (14 - i)%nat = Some r /\ (i <= 14)%nat.
Proof.
  destruct r; [exists 14%nat|exists 13%nat|exists 12%nat|exists 11%nat|exists 10%nat|exists 9%nat|exists 8%nat
    |exists 7%nat|exists 6%nat|exists 5%nat|exists 4%nat|exists 3%nat|exists 2%nat|exists 1%nat|exists 0%nat];
    (split; [reflexivity|split; [reflexivity|lia]]).
Qed.

(** The pushes, then code that gives the stack pointer back and does not write
    at or above it, then the pops: every register is as it was. *)
Lemma save_restore f (g : Machine -> Machine) m :
  (forall m, rsp (g m) = rsp m /\ forall a, rsp m <= a -> word (g m) a = word m a) ->
  let m' := exec f pop_regs (g (exec f push_regs m)) in
  (forall r, gpr m' r = gpr m r) /\ rsp m' = rsp m /\ (forall a, rsp m <= a -> word m' a = word m a).
Proof.
  intros Hg m'. unfold m'. clear m'. rewrite push_regs_words. 
  set (m1 := push_words (gpr m <$> push_order) m) in *.
  destruct (push_words_regs (gpr m <$> push_order) m) as (_ & _ & _ & _ & _ & _ & Hrsp1). fold m1 in Hrsp1.
  change (length (gpr m <$> push_order)) with 15%nat in Hrsp1.
  set (m' := exec f pop_regs (g m1)). destruct (Hg m1) as [Hrsp2 Hmem2]. destruct (exec_pops f pop_order (g m1) pop_NoDup) as (Hin & _ & Hrsp & Hst).
  change (exec f (Pop <$> pop_order) (g m1)) with m' in Hin, Hrsp, Hst.
  change (length pop_order) with 15%nat in Hrsp.
  split; [|split; [lia|]].
  - intros r. destruct (pop_all r) as (i & Hi & Hp & Hle). rewrite (Hin i r Hi), Hrsp2, Hmem2 by lia.
    pose proof (push_words_at (gpr m <$> push_order) m (14 - i)%nat (gpr m r)) as Hat.
    rewrite list_lookup_fmap, Hp in Hat. specialize (Hat eq_refl). rewrite <- Hat. unfold m1. f_equal.
    fold m1. lia.
  - intros a Ha. unfold word at 1. rewrite Hst. change (word (g m1) a = word m a).
    rewrite Hmem2 by lia. by apply push_words_above.
Qed.

(** The words the processor pushes. *)
Definition frame_words (error : option Z) (m : Machine) : list Z :=
  [ss m; rsp m; rflags m; cs m; rip m] ++ match error with Some e => [e] | None => [] end.

Lemma deliver_words g top error m :
  let m' := deliver g top error m in
  let p := push_words (frame_words error m) (set_rsp (top / 16 * 16) m) in
  gpr m' = gpr m /\ cr2 m' = cr2 m /\ rsp m' = rsp p /\ stack m' = stack p.
Proof.
  unfold deliver, push_words, frame_words.
  destruct error; cbn [app fold_left gpr cr2 rsp stack push_word set_rsp]; split_and!; reflexivity.
Qed.

Lemma push_words_app ws vs m : push_words (ws ++ vs) m = push_words vs (push_words ws m).
Proof. apply fold_left_app. Qed.

(** The words are read from the stack pointer up in the reverse order. *)
Lemma push_words_up ws m i j w :
  ws !! j = Some w -> (i + j + 1 = length ws)%nat ->
  word (push_words ws m) (rsp (push_words ws m) + 8 * Z.of_nat i) = w.
Proof.
  intros Hj Hl. destruct (push_words_regs ws m) as (_ & _ & _ & _ & _ & _ & ->).
  rewrite <- (push_words_at ws m j w Hj). f_equal. lia.
Qed.

(** [iretq] on the words of the processor. *)
Lemma iretq_resumes f top m m2 :
  (forall r, gpr m2 r = gpr m r) -> rsp m2 = top / 16 * 16 - 40 ->
  (forall a, top / 16 * 16 - 40 <= a ->
     word m2 a = word (push_words (frame_words None m) (set_rsp (top / 16 * 16) m)) a) ->
  resumed top m (step f Iretq m2).
Proof.
  intros Hg Hrsp Hw. set (t := top / 16 * 16) in *.
  assert (forall i j w, frame_words None m !! j = Some w -> (i + j + 1 = 5)%nat ->
            word m2 (rsp m2 + 8 * Z.of_nat i) = w) as Hf.
  { intros i j w Hj Hij. rewrite Hrsp, Hw by lia.
    rewrite <- (push_words_up _ (set_rsp t m) i j w Hj Hij). f_equal.
    destruct (push_words_regs (frame_words None m) (set_rsp t m)) as (_ & _ & _ & _ & _ & _ & ->).
    cbn [rsp set_rsp frame_words app length]. lia. }
  unfold resumed. cbn [step gpr rsp rip cs rflags ss].
  split_and!; [done|exact (Hf 3%nat 1%nat _ eq_refl eq_refl)| |exact (Hf 1%nat 3%nat _ eq_refl eq_refl)
    |exact (Hf 2%nat 2%nat _ eq_refl eq_refl)|exact (Hf 4%nat 0%nat _ eq_refl eq_refl)|].
  - rewrite <- (Hf 0%nat 4%nat _ eq_refl eq_refl). f_equal. lia.
  - fold t. intros a Ha. change (word m2 a = word m a). rewrite Hw by lia.
    by apply (push_words_above _ (set_rsp t m)).
Qed.

(** A stub as one of five shapes: what it does before the call, and whether
    an error code is removed before [iretq]. *)
Definition pushes_error (s : stub) : bool :=
  match s with
  | double_fault | invalid_tss | general_protection | segment_not_present | stack_segment
  | alignment_check | page_fault => true
  | _ => false
  end.

Definition body (s : stub) : list instr :=
  match s with
  | page_fault => [MovRdiRsp; MovRsiCr2; Call]
  | irq_stub irq => [MovRdi irq; Call]
  | syscall_handler => []
  | _ => [MovRdiRsp; Call]
  end.

Lemma stub_code_shape s :
  stub_code s = push_regs ++ body s ++ pop_regs ++ (if pushes_error s then [AddRsp 8] else []) ++ [Iretq].
Proof. by destruct s. Qed.

Lemma body_returns f s m :
  returns f -> rsp (exec f (body s) m) = rsp m /\ forall a, rsp m <= a -> word (exec f (body s) m) a = word m a.
Proof.
  intros Hf. destruct s; cbn [body exec step]; try apply (Hf (set_gpr _ _ m)); [|done].
  apply (Hf (set_gpr RSI (cr2 (set_gpr RDI (rsp m) m)) (set_gpr RDI (rsp m) m))).
Qed.

(** The table of the processor's exceptions agrees with the stubs. *)
Lemma exceptions_agree : forallb (fun p => Bool.eqb (snd (snd p)) (pushes_error (fst (snd p)))) exceptions = true.
Proof. reflexivity. Qed.

Lemma push_words_same ws : forall d q, rsp d = rsp q -> stack d = stack q ->
  rsp (push_words ws d) = rsp (push_words ws q) /\ forall a, word (push_words ws d) a = word (push_words ws q) a.
Proof.
  induction ws as [|w ws IH]; intros d q Hr Hst.
  - split; [done|]. intros a. change (word d a = word q a). unfold word. by rewrite Hst.
  - apply (IH (push_word w d) (push_word w q)); cbn [rsp stack push_word]; by rewrite Hr, ?Hst.
Qed.

(** The machine at the call: all the words that were pushed. *)
Definition at_call (f : Machine -> Machine) (s : stub) (m : Machine) : Machine :=
  exec f (push_regs ++ take (length (body s) - 1) (body s)) m.

Lemma prefix_effect f s r :
  let mc := exec f (take (length (body s) - 1) (body s)) r in
  rsp mc = rsp r /\ (forall a, word mc a = word r a) /\
  (body s = [MovRdiRsp; Call] \/ s = page_fault -> gpr mc RDI = rsp r) /\
  (s = page_fault -> gpr mc RSI = cr2 r) /\
  (forall irq, s = irq_stub irq -> gpr mc RDI = irq).
Proof.
  destruct s; cbn [body length Nat.sub take exec step]; (split; [reflexivity|]); (split; [reflexivity|]);
    (split; [intros [?|?]|split; [intros ?|intros irq' ?]]); try discriminate; try reflexivity.
  cbn [gpr set_gpr]. rewrite decide_True by done. congruence.
Qed.

Lemma at_call_words f s g top error m :
  let mc := at_call f s (deliver g top error m) in
  let p := push_words (frame_words error m ++ (gpr m <$> push_order)) (set_rsp (top / 16 * 16) m) in
  rsp mc = rsp p /\ (forall a, word mc a = word p a) /\
  (body s = [MovRdiRsp; Call] \/ s = page_fault -> gpr mc RDI = rsp p) /\
  (s = page_fault -> gpr mc RSI = cr2 m) /\
  (forall irq, s = irq_stub irq -> gpr mc RDI = irq).
Proof.
  intros mc p. destruct (deliver_words g top error m) as (Hg & Hc & Hr & Hst).
  set (d := deliver g top error m) in *. set (q := push_words (frame_words error m) _) in *.
  assert (exec f push_regs d = push_words (gpr m <$> push_order) d) as Hp by (rewrite push_regs_words, Hg; done).
  assert (rsp (push_words (gpr m <$> push_order) d) = rsp p /\
          forall a, word (push_words (gpr m <$> push_order) d) a = word p a) as [Hrsp Hw].
  { unfold p. rewrite push_words_app. by apply push_words_same. }
  destruct (push_words_regs (gpr m <$> push_order) d) as (Hg2 & _ & _ & _ & _ & Hc2 & _).
  unfold mc, at_call. rewrite exec_app, Hp.
  destruct (prefix_effect f s (push_words (gpr m <$> push_order) d)) as (Hrsp' & Hw' & Hrdi & Hrsi & Hirq).
  split; [by rewrite Hrsp'|]. split; [intros a; by rewrite Hw'|]. split; [intros Hb; by rewrite (Hrdi Hb)|].
  split; [|exact Hirq]. intros Hs. by rewrite (Hrsi Hs), Hc2.
Qed.

(** The end of a stub. *)
Lemma stub_end f s top error m m2 :
  (is_Some error <-> pushes_error s = true) ->
  let p := push_words (frame_words error m) (set_rsp (top / 16 * 16) m) in
  (forall r, gpr m2 r = gpr m r) -> rsp m2 = rsp p -> (forall a, rsp p <= a -> word m2 a = word p a) ->
  resumed top m (exec f ((if pushes_error s then [AddRsp 8] else []) ++ [Iretq]) m2).
Proof.
  intros Herror p Hg Hr Hw. set (q := push_words (frame_words None m) (set_rsp (top / 16 * 16) m)).
  assert (rsp q = top / 16 * 16 - 40) as Hq.
  { unfold q. by destruct (push_words_regs (frame_words None m) (set_rsp (top / 16 * 16) m))
      as (_ & _ & _ & _ & _ & _ & ->). }
  destruct error as [e|].
  - assert (p = push_word e q) as Hp by done. clearbody p. subst p. cbn [rsp push_word] in Hr, Hw.
    rewrite (proj1 Herror (ex_intro _ e eq_refl)).
    change (resumed top m (step f Iretq (set_rsp (rsp m2 + 8) m2))).
    apply iretq_resumes; [exact Hg|cbn [rsp set_rsp]; lia|].
    intros a Ha. change (word m2 a = word q a). clearbody q. rewrite Hw by lia. apply word_push_ne. lia.
  - destruct (pushes_error s) eqn:Hpe; [by destruct (proj2 Herror eq_refl)|].
    change (resumed top m (step f Iretq m2)).
    apply iretq_resumes; [exact Hg|by rewrite Hr|].
    intros a Ha. apply Hw. unfold p. fold q. lia.
Qed.

Definition the_frame (m : Machine) : InterruptFrame :=
  let r := gpr m in
  mkFrame (r R15) (r R14) (r R13) (r R12) (r R11) (r R10) (r R9) (r R8) (r RBP) (r RDI) (r RSI)
    (r RDX) (r RCX) (r RBX) (r RAX) (rip m) (cs m) (rflags m) (rsp m) (ss m).

Definition the_frame_with_error (e : Z) (m : Machine) : InterruptFrameWithError :=
  let r := gpr m in
  mkFrameE (r R15) (r R14) (r R13) (r R12) (r R11) (r R10) (r R9) (r R8) (r RBP) (r RDI) (r RSI)
    (r RDX) (r RCX) (r RBX) (r RAX) e (rip m) (cs m) (rflags m) (rsp m) (ss m).

(** Field [k] of a frame of [n + 1] words. *)
Ltac frame_field Hat n :=
  match goal with
  | |- word _ (_ + 8 * ?k) = _ =>
      let i := eval vm_compute in (Z.to_nat k) in
      let j := eval vm_compute in (n - i)%nat in
      exact (Hat i j _ eq_refl eq_refl)
  end.

Lemma read_frames error m mc base :
  let p := push_words (frame_words error m ++ (gpr m <$> push_order)) base in
  (forall a, word mc a = word p a) ->
  match error with
  | None => read_frame mc (rsp p) = the_frame m
  | Some e => read_frame_with_error mc (rsp p) = the_frame_with_error e m
  end.
Proof.
  intros p Hw. set (ws := frame_words error m ++ (gpr m <$> push_order)) in *.
  assert (forall i j w, ws !! j = Some w -> (i + j + 1 = length ws)%nat ->
            word mc (rsp p + 8 * Z.of_nat i) = w) as Hat.
  { intros i j w Hj Hij. rewrite Hw. by apply (push_words_up _ _ i j). }
  clear Hw. clearbody p. unfold ws in Hat. destruct error as [e|].
  - unfold read_frame_with_error, the_frame_with_error. f_equal; frame_field Hat 20%nat.
  - unfold read_frame, the_frame. f_equal; frame_field Hat 19%nat.
Qed.

Lemma handler_reads (f : Machine -> Machine) (s : stub) (g : gate) (top : Z) (error : option Z) (m : Machine)
  (Hs : s <> syscall_handler) (Herror : is_Some error <-> pushes_error s = true) :
  let mc := at_call f s (deliver g top error m) in
  match s with
  | irq_stub irq => gpr mc RDI = irq
  | _ =>
      match error with
      | None => read_frame mc (gpr mc RDI) = the_frame m
      | Some e =>
          read_frame_with_error mc (gpr mc RDI) = the_frame_with_error e m /\
          (s = page_fault -> gpr mc RSI = cr2 m)
      end
  end /\
  rsp mc mod 16 = match error with Some _ => 8 | None => 0 end.
Proof.
  intros mc. destruct (at_call_words f s g top error m) as (Hrsp & Hw & Hrdi & Hrsi & Hirq).
  fold mc in Hrsp, Hw, Hrdi, Hrsi, Hirq. clearbody mc.
  set (ws := frame_words error m ++ (gpr m <$> push_order)) in *.
  set (base := set_rsp (top / 16 * 16) m) in *.
  assert (rsp mc mod 16 = match error with Some _ => 8 | None => 0 end) as Halign.
  { rewrite Hrsp. destruct (push_words_regs ws base) as (_ & _ & _ & _ & _ & _ & ->). unfold ws, base.
    rewrite length_app. change (length (gpr m <$> push_order)) with 15%nat. cbn [rsp set_rsp].
    destruct error; cbn [frame_words app length]; Z.div_mod_to_equations; lia. }
  split; [|exact Halign].
  assert (gpr mc RDI = rsp (push_words ws base) ->
          match error with
          | None => read_frame mc (gpr mc RDI) = the_frame m
          | Some e => read_frame_with_error mc (gpr mc RDI) = the_frame_with_error e m
          end) as Hframe.
  { intros ->. apply read_frames; done. }
  destruct error as [e|]; destruct s; try (by apply Hirq); try done;
    try (destruct (proj1 Herror ltac:(by eexists)); discriminate);
    try (by destruct (proj2 Herror eq_refl)); try (split; [|exact Hrsi]); apply Hframe, Hrdi;
    first [by left | by right].
Qed.

(** The run of a stub. *)
Lemma stub_transparent (f : Machine -> Machine) (s : stub) (g : gate) (top : Z) (error : option Z) (m : Machine)
  (Hf : returns f) (Herror : is_Some error <-> pushes_error s = true) :
  resumed top m (exec f (stub_code s) (deliver g top error m)).
Proof.
  destruct (deliver_words g top error m) as (Hg & _ & Hr & Hst). revert Hg Hr Hst.
  generalize (deliver g top error m). intros d Hg Hr Hst. rewrite stub_code_shape, !exec_app.
  destruct (save_restore f (exec f (body s)) d (fun m => body_returns f s m Hf)) as (Hsg & Hsr & Hsw).
  revert Hsg Hsr Hsw. generalize (exec f pop_regs (exec f (body s) (exec f push_regs d))). intros m2 Hsg Hsr Hsw.
  rewrite <- exec_app. apply (stub_end f s top error m m2 Herror).
  - intros r. by rewrite Hsg, Hg.
  - by rewrite Hsr.
  - intros a Ha. rewrite Hsw by (rewrite Hr; lia). unfold word. by rewrite Hst.
Qed.

(** * Properties *)

(** C12: an interrupt is transparent: when the called function returns, the stub,
    with its error code or without, resumes the interrupted program with every
    general register, the stack pointer, the instruction pointer, the flags,
    the segments and all the memory above the interrupt's stack as they were. *)
Theorem stub_resumes (f : Machine -> Machine) (s : stub) (g : gate) (top : Z) (error : option Z) (m : Machine)
  (Hf : returns f) (Herror : is_Some error <-> pushes_error s = true) :
  resumed top m (exec f (stub_code s) (deliver g top error m)).
Proof. exact (stub_transparent f s g top error m Hf Herror). Qed.

(** What the handlers are given: an exception's function is called with a
    pointer to a frame that holds the registers of the interrupted program (the
    page fault's with CR2 as well), a hardware interrupt's with its number. The
    stack is aligned to 16 bytes at the call, as the calling convention
    requires, exactly when there is no error code. *)
Theorem handler_arguments (f : Machine -> Machine) (s : stub) (g : gate) (top : Z) (error : option Z) (m : Machine)
  (Hs : s <> syscall_handler) (Herror : is_Some error <-> pushes_error s = true) :
  let mc := at_call f s (deliver g top error m) in
  match s with
  | irq_stub irq => gpr mc RDI = irq
  | _ =>
      match error with
      | None => read_frame mc (gpr mc RDI) = the_frame m
      | Some e =>
          read_frame_with_error mc (gpr mc RDI) = the_frame_with_error e m /\
          (s = page_fault -> gpr mc RSI = cr2 m)
      end
  end /\
  rsp mc mod 16 = match error with Some _ => 8 | None => 0 end.
Proof. exact (handler_reads f s g top error m Hs Herror). Qed.

(** * Witnesses *)

(** A program interrupted in ring 0, and a function that changes registers. *)
Definition some_machine : Machine :=
  mkMachine (fun r => match r with RAX => 1 | RDI => 2 | R15 => 3 | _ => 0 end) 0x9008 0x100123 8 0x202 0x10 0xdeadbeef ∅.
Definition some_gate : gate := mkGate 0x104000 8 0 0xE 0 true.
Definition clobber (m : Machine) : Machine := set_gpr R15 99 (set_gpr RAX 98 m).

Lemma clobber_returns : returns clobber.
Proof. intros m. by split. Qed.

Lemma stub_resumes_witness :
  resumed 0x9008 some_machine (exec clobber (stub_code (irq_stub 1)) (deliver some_gate 0x9008 None some_machine)).
Proof.
  apply (stub_resumes clobber (irq_stub 1) some_gate 0x9008 None some_machine clobber_returns).
  split; [by intros [? ?]|discriminate].
Defined.

Lemma handler_arguments_witness :
  let mc := at_call clobber page_fault (deliver some_gate 0x9008 (Some 2) some_machine) in
  error_code (read_frame_with_error mc (gpr mc RDI)) = 2 /\
  e_rip (read_frame_with_error mc (gpr mc RDI)) = 0x100123 /\ gpr mc RSI = 0xdeadbeef.
Proof.
  intros mc.
  destruct (handler_arguments clobber page_fault some_gate 0x9008 (Some 2) some_machine ltac:(discriminate)
              ltac:(split; [done|by eexists])) as [[Hf H] _].
  unfold mc. rewrite Hf. split; [reflexivity|]. split; [reflexivity|]. by apply H.
Defined.
