(* ===== verification/Apic.v ===== *)
(** [kernel/src/arch/x86_64/apic.rs]: the local APIC.

    [APIC_BASE] is the second component of the state. The registers are
    memory-mapped, and what they mean to the hardware is written after the
    manual, in the section on the words. *)
From S2P Require Import Prelude Cpu.
From stdpp Require Import base numbers list strings tactics.
From Stdlib Require Import ZArith Lia.
Open Scope Z_scope.
Open Scope word_scope.

(** * Registers *)

Definition IA32_APIC_BASE_MSR : Z := 0x1B.

Module regs.
Definition ID : Z := 0x020.
Definition VERSION : Z := 0x030.
Definition TPR : Z := 0x080.
Definition EOI : Z := 0x0B0.
Definition SVR : Z := 0x0F0.
Definition ICR_LOW : Z := 0x300.
Definition ICR_HIGH : Z := 0x310.
Definition LVT_TIMER : Z := 0x320.
Definition LVT_THERMAL : Z := 0x330.
Definition LVT_PERF : Z := 0x340.
Definition LVT_LINT0 : Z := 0x350.
Definition LVT_LINT1 : Z := 0x360.
Definition LVT_ERROR : Z := 0x370.
Definition TIMER_ICR : Z := 0x380.
Definition TIMER_CCR : Z := 0x390.
Definition TIMER_DCR : Z := 0x3E0.
End regs.

(** The initial value of the static. *)
Definition APIC_BASE : Z := 0xFEE00000.

Section apic.
Context {D : Type} {DEV : Device D}.

Abbreviation M := (stateE (Cpu D * Z) stop).

(** * Operations *)

Definition is_available : stateE (Cpu D) stop bool :=
  regs ← cpuid 1;
  let '(_, _, _, edx) := regs in
  mret (negb (Z.land edx (Z.shiftl 1 9) =? 0)).

Definition read_reg (offset : Z) : M Z :=
  base ← gets snd;
  on_fst (read_volatile (base ⊕ offset)).

Definition write_reg (offset value : Z) : M unit :=
  base ← gets snd;
  on_fst (write_volatile (base ⊕ offset) value).

Definition send_eoi : M unit := write_reg regs.EOI 0.

Definition get_id : M Z :=
  v ← read_reg regs.ID;
  mret (wrap 8 (Z.land (Z.shiftr v 24) 0xFF)).

Definition get_version : M Z :=
  v ← read_reg regs.VERSION;
  mret (wrap 8 (Z.land v 0xFF)).

(** [logged] says whether the debug line at the end is enabled: its arguments
    are then evaluated. *)
Definition init (logged : bool) : M bool :=
  available ← on_fst is_available;
  if negb available then mret false
  else
    base ← on_fst (rdmsr IA32_APIC_BASE_MSR);
    on_snd (modify (fun _ => Z.land base 0xFFFFF000));;
    on_fst (wrmsr IA32_APIC_BASE_MSR (Z.lor base (Z.shiftl 1 11)));;
    svr ← on_fst (rdmsr (wrap 32 (IA32_APIC_BASE_MSR + regs.SVR / 0x10)));
    (if logged : bool then _id ← get_id; _version ← get_version; mret tt else mret tt);;
    mret true.

(** The [match] on the divider. *)
Definition divider_bits (divider : Z) : Z :=
  match divider with
  | 1 => 0xB
  | 2 => 0x0
  | 4 => 0x1
  | 8 => 0x2
  | 16 => 0x3
  | 32 => 0x8
  | 64 => 0x9
  | 128 => 0xA
  | _ => 0xB
  end.

Definition configure_timer (vector divider initial_count : Z) (periodic : bool) : M unit :=
  let dcr := divider_bits divider in
  write_reg regs.TIMER_DCR dcr;;
  let mode := if periodic then 0x20000 else 0 in
  write_reg regs.LVT_TIMER (Z.lor vector mode);;
  write_reg regs.TIMER_ICR initial_count.

Definition stop_timer : M unit :=
  write_reg regs.TIMER_ICR 0;;
  write_reg regs.LVT_TIMER (Z.shiftl 1 16).

Definition timer_current : M Z := read_reg regs.TIMER_CCR.

Definition send_ipi (apic_id vector : Z) : M unit :=
  write_reg regs.ICR_HIGH (wrap 32 (Z.shiftl apic_id 24));;
  write_reg regs.ICR_LOW vector.

Definition send_init_ipi_all : M unit :=
  write_reg regs.ICR_HIGH 0;;
  write_reg regs.ICR_LOW 0xC4500.

Definition send_startup_ipi_all (vector : Z) : M unit :=
  write_reg regs.ICR_HIGH 0;;
  write_reg regs.ICR_LOW (Z.lor 0xC4600 vector).

(** * The words, as the hardware reads them *)

(** The divide configuration register: bits 3, 1 and 0 are an exponent. *)
Definition dcr_divisor (dcr : Z) : Z := 2 ^ ((dcr mod 4 + 4 * (dcr / 8 mod 2) + 1) mod 8).

Definition lvt_vector (w : Z) : Z := w mod 256.
Definition lvt_masked (w : Z) : bool := Z.testbit w 16.
Definition lvt_periodic (w : Z) : bool := Z.testbit w 17.

Definition icr_vector (w : Z) : Z := w mod 256.
Definition icr_mode (w : Z) : Z := w / 2 ^ 8 mod 8.
Definition icr_shorthand (w : Z) : Z := w / 2 ^ 18 mod 4.
Definition icr_destination (high : Z) : Z := high / 2 ^ 24.

(** * Facts *)

Lemma write_reg_eq off v c b :
  exists d, write_reg off v (c, b) =
    (Ok tt, (set_dev d (WrMmio (b ⊕ off) v) c, b)).
Proof. eexists. reflexivity. Qed.

(** Two and three writes. *)
Lemma write_two o1 v1 o2 v2 c b :
  exists c', (write_reg o1 v1;; write_reg o2 v2) (c, b) = (Ok tt, (c', b)) /\
    accesses c' = accesses c ++ [WrMmio (b ⊕ o1) v1; WrMmio (b ⊕ o2) v2].
Proof. eexists. split; [reflexivity|]. cbn [fst snd accesses set_dev]. by rewrite <- ?app_assoc. Qed.

Lemma write_three o1 v1 o2 v2 o3 v3 c b :
  exists c', (write_reg o1 v1;; write_reg o2 v2;; write_reg o3 v3) (c, b) = (Ok tt, (c', b)) /\
    accesses c' = accesses c ++ [WrMmio (b ⊕ o1) v1; WrMmio (b ⊕ o2) v2; WrMmio (b ⊕ o3) v3].
Proof. eexists. split; [reflexivity|]. cbn [fst snd accesses set_dev]. by rewrite <- ?app_assoc. Qed.

Lemma divider_bits_divisor k : dcr_divisor (divider_bits k) = if bool_decide (k ∈ [1; 2; 4; 8; 16; 32; 64; 128]) then k else 1.
Proof.
  destruct (decide (k ∈ [1; 2; 4; 8; 16; 32; 64; 128])) as [Hk|Hk].
  - rewrite bool_decide_eq_true_2 by done.
    repeat (apply elem_of_cons in Hk as [->|Hk]; [reflexivity|]). by apply not_elem_of_nil in Hk.
  - rewrite bool_decide_eq_false_2 by done. revert Hk. rewrite !not_elem_of_cons. intros Hk.
    assert (divider_bits k = 0xB) as ->; [|reflexivity].
    unfold divider_bits. destruct k as [|p|p]; try done.
    do 8 (destruct p as [p|p|]; try reflexivity; try (exfalso; lia)).
Qed.

Lemma lvt_word vector (periodic : bool) :
  0 <= vector < 256 ->
  let w := Z.lor vector (if periodic then 0x20000 else 0) in
  lvt_vector w = vector /\ lvt_masked w = false /\ lvt_periodic w = periodic.
Proof.
  intros Hv w. unfold lvt_vector, lvt_masked, lvt_periodic, w.
  assert (Z.lor vector (if periodic then 0x20000 else 0) = vector + (if periodic then 0x20000 else 0)) as ->.
  { destruct periodic; [|by rewrite Z.lor_0_r, Z.add_0_r].
    change 0x20000 with (Z.shiftl 1 17) at 1. rewrite Z.lor_comm, lor_shiftl_add by lia. lia. }
  rewrite !Z.testbit_odd, !Z.shiftr_div_pow2 by lia.
  destruct periodic; split_and!.
  - Z.div_mod_to_equations. lia.
  - by replace ((vector + 0x20000) / 2 ^ 16) with 2 by (Z.div_mod_to_equations; lia).
  - by replace ((vector + 0x20000) / 2 ^ 17) with 1 by (Z.div_mod_to_equations; lia).
  - Z.div_mod_to_equations. lia.
  - by replace ((vector + 0) / 2 ^ 16) with 0 by (Z.div_mod_to_equations; lia).
  - by replace ((vector + 0) / 2 ^ 17) with 0 by (Z.div_mod_to_equations; lia).
Qed.

Lemma icr_word high vector :
  0 <= vector < 256 ->
  icr_vector (0x100 * high + vector) = vector /\ icr_mode (0x100 * high + vector) = high mod 8 /\
  icr_shorthand (0x100 * high + vector) = high / 2 ^ 10 mod 4.
Proof.
  intros Hv. unfold icr_vector, icr_mode, icr_shorthand. change (2 ^ 18) with (2 ^ 8 * 2 ^ 10).
  rewrite <- Z.div_div by lia.
  replace ((0x100 * high + vector) / 2 ^ 8) with high by (Z.div_mod_to_equations; lia).
  split_and!; try done. Z.div_mod_to_equations; lia.
Qed.

(** The two halves of a model-specific register. *)
Lemma msr_range x : 0 <= Z.lor (Z.shiftl (wrap 32 (Z.shiftr x 32)) 32) (wrap 32 x) < 2 ^ 64.
Proof.
  pose proof (wrap_range 32 (Z.shiftr x 32) ltac:(lia)). pose proof (wrap_range 32 x ltac:(lia)).
  rewrite lor_shiftl_add by lia. lia.
Qed.

Lemma msr_halves x : 0 <= x < 2 ^ 64 -> Z.lor (Z.shiftl (wrap 32 (Z.shiftr x 32)) 32) (wrap 32 x) = x.
Proof.
  intros Hx. pose proof (wrap_range 32 x ltac:(lia)). rewrite lor_shiftl_add by lia.
  rewrite Z.shiftr_div_pow2 by lia. unfold wrap. Z.div_mod_to_equations. lia.
Qed.

Lemma wrap_bit9 x : Z.testbit (wrap 32 x) 9 = Z.testbit x 9.
Proof. unfold wrap. by rewrite Z.mod_pow2_bits_low by lia. Qed.

Lemma setbit_range x : 0 <= x < 2 ^ 64 -> 0 <= Z.setbit x 11 < 2 ^ 64.
Proof.
  intros Hx. rewrite Z.setbit_spec'.
  assert (Z.testbit (Z.lor x (2 ^ 11)) 11 = true) as Hb by (rewrite Z.lor_spec; apply orb_true_r).
  assert (0 <= Z.lor x (2 ^ 11)) by (apply Z.lor_nonneg; lia).
  assert (Z.lor x (2 ^ 11) <> 0) by (intros E; by rewrite E in Hb).
  split; [done|]. apply Z.log2_lt_pow2; [lia|]. rewrite Z.log2_lor by lia.
  destruct (decide (x = 0)) as [->|]; [reflexivity|].
  assert (Z.log2 x < 64) by (apply Z.log2_lt_pow2; lia). change (Z.log2 (2 ^ 11)) with 11. lia.
Qed.
Lemma rdmsr_ok r c (b : Z) :
  exists v c', 0 <= v < 2 ^ 64 /\ on_fst (rdmsr r) (c, b) = (Ok v, (c', b)) /\
    accesses c' = accesses c ++ [RdMsr r v].
Proof.
  unfold on_fst, rdmsr. cbn [fst snd]. destruct (dev_rdmsr r (dev c)) as [x d].
  eexists _, _. split; [apply (msr_range x)|]. by split.
Qed.

Lemma wrmsr_ok r v c (b : Z) :
  0 <= v < 2 ^ 64 ->
  exists c', on_fst (wrmsr r v) (c, b) = (Ok tt, (c', b)) /\ accesses c' = accesses c ++ [WrMsr r v].
Proof.
  intros Hv. unfold on_fst, wrmsr. cbn [fst snd]. rewrite msr_halves by done. eexists. by split.
Qed.

Lemma read_reg_ok off c b :
  exists v c', read_reg off (c, b) = (Ok v, (c', b)) /\ accesses c' = accesses c ++ [RdMmio (b ⊕ off) v].
Proof.
  unfold read_reg, gets, mbind, stateE_bind, on_fst, read_volatile. cbn [fst snd].
  destruct (dev_read (b ⊕ off) (dev c)) as [x d]. eexists _, _. by split.
Qed.

(** * Properties *)

(** C35: the timer. [configure_timer] makes three writes, the count last, so that
    the timer starts configured: its divisor is the one asked for, or 1 when that
    is not a power of two up to 128; the vector is the one asked for, unmasked,
    periodic or not as asked. [stop_timer] sets the count to 0 and masks. *)
Theorem timer_correct (vector divider count : Z) (periodic : bool) (c : Cpu D) (b : Z)
  (Hv : 0 <= vector < 256) :
  exists c1 c2 dcr lvt off,
    configure_timer vector divider count periodic (c, b) = (Ok tt, (c1, b)) /\
    accesses c1 = accesses c ++
      [WrMmio (b ⊕ 0x3E0) dcr; WrMmio (b ⊕ 0x320) lvt; WrMmio (b ⊕ 0x380) count] /\
    dcr_divisor dcr = (if bool_decide (divider ∈ [1; 2; 4; 8; 16; 32; 64; 128]) then divider else 1) /\
    lvt_vector lvt = vector /\ lvt_masked lvt = false /\ lvt_periodic lvt = periodic /\
    stop_timer (c1, b) = (Ok tt, (c2, b)) /\
    accesses c2 = accesses c1 ++ [WrMmio (b ⊕ 0x380) 0; WrMmio (b ⊕ 0x320) off] /\ lvt_masked off = true.
Proof.
  destruct (write_three regs.TIMER_DCR (divider_bits divider) regs.LVT_TIMER
              (Z.lor vector (if periodic then 0x20000 else 0)) regs.TIMER_ICR count c b) as (c1 & E1 & H1).
  destruct (write_two regs.TIMER_ICR 0 regs.LVT_TIMER (Z.shiftl 1 16) c1 b) as (c2 & E2 & H2).
  destruct (lvt_word vector periodic Hv) as (Hvec & Hm & Hp).
  exists c1, c2, (divider_bits divider), (Z.lor vector (if periodic then 0x20000 else 0)), (Z.shiftl 1 16).
  split_and!; try done. apply divider_bits_divisor.
Qed.

(** The interprocessor interrupts. Each is two writes, the destination first,
    for the write of the low word sends it: [send_ipi] a fixed interrupt with the
    vector to the one processor; the other two an INIT, and a start-up with the
    vector, to all processors but the sender. *)
Theorem ipi_correct (id vector : Z) (c : Cpu D) (b : Z) (Hid : 0 <= id < 256) (Hv : 0 <= vector < 256) :
  exists c1 c2 c3 high low init_low startup_low,
    send_ipi id vector (c, b) = (Ok tt, (c1, b)) /\
    accesses c1 = accesses c ++ [WrMmio (b ⊕ 0x310) high; WrMmio (b ⊕ 0x300) low] /\
    icr_destination high = id /\ icr_vector low = vector /\ icr_mode low = 0 /\ icr_shorthand low = 0 /\
    send_init_ipi_all (c, b) = (Ok tt, (c2, b)) /\
    accesses c2 = accesses c ++ [WrMmio (b ⊕ 0x310) 0; WrMmio (b ⊕ 0x300) init_low] /\
    icr_mode init_low = 5 /\ icr_shorthand init_low = 3 /\
    send_startup_ipi_all vector (c, b) = (Ok tt, (c3, b)) /\
    accesses c3 = accesses c ++ [WrMmio (b ⊕ 0x310) 0; WrMmio (b ⊕ 0x300) startup_low] /\
    icr_vector startup_low = vector /\ icr_mode startup_low = 6 /\ icr_shorthand startup_low = 3.
Proof.
  destruct (write_two regs.ICR_HIGH (wrap 32 (Z.shiftl id 24)) regs.ICR_LOW vector c b) as (c1 & E1 & H1).
  destruct (write_two regs.ICR_HIGH 0 regs.ICR_LOW 0xC4500 c b) as (c2 & E2 & H2).
  destruct (write_two regs.ICR_HIGH 0 regs.ICR_LOW (Z.lor 0xC4600 vector) c b) as (c3 & E3 & H3).
  exists c1, c2, c3, (wrap 32 (Z.shiftl id 24)), vector, 0xC4500, (Z.lor 0xC4600 vector).
  assert (Z.lor 0xC4600 vector = 0xC4600 + vector) as Hlor.
  { change 0xC4600 with (Z.shiftl 0xC46 8) at 1. rewrite lor_shiftl_add by lia. lia. }
  assert (icr_destination (wrap 32 (Z.shiftl id 24)) = id) as Hd.
  { rewrite Z.shiftl_mul_pow2, wrap_small by lia. apply Z.div_mul. lia. }
  destruct (icr_word 0 vector Hv) as (? & ? & ?). destruct (icr_word 0xC46 vector Hv) as (? & ? & ?).
  split_and!; try done; by rewrite Hlor.
Qed.

(** [init], with any device. Without an APIC it returns false and makes no
    access; with one it returns true: it sets the enable bit of the base register
    and keeps the rest of it, the registers are then read at the base's low 32
    bits, and these are all its accesses: the spurious vector register, whose
    bit 8 enables the APIC, is not written. *)
Theorem apic_init_correct (logged : bool) (c : Cpu D) (b : Z) :
  if Z.testbit (edx (dev_cpuid 1)) 9 then
    exists c' v w i r, init logged (c, b) = (Ok true, (c', Z.land v 0xFFFFF000)) /\
      accesses c' = accesses c ++ [RdMsr 0x1B v; WrMsr 0x1B (Z.setbit v 11); RdMsr 0x2A w] ++
        (if logged then [RdMmio (Z.land v 0xFFFFF000 ⊕ 0x20) i; RdMmio (Z.land v 0xFFFFF000 ⊕ 0x30) r] else [])
  else init logged (c, b) = (Ok false, (c, b)).
Proof.
  assert (on_fst is_available (c, b) = (Ok (Z.testbit (edx (dev_cpuid 1)) 9), (c, b))) as Ea.
  { unfold is_available, cpuid, mbind, stateE_bind, mret, stateE_ret, on_fst. cbn [fst snd].
    by rewrite land_bit_eqb, wrap_bit9, negb_involutive by lia. }
  unfold init. rewrite (bind_ok _ _ _ _ _ Ea).
  destruct (Z.testbit (edx (dev_cpuid 1)) 9); cbn [negb]; [|done].
  destruct (rdmsr_ok IA32_APIC_BASE_MSR c b) as (v & c1 & Hv & E1 & A1). rewrite (bind_ok _ _ _ _ _ E1).
  change (Z.lor v (Z.shiftl 1 11)) with (Z.setbit v 11). set (b' := Z.land v 0xFFFFF000).
  rewrite (bind_ok (on_snd (modify (fun _ => b'))) _ (c1, b) tt (c1, b') eq_refl).
  destruct (wrmsr_ok IA32_APIC_BASE_MSR (Z.setbit v 11) c1 b' (setbit_range v Hv)) as (c2 & E2 & A2).
  rewrite (bind_ok _ _ _ _ _ E2).
  destruct (rdmsr_ok (wrap 32 (IA32_APIC_BASE_MSR + regs.SVR / 0x10)) c2 b') as (w & c3 & _ & E3 & A3).
  rewrite (bind_ok _ _ _ _ _ E3). destruct logged.
  - destruct (read_reg_ok regs.ID c3 b') as (i & c4 & E4 & A4).
    destruct (read_reg_ok regs.VERSION c4 b') as (r & c5 & E5 & A5).
    exists c5, v, w, i, r. split.
    + unfold get_id, get_version, mbind, stateE_bind. rewrite E4. unfold mret, stateE_ret. by rewrite E5.
    + rewrite A5, A4, A3, A2, A1, <- !app_assoc. done.
  - exists c3, v, w, 0, 0. split; [done|]. rewrite A3, A2, A1, <- !app_assoc. done.
Qed.
End apic.

(** * Witnesses *)

Lemma timer_correct_witness :
  exists c1 dcr lvt, configure_timer 32 16 1000 true (mkCpu tt [] 2 0 0 0 0 0, APIC_BASE) = (Ok tt, (c1, APIC_BASE)) /\
    accesses c1 = [WrMmio 0xFEE003E0 dcr; WrMmio 0xFEE00320 lvt; WrMmio 0xFEE00380 1000] /\ dcr_divisor dcr = 16.
Proof.
  destruct (timer_correct 32 16 1000 true (mkCpu tt [] 2 0 0 0 0 0) APIC_BASE ltac:(lia))
    as (c1 & _ & dcr & lvt & _ & E & A & Hd & _).
  exists c1, dcr, lvt. split; [exact E|]. split; [exact A|exact Hd].
Defined.

Lemma ipi_correct_witness :
  exists c1 high low, send_ipi 3 0x40 (mkCpu tt [] 2 0 0 0 0 0, APIC_BASE) = (Ok tt, (c1, APIC_BASE)) /\
    accesses c1 = [WrMmio 0xFEE00310 high; WrMmio 0xFEE00300 low] /\ icr_destination high = 3.
Proof.
  destruct (ipi_correct 3 0x40 (mkCpu tt [] 2 0 0 0 0 0) APIC_BASE ltac:(lia) ltac:(lia))
    as (c1 & _ & _ & high & low & _ & _ & E & A & Hd & _).
  exists c1, high, low. split; [exact E|]. split; [exact A|exact Hd].
Defined.
