(* ===== verification/Logging.v ===== *)
(** [kernel/src/logging.rs]: the logger of the serial port.

    The crate [log] is a parameter: the class [LogCrate] has what the code uses
    of it, and [LogLaws] what its documentation says of that: the order of the
    levels, their numbers and names, and that its macros reach the logger that
    was set when the maximal level lets them. *)
From S2P Require Import Prelude Cpu Serial.
From Stdlib Require Import ZArith Lia Ascii String.
From stdpp Require Import base numbers list strings tactics.
Open Scope Z_scope.

(** [log::LevelFilter], as the code matches on it. *)
Inductive LevelFilter : Type := Off | Error | Warn | Info | Debug | Trace.

#[export] Instance LevelFilter_eq_dec : EqDecision LevelFilter.
Proof. solve_decision. Defined.

Class LogCrate : Type := {
  Level : Type;
  level_error : Level;
  level_info : Level;
  level_debug : Level;
  level_trace : Level;
  (** [level as usize], [level.as_str()] and [level <= filter] *)
  level_usize : Level -> Z;
  level_str : Level -> list Z;
  level_le : Level -> LevelFilter -> bool;
  (** [Display] of a filter *)
  filter_str : LevelFilter -> list Z;
  (** the crate's own state; whether a macro of a level reaches the logger *)
  Global : Type;
  set_logger : Global -> option Global;
  set_max_level : LevelFilter -> Global -> Global;
  reaches : Level -> Global -> bool
}.

(** * Data *)

Definition bytes_of (s : string) : list Z := (fun c => Z.of_nat (nat_of_ascii c)) <$> list_ascii_of_string s.

(** An escape sequence: ESC and the rest. *)
Definition esc (s : string) : list Z := 27 :: bytes_of s.

Definition LOG_LEVEL_COLOURS : list (list Z) :=
  [esc "[0m"; esc "[31m"; esc "[33m"; esc "[32m"; esc "[34m"; esc "[36m"].

Definition RESET_COLOUR : list Z := esc "[0m".

Section logging.
Context {LC : LogCrate}.
Context {D : Type} {DEV : Device D}.

Record LogRecord : Type := mkRecord {
  rec_level : Level;
  rec_target : list Z;
  rec_args : list Z
}.

(** The static [LOGGER], and the crate's state. *)
Record LogState : Type := mkLogState {
  log_level_int : Z;
  global : Global
}.

Abbreviation M := (stateE (Cpu D * LogState) stop).

(** * Operations *)

Definition get_log_level (s : LogState) : LevelFilter :=
  match log_level_int s with
  | 0 => Off
  | 1 => Error
  | 2 => Warn
  | 3 => Info
  | 4 => Debug
  | 5 => Trace
  | _ => Off
  end.

Definition filter_int (level : LevelFilter) : Z :=
  match level with
  | Off => 0
  | Error => 1
  | Warn => 2
  | Info => 3
  | Debug => 4
  | Trace => 5
  end.

Definition get_log_colour (level : Level) : list Z :=
  default (esc "[0m") (LOG_LEVEL_COLOURS !! Z.to_nat (level_usize level)).

Definition enabled (s : LogState) (level : Level) : bool := level_le level (get_log_level s).

(** [max_level_len.saturating_sub(level_str.len())] and the loop over it *)
Definition pad_len (level : Level) : Z := 5 - Z.of_nat (length (level_str level)).

(** [ser.write_str] *)
Definition write_str (fuel : nat) (s : list Z) : M unit := on_fst (write_string fuel s SERIAL).

(** The pieces of [write!] go to the port one after the other. *)
Definition log (fuel : nat) (r : LogRecord) : M unit :=
  s ← gets snd;
  if negb (enabled s (rec_level r)) then mret tt
  else
    for_m 0 (pad_len (rec_level r)) (fun _ => write_str fuel (bytes_of " "));;
    let colour := get_log_colour (rec_level r) in
    write_str fuel colour;;
    write_str fuel (bytes_of "[");;
    write_str fuel (level_str (rec_level r));;
    write_str fuel (bytes_of "] - ");;
    write_str fuel (rec_target r);;
    write_str fuel (bytes_of ": ");;
    write_str fuel (rec_args r);;
    write_str fuel RESET_COLOUR;;
    write_str fuel [10].

(** [log::info!] and the other macros *)
Definition log_macro (fuel : nat) (r : LogRecord) : M unit :=
  s ← gets snd;
  if reaches (rec_level r) (global s) then log fuel r else mret tt.

Definition level_message (level : LevelFilter) : LogRecord :=
  mkRecord level_info (bytes_of "vice_kernel::logging") (bytes_of "Log level set to " ++ filter_str level).

Definition set_log_level (fuel : nat) (level : LevelFilter) : M unit :=
  let level_int := filter_int level in
  on_snd (modify (fun s => mkLogState level_int (global s)));;
  log_macro fuel (level_message level).

(** A macro call of level [l] in module [target]. *)
Definition log_at (fuel : nat) (l : Level) (target args : list Z) : M unit :=
  log_macro fuel (mkRecord l target args).

(** [false] is [Err(SetLoggerError)]. *)
Definition init (fuel : nat) (level : LevelFilter) : M bool :=
  s ← gets snd;
  match set_logger (global s) with
  | None => mret false
  | Some g =>
      on_snd (modify (fun s => mkLogState (log_level_int s) (set_max_level Trace g)));;
      set_log_level fuel level;;
      mret true
  end.
End logging.
Arguments LogRecord : clear implicits.
Arguments LogRecord {LC}.

(** What the documentation of the crate says. *)
Class LogLaws (LC : LogCrate) : Prop := {
  level_usize_range : forall l, 1 <= level_usize l <= 5;
  level_le_spec : forall l f, level_le l f = (level_usize l <=? filter_int f);
  level_str_short : forall l, (1 <= length (level_str l) <= 5)%nat;
  error_usize : level_usize level_error = 1;
  info_usize : level_usize level_info = 3;
  debug_usize : level_usize level_debug = 4;
  trace_usize : level_usize level_trace = 5;
  set_logger_reaches : forall g g' l, set_logger g = Some g' -> reaches l (set_max_level Trace g') = true
}.

Section facts.
Context {LC : LogCrate} {LAWS : LogLaws LC}.
Context {D : Type} {DEV : Device D}.

(** * Facts *)

Lemma get_set_level f (s : LogState) : get_log_level (mkLogState (filter_int f) (global s)) = f.
Proof. by destruct f. Qed.

(** The line of a record. *)
Definition line (r : LogRecord) : list Z :=
  replicate (5 - length (level_str (rec_level r))) 32 ++ get_log_colour (rec_level r) ++ [91] ++
  level_str (rec_level r) ++ bytes_of "] - " ++ rec_target r ++ bytes_of ": " ++ rec_args r ++ RESET_COLOUR ++ [10].

(** The pieces written one after the other are their concatenation. *)
Lemma write_str_app {A} fuel xs ys (k : unit -> stateE (Cpu D * LogState) stop A) st :
  (write_str fuel xs;; write_str fuel ys ≫= k) st = (write_str fuel (xs ++ ys) ≫= k) st.
Proof.
  unfold write_str, mbind, stateE_bind, on_fst. rewrite write_string_app.
  unfold mbind, stateE_bind. destruct (write_string fuel xs SERIAL (fst st)) as [[[]|] c]; [|done].
  cbn [fst snd]. by destruct (write_string fuel ys SERIAL c) as [[[]|] ?].
Qed.

Lemma write_str_app_last fuel xs ys (st : Cpu D * LogState) :
  (write_str fuel xs;; write_str fuel ys) st = write_str fuel (xs ++ ys) st.
Proof.
  unfold write_str, mbind, stateE_bind, on_fst. rewrite write_string_app.
  unfold mbind, stateE_bind. by destruct (write_string fuel xs SERIAL (fst st)) as [[[]|] c].
Qed.

Lemma pad_loop fuel n : forall i (st : Cpu D * LogState),
  for_loop n i (fun _ s => match write_str fuel (bytes_of " ") s with
                           | (Ok _, s') => (s', None)
                           | (Err e, s') => (s', Some e)
                           end) st =
  match write_str fuel (replicate n 32) st with
  | (Ok _, s') => (s', None)
  | (Err e, s') => (s', Some e)
  end.
Proof.
  induction n as [|n IH]; intros i st; [by destruct st|].
  cbn [for_loop replicate]. change (32 :: replicate n 32) with (bytes_of " " ++ replicate n 32).
  rewrite <- write_str_app_last. unfold mbind, stateE_bind.
  destruct (write_str fuel (bytes_of " ") st) as [[[]|] s1]; [apply IH|done].
Qed.

Lemma pad_eq fuel l (st : Cpu D * LogState) :
  for_m 0 (pad_len l) (fun _ => write_str fuel (bytes_of " ")) st =
    write_str fuel (replicate (5 - length (level_str l)) 32) st.
Proof.
  unfold for_m, for_range, pad_len. rewrite pad_loop. pose proof (level_str_short l).
  replace (Z.to_nat _) with (5 - length (level_str l))%nat by lia.
  by destruct (write_str _ _ st) as [[[]|] ?].
Qed.

(** A record of an enabled level is its line, sent as one string. *)
Lemma log_eq fuel r (c : Cpu D) (s : LogState) :
  log fuel r (c, s) = if enabled s (rec_level r) then write_str fuel (line r) (c, s) else (Ok tt, (c, s)).
Proof.
  unfold log. rewrite (bind_ok (gets snd) _ (c, s) s (c, s) eq_refl).
  destruct (enabled s (rec_level r)); [|done]. cbn [negb].
  transitivity ((write_str fuel (replicate (5 - length (level_str (rec_level r))) 32);;
    write_str fuel (get_log_colour (rec_level r));; write_str fuel (bytes_of "[");;
    write_str fuel (level_str (rec_level r));; write_str fuel (bytes_of "] - ");;
    write_str fuel (rec_target r);; write_str fuel (bytes_of ": ");; write_str fuel (rec_args r);;
    write_str fuel RESET_COLOUR;; write_str fuel [10]) (c, s)).
  { unfold mbind at 1, stateE_bind at 1. rewrite pad_eq. done. }
  rewrite !write_str_app, write_str_app_last. unfold line. by rewrite <- !app_assoc.
Qed.

Lemma write_str_spec fuel bs c (s : LogState) :
  match write_str fuel bs (c, s) with
  | (Ok _, (c', s')) => s' = s /\ exists l, accesses c' = accesses c ++ l /\ transmission SERIAL (crlf bs) l
  | (Err e, (_, s')) => s' = s /\ e = OutOfFuel
  end.
Proof.
  unfold write_str, on_fst. cbn [fst snd]. pose proof (write_string_spec fuel bs SERIAL c) as H.
  destruct (write_string fuel bs SERIAL c) as [[[]|e] c']; by split.
Qed.

(** A logger that is set up and lets a level through. *)
Definition logs (s : LogState) (l : Level) : Prop := reaches l (global s) = true /\ enabled s l = true.

(** A macro call that is let through sends its line and nothing else; with a
    device that becomes ready it returns. *)
Lemma log_macro_eq fuel r (c : Cpu D) (s : LogState) :
  log_macro fuel r (c, s) =
    if reaches (rec_level r) (global s) && enabled s (rec_level r) then write_str fuel (line r) (c, s)
    else (Ok tt, (c, s)).
Proof.
  unfold log_macro. rewrite (bind_ok (gets snd) _ (c, s) s (c, s) eq_refl).
  destruct (reaches _ _); [|done]. cbn [andb]. apply log_eq.
Qed.

Lemma write_str_ready n fuel bs (c : Cpu D) (s : LogState) :
  (forall d : D, ready_within n SERIAL d) -> (n < fuel)%nat ->
  exists c' l, write_str fuel bs (c, s) = (Ok tt, (c', s)) /\
    accesses c' = accesses c ++ l /\ transmission SERIAL (crlf bs) l /\
    same_but_devices c c'.
Proof.
  intros Hr Hf. destruct (write_string_returns n fuel bs SERIAL c Hr Hf) as [c' E].
  pose proof (write_string_spec fuel bs SERIAL c) as H. pose proof (write_string_cpu fuel bs SERIAL c) as Hs.
  rewrite E in H, Hs. destruct H as (l & Ha & Ht). exists c', l. unfold write_str, on_fst. cbn [fst snd]. by rewrite E.
Qed.

Lemma log_ready n fuel r (c : Cpu D) (s : LogState) :
  (forall d : D, ready_within n SERIAL d) -> (n < fuel)%nat -> logs s (rec_level r) ->
  exists c' l, log_macro fuel r (c, s) = (Ok tt, (c', s)) /\
    accesses c' = accesses c ++ l /\ transmission SERIAL (crlf (line r)) l /\ same_but_devices c c'.
Proof.
  intros Hr Hf [Hreach Hen]. rewrite log_macro_eq, Hreach, Hen. by apply (write_str_ready n).
Qed.

(** * Properties *)

(** C33: a record is logged exactly when its level is enabled, that is, at most the
    level that was set; then, with any device behind the port, the logger sends
    one line, the name of the level padded to five characters in the colour of
    the level, the target, the message, and the colours reset; otherwise it does
    not access the port at all. *)
Theorem log_correct (fuel : nat) (r : LogRecord) (c : Cpu D) (s : LogState) :
  enabled s (rec_level r) = (level_usize (rec_level r) <=? filter_int (get_log_level s)) /\
  (exists k col, level_usize (rec_level r) = Z.of_nat k /\ LOG_LEVEL_COLOURS !! k = Some col /\
    get_log_colour (rec_level r) = col) /\
  length (replicate (5 - length (level_str (rec_level r))) 32 ++ level_str (rec_level r)) = 5%nat /\
  if enabled s (rec_level r) then
    match log fuel r (c, s) with
    | (Ok _, (c', s')) => s' = s /\ exists l, accesses c' = accesses c ++ l /\ transmission SERIAL (crlf (line r)) l
    | (Err e, (_, s')) => s' = s /\ e = OutOfFuel
    end
  else log fuel r (c, s) = (Ok tt, (c, s)).
Proof.
  split; [apply level_le_spec|]. split.
  { pose proof (level_usize_range (rec_level r)). exists (Z.to_nat (level_usize (rec_level r))).
    unfold get_log_colour.
    destruct (lookup_lt_is_Some_2 LOG_LEVEL_COLOURS (Z.to_nat (level_usize (rec_level r)))) as [col Hcol].
    { change (length LOG_LEVEL_COLOURS) with 6%nat. lia. }
    exists col. rewrite Hcol. split; [lia|]. by split. }
  split.
  { pose proof (level_str_short (rec_level r)). rewrite length_app, length_replicate. lia. }
  rewrite log_eq. destruct (enabled s (rec_level r)); [apply write_str_spec|done].
Qed.

(** [init] fails when a logger was set before, and then touches nothing;
    otherwise the level is set, it is the level [get_log_level] gives back, and
    the message that says so is sent exactly when the new level admits it. *)
Theorem logging_init_correct (fuel : nat) (level : LevelFilter) (c : Cpu D) (s : LogState) :
  match set_logger (global s) with
  | None => init fuel level (c, s) = (Ok false, (c, s))
  | Some g =>
      match init fuel level (c, s) with
      | (Ok b, (c', s')) =>
          b = true /\ get_log_level s' = level /\ global s' = set_max_level Trace g /\
          exists l, accesses c' = accesses c ++ l /\
            transmission SERIAL (crlf (if 3 <=? filter_int level then line (level_message level) else [])) l
      | (Err e, (_, s')) => e = OutOfFuel /\ get_log_level s' = level
      end
  end.
Proof.
  unfold init. rewrite (bind_ok (gets snd) _ (c, s) s (c, s) eq_refl).
  destruct (set_logger (global s)) as [g|] eqn:Hg; [|done].
  set (s1 := mkLogState (filter_int level) (set_max_level Trace g)).
  assert (forall k : unit -> stateE (Cpu D * LogState) stop bool,
    (on_snd (modify (fun s => mkLogState (log_level_int s) (set_max_level Trace g)));;
     set_log_level fuel level ≫= k) (c, s) = (log fuel (level_message level) ≫= k) (c, s1)) as ->.
  { intros k. unfold set_log_level, log_macro, gets, on_snd, modify, mbind, stateE_bind.
    cbn [fst snd log_level_int global]. change (global _) with (set_max_level Trace g).
    by rewrite (set_logger_reaches _ _ _ Hg). }
  unfold mbind, stateE_bind. rewrite log_eq.
  assert (enabled s1 (rec_level (level_message level)) = (3 <=? filter_int level)) as ->.
  { unfold enabled, s1. rewrite level_le_spec. cbn [rec_level level_message]. rewrite info_usize. by destruct level. }
  assert (get_log_level s1 = level) as Hlvl by (by destruct level).
  destruct (3 <=? filter_int level).
  - pose proof (write_str_spec fuel (line (level_message level)) c s1) as H.
    destruct (write_str _ _ _) as [[[]|e] [c' s']].
    + destruct H as (-> & l & Ha & Ht). split; [done|]. split; [done|]. split; [done|]. by exists l.
    + by destruct H as [-> ->].
  - split; [done|]. split; [done|]. split; [done|]. exists []. by rewrite app_nil_r.
Qed.
End facts.

(** * Witnesses *)

(** The crate with its five levels; its state is whether a logger was set and
    the maximal level. *)
Definition std_int (f : LevelFilter) : Z :=
  match f with Off => 0 | Error => 1 | Warn => 2 | Info => 3 | Debug => 4 | Trace => 5 end.

Inductive StdLevel : Type := LError | LWarn | LInfo | LDebug | LTrace.

Definition std_level_int (l : StdLevel) : Z :=
  match l with LError => 1 | LWarn => 2 | LInfo => 3 | LDebug => 4 | LTrace => 5 end.

#[local] Instance std_log : LogCrate := {
  Level := StdLevel;
  level_error := LError;
  level_info := LInfo;
  level_debug := LDebug;
  level_trace := LTrace;
  level_usize := std_level_int;
  level_str l := bytes_of match l with LError => "ERROR" | LWarn => "WARN" | LInfo => "INFO" | LDebug => "DEBUG"
                          | LTrace => "TRACE" end;
  level_le l f := std_level_int l <=? std_int f;
  filter_str f := bytes_of match f with Off => "OFF" | Error => "ERROR" | Warn => "WARN" | Info => "INFO"
                           | Debug => "DEBUG" | Trace => "TRACE" end;
  Global := bool * LevelFilter;
  set_logger g := if fst g then None else Some (true, snd g);
  set_max_level f g := (fst g, f);
  reaches l g := fst g && (std_level_int l <=? std_int (snd g))
}.

#[local] Instance std_laws : LogLaws std_log.
Proof.
  split; cbn.
  - intros []; cbn; lia.
  - intros l f. by destruct f.
  - intros []; cbn; lia.
  - done.
  - done.
  - done.
  - done.
  - intros [[] m] g' []; cbn; intros [= <-]; done.
Qed.

Definition some_record : LogRecord := mkRecord (LC := std_log) LWarn (bytes_of "vice_kernel") (bytes_of "hi").

Definition some_state (set : bool) (max : LevelFilter) : LogState (LC := std_log) :=
  mkLogState (LC := std_log) 3 (set, max).

Lemma some_line :
  line some_record = bytes_of " " ++ esc "[33m" ++ bytes_of "[WARN] - vice_kernel: hi" ++ esc "[0m" ++ [10].
Proof. reflexivity. Qed.

Lemma some_record_enabled : enabled (some_state true Trace) (rec_level some_record) = true.
Proof. reflexivity. Qed.

Lemma log_correct_witness :
  match log 1 some_record (reset_cpu, some_state true Trace) with
  | (Ok _, (c', s')) => s' = some_state true Trace /\
      exists l, accesses c' = accesses reset_cpu ++ l /\ transmission SERIAL (crlf (line some_record)) l
  | (Err e, (_, s')) => s' = some_state true Trace /\ e = OutOfFuel
  end.
Proof.
  destruct (log_correct 1 some_record reset_cpu (some_state true Trace)) as (_ & _ & _ & H).
  rewrite some_record_enabled in H. exact H.
Defined.

Lemma first_logger : set_logger (global (some_state false Off)) = Some (true, Off).
Proof. reflexivity. Qed.

Lemma logging_init_correct_witness :
  match init 1 Debug (reset_cpu, some_state false Off) with
  | (Ok b, (_, s')) => b = true /\ get_log_level s' = Debug
  | (Err e, (_, s')) => e = OutOfFuel /\ get_log_level s' = Debug
  end.
Proof.
  pose proof (logging_init_correct 1 Debug reset_cpu (some_state false Off)) as H.
  rewrite first_logger in H.
  destruct (init 1 Debug (reset_cpu, some_state false Off)) as [[b|e] [c' s']]; [|exact H].
  destruct H as (Hb & Hl & _). by split.
Defined.
