(* ===== verification/Fmt.v ===== *)
(** The part of [core::fmt] that the messages of the kernel use: [{}] of an
    unsigned integer and of a string, and [{:#0Wx}], the hexadecimal digits
    behind [0x], padded with zeros to [W] characters.

    A format string with its arguments is a list of pieces; what it prints is
    [render], and [scan] reads the numbers back. *)
From S2P Require Import Prelude.
From Stdlib Require Import ZArith Lia.
From stdpp Require Import base numbers list tactics.
Open Scope Z_scope.

(** * Digits *)

(** The digits of [n], the most significant first. *)
Fixpoint digits (fuel : nat) (b n : Z) : list Z :=
  match fuel with
  | O => []
  | S fuel => if n <? b then [n] else digits fuel b (n / b) ++ [n mod b]
  end.

Definition to_digits (b n : Z) : list Z := digits (S (Z.to_nat (Z.log2 n))) b n.

Definition of_digits (b : Z) (ds : list Z) : Z := fold_left (fun acc d => acc * b + d) ds 0.

Definition digit_char (d : Z) : Z := if d <? 10 then 48 + d else 87 + d.
Definition char_digit (c : Z) : Z := if c <? 58 then c - 48 else c - 87.

(** [{}] *)
Definition fmt_dec (n : Z) : list Z := digit_char <$> to_digits 10 n.

(** [{:#0Wx}]: the prefix counts for the width. *)
Definition fmt_hex (w : nat) (n : Z) : list Z :=
  let ds := digit_char <$> to_digits 16 n in
  [48; 120] ++ replicate (w - 2 - length ds) 48 ++ ds.

(** * Format strings *)

Inductive piece : Type :=
| Lit (s : list Z)
| Dec (n : Z)
| Hex (w : nat) (n : Z).

Definition render_piece (p : piece) : list Z :=
  match p with
  | Lit s => s
  | Dec n => fmt_dec n
  | Hex w n => fmt_hex w n
  end.

Definition render (ps : list piece) : list Z := mjoin (render_piece <$> ps).

(** Reading a text back along a format string whose numbers have a fixed width;
    the numbers in [ps] are not looked at. *)
Fixpoint scan (ps : list piece) (s : list Z) : option (list Z) :=
  match ps with
  | [] => if decide (s = []) then Some [] else None
  | Lit l :: ps => if decide (take (length l) s = l) then scan ps (drop (length l) s) else None
  | Dec _ :: _ => None
  | Hex w _ :: ps =>
      ns ← scan ps (drop w s);
      Some (of_digits 16 (char_digit <$> drop 2 (take w s)) :: ns)
  end.

Definition numbers (ps : list piece) : list Z :=
  omap (fun p => match p with Lit _ => None | Dec n | Hex _ n => Some n end) ps.

(** A number that fits its field. *)
Definition fits (p : piece) : Prop :=
  match p with
  | Lit _ => True
  | Dec _ => False
  | Hex w n => (2 < w)%nat /\ 0 <= n < 16 ^ Z.of_nat (w - 2)
  end.

(** * Facts *)

Lemma of_digits_snoc b ds d : of_digits b (ds ++ [d]) = of_digits b ds * b + d.
Proof. unfold of_digits. by rewrite fold_left_app. Qed.

Lemma digits_spec b fuel : forall n, 1 < b -> 0 <= n < b ^ Z.of_nat fuel ->
  of_digits b (digits fuel b n) = n /\ Forall (fun d => 0 <= d < b) (digits fuel b n) /\
  forall k, (0 < k)%nat -> n < b ^ Z.of_nat k -> (length (digits fuel b n) <= k)%nat.
Proof.
  induction fuel as [|fuel IH]; intros n Hb Hn; cbn [digits].
  { split; [cbn in *; lia|]. split; [constructor|]. intros. cbn. lia. }
  destruct (Z.ltb_spec n b) as [Hlt|Hge].
  { split; [done|]. split; [repeat constructor; lia|]. intros. cbn. lia. }
  rewrite Nat2Z.inj_succ, Z.pow_succ_r in Hn by lia.
  destruct (IH (n / b) Hb) as (Hv & Hf & Hl).
  { split; [apply Z.div_pos; lia|apply Z.div_lt_upper_bound; lia]. }
  split; [rewrite of_digits_snoc, Hv; pose proof (Z.div_mod n b); lia|]. split.
  - apply Forall_app. split; [done|]. repeat constructor; apply Z.mod_pos_bound; lia.
  - intros [|[|k]] Hk Hnk; [lia|cbn in Hnk; lia|]. rewrite length_app. cbn [length].
    enough (length (digits fuel b (n / b)) <= S k)%nat by lia. apply Hl; [lia|].
    rewrite Nat2Z.inj_succ, Z.pow_succ_r in Hnk by lia. apply Z.div_lt_upper_bound; lia.
Qed.

Lemma to_digits_spec b n : 1 < b -> 0 <= n ->
  of_digits b (to_digits b n) = n /\ Forall (fun d => 0 <= d < b) (to_digits b n) /\
  forall k, (0 < k)%nat -> n < b ^ Z.of_nat k -> (length (to_digits b n) <= k)%nat.
Proof.
  intros Hb Hn. apply digits_spec; [done|]. split; [done|].
  destruct (decide (n = 0)) as [->|Hne]; [by apply Z.pow_pos_nonneg; lia|].
  pose proof (Z.log2_spec n ltac:(lia)) as [_ Hlt]. pose proof (Z.log2_nonneg n).
  replace (Z.of_nat _) with (Z.succ (Z.log2 n)) by lia.
  eapply Z.lt_le_trans; [exact Hlt|]. apply Z.pow_le_mono_l. lia.
Qed.

Lemma char_digit_char d : 0 <= d < 16 -> char_digit (digit_char d) = d.
Proof. unfold char_digit, digit_char. intros. destruct (Z.ltb_spec d 10);
  [destruct (Z.ltb_spec (48 + d) 58)|destruct (Z.ltb_spec (87 + d) 58)]; lia. Qed.

Lemma char_digits ds : Forall (fun d => 0 <= d < 16) ds -> char_digit <$> (digit_char <$> ds) = ds.
Proof.
  induction 1 as [|d ds Hd _ IH]; [done|]. rewrite !fmap_cons, IH. by rewrite char_digit_char.
Qed.

(** Leading zeros do not count. *)
Lemma of_digits_zeros b k ds : of_digits b (replicate k 0 ++ ds) = of_digits b ds.
Proof. induction k as [|k IH]; [done|]. cbn. unfold of_digits in *. cbn. exact IH. Qed.

Lemma fmt_dec_value n : 0 <= n -> of_digits 10 (char_digit <$> fmt_dec n) = n.
Proof.
  intros Hn. destruct (to_digits_spec 10 n ltac:(lia) Hn) as (Hv & Hf & _). unfold fmt_dec.
  rewrite char_digits; [done|]. apply (list.Forall_impl _ _ _ Hf). cbn. lia.
Qed.

(** A field is as wide as it says, and its digits are its number. *)
Lemma fmt_hex_spec w n : fits (Hex w n) ->
  length (fmt_hex w n) = w /\ of_digits 16 (char_digit <$> drop 2 (fmt_hex w n)) = n.
Proof.
  intros [Hw Hn]. destruct (to_digits_spec 16 n ltac:(lia) ltac:(lia)) as (Hv & Hf & Hl).
  specialize (Hl (w - 2)%nat ltac:(lia) ltac:(lia)). unfold fmt_hex. split.
  - rewrite !length_app, length_replicate, length_fmap. cbn [length]. lia.
  - change (drop 2 _) with (replicate (w - 2 - length (digit_char <$> to_digits 16 n)) 48 ++
      (digit_char <$> to_digits 16 n)).
    rewrite fmap_app, fmap_replicate. change (char_digit 48) with 0. by rewrite of_digits_zeros, char_digits.
Qed.

Lemma render_cons p ps : render (p :: ps) = render_piece p ++ render ps.
Proof. done. Qed.

(** What is printed reads back. *)
Lemma scan_render ps : Forall fits ps -> scan ps (render ps) = Some (numbers ps).
Proof.
  induction 1 as [|p ps Hp _ IH]; [done|]. rewrite render_cons. destruct p as [l|n|w n]; cbn [scan render_piece].
  - by rewrite take_app_length, drop_app_length, decide_True.
  - done.
  - destruct (fmt_hex_spec w n Hp) as [Hl Hv].
    rewrite drop_app_length', take_app_length' by done. by rewrite IH, Hv.
Qed.

(** The width of a text whose fields fit. *)
Definition width (ps : list piece) : nat :=
  foldr (fun p n => (match p with Lit l => length l | Dec _ => 0 | Hex w _ => w end + n)%nat) 0%nat ps.

Lemma render_width ps : Forall fits ps -> length (render ps) = width ps.
Proof.
  induction 1 as [|p ps Hp _ IH]; [done|]. rewrite render_cons, length_app, IH.
  destruct p as [l|n|w n]; [done|done|]. cbn [render_piece width foldr]. by rewrite (proj1 (fmt_hex_spec w n Hp)).
Qed.

(** Reading only looks at the shape of the format string. *)
Definition blank (p : piece) : piece :=
  match p with Lit l => Lit l | Dec _ => Dec 0 | Hex w _ => Hex w 0 end.

Lemma scan_blank ps s : scan (blank <$> ps) s = scan ps s.
Proof.
  revert s. induction ps as [|[l|n|w n] ps IH]; intros s; [done| |done|]; rewrite fmap_cons; cbn [blank scan].
  - case_decide; [apply IH|done].
  - by rewrite IH.
Qed.

Lemma width_blank ps : width (blank <$> ps) = width ps.
Proof. unfold width. induction ps as [|[l|n|w n] ps IH]; [done|..]; cbn in *; by rewrite IH. Qed.

(** A text reads back along any format string of the same shape. *)
Lemma scan_shape ps qs : blank <$> ps = blank <$> qs -> Forall fits qs ->
  scan ps (render qs) = Some (numbers qs) /\ length (render qs) = width ps.
Proof.
  intros Hb Hq. rewrite <- (scan_blank ps), Hb, scan_blank, <- (width_blank ps), Hb, width_blank.
  split; [by apply scan_render|by apply render_width].
Qed.

Example fmt_examples :
  fmt_hex 6 0x1f = [48; 120; 48; 48; 49; 102] /\ fmt_dec 4096 = [52; 48; 57; 54] /\ fmt_dec 0 = [48].
Proof. repeat split. Qed.
