(* ===== verification/Handlers.v ===== *)
(** [kernel/src/arch/x86_64/idt.rs]: the functions the interrupt stubs call, with
    what they write to the log: the common handler of the hardware interrupts,
    and those of the exceptions, which print the interrupted registers and stop
    the machine. *)
From S2P Require Import Prelude Cpu Serial Keyboard Idt Stubs Logging Fmt.
From Stdlib Require Import ZArith Lia Ascii String.
From stdpp Require Import base numbers list gmap strings tactics.
Open Scope Z_scope.
Open Scope word_scope.

(** The module the records come from. *)
Definition idt_target : list Z := bytes_of "vice_kernel::arch::x86_64::idt".

(** A literal, and one that ends its line. *)
Definition lit (s : string) : piece := Lit (bytes_of s).
Definition litn (s : string) : piece := Lit (bytes_of s ++ [10]).

Record IrqState : Type := mkIrqState {
  TIMER_TICKS : Z;
  keys : KeyState
}.

(** * Messages *)

(** The lines of the registers, behind the indentation [ind]. *)
Definition dump (ind : string) (rip cs rflags rsp ss rax rbx rcx rdx rsi rdi rbp r8 r9 r10 r11 r12 r13 r14 r15 : Z) :
    list piece :=
  [lit ind; lit "RIP="; Hex 18 rip; lit "  CS="; Hex 6 cs; lit "  RFLAGS="; Hex 18 rflags; litn "";
   lit ind; lit "RSP="; Hex 18 rsp; lit "  SS="; Hex 6 ss; litn "";
   lit ind; lit "RAX="; Hex 18 rax; lit "  RBX="; Hex 18 rbx; lit "  RCX="; Hex 18 rcx; lit "  RDX="; Hex 18 rdx; litn "";
   lit ind; lit "RSI="; Hex 18 rsi; lit "  RDI="; Hex 18 rdi; lit "  RBP="; Hex 18 rbp; litn "";
   lit ind; lit "R8 ="; Hex 18 r8; lit "  R9 ="; Hex 18 r9; lit "  R10="; Hex 18 r10; lit "  R11="; Hex 18 r11; litn "";
   lit ind; lit "R12="; Hex 18 r12; lit "  R13="; Hex 18 r13; lit "  R14="; Hex 18 r14; lit "  R15="; Hex 18 r15;
   Lit (esc "[0m" ++ [10])].

(** The message of [exception_no_error!]. *)
Definition exception_message (msg : string) (f : InterruptFrame) : list piece :=
  [lit "Exception: "; lit msg; litn ""] ++
  dump "  " (f_rip f) (f_cs f) (f_rflags f) (f_rsp f) (f_ss f)
    (f_rax f) (f_rbx f) (f_rcx f) (f_rdx f) (f_rsi f) (f_rdi f) (f_rbp f)
    (f_r8 f) (f_r9 f) (f_r10 f) (f_r11 f) (f_r12 f) (f_r13 f) (f_r14 f) (f_r15 f).

(** The message of [exception_with_error!]. *)
Definition exception_error_message (msg : string) (f : InterruptFrameWithError) : list piece :=
  [lit "Exception: "; lit msg; litn ""; lit "  Error Code : "; Hex 18 (error_code f); litn ""] ++
  dump "  " (e_rip f) (e_cs f) (e_rflags f) (e_rsp f) (e_ss f)
    (e_rax f) (e_rbx f) (e_rcx f) (e_rdx f) (e_rsi f) (e_rdi f) (e_rbp f)
    (e_r8 f) (e_r9 f) (e_r10 f) (e_r11 f) (e_r12 f) (e_r13 f) (e_r14 f) (e_r15 f).

(** The three words [page_fault_inner] prints for the error code. *)
Definition page_fault_cause (ec : Z) : string :=
  if negb (Z.land ec (Z.shiftl 1 4) =? 0) then "instruction fetch"
  else if negb (Z.land ec 2 =? 0) then "write"
  else "read".

Definition page_fault_reason (ec : Z) : string :=
  if negb (Z.land ec 1 =? 0) then "protection violation" else "page not present".

Definition page_fault_mode (ec : Z) : string :=
  if negb (Z.land ec 4 =? 0) then "user" else "kernel".

Definition page_fault_message (f : InterruptFrameWithError) (cr2 : Z) : list piece :=
  let ec := error_code f in
  [litn "Exception: Page Fault"; lit "Fault Addr : "; Hex 18 cr2; litn "";
   lit "Error Code : "; Hex 10 ec; lit "  ["; lit (page_fault_mode ec); lit " "; lit (page_fault_cause ec);
   lit " - "; lit (page_fault_reason ec); litn "]"] ++
  dump "" (e_rip f) (e_cs f) (e_rflags f) (e_rsp f) (e_ss f)
    (e_rax f) (e_rbx f) (e_rcx f) (e_rdx f) (e_rsi f) (e_rdi f) (e_rbp f)
    (e_r8 f) (e_r9 f) (e_r10 f) (e_r11 f) (e_r12 f) (e_r13 f) (e_r14 f) (e_r15 f).

(** The name each stub of an exception is declared with. *)
Definition exception_name (s : stub) : string :=
  match s with
  | divide_error => "Divide Error"
  | debug => "Debug"
  | nmi => "NMI"
  | breakpoint => "Breakpoint"
  | overflow => "Overflow"
  | bound_range => "Bound Range Exceeded"
  | invalid_opcode => "Invalid Opcode"
  | device_not_available => "Device Not Available"
  | x87_fp_exception => "x87 FP Exception"
  | simd_fp_exception => "SIMD FP Exception"
  | virtualization => "Virtualization Exception"
  | machine_check => "Machine Check"
  | double_fault => "Double Fault"
  | invalid_tss => "Invalid TSS"
  | general_protection => "General Protection Fault"
  | segment_not_present => "Segment Not Present"
  | stack_segment => "Stack Segment Fault"
  | alignment_check => "Alignment Check"
  | page_fault => "Page Fault"
  | irq_stub _ | syscall_handler => ""
  end.

Section handlers.
Context {LC : LogCrate}.
Context {D : Type} {DEV : Device D}.

Abbreviation M := (stateE (Cpu D * LogState) stop).
Abbreviation I := (stateE (Cpu D * LogState * IrqState) stop).

(** * The common handler *)

Definition tick (fuel : nat) : I unit :=
  on_snd (modify (fun s => mkIrqState (TIMER_TICKS s ⊕ 1) (keys s)));;
  s ← gets snd;
  if TIMER_TICKS s mod 100 =? 0 then
    on_fst (log_at fuel level_trace idt_target (render [lit "Timer tick: "; Dec (TIMER_TICKS s)]))
  else mret tt.

Definition keyboard_interrupt : I unit := fun st =>
  let '(c, l, s) := st in
  let '(r, (c', k)) := handle_interrupt (c, keys s) in
  (r, (c', l, mkIrqState (TIMER_TICKS s) k)).

Definition irq_common_handler (fuel : nat) (irq : Z) : I unit :=
  match irq with
  | 0 => tick fuel
  | 1 => keyboard_interrupt
  | 12 => on_fst (log_at fuel level_trace idt_target (render [lit "Mouse interrupt"]))
  | _ => on_fst (log_at fuel level_trace idt_target (render [lit "Received IRQ "; Dec irq]))
  end;;
  on_fst (on_fst (send_eoi irq)).

(** * The exceptions *)

(** [loop { arch::halt() }]: [n] rounds of it. *)
Fixpoint halt_loop (n : nat) : stateE (Cpu D) stop unit :=
  match n with
  | O => fail OutOfFuel
  | S n => Cpu.halt;; halt_loop n
  end.

Definition halt (fuel n : nat) : M unit :=
  log_at fuel level_error idt_target (render [lit "System halted."]);;
  on_fst disable_interrupts;;
  on_fst (halt_loop n).

Definition exception_no_error_inner (msg : string) (fuel n : nat) (f : InterruptFrame) : M unit :=
  log_at fuel level_error idt_target (render (exception_message msg f));;
  halt fuel n.

Definition exception_with_error_inner (msg : string) (fuel n : nat) (f : InterruptFrameWithError) : M unit :=
  log_at fuel level_error idt_target (render (exception_error_message msg f));;
  halt fuel n.

Definition page_fault_inner (fuel n : nat) (f : InterruptFrameWithError) (cr2 : Z) : M unit :=
  log_at fuel level_error idt_target (render (page_fault_message f cr2));;
  halt fuel n.

(** What the stub of an exception calls, on the machine at the call: the
    arguments are in RDI and RSI. *)
Definition exception_handler (s : stub) (fuel n : nat) (m : Machine) : M unit :=
  match s with
  | page_fault => page_fault_inner fuel n (read_frame_with_error m (gpr m RDI)) (gpr m RSI)
  | double_fault | invalid_tss | general_protection | segment_not_present | stack_segment
  | alignment_check =>
      exception_with_error_inner (exception_name s) fuel n (read_frame_with_error m (gpr m RDI))
  | _ => exception_no_error_inner (exception_name s) fuel n (read_frame m (gpr m RDI))
  end.

(** * Facts *)

Context {LAWS : LogLaws LC}.

(** What a macro call sends: its line, when the logger lets the level through. *)
Definition log_bytes (s : LogState) (l : Level) (args : list Z) : list Z :=
  if reaches l (global s) && enabled s l then line (mkRecord l idt_target args) else [].

Section ready.
Context (n0 fuel : nat) (Hready : forall d : D, ready_within n0 SERIAL d) (Hfuel : (n0 < fuel)%nat).

Lemma log_at_ready l args (c : Cpu D) (s : LogState) :
  exists c' t, log_at fuel l idt_target args (c, s) = (Ok tt, (c', s)) /\
    accesses c' = accesses c ++ t /\ transmission SERIAL (crlf (log_bytes s l args)) t /\ same_but_devices c c'.
Proof using Hready Hfuel LAWS.
  unfold log_at. rewrite log_macro_eq. unfold log_bytes. cbn [rec_level].
  destruct (reaches l (global s) && enabled s l).
  - by apply (write_str_ready n0).
  - exists c, []. rewrite app_nil_r. split; [done|]. split; [done|]. split; [done|apply same_refl].
Qed.

(** [halt] reports, and does not return: every [hlt] is executed with interrupts
    off. *)
Lemma halt_stops n (c : Cpu D) (s : LogState) :
  exists c' t, halt fuel n (c, s) = (Err OutOfFuel, (c', s)) /\
    accesses c' = accesses c ++ t /\
    transmission SERIAL (crlf (log_bytes s level_error (bytes_of "System halted."))) t /\
    if_flag c' = false /\ halts c' = (halts c + n)%nat.
Proof using Hready Hfuel LAWS.
  destruct (log_at_ready level_error (render [lit "System halted."]) c s) as (c1 & t & E & Ha & Ht & Hs).
  unfold halt. rewrite (bind_ok _ _ _ _ _ E).
  assert (forall c : Cpu D, if_flag c = false ->
    exists c', halt_loop n c = (Err OutOfFuel, c') /\ accesses c' = accesses c /\
      if_flag c' = false /\ halts c' = (halts c + n)%nat) as H.
  { clear. induction n as [|n IH]; intros c0 Hc; cbn [halt_loop].
    - exists c0. by rewrite Nat.add_0_r.
    - unfold Cpu.halt, mbind, stateE_bind, modify.
      destruct (IH (mkCpu (dev c0) (accesses c0) (Cpu.rflags c0) (cr0 c0) (Cpu.cr2 c0) (cr3 c0) (cr4 c0) (S (halts c0))) Hc)
        as (c' & E & Ha & Hf & Hn). exists c'. cbn [halts accesses] in *. split; [done|]. split; [done|].
      split; [done|lia]. }
  destruct (H _ (if_flag_disabled c1)) as (c' & E' & Ha' & Hf & Hn).
  exists c', t. destruct Hs as (_ & _ & _ & _ & _ & Hh).
  cbn [accesses halts set_rflags] in Ha', Hn.
  split; [|split; [by rewrite Ha', Ha|split; [exact Ht|split; [done|by rewrite Hn, Hh]]]].
  unfold on_fst, disable_interrupts, modify, mbind, stateE_bind. cbn [fst snd]. by rewrite E'.
Qed.

(** Any message and then the halt. *)
Lemma report_stops n args (c : Cpu D) (s : LogState) :
  exists c' t, (log_at fuel level_error idt_target args;; halt fuel n) (c, s) = (Err OutOfFuel, (c', s)) /\
    accesses c' = accesses c ++ t /\
    transmission SERIAL (crlf (log_bytes s level_error args ++ log_bytes s level_error (bytes_of "System halted."))) t /\
    if_flag c' = false /\ halts c' = (halts c + n)%nat.
Proof using Hready Hfuel LAWS.
  destruct (log_at_ready level_error args c s) as (c1 & t1 & E & Ha & Ht & Hs).
  destruct (halt_stops n c1 s) as (c2 & t2 & E2 & Ha2 & Ht2 & Hf & Hh).
  exists c2, (t1 ++ t2). rewrite (bind_ok _ _ _ _ _ E), E2. destruct Hs as (_ & _ & _ & _ & _ & Hs).
  split; [done|]. split; [by rewrite Ha2, Ha, app_assoc|]. split; [|split; [done|by rewrite Hh, Hs]].
  rewrite crlf_app. by apply transmission_app.
Qed.
End ready.
End handlers.

(** * Properties *)

(** The message of an exception, from the interrupted program itself. *)
Definition the_message (s : stub) (error : option Z) (m : Machine) : list piece :=
  match error with
  | None => exception_message (exception_name s) (the_frame m)
  | Some e =>
      if decide (s = page_fault) then page_fault_message (the_frame_with_error e m) (cr2 m)
      else exception_error_message (exception_name s) (the_frame_with_error e m)
  end.

(** The numbers it shows, in order. *)
Definition shown (s : stub) (error : option Z) (m : Machine) : list Z :=
  (if decide (s = page_fault) then [cr2 m] else []) ++ option_list error ++
  [rip m; cs m; rflags m; rsp m; ss m; gpr m RAX; gpr m RBX; gpr m RCX; gpr m RDX; gpr m RSI; gpr m RDI; gpr m RBP;
   gpr m R8; gpr m R9; gpr m R10; gpr m R11; gpr m R12; gpr m R13; gpr m R14; gpr m R15].

(** A machine whose registers hold what registers hold. *)
Record machine_ok (m : Machine) : Prop := {
  mo_gpr r : 0 <= gpr m r < 2 ^ 64;
  mo_rip : 0 <= rip m < 2 ^ 64;
  mo_rsp : 0 <= rsp m < 2 ^ 64;
  mo_rflags : 0 <= rflags m < 2 ^ 64;
  mo_cr2 : 0 <= cr2 m < 2 ^ 64;
  mo_cs : 0 <= cs m < 2 ^ 16;
  mo_ss : 0 <= ss m < 2 ^ 16
}.

Definition exception_stub (s : stub) : Prop := s <> syscall_handler /\ forall irq, s <> irq_stub irq.

Section properties.
Context {LC : LogCrate} {LAWS : LogLaws LC}.
Context {D : Type} {DEV : Device D}.
Context (n0 fuel : nat) (Hready : forall d : D, ready_within n0 SERIAL d) (Hfuel : (n0 < fuel)%nat).

(** What the common handler logs. *)
Definition irq_message (irq : Z) (ticks : Z) : option (list piece) :=
  if irq =? 0 then if ticks mod 100 =? 0 then Some [lit "Timer tick: "; Dec ticks] else None
  else if irq =? 1 then None
  else if irq =? 12 then Some [lit "Mouse interrupt"]
  else Some [lit "Received IRQ "; Dec irq].

Lemma on_fst_ok {S T A} (m : stateE S stop A) s (t : T) a s' : m s = (Ok a, s') -> on_fst m (s, t) = (Ok a, (s', t)).
Proof. unfold on_fst. cbn [fst snd]. by intros ->. Qed.

(** The match on the lines, for a line that it does not name. *)
Lemma match_irq {T} (irq : Z) (a b c d : T) :
  irq <> 0 -> irq <> 1 -> irq <> 12 -> (match irq with 0 => a | 1 => b | 12 => c | _ => d end) = d.
Proof using. intros. destruct irq as [|p|p]; [done| |done]. do 4 (try (destruct p as [p|p|]; try done)). Qed.

(** A message and then the end of interrupt. *)
Lemma irq_reports irq args (c : Cpu D) (l : LogState) (s : IrqState) :
  exists c' t,
    (on_fst (log_at fuel level_trace idt_target args);; on_fst (on_fst (send_eoi irq))) (c, l, s) = (Ok tt, (c', l, s)) /\
    accesses c' = accesses c ++ t ++ eoi_accesses irq /\
    transmission SERIAL (crlf (log_bytes l level_trace args)) t.
Proof using Hready Hfuel LAWS.
  destruct (log_at_ready n0 fuel Hready Hfuel level_trace args c l) as (c1 & t & E & Ha & Ht & _).
  destruct (send_eoi_ok irq c1) as (c2 & E2 & Ha2). exists c2, t.
  rewrite (bind_ok _ _ _ _ _ (on_fst_ok _ _ s _ _ E)).
  rewrite (on_fst_ok _ _ s _ _ (on_fst_ok _ _ l _ _ E2)). by rewrite Ha2, Ha, <- app_assoc.
Qed.

(** Nothing to report. *)
Lemma irq_silent irq (c : Cpu D) (l : LogState) (s : IrqState) :
  exists c', on_fst (on_fst (send_eoi irq)) (c, l, s) = (Ok tt, (c', l, s)) /\ accesses c' = accesses c ++ eoi_accesses irq.
Proof using.
  destruct (send_eoi_ok irq c) as (c2 & E2 & Ha2). exists c2. by rewrite (on_fst_ok _ _ s _ _ (on_fst_ok _ _ l _ _ E2)).
Qed.

(** Every line but the keyboard's: the ticks, the message, the end of interrupt. *)
Lemma irq_other_eq irq (c : Cpu D) (l : LogState) (s : IrqState) : irq <> 1 ->
  let s' := mkIrqState (if irq =? 0 then TIMER_TICKS s ⊕ 1 else TIMER_TICKS s) (keys s) in
  irq_common_handler fuel irq (c, l, s) =
    (match irq_message irq (TIMER_TICKS s') with
     | Some ps => on_fst (log_at fuel level_trace idt_target (render ps))
     | None => mret tt
     end;; on_fst (on_fst (send_eoi irq))) (c, l, s').
Proof using.
  intros H1 s'. unfold irq_message. rewrite (proj2 (Z.eqb_neq irq 1) H1).
  destruct (Z.eqb_spec irq 0) as [->|H0].
  - unfold irq_common_handler, tick, mbind, stateE_bind, on_snd, modify, gets. cbn [fst snd].
    change (mkIrqState (TIMER_TICKS s ⊕ 1) (keys s)) with s'. by destruct (TIMER_TICKS s' mod 100 =? 0).
  - assert (s' = s) as -> by (unfold s'; by destruct s).
    destruct (Z.eqb_spec irq 12) as [->|H12]; [done|]. unfold irq_common_handler. by rewrite match_irq by done.
Qed.

(** C23: the common handler: line 0 counts a tick, modulo 2^64, and reports every
    hundredth; line 1 reads one byte and gives it to the keyboard driver; the
    other lines are reported. The end of interrupt is sent last, to the slave
    first for the lines from 8 on, and nothing else is accessed. *)
Theorem irq_common_handler_correct (irq : Z) (c : Cpu D) (l : LogState) (s : IrqState) :
  exists c' v t,
    let s' := mkIrqState (if irq =? 0 then TIMER_TICKS s ⊕ 1 else TIMER_TICKS s)
                (if irq =? 1 then snd (handle_byte v (keys s)) else keys s) in
    irq_common_handler fuel irq (c, l, s) = (Ok tt, (c', l, s')) /\
    accesses c' = accesses c ++ (if irq =? 1 then [PortIn 1 0x60 v] else t) ++ eoi_accesses irq /\
    transmission SERIAL
      (crlf (match irq_message irq (TIMER_TICKS s') with Some ps => log_bytes l level_trace (render ps) | None => [] end)) t.
Proof using Hready Hfuel LAWS.
  destruct (decide (irq = 1)) as [->|H1].
  { pose proof (handle_interrupt_eq c (keys s)) as Hi. destruct (dev_in 1 0x60 (dev c)) as [v d].
    set (s' := mkIrqState (TIMER_TICKS s) (snd (handle_byte (wrap 8 v) (keys s)))).
    destruct (irq_silent 1 (set_dev d (PortIn 1 0x60 (wrap 8 v)) c) l s') as (c' & E & Ha).
    exists c', (wrap 8 v), []. split; [|split; [by rewrite Ha; cbn [accesses set_dev]; rewrite <- app_assoc|done]].
    refine (eq_trans (bind_ok keyboard_interrupt (fun _ => on_fst (on_fst (send_eoi 1))) _ tt _ _) E).
    unfold keyboard_interrupt. rewrite Hi. unfold s'. by rewrite handle_byte_eq by (apply wrap_range; lia). }
  set (s' := mkIrqState (if irq =? 0 then TIMER_TICKS s ⊕ 1 else TIMER_TICKS s) (keys s)).
  rewrite (irq_other_eq irq c l s H1). fold s'. destruct (irq_message irq (TIMER_TICKS s')) as [ps|] eqn:Hps.
  - destruct (irq_reports irq (render ps) c l s') as (c' & t & E' & Ha & Ht). exists c', 0, t. cbv zeta.
    rewrite (proj2 (Z.eqb_neq irq 1) H1). fold s'. by rewrite Hps.
  - destruct (irq_silent irq c l s') as (c' & E' & Ha). exists c', 0, []. cbv zeta.
    rewrite (proj2 (Z.eqb_neq irq 1) H1). fold s'. by rewrite Hps.
Qed.

(** C21: an exception is reported and stops the machine. For each exception of the
    processor, whatever the gate and the stack it is delivered on, the function
    its stub calls prints the name it was declared with, the error code, CR2 for
    a page fault, and the registers of the interrupted program, then that the
    system is halted, and never returns: after any number of rounds it is still
    halting, with interrupts off. *)
Theorem exception_reports (s : stub) (error : option Z) (g : gate) (top : Z) (m : Machine)
  (f : Machine -> Machine) (n : nat) (c : Cpu D) (l : LogState)
  (Hs : exception_stub s) (Herror : is_Some error <-> pushes_error s = true) :
  exists c' t,
    exception_handler s fuel n (at_call f s (deliver g top error m)) (c, l) = (Err OutOfFuel, (c', l)) /\
    accesses c' = accesses c ++ t /\
    transmission SERIAL (crlf (log_bytes l level_error (render (the_message s error m)) ++
                               log_bytes l level_error (bytes_of "System halted."))) t /\
    if_flag c' = false /\ halts c' = (halts c + n)%nat.
Proof using Hready Hfuel LAWS.
  destruct Hs as [Hs Hirq].
  destruct (handler_reads f s g top error m Hs Herror) as [Hr _]. set (mc := at_call _ _ _) in *. clearbody mc.
  assert (exception_handler s fuel n mc =
    (log_at fuel level_error idt_target (render (the_message s error m));; halt fuel n : stateE (Cpu D * LogState) stop unit)) as ->;
    [|by apply (report_stops n0)].
  assert (match error with
          | None => pushes_error s = false /\ read_frame mc (gpr mc RDI) = the_frame m
          | Some e => pushes_error s = true /\ read_frame_with_error mc (gpr mc RDI) = the_frame_with_error e m /\
                      (s = page_fault -> gpr mc RSI = cr2 m)
          end) as Hr'.
  { destruct error as [e|].
    - split; [by apply Herror; eexists|]. destruct s; try done; by destruct (Hirq irq).
    - split; [|destruct s; try done; by destruct (Hirq irq)].
      destruct (pushes_error s); [|done]. by destruct (proj2 Herror eq_refl). }
  clear Hr Herror Hs. destruct error as [e|].
  - destruct Hr' as (Hp & Hf & H2). destruct s; try discriminate; try (by destruct (Hirq irq));
      unfold exception_handler, exception_with_error_inner, page_fault_inner, the_message; rewrite Hf;
      try (rewrite decide_False by done; done).
    by rewrite H2, decide_True.
  - destruct Hr' as (Hp & Hf). destruct s; try discriminate; try (by destruct (Hirq irq));
      unfold exception_handler, exception_no_error_inner, the_message; by rewrite Hf.
Qed.
End properties.

Lemma fits_64 x : 0 <= x < 2 ^ 64 -> fits (Hex 18 x).
Proof. intros. split; [lia|exact H]. Qed.

Lemma fits_32 x : 0 <= x < 2 ^ 32 -> fits (Hex 10 x).
Proof. intros. split; [lia|exact H]. Qed.

Lemma fits_16 x : 0 <= x < 2 ^ 16 -> fits (Hex 6 x).
Proof. intros. split; [lia|exact H]. Qed.

Create HintDb dump.
#[local] Hint Resolve fits_64 fits_32 fits_16 mo_gpr mo_rip mo_rsp mo_rflags mo_cr2 mo_cs mo_ss : dump.
#[local] Hint Extern 1 (fits _) => exact I : dump.

Lemma dump_fits ind m : machine_ok m ->
  Forall fits (dump ind (rip m) (cs m) (rflags m) (rsp m) (ss m) (gpr m RAX) (gpr m RBX) (gpr m RCX) (gpr m RDX)
    (gpr m RSI) (gpr m RDI) (gpr m RBP) (gpr m R8) (gpr m R9) (gpr m R10) (gpr m R11) (gpr m R12) (gpr m R13)
    (gpr m R14) (gpr m R15)).
Proof. intros Hm. unfold dump. repeat apply list.Forall_cons_2; try apply list.Forall_nil_2; auto with dump. Qed.

Lemma message_fits s error m : machine_ok m -> (forall e, error = Some e -> 0 <= e < 2 ^ 32) ->
  Forall fits (the_message s error m).
Proof.
  intros Hm He. unfold the_message, page_fault_message, exception_error_message, exception_message, the_frame,
    the_frame_with_error. cbn [error_code e_rip e_cs e_rflags e_rsp e_ss e_rax e_rbx e_rcx e_rdx e_rsi e_rdi e_rbp
    e_r8 e_r9 e_r10 e_r11 e_r12 e_r13 e_r14 e_r15 f_rip f_cs f_rflags f_rsp f_ss f_rax f_rbx f_rcx f_rdx f_rsi f_rdi
    f_rbp f_r8 f_r9 f_r10 f_r11 f_r12 f_r13 f_r14 f_r15].
  destruct error as [e|]; [specialize (He e eq_refl); case_decide|];
    (apply Forall_app; split; [|by apply dump_fits]);
    repeat apply list.Forall_cons_2; try apply list.Forall_nil_2; auto with dump; apply fits_64; lia.
Qed.

(** C22: the report of an exception loses nothing: its length does not depend on
    the machine, and the error code, CR2 and every register of the interrupted
    program read back from it, along the format string. *)
Theorem exception_message_reads_back (s : stub) (error : option Z) (m m0 : Machine)
  (Hs : exception_stub s) (Herror : is_Some error <-> pushes_error s = true)
  (Hm : machine_ok m) (He : forall e, error = Some e -> 0 <= e < 2 ^ 32) :
  scan (the_message s error m0) (render (the_message s error m)) = Some (shown s error m) /\
  length (render (the_message s error m)) = width (the_message s error m0).
Proof.
  assert (numbers (the_message s error m) = shown s error m) as <-.
  { destruct Hs as [Hs Hirq]. unfold the_message, shown. destruct error as [e|].
    - by destruct s; try case_decide.
    - rewrite decide_False; [done|]. intros ->. by destruct (proj2 Herror eq_refl). }
  apply scan_shape; [|by apply message_fits]. unfold the_message. destruct error as [e|]; [|done]. by case_decide.
Qed.

(** The words of a page fault are those of its error code: bit 0 is a protection
    violation, bit 1 a write, bit 2 user mode, bit 4 an instruction fetch. *)
Lemma page_fault_words ec :
  page_fault_mode ec = (if Z.testbit ec 2 then "user" else "kernel")%string /\
  page_fault_reason ec = (if Z.testbit ec 0 then "protection violation" else "page not present")%string /\
  page_fault_cause ec =
    (if Z.testbit ec 4 then "instruction fetch" else if Z.testbit ec 1 then "write" else "read")%string.
Proof.
  unfold page_fault_mode, page_fault_reason, page_fault_cause.
  rewrite (land_bit_eqb ec 4), (land_bit_eqb ec 2 ltac:(lia) : (Z.land ec 4 =? 0) = _),
    (land_bit_eqb ec 1 ltac:(lia) : (Z.land ec 2 =? 0) = _),
    (land_bit_eqb ec 0 ltac:(lia) : (Z.land ec 1 =? 0) = _) by lia. by rewrite !negb_involutive.
Qed.

(** * Witnesses *)

(** The logger as [_start64] sets it up. *)
Definition boot_logger : LogState (LC := std_log) := mkLogState (LC := std_log) 5 (true, Trace).

Lemma irq_common_handler_correct_witness :
  exists c', irq_common_handler (LC := std_log) 1 9 (reset_cpu, boot_logger, mkIrqState 0 Keyboard.initial) =
      (Ok tt, (c', boot_logger, mkIrqState 0 Keyboard.initial)) /\
    exists t, accesses c' = accesses reset_cpu ++ t ++ [PortOut 1 0xA0 0x20; PortOut 1 0x20 0x20] /\
      transmission SERIAL (crlf (line (LC := std_log)
        (mkRecord (LC := std_log) LTrace idt_target (bytes_of "Received IRQ 9")))) t.
Proof.
  destruct (irq_common_handler_correct (LC := std_log) (LAWS := std_laws) 0 1 uart_ready (le_n 1) 9 reset_cpu
              boot_logger (mkIrqState 0 Keyboard.initial)) as (c' & v & t & E & Ha & Ht).
  exists c'. split; [exact E|]. exists t. split; [exact Ha|exact Ht].
Defined.

Lemma some_page_fault : exception_stub page_fault /\ (is_Some (Some 6) <-> pushes_error page_fault = true).
Proof. split; [split; [discriminate|intros irq; discriminate]|]. split; [done|by eexists]. Qed.

Lemma exception_reports_witness :
  exists c' t,
    exception_handler (LC := std_log) page_fault 1 5
      (at_call clobber page_fault (deliver some_gate 0x9008 (Some 6) some_machine)) (reset_cpu, boot_logger) =
      (Err OutOfFuel, (c', boot_logger)) /\
    accesses c' = accesses reset_cpu ++ t /\ if_flag c' = false /\ halts c' = 5%nat.
Proof.
  destruct (exception_reports (LC := std_log) (LAWS := std_laws) 0 1 uart_ready (le_n 1) page_fault (Some 6) some_gate
              0x9008 some_machine clobber 5 reset_cpu boot_logger
              (proj1 some_page_fault) (proj2 some_page_fault)) as (c' & t & E & Ha & _ & Hf & Hh).
  exists c', t. split; [exact E|]. split; [exact Ha|]. split; [exact Hf|exact Hh].
Defined.

Lemma some_machine_ok : machine_ok some_machine.
Proof. constructor; cbn; try lia. intros []; lia. Qed.

Lemma exception_message_reads_back_witness :
  scan (the_message page_fault (Some 6) some_machine) (render (the_message page_fault (Some 6) some_machine)) =
    Some (0xdeadbeef :: 6 :: 0x100123 :: 8 :: 0x202 :: 0x9008 :: 0x10 :: 1 :: 0 :: 0 :: 0 :: 0 :: 2 :: replicate 8 0 ++ [3]).
Proof.
  refine (eq_trans (proj1 (exception_message_reads_back page_fault (Some 6) some_machine some_machine
            (proj1 some_page_fault) (proj2 some_page_fault) some_machine_ok _)) eq_refl).
  intros e [= <-]. lia.
Defined.
