(* ===== verification/Devices.v ===== *)
(** The drivers together on one machine: which registers belong to which driver,
    the values they hold, and the calls a client of the drivers can make.

    The code of this file's model is in the files it requires; here is how their
    operations share the devices, the logger and the statics. *)
From S2P Require Import Prelude Cpu Serial Keyboard Idt Stubs Apic Logging Fmt Handlers.
From Stdlib Require Import ZArith Lia.
From stdpp Require Import base numbers list sets strings tactics.
Open Scope Z_scope.
Open Scope word_scope.

(** * Types *)

(** An unsigned integer of [w] bits. *)
Definition u (w z : Z) : Prop := 0 <= z < 2 ^ w.

#[export] Instance u_dec w z : Decision (u w z).
Proof. unfold u. apply _. Defined.

Definition bytes (s : list Z) : Prop := Forall (u 8) s.

(** * Registers *)

Inductive driver : Type := SerialPort | Pics | KeyboardPort | LocalApic.

#[export] Instance driver_eq_dec : EqDecision driver.
Proof. solve_decision. Defined.

Definition serial_ports : list Z := [0x3F8; 0x3F9; 0x3FA; 0x3FB; 0x3FC; 0x3FD].
Definition pic_ports : list Z := [0x20; 0x21; 0xA0; 0xA1].

(** The second is not a register of the APIC: see [Apic.apic_init_correct]. *)
Definition apic_msrs : list Z := [0x1B; 0x2A].

(** Offsets in the page of the APIC. *)
Definition apic_regs : list Z := [0x020; 0x030; 0x0B0; 0x300; 0x310; 0x320; 0x380; 0x390; 0x3E0].

(** The driver an access belongs to; [None] for an access to anything else, or
    with a value that does not fit the register. *)
Definition port_owner (p : Z) : option driver :=
  if decide (p ∈ serial_ports) then Some SerialPort
  else if decide (p ∈ pic_ports) then Some Pics
  else None.

Definition apic_owner (a v : Z) : option driver :=
  if decide (u 32 a /\ a mod 4096 ∈ apic_regs /\ u 32 v) then Some LocalApic else None.

Definition owner (a : access) : option driver :=
  match a with
  | PortIn w p v =>
      if decide (w = 1 /\ u 8 v) then if decide (p = 0x60) then Some KeyboardPort else port_owner p else None
  | PortOut w p v => if decide (w = 1 /\ u 8 v) then port_owner p else None
  | RdMsr r v => if decide (r ∈ apic_msrs /\ u 64 v) then Some LocalApic else None
  | WrMsr r v => if decide (r = 0x1B /\ u 64 v) then Some LocalApic else None
  | RdMmio a v | WrMmio a v => apic_owner a v
  end.

(** * Typed computations *)

(** A state with the accesses made so far, and what is true of its values. *)
Class Typed (S : Type) : Type := {
  trace : S -> list access;
  wf : S -> Prop
}.

(** How a computation may stop without a value. *)
Definition may_stop (e : stop) : Prop := e = OutOfFuel \/ e = Panic "Serial self-test failed".

Section typing.
Context {S : Type} {TS : Typed S}.

(** [m], from a well-formed state: its accesses are of the drivers [ds], the
    state is well-formed again, a result satisfies [T], and an error is one that
    may happen. *)
Definition typed {A} (ds : list driver) (T : A -> Prop) (m : stateE S stop A) : Prop :=
  forall s, wf s ->
    exists l, trace (snd (m s)) = trace s ++ l /\
      Forall (fun a => exists d, owner a = Some d /\ d ∈ ds) l /\
      wf (snd (m s)) /\
      match fst (m s) with Ok a => T a | Err e => may_stop e end.

Lemma typed_ret {A} ds (T : A -> Prop) a : T a -> typed ds T (mret a).
Proof. intros Ha s Hs. exists []. by rewrite app_nil_r. Qed.

Lemma typed_bind {A B} ds (T : A -> Prop) (U : B -> Prop) m f :
  typed ds T m -> (forall a, T a -> typed ds U (f a)) -> typed ds U (m ≫= f).
Proof.
  intros Hm Hf s Hs. destruct (Hm s Hs) as (l & E & Hl & Hw & Hr). unfold mbind, stateE_bind.
  destruct (m s) as [[a|e] s1]; cbn [fst snd] in *; [|by exists l].
  destruct (Hf a Hr s1 Hw) as (l' & E' & Hl' & Hrest). exists (l ++ l').
  rewrite E', E, app_assoc. split; [done|]. by split; [apply Forall_app|].
Qed.

Lemma typed_seq {B} ds (U : B -> Prop) (m : stateE S stop unit) f :
  typed ds (fun _ => True) m -> (forall a, typed ds U (f a)) -> typed ds U (m ≫= f).
Proof. intros Hm Hf. eapply typed_bind; [exact Hm|]. intros a _. apply Hf. Qed.

Lemma typed_mono {A} ds ds' (T U : A -> Prop) m :
  typed ds T m -> (forall a, T a -> U a) -> ds ⊆ ds' -> typed ds' U m.
Proof.
  intros Hm HT Hds s Hs. destruct (Hm s Hs) as (l & E & Hl & Hw & Hr). exists l. split; [done|]. split.
  - apply (list.Forall_impl _ _ _ Hl). intros a (d & Ho & Hd). exists d. split; [done|]. by apply Hds.
  - split; [done|]. destruct (fst (m s)); [by apply HT|done].
Qed.

Lemma typed_weaken {A} ds (T U : A -> Prop) m : typed ds T m -> (forall a, T a -> U a) -> typed ds U m.
Proof. intros. by eapply typed_mono. Qed.

Lemma typed_if {A} ds (T : A -> Prop) (b : bool) m1 m2 : typed ds T m1 -> typed ds T m2 -> typed ds T (if b then m1 else m2).
Proof. by destruct b. Qed.

Lemma typed_fail {A} ds (T : A -> Prop) e : may_stop e -> typed ds T (fail e).
Proof. intros He s Hs. exists []. by rewrite app_nil_r. Qed.

Lemma typed_gets {A} ds (T : A -> Prop) (f : S -> A) : (forall s, wf s -> T (f s)) -> typed ds T (gets f).
Proof. intros Hf s Hs. exists []. rewrite app_nil_r. split; [done|]. split; [done|]. split; [done|]. by apply Hf. Qed.

Lemma typed_modify ds (f : S -> S) :
  (forall s, wf s -> wf (f s) /\ trace (f s) = trace s) -> typed ds (fun _ => True) (modify f).
Proof. intros Hf s Hs. destruct (Hf s Hs) as [Hw Ht]. exists []. rewrite app_nil_r. by split. Qed.

(** One access. *)
Lemma typed_step {A} ds (T : A -> Prop) (m : stateE S stop A) :
  (forall s, wf s -> exists a r d, m s = (Ok r, snd (m s)) /\ trace (snd (m s)) = trace s ++ [a] /\
     wf (snd (m s)) /\ owner a = Some d /\ d ∈ ds /\ T r) ->
  typed ds T m.
Proof.
  intros Hm s Hs. destruct (Hm s Hs) as (a & r & d & E & Ht & Hw & Ho & Hd & HT). exists [a].
  split; [done|]. split; [repeat constructor; by exists d|]. split; [done|]. by rewrite E.
Qed.

(** A loop of [for_m]. *)
Lemma typed_for ds lo hi (body : Z -> stateE S stop unit) :
  (forall i, typed ds (fun _ => True) (body i)) -> typed ds (fun _ => True) (for_m lo hi body).
Proof.
  intros Hb. unfold for_m, for_range. generalize (Z.to_nat (hi - lo)) as n. intros n. revert lo.
  induction n as [|n IH]; intros lo s Hs; cbn [for_loop].
  { exists []. by rewrite app_nil_r. }
  destruct (Hb lo s Hs) as (l & E & Hl & Hw & Hr).
  destruct (body lo s) as [[[]|e] s1]; cbn [fst snd] in *; [|by exists l].
  destruct (IH (lo + 1) s1 Hw) as (l' & E' & Hl' & Hrest). exists (l ++ l').
  rewrite E', E, app_assoc. split; [done|]. by split; [apply Forall_app|].
Qed.
End typing.

(** A computation on a part of the state. *)
Lemma typed_part {S S'} `{Typed S, Typed S'} {A} ds (T : A -> Prop) (get : S -> S') (put : S' -> S -> S)
    (m : stateE S' stop A) :
  (forall s, wf s -> wf (get s) /\ trace (get s) = trace s) ->
  (forall s t, wf s -> wf t -> wf (put t s) /\ trace (put t s) = trace t) ->
  typed ds T m -> typed ds T (fun s => let (r, t) := m (get s) in (r, put t s)).
Proof.
  intros Hget Hput Hm s Hs. destruct (Hget s Hs) as [Hg Htg]. destruct (Hm (get s) Hg) as (l & E & Hl & Hw & Hr).
  destruct (m (get s)) as [r t]. cbn [fst snd] in *. destruct (Hput s t Hs Hw) as [Hp Htp].
  exists l. split; [by rewrite Htp, E, Htg|]. by split.
Qed.

(** * The processor *)

Section cpu.
Context {D : Type} {DEV : Device D}.

#[export] Instance cpu_typed : Typed (Cpu D) := { trace := accesses; wf _ := True }.

Lemma typed_inb ds p :
  (forall v, u 8 v -> exists d, owner (PortIn 1 p v) = Some d /\ d ∈ ds) -> typed ds (u 8) (inb p).
Proof.
  intros Hp. apply typed_step. intros s _. unfold inb, port_in. destruct (dev_in 1 p (dev s)) as [v d'].
  pose proof (wrap_range 8 v ltac:(lia)) as Hv. destruct (Hp (wrap 8 v) Hv) as (d & Ho & Hd).
  by exists (PortIn 1 p (wrap 8 v)), (wrap 8 v), d.
Qed.

Lemma typed_outb ds p v d :
  owner (PortOut 1 p v) = Some d -> d ∈ ds -> typed ds (fun _ => True) (outb p v).
Proof. intros Ho Hd. apply typed_step. intros s _. by exists (PortOut 1 p v), tt, d. Qed.

Lemma typed_rdmsr ds r : r ∈ apic_msrs -> LocalApic ∈ ds -> typed ds (u 64) (rdmsr r).
Proof.
  intros Hr Hd. apply typed_step. intros s _. unfold rdmsr. destruct (dev_rdmsr r (dev s)) as [x d'].
  pose proof (msr_range x) as Hx. eexists (RdMsr r _), _, LocalApic. split; [done|]. split; [done|]. split; [done|].
  split; [|by split]. unfold owner. by rewrite decide_True.
Qed.

Lemma typed_wrmsr ds v : LocalApic ∈ ds -> typed ds (fun _ => True) (wrmsr 0x1B v).
Proof.
  intros Hd. apply typed_step. intros s _. unfold wrmsr. pose proof (msr_range v) as Hv.
  eexists (WrMsr 0x1B _), tt, LocalApic. split; [done|]. split; [done|]. split; [done|].
  split; [|by split]. unfold owner. by rewrite decide_True.
Qed.

(** ** The serial port *)

Definition serial_reg (r : Z) : Prop := Serial.reg SERIAL r ∈ serial_ports.

Lemma serial_in r : serial_reg r -> typed [SerialPort] (u 8) (inb (Serial.reg SERIAL r)).
Proof.
  intros Hr. apply typed_inb. intros v Hv. exists SerialPort. split; [|set_solver]. unfold owner, port_owner.
  rewrite decide_True by done. rewrite decide_False; [by rewrite decide_True|].
  intros E. unfold serial_reg in Hr. rewrite E in Hr. unfold serial_ports in Hr. set_solver.
Qed.

Lemma serial_out r v : serial_reg r -> u 8 v -> typed [SerialPort] (fun _ => True) (outb (Serial.reg SERIAL r) v).
Proof.
  intros Hr Hv. apply (typed_outb _ _ _ SerialPort); [|set_solver]. unfold owner, port_owner.
  rewrite decide_True by done. by rewrite decide_True.
Qed.

Lemma serial_regs r : 0 <= r < 6 -> serial_reg r.
Proof.
  intros Hr. assert (r = 0 \/ r = 1 \/ r = 2 \/ r = 3 \/ r = 4 \/ r = 5) as Hc by lia.
  unfold serial_reg, serial_ports. repeat destruct Hc as [->|Hc]; try subst r;
    repeat first [apply list_elem_of_here|apply list_elem_of_further].
Qed.
End cpu.

Create HintDb typed.
#[export] Hint Resolve typed_ret typed_if serial_in serial_out : typed.
#[export] Hint Extern 1 (serial_reg _) => apply serial_regs; by split : typed.
#[export] Hint Extern 1 (u _ _) => by split : typed.
#[export] Hint Extern 2 (may_stop _) => first [by left|by right] : typed.
#[export] Hint Extern 1 True => exact I : typed.

(** Through the statements of a computation. *)
Ltac typed :=
  repeat first
    [ eassumption
    | progress eauto with typed
    | apply typed_fail
    | apply typed_if
    | eapply typed_seq; [|intros []]
    | eapply typed_bind; [|intros] ].

Section serial.
Context {D : Type} {DEV : Device D}.

Lemma typed_serial_init : typed (S := Cpu D) [SerialPort] (fun _ => True) (Serial.init SERIAL).
Proof.
  unfold Serial.init, serial_disable_interrupts, set_baud, configure_line, configure_fifo, loopback_test. typed.
Qed.

Lemma typed_read_byte :
  typed (S := Cpu D) [SerialPort] (fun o => match o with Some b => u 8 b | None => True end) (read_byte SERIAL).
Proof. unfold read_byte. typed. Qed.

Lemma typed_write_byte fuel b : u 8 b -> typed (S := Cpu D) [SerialPort] (fun _ => True) (write_byte fuel b SERIAL).
Proof.
  intros Hb. unfold write_byte. assert (typed (S := Cpu D) [SerialPort] (fun _ => True) (wait_thr_empty fuel SERIAL)).
  { induction fuel as [|fuel IH]; cbn [wait_thr_empty]; typed. }
  typed.
Qed.

#[local] Hint Resolve typed_write_byte : typed.

Lemma typed_write_string fuel s : bytes s -> typed (S := Cpu D) [SerialPort] (fun _ => True) (write_string fuel s SERIAL).
Proof.
  induction 1 as [|b s Hb _ IH]; cbn [write_string]; typed.
Qed.

(** ** The interrupt controllers *)

Lemma pic_in p : p ∈ pic_ports -> typed (S := Cpu D) [Pics] (u 8) (inb p).
Proof.
  intros Hp. apply typed_inb. intros v Hv. exists Pics. split; [|set_solver]. unfold owner, port_owner.
  rewrite decide_True by done. unfold pic_ports in Hp. unfold serial_ports.
  rewrite 2!decide_False; [by rewrite decide_True|set_solver..].
Qed.

Lemma pic_out p v : p ∈ pic_ports -> u 8 v -> typed (S := Cpu D) [Pics] (fun _ => True) (outb p v).
Proof.
  intros Hp Hv. apply (typed_outb _ _ _ Pics); [|set_solver]. unfold owner, port_owner.
  rewrite decide_True by done. unfold pic_ports in Hp. unfold serial_ports.
  rewrite decide_False; [by rewrite decide_True|set_solver..].
Qed.

#[local] Hint Resolve pic_in pic_out : typed.
#[local] Hint Extern 1 (_ ∈ pic_ports) => unfold pic_ports; set_solver : typed.

Lemma typed_init_pic : typed (S := Cpu D) [Pics] (fun _ => True) init_pic.
Proof. unfold init_pic. typed. Qed.

Lemma typed_pic_eoi irq : typed (S := Cpu D) [Pics] (fun _ => True) (Idt.send_eoi irq).
Proof. unfold Idt.send_eoi. typed. Qed.
End serial.

(** ** The keyboard *)

Section keyboard.
Context {D : Type} {DEV : Device D}.

(** The buffer is not over its bound, and its scancodes are bytes. *)
Definition keys_ok (k : KeyState) : Prop :=
  (length (KEYBOARD_BUF k) <= KEYBOARD_CAP)%nat /\ Forall (fun e => u 8 (scancode e)) (KEYBOARD_BUF k).

#[export] Instance keyboard_typed : Typed (Cpu D * KeyState) :=
  { trace s := accesses (fst s); wf s := keys_ok (snd s) }.

Lemma handle_byte_ok b k : u 8 b -> keys_ok k -> exists k', handle_byte b k = (Ok tt, k') /\ keys_ok k'.
Proof.
  intros Hb [Hl Hk]. rewrite handle_byte_eq by done. eexists. split; [reflexivity|].
  destruct (b =? 0xE0); [by split|]. split; [by apply offer_cap|]. cbn [KEYBOARD_BUF]. unfold offer.
  destruct (_ <? _)%nat; [|done]. apply Forall_app. split; [done|]. by apply Forall_singleton.
Qed.

Lemma typed_keyboard : typed (S := Cpu D * KeyState) [KeyboardPort] (fun _ => True) handle_interrupt.
Proof.
  unfold handle_interrupt. apply (typed_bind _ (u 8)).
  - apply (typed_part _ _ fst (fun t s => (t, snd s))); [done|done|]. apply typed_inb. intros v Hv.
    exists KeyboardPort. split; [|set_solver]. unfold owner. by rewrite decide_True.
  - intros b Hb [c k] Hk. unfold on_snd. cbn [fst snd]. destruct (handle_byte_ok b k Hb Hk) as (k' & E & Hk').
    rewrite E. exists []. by rewrite app_nil_r.
Qed.
End keyboard.

(** ** The logger *)

Lemma bytes_bytes_of s : bytes (bytes_of s).
Proof.
  unfold bytes, bytes_of. apply Forall_fmap, Forall_true. intros c. pose proof (Ascii.nat_ascii_bounded c).
  unfold compose, u. lia.
Qed.

Lemma esc_bytes s : bytes (esc s).
Proof. constructor; [by split|apply bytes_bytes_of]. Qed.

(** The numbers of a text are not negative, and its literals are bytes. *)
Definition piece_ok (p : piece) : Prop :=
  match p with Lit s => bytes s | Dec n | Hex _ n => 0 <= n end.

Lemma digits_bytes b n : 1 < b <= 16 -> 0 <= n -> bytes (digit_char <$> to_digits b n).
Proof.
  intros Hb Hn. destruct (to_digits_spec b n ltac:(lia) Hn) as (_ & Hd & _). apply Forall_fmap.
  apply (list.Forall_impl _ _ _ Hd). intros d Hr. unfold compose, digit_char, u. destruct (d <? 10); lia.
Qed.

Lemma render_bytes ps : Forall piece_ok ps -> bytes (render ps).
Proof.
  induction 1 as [|p ps Hp _ IH]; [by constructor|]. rewrite render_cons. apply Forall_app. split; [|exact IH].
  destruct p as [s|n|w n]; cbn [render_piece piece_ok] in *; [done|by apply digits_bytes|].
  unfold fmt_hex, bytes. rewrite !Forall_app. split_and!; [by repeat constructor|by apply list.Forall_replicate|].
  by apply digits_bytes.
Qed.

(** The names of the levels and filters are strings. *)
Class LogNames (LC : LogCrate) : Prop := {
  level_str_bytes l : bytes (level_str l);
  filter_str_bytes f : bytes (filter_str f)
}.

Section logger.
Context {LC : LogCrate} {NAMES : LogNames LC}.
Context {D : Type} {DEV : Device D}.

Definition logger_ok (s : LogState) : Prop := u 8 (log_level_int s).

#[export] Instance logger_typed : Typed (Cpu D * LogState) :=
  { trace s := accesses (fst s); wf s := logger_ok (snd s) }.

Definition record_ok (r : LogRecord) : Prop := bytes (rec_target r) /\ bytes (rec_args r).

Lemma typed_write_str fuel s :
  bytes s -> typed (S := Cpu D * LogState) [SerialPort] (fun _ => True) (write_str fuel s).
Proof.
  intros Hs. apply (typed_part _ _ fst (fun t s => (t, snd s))); [done|done|]. by apply typed_write_string.
Qed.

Lemma colour_bytes l : bytes (get_log_colour l).
Proof.
  assert (Forall bytes LOG_LEVEL_COLOURS) as Hc.
  { unfold LOG_LEVEL_COLOURS. forall_cases ltac:(apply esc_bytes). }
  unfold get_log_colour. destruct (LOG_LEVEL_COLOURS !! _) as [c|] eqn:E; cbn [default].
  - by apply (Forall_lookup_1 _ _ _ _ Hc E).
  - apply esc_bytes.
Qed.

Lemma reset_bytes : bytes RESET_COLOUR.
Proof. apply esc_bytes. Qed.

Lemma newline_bytes : bytes [10].
Proof. by repeat constructor. Qed.

#[local] Hint Resolve typed_write_str bytes_bytes_of colour_bytes reset_bytes newline_bytes level_str_bytes : typed.

Lemma typed_log fuel r : record_ok r -> typed (S := Cpu D * LogState) [SerialPort] (fun _ => True) (Logging.log fuel r).
Proof.
  intros [Ht Ha]. unfold Logging.log. apply (typed_bind _ (fun _ => True)); [by apply typed_gets|].
  intros s _. apply typed_if; [by apply typed_ret|]. eapply typed_seq; [|intros []; typed].
  apply typed_for. intros i. typed.
Qed.

Lemma typed_log_macro fuel r :
  record_ok r -> typed (S := Cpu D * LogState) [SerialPort] (fun _ => True) (log_macro fuel r).
Proof.
  intros Hr. unfold log_macro. apply (typed_bind _ (fun _ => True)); [by apply typed_gets|].
  intros s _. apply typed_if; [by apply typed_log|by apply typed_ret].
Qed.

Lemma typed_set_log_level fuel f :
  typed (S := Cpu D * LogState) [SerialPort] (fun _ => True) (set_log_level fuel f).
Proof.
  unfold set_log_level. eapply typed_seq.
  - apply (typed_modify (S := Cpu D * LogState) _ (fun s => (fst s, mkLogState (filter_int f) (global (snd s))))).
    intros s _. split; [|done]. by destruct f.
  - intros []. apply typed_log_macro. split; [apply bytes_bytes_of|]. apply Forall_app.
    split; [apply bytes_bytes_of|apply filter_str_bytes].
Qed.

Lemma typed_log_init fuel f :
  typed (S := Cpu D * LogState) [SerialPort] (fun _ => True) (Logging.init fuel f).
Proof.
  unfold Logging.init. apply (typed_bind _ logger_ok); [by apply typed_gets|]. intros s Hs.
  destruct (set_logger (global s)) as [g|]; [|by apply typed_ret]. eapply typed_seq.
  - apply (typed_modify (S := Cpu D * LogState) _
      (fun s => (fst s, mkLogState (log_level_int (snd s)) (set_max_level Trace g)))).
    by intros [c l] Hl.
  - intros []. eapply typed_seq; [apply typed_set_log_level|]. intros []. by apply typed_ret.
Qed.
End logger.

(** ** The hardware interrupts *)

Section irq.
Context {LC : LogCrate} {NAMES : LogNames LC}.
Context {D : Type} {DEV : Device D}.

Definition irqs_ok (s : IrqState) : Prop := u 64 (TIMER_TICKS s) /\ keys_ok (keys s).

#[export] Instance irq_typed : Typed (Cpu D * LogState * IrqState) :=
  { trace s := accesses (fst (fst s)); wf s := logger_ok (snd (fst s)) /\ irqs_ok (snd s) }.

Definition irq_drivers : list driver := [SerialPort; Pics; KeyboardPort].

Lemma typed_irq_log fuel l ps :
  Forall piece_ok ps ->
  typed (S := Cpu D * LogState * IrqState) irq_drivers (fun _ => True) (on_fst (log_at fuel l idt_target (render ps))).
Proof.
  intros Hps. apply (typed_part _ _ fst (fun t s => (t, snd s))).
  - by intros s [Hl _].
  - intros s t [_ Hi] Ht. by split.
  - apply (typed_mono [SerialPort] _ (fun _ => True)); [|done|set_solver]. apply typed_log_macro.
    split; [apply bytes_bytes_of|by apply render_bytes].
Qed.

Lemma typed_tick fuel : typed (S := Cpu D * LogState * IrqState) irq_drivers (fun _ => True) (tick fuel).
Proof.
  unfold tick. eapply typed_seq.
  - apply (typed_modify (S := Cpu D * LogState * IrqState) _
      (fun s => (fst s, mkIrqState (TIMER_TICKS (snd s) ⊕ 1) (keys (snd s))))).
    intros s (Hl & _ & Hk). split; [|done]. split; [done|]. split; [apply wrap_range; lia|done].
  - intros []. apply (typed_bind _ irqs_ok); [by apply typed_gets; intros s []|]. intros s [Ht _].
    apply typed_if; [|by apply typed_ret]. apply typed_irq_log.
    forall_cases ltac:(first [apply bytes_bytes_of|exact (proj1 Ht)]).
Qed.

Lemma typed_keyboard_interrupt :
  typed (S := Cpu D * LogState * IrqState) irq_drivers (fun _ => True) keyboard_interrupt.
Proof.
  intros [[c l] s] [Hl [Ht Hk]].
  destruct (typed_mono [KeyboardPort] irq_drivers (fun _ => True) (fun _ => True) _ typed_keyboard
              ltac:(done) ltac:(set_solver) (c, keys s) Hk) as (l' & E & Hl' & Hw & Hr).
  unfold keyboard_interrupt. destruct (handle_interrupt (c, keys s)) as [r [c' k]]. cbn [fst snd] in *.
  exists l'. by split_and!.
Qed.

(** The [match] on the number of the line. *)
Lemma typed_match_irq {A S} `{Typed S} ds (T : A -> Prop) (m0 m1 m12 m : stateE S stop A) irq :
  typed ds T m0 -> typed ds T m1 -> typed ds T m12 -> typed ds T m ->
  typed ds T (match irq with 0 => m0 | 1 => m1 | 12 => m12 | _ => m end).
Proof. intros. destruct irq as [|p|p]; [done| |done]. repeat (destruct p as [p|p|]; try done). Qed.

Lemma typed_irq fuel irq : u 8 irq ->
  typed (S := Cpu D * LogState * IrqState) irq_drivers (fun _ => True) (irq_common_handler fuel irq).
Proof.
  intros Hi. unfold irq_common_handler. eapply typed_seq.
  - apply typed_match_irq; [apply typed_tick|apply typed_keyboard_interrupt|apply typed_irq_log..].
    + forall_cases ltac:(apply bytes_bytes_of).
    + forall_cases ltac:(first [apply bytes_bytes_of|exact (proj1 Hi)]).
  - intros _. apply (typed_part _ _ fst (fun t s => (t, snd s))).
    + by intros s [Hl _].
    + intros s t [_ Hs] Ht. by split.
    + apply (typed_part _ _ fst (fun t s => (t, snd s))); [done|done|].
      apply (typed_mono [Pics] _ (fun _ => True)); [apply typed_pic_eoi|done|set_solver].
Qed.
End irq.

(** ** The local APIC *)

Section apic.
Context {D : Type} {DEV : Device D}.

(** The base is that of a page, below 4 GiB. *)
Definition base_ok (b : Z) : Prop := u 32 b /\ b mod 4096 = 0.

#[export] Instance apic_typed : Typed (Cpu D * Z) := { trace s := accesses (fst s); wf s := base_ok (snd s) }.

Lemma masked_base_ok v : u 64 v -> base_ok (Z.land v 0xFFFFF000).
Proof.
  intros Hv. assert (Z.land v 0xFFFFF000 = v / 2 ^ 12 mod 2 ^ 20 * 2 ^ 12) as ->.
  { rewrite <- Z.land_ones, <- Z.shiftr_div_pow2, <- Z.shiftl_mul_pow2 by lia.
    change 0xFFFFF000 with (Z.shiftl (Z.ones 20) 12). zbits. }
  pose proof (Z.mod_pos_bound (v / 2 ^ 12) (2 ^ 20) ltac:(lia)). split; [unfold u; lia|]. apply Z.mod_mul. lia.
Qed.

Lemma apic_address b off v : base_ok b -> off ∈ apic_regs -> u 32 v -> apic_owner (b ⊕ off) v = Some LocalApic.
Proof.
  intros [Hb Hm] Hoff Hv. assert (u 12 off) as Ho.
  { apply (proj1 (list.Forall_forall (u 12) apic_regs)); [|exact Hoff]. by repeat constructor. }
  unfold u in Hb, Ho. apply Z.div_exact in Hm; [|lia].
  assert (b ⊕ off = b + off) as -> by (apply wrap_small; lia).
  unfold apic_owner. rewrite decide_True; [done|].
  assert ((b + off) mod 4096 = off) as ->.
  { rewrite Hm, Z.mul_comm, Z.add_comm, Z.mod_add by lia. apply Z.mod_small. lia. }
  split; [|by split]. unfold u. assert (b / 4096 < 2 ^ 20) by (apply Z.div_lt_upper_bound; lia). lia.
Qed.

Lemma typed_base ds : typed (S := Cpu D * Z) ds base_ok (gets snd).
Proof. by apply typed_gets. Qed.

Lemma typed_read_reg off : off ∈ apic_regs -> typed (S := Cpu D * Z) [LocalApic] (u 32) (read_reg off).
Proof.
  intros Ho. unfold read_reg. apply (typed_bind _ base_ok); [apply typed_base|]. intros b Hb.
  apply (typed_part _ _ fst (fun t s => (t, snd s))); [done|done|]. apply typed_step. intros s _.
  unfold read_volatile. destruct (dev_read (b ⊕ off) (dev s)) as [v d].
  pose proof (wrap_range 32 v ltac:(lia)) as Hv. exists (RdMmio (b ⊕ off) (wrap 32 v)), (wrap 32 v), LocalApic.
  split; [done|]. split; [done|]. split; [done|]. split; [by apply apic_address|]. split; [set_solver|done].
Qed.

Lemma typed_write_reg off v :
  off ∈ apic_regs -> u 32 v -> typed (S := Cpu D * Z) [LocalApic] (fun _ => True) (write_reg off v).
Proof.
  intros Ho Hv. unfold write_reg. apply (typed_bind _ base_ok); [apply typed_base|]. intros b Hb.
  apply (typed_part _ _ fst (fun t s => (t, snd s))); [done|done|]. apply typed_step. intros s _.
  exists (WrMmio (b ⊕ off) v), tt, LocalApic. split; [done|]. split; [done|]. split; [done|].
  split; [by apply apic_address|]. split; [set_solver|done].
Qed.

#[local] Hint Resolve typed_read_reg typed_write_reg : typed.
#[local] Hint Extern 1 (_ ∈ apic_regs) => unfold apic_regs; set_solver : typed.

Lemma typed_get_id : typed (S := Cpu D * Z) [LocalApic] (u 8) get_id.
Proof.
  unfold get_id. apply (typed_bind _ (u 32)); [typed|]. intros v _. apply typed_ret, wrap_range. lia.
Qed.

Lemma typed_get_version : typed (S := Cpu D * Z) [LocalApic] (u 8) get_version.
Proof.
  unfold get_version. apply (typed_bind _ (u 32)); [typed|]. intros v _. apply typed_ret, wrap_range. lia.
Qed.

#[local] Hint Resolve typed_get_id typed_get_version : typed.

Lemma typed_on_cpu {A} (T : A -> Prop) (m : stateE (Cpu D) stop A) :
  typed [LocalApic] T m -> typed (S := Cpu D * Z) [LocalApic] T (on_fst m).
Proof. by apply (typed_part _ _ fst (fun t s => (t, snd s))). Qed.

Lemma typed_apic_init logged : typed (S := Cpu D * Z) [LocalApic] (fun _ => True) (Apic.init logged).
Proof.
  unfold Apic.init. apply (typed_bind _ (fun _ => True)).
  { apply typed_on_cpu. unfold is_available. apply (typed_bind _ (fun _ => True)); [by apply typed_ret|].
    intros [[[a b] c] d] _. by apply typed_ret. }
  intros av _. apply typed_if; [by apply typed_ret|]. apply (typed_bind _ (u 64)).
  { apply typed_on_cpu, typed_rdmsr; set_solver. }
  intros base Hbase. eapply typed_seq.
  { apply (typed_modify (S := Cpu D * Z) _ (fun s => (fst s, Z.land base 0xFFFFF000))). intros s _.
    split; [by apply masked_base_ok|done]. }
  intros []. eapply typed_seq; [apply typed_on_cpu, typed_wrmsr; set_solver|]. intros [].
  apply (typed_bind _ (u 64)); [apply typed_on_cpu, typed_rdmsr; [|set_solver]|].
  { change (wrap 32 (IA32_APIC_BASE_MSR + regs.SVR / 0x10)) with 0x2A. set_solver. }
  intros svr _. apply (typed_seq _ (fun _ => True)); [|intros []; by apply typed_ret]. typed.
Qed.

Lemma divider_range d : u 32 (divider_bits d).
Proof.
  unfold divider_bits. destruct d as [|p|p]; [by split| |by split].
  repeat (destruct p as [p|p|]; try by split).
Qed.

Lemma lor_word x y : u 32 x -> u 32 y -> u 32 (Z.lor x y).
Proof. apply lor_range. lia. Qed.

Lemma byte_word v : u 8 v -> u 32 v.
Proof. unfold u. lia. Qed.

#[local] Hint Resolve divider_range lor_word byte_word : typed.

Lemma typed_configure_timer v d n p : u 8 v -> u 32 n ->
  typed (S := Cpu D * Z) [LocalApic] (fun _ => True) (configure_timer v d n p).
Proof.
  intros Hv Hn. unfold configure_timer. assert (u 32 (if p then 0x20000 else 0)) by (destruct p; by split). typed.
Qed.

Lemma typed_stop_timer : typed (S := Cpu D * Z) [LocalApic] (fun _ => True) stop_timer.
Proof. unfold stop_timer. typed. Qed.

Lemma typed_send_ipi id v : u 8 v -> typed (S := Cpu D * Z) [LocalApic] (fun _ => True) (send_ipi id v).
Proof.
  intros Hv. unfold send_ipi. pose proof (wrap_range 32 (Z.shiftl id 24) ltac:(lia) : u 32 _). typed.
Qed.

Lemma typed_init_ipi : typed (S := Cpu D * Z) [LocalApic] (fun _ => True) send_init_ipi_all.
Proof. unfold send_init_ipi_all. typed. Qed.

Lemma typed_startup_ipi v : u 8 v -> typed (S := Cpu D * Z) [LocalApic] (fun _ => True) (send_startup_ipi_all v).
Proof. intros Hv. unfold send_startup_ipi_all. typed. Qed.
End apic.

(** * A client of the drivers *)

Section client.
Context {LC : LogCrate} {NAMES : LogNames LC}.
Context {D : Type} {DEV : Device D}.

(** The machine with the statics of the drivers. *)
Record System : Type := mkSystem {
  cpu : Cpu D;
  logger : LogState;
  irqs : IrqState;
  apic_base : Z
}.

#[export] Instance system_typed : Typed System :=
  { trace s := accesses (cpu s); wf s := logger_ok (logger s) /\ irqs_ok (irqs s) /\ base_ok (apic_base s) }.

(** What the rest of the kernel calls, with the type of the result. *)
Inductive call : Type -> Type :=
| InitSerial : call unit
| ReadByte : call (option Z)
| WriteString (s : list Z) : call unit
| LogInit (f : LevelFilter) : call bool
| SetLogLevel (f : LevelFilter) : call unit
| LogRec (r : LogRecord) : call unit
| InitPic : call unit
| Interrupt (irq : Z) : call unit
| ReadKey : call (option KeyEvent)
| ApicInit (logged : bool) : call bool
| ApicEoi : call unit
| GetId : call Z
| GetVersion : call Z
| ConfigureTimer (vector divider initial_count : Z) (periodic : bool) : call unit
| StopTimer : call unit
| TimerCurrent : call Z
| SendIpi (apic_id vector : Z) : call unit
| SendInitIpi : call unit
| SendStartupIpi (vector : Z) : call unit.

Definition on_serial {A} (m : stateE (Cpu D) stop A) : stateE System stop A := fun s =>
  let (r, c) := m (cpu s) in (r, mkSystem c (logger s) (irqs s) (apic_base s)).
Definition on_logger {A} (m : stateE (Cpu D * LogState) stop A) : stateE System stop A := fun s =>
  let (r, t) := m (cpu s, logger s) in (r, mkSystem (fst t) (snd t) (irqs s) (apic_base s)).
Definition on_irqs {A} (m : stateE (Cpu D * LogState * IrqState) stop A) : stateE System stop A := fun s =>
  let (r, t) := m (cpu s, logger s, irqs s) in (r, mkSystem (fst (fst t)) (snd (fst t)) (snd t) (apic_base s)).
Definition on_apic {A} (m : stateE (Cpu D * Z) stop A) : stateE System stop A := fun s =>
  let (r, t) := m (cpu s, apic_base s) in (r, mkSystem (fst t) (logger s) (irqs s) (snd t)).
Definition on_keys {A} (m : stateE KeyState stop A) : stateE System stop A := fun s =>
  let (r, k) := m (keys (irqs s)) in
  (r, mkSystem (cpu s) (logger s) (mkIrqState (TIMER_TICKS (irqs s)) k) (apic_base s)).

Definition run (fuel : nat) {A} (c : call A) : stateE System stop A :=
  match c with
  | InitSerial => on_serial (Serial.init SERIAL)
  | ReadByte => on_serial (read_byte SERIAL)
  | WriteString s => on_serial (write_string fuel s SERIAL)
  | LogInit f => on_logger (Logging.init fuel f)
  | SetLogLevel f => on_logger (set_log_level fuel f)
  | LogRec r => on_logger (log_macro fuel r)
  | InitPic => on_serial init_pic
  | Interrupt irq => on_irqs (irq_common_handler fuel irq)
  | ReadKey => on_keys read_key
  | ApicInit logged => on_apic (Apic.init logged)
  | ApicEoi => on_apic Apic.send_eoi
  | GetId => on_apic get_id
  | GetVersion => on_apic get_version
  | ConfigureTimer v d n p => on_apic (configure_timer v d n p)
  | StopTimer => on_apic stop_timer
  | TimerCurrent => on_apic timer_current
  | SendIpi id v => on_apic (send_ipi id v)
  | SendInitIpi => on_apic send_init_ipi_all
  | SendStartupIpi v => on_apic (send_startup_ipi_all v)
  end.

(** The types of the arguments and of the result, as they are declared. *)
Definition args_ok {A} (c : call A) : Prop :=
  match c with
  | WriteString s => bytes s
  | LogRec r => record_ok r
  | Interrupt irq => u 8 irq
  | ConfigureTimer v d n _ => u 8 v /\ u 8 d /\ u 32 n
  | SendIpi id v => u 8 id /\ u 8 v
  | SendStartupIpi v => u 8 v
  | _ => True
  end.

Definition result_ok {A} (c : call A) : A -> Prop :=
  match c with
  | ReadByte => fun o => match o with Some b => u 8 b | None => True end
  | ReadKey => fun o => match o with Some e => u 8 (scancode e) | None => True end
  | GetId | GetVersion => u 8
  | TimerCurrent => u 32
  | _ => fun _ => True
  end.

(** The drivers whose registers a call may access. *)
Definition drivers {A} (c : call A) : list driver :=
  match c with
  | InitSerial | ReadByte | WriteString _ | LogInit _ | SetLogLevel _ | LogRec _ => [SerialPort]
  | InitPic => [Pics]
  | Interrupt _ => irq_drivers
  | ReadKey => []
  | _ => [LocalApic]
  end.

(** A program that makes calls, each after the results of those before it. *)
Inductive prog (A : Type) : Type :=
| Return (a : A)
| Call {B : Type} (c : call B) (k : B -> prog A).
Arguments Return {A} a.
Arguments Call {A B} c k.

Fixpoint exec (fuel : nat) {A} (p : prog A) : stateE System stop A :=
  match p with
  | Return a => mret a
  | Call c k => b ← run fuel c; exec fuel (k b)
  end.

(** A program that Rust accepts, and that only uses the drivers [ds]: its
    arguments have their types whenever the results it depends on have theirs. *)
Fixpoint prog_ok {A} (ds : list driver) (p : prog A) : Prop :=
  match p with
  | Return _ => True
  | Call c k => args_ok c /\ drivers c ⊆ ds /\ forall b, result_ok c b -> prog_ok ds (k b)
  end.

(** ** Each call is typed *)

Lemma on_serial_typed {A} ds (T : A -> Prop) m : typed ds T m -> typed (S := System) ds T (on_serial m).
Proof. by apply (typed_part _ _ cpu (fun c s => mkSystem c (logger s) (irqs s) (apic_base s))). Qed.

Lemma on_logger_typed {A} ds (T : A -> Prop) m : typed ds T m -> typed (S := System) ds T (on_logger m).
Proof.
  apply (typed_part _ _ (fun s => (cpu s, logger s))
    (fun t s => mkSystem (fst t) (snd t) (irqs s) (apic_base s))).
  - by intros s [Hl _].
  - by intros s t (_ & Hi & Hb) Ht.
Qed.

Lemma on_irqs_typed {A} ds (T : A -> Prop) m : typed ds T m -> typed (S := System) ds T (on_irqs m).
Proof.
  apply (typed_part _ _ (fun s => (cpu s, logger s, irqs s))
    (fun t s => mkSystem (fst (fst t)) (snd (fst t)) (snd t) (apic_base s))).
  - by intros s (Hl & Hi & _).
  - by intros s t (_ & _ & Hb) [Hl Hi].
Qed.

Lemma on_apic_typed {A} ds (T : A -> Prop) m : typed ds T m -> typed (S := System) ds T (on_apic m).
Proof.
  apply (typed_part _ _ (fun s => (cpu s, apic_base s))
    (fun t s => mkSystem (fst t) (logger s) (irqs s) (snd t))).
  - by intros s (_ & _ & Hb).
  - by intros s t (Hl & Hi & _) Hb.
Qed.

Lemma typed_read_key :
  typed (S := System) [] (fun o => match o with Some e => u 8 (scancode e) | None => True end) (on_keys read_key).
Proof.
  intros s (Hl & (Ht & Hlen & Hk) & Hb). exists []. unfold on_keys, read_key. rewrite app_nil_r.
  destruct (KEYBOARD_BUF (keys (irqs s))) as [|e rest] eqn:E; cbn [fst snd].
  - split; [done|]. split; [constructor|]. split; [|done]. split; [done|]. split; [|done]. split; [done|].
    unfold keys_ok. cbn. by rewrite E.
  - apply list.Forall_cons in Hk as [He Hk]. split; [done|]. split; [constructor|]. split; [|done]. split; [done|].
    split; [|done]. split; [done|]. split; [|done]. cbn in *. lia.
Qed.

Lemma typed_call fuel {A} (c : call A) : args_ok c -> typed (drivers c) (result_ok c) (run fuel c).
Proof.
  intros Ha. destruct c; cbn [run drivers result_ok args_ok] in *;
    first [apply on_serial_typed|apply on_logger_typed|apply on_irqs_typed|apply on_apic_typed|apply typed_read_key].
  - apply typed_serial_init.
  - apply typed_read_byte.
  - by apply typed_write_string.
  - apply typed_log_init.
  - apply typed_set_log_level.
  - by apply typed_log_macro.
  - apply typed_init_pic.
  - by apply typed_irq.
  - apply typed_apic_init.
  - apply typed_write_reg; [unfold apic_regs; set_solver|by split].
  - apply typed_get_id.
  - apply typed_get_version.
  - destruct Ha as (Hv & _ & Hn). by apply typed_configure_timer.
  - apply typed_stop_timer.
  - apply typed_read_reg. unfold apic_regs. set_solver.
  - by apply typed_send_ipi, Ha.
  - apply typed_init_ipi.
  - by apply typed_startup_ipi.
Qed.

Lemma typed_exec fuel {A} ds (p : prog A) : prog_ok ds p -> typed ds (fun _ => True) (exec fuel p).
Proof.
  induction p as [a|B c k IH]; intros Hp; cbn [exec]; [by apply typed_ret|].
  destruct Hp as (Ha & Hd & Hk). apply (typed_bind _ (result_ok c)); [|auto].
  apply (typed_mono (drivers c) ds (result_ok c)); [by apply typed_call|done|done].
Qed.

(** * Properties *)

End client.
Arguments Return {LC A} a.
Arguments Call {LC A B} c k.

(** * Witnesses *)

#[local] Existing Instance std_log.

#[local] Instance std_names : LogNames std_log.
Proof. split; intros []; apply bytes_bytes_of. Qed.

(** A kernel that logs, reads a key after an interrupt, and sends an interrupt to
    the processor the APIC says it is. *)
Definition some_prog : prog unit :=
  Call (LogInit Debug) (fun _ =>
  Call (ApicInit true) (fun _ =>
  Call (Interrupt 1) (fun _ =>
  Call ReadKey (fun _ =>
  Call GetId (fun id =>
  Call (SendIpi id 0x40) (fun _ => Return tt)))))).

Definition some_system : System :=
  mkSystem reset_cpu boot_logger (mkIrqState 0 Keyboard.initial) 0xFEE00000.

Definition all_drivers : list driver := [SerialPort; Pics; KeyboardPort; LocalApic].

Lemma some_prog_ok : prog_ok all_drivers some_prog.
Proof.
  cbn [some_prog prog_ok args_ok drivers result_ok]. unfold irq_drivers, all_drivers.
  do 6 (split; [first [exact I|by split]|]; split; [set_solver|]; intros). exact I.
Qed.

