(* ===== verification/Pc.v ===== *)
(** A computer with the devices the kernel drives, and its hardware interrupts
    from the line to the handler and back.

    The theorems of [Serial], [Idt] and [Keyboard] are about one device each.
    Here the devices stand beside each other, and what is proved of one carries
    over to the computer: a computation that only accesses the ports of a device
    does on the computer what it does on the device alone ([lifted]). *)
From S2P Require Import Prelude Ram Gdt Cpu Serial Keyboard Idt Stubs Logging Fmt Handlers.
From Stdlib Require Import ZArith Lia.
From stdpp Require Import base numbers list gmap sets strings tactics.
Open Scope Z_scope.
Open Scope word_scope.

(** * Parts of a state *)

(** A part [T] of a state [S]. *)
Record lens (S T : Type) : Type := mkLens {
  get : S -> T;
  put : T -> S -> S;
  get_put : forall x s, get (put x s) = x;
  put_put : forall x y s, put y (put x s) = put y s;
  put_get : forall s, put (get s) s = s
}.
Arguments mkLens {S T} _ _ _ _ _.
Arguments get {S T} _ _.
Arguments put {S T} _ _ _.
Arguments get_put {S T} _ _ _.
Arguments put_put {S T} _ _ _ _.
Arguments put_get {S T} _ _.

(** The part of the first component, beside the second. *)
Definition lens_fst {S T : Type} (X : Type) (L : lens S T) : lens (S * X) (T * X).
Proof.
  refine (mkLens (fun s => (get L (fst s), snd s)) (fun t s => (put L (fst t) (fst s), snd t)) _ _ _).
  - intros [t x] s. cbn. by rewrite get_put.
  - intros [t x] [t' x'] s. cbn. by rewrite put_put.
  - intros [s x]. cbn. by rewrite put_get.
Defined.

(** [m] is [m'] on the part, and leaves the rest alone. *)
Definition lifted {S T A : Type} (L : lens S T) (m : stateE S stop A) (m' : stateE T stop A) : Prop :=
  forall s, m s = let (r, t) := m' (get L s) in (r, put L t s).

Section lifted.
Context {S T : Type} (L : lens S T).

Lemma lifted_ret {A} (a : A) : lifted L (mret a) (mret a).
Proof. intros s. unfold mret, stateE_ret. by rewrite put_get. Qed.

Lemma lifted_fail {A} e : lifted (A := A) L (fail e) (fail e).
Proof. intros s. unfold fail. by rewrite put_get. Qed.

Lemma lifted_bind {A B} (m : stateE S stop A) m' (f : A -> stateE S stop B) f' :
  lifted L m m' -> (forall a, lifted L (f a) (f' a)) -> lifted L (m ≫= f) (m' ≫= f').
Proof.
  intros Hm Hf s. unfold mbind, stateE_bind. rewrite (Hm s). destruct (m' (get L s)) as [[a|e] t]; [|done].
  rewrite (Hf a), get_put. destruct (f' a t) as [r u]. by rewrite put_put.
Qed.

Lemma lifted_if {A} (b : bool) (m1 m2 : stateE S stop A) m1' m2' :
  lifted L m1 m1' -> lifted L m2 m2' -> lifted L (if b then m1 else m2) (if b then m1' else m2').
Proof. by destruct b. Qed.

Lemma lifted_on_fst {A X} (m : stateE S stop A) m' :
  lifted L m m' -> lifted (lens_fst X L) (on_fst m) (on_fst m').
Proof.
  intros Hm [s x]. unfold on_fst. cbn [fst snd get put lens_fst]. rewrite (Hm s).
  by destruct (m' (get L s)) as [r t].
Qed.

Lemma lifted_on_snd {A X} (m : stateE X stop A) : lifted (lens_fst X L) (on_snd m) (on_snd m).
Proof.
  intros [s x]. unfold on_snd. cbn [fst snd get put lens_fst]. destruct (m x) as [r y]. cbn. by rewrite put_get.
Qed.

Lemma lifted_gets_snd {X} : lifted (lens_fst X L) (gets snd) (gets snd).
Proof. intros [s x]. unfold gets. cbn. by rewrite put_get. Qed.

(** A run on the part gives the run on the whole. *)
Lemma lifted_run {A} (m : stateE S stop A) m' s r t :
  lifted L m m' -> m' (get L s) = (r, t) -> m s = (r, put L t s).
Proof. intros Hm E. rewrite (Hm s). by rewrite E. Qed.
End lifted.

(** * Parts of the devices *)

(** The ports of a device [D'] that is a part of the devices [D]. *)
Class PartOf (D D' : Type) {DEV : Device D} {DEV' : Device D'} : Type := {
  device : lens D D';
  part_ports : list Z;
  part_in p d : p ∈ part_ports -> dev_in 1 p d = let (v, x) := dev_in 1 p (get device d) in (v, put device x d);
  part_out p v d : p ∈ part_ports -> dev_out 1 p v d = put device (dev_out 1 p v (get device d)) d
}.

Section part.
Context {D D' : Type} {DEV : Device D} {DEV' : Device D'} {PART : PartOf D D'}.

(** The processor with the part of its devices. *)
Definition on_part : lens (Cpu D) (Cpu D').
Proof using PART.
  refine (mkLens
    (fun c => mkCpu (get device (dev c)) (accesses c) (Cpu.rflags c) (cr0 c) (Cpu.cr2 c) (cr3 c) (cr4 c) (halts c))
    (fun x c => mkCpu (put device (dev x) (dev c)) (accesses x) (Cpu.rflags x) (cr0 x) (Cpu.cr2 x) (cr3 x) (cr4 x) (halts x))
    _ _ _).
  - intros [] s. cbn. by rewrite get_put.
  - intros x y s. cbn. by rewrite put_put.
  - intros []. cbn. by rewrite put_get.
Defined.

Lemma lifted_inb p : p ∈ part_ports -> lifted on_part (inb p) (inb p).
Proof.
  intros Hp c. unfold inb, port_in. cbn [get on_part dev]. rewrite (part_in p (dev c) Hp).
  destruct (dev_in 1 p (get device (dev c))) as [v x]. reflexivity.
Qed.

Lemma lifted_outb p v : p ∈ part_ports -> lifted on_part (outb p v) (outb p v).
Proof.
  intros Hp c. unfold outb, port_out. cbn [get on_part dev]. by rewrite (part_out p v (dev c) Hp).
Qed.
End part.

Create HintDb lifted.
#[export] Hint Resolve lifted_ret lifted_fail lifted_if lifted_inb lifted_outb lifted_on_fst lifted_on_snd
  lifted_gets_snd : lifted.

(** Through the statements of a computation. *)
Ltac lifted :=
  repeat first
    [ assumption
    | apply lifted_ret | apply lifted_fail | apply lifted_if
    | solve [eauto with lifted]
    | apply lifted_bind; [|intros ?] ].

(** ** The drivers on a part *)

Section serial.
Context {D : Type} {DEV : Device D} {PART : PartOf D Uart}.
Context (Hports : part_ports (D := D) (D' := Uart) = [0x3F8; 0x3F9; 0x3FA; 0x3FB; 0x3FC; 0x3FD]).

Lemma serial_port r : 0 <= r < 6 -> Serial.reg SERIAL r ∈ part_ports (D := D) (D' := Uart).
Proof using Hports.
  intros Hr. rewrite Hports. assert (r = 0 \/ r = 1 \/ r = 2 \/ r = 3 \/ r = 4 \/ r = 5) as Hc by lia.
  repeat destruct Hc as [->|Hc]; try subst r;
    repeat first [apply list_elem_of_here|apply list_elem_of_further].
Qed.

#[local] Hint Extern 1 (Serial.reg SERIAL _ ∈ part_ports) => apply serial_port; by split : lifted.

Lemma lifted_serial_init : lifted (on_part (D := D) (D' := Uart)) (Serial.init SERIAL) (Serial.init SERIAL).
Proof using Hports.
  unfold Serial.init, serial_disable_interrupts, set_baud, configure_line, configure_fifo, loopback_test. lifted.
Qed.

Lemma lifted_write_byte fuel b : lifted (on_part (D := D) (D' := Uart)) (write_byte fuel b SERIAL) (write_byte fuel b SERIAL).
Proof using Hports.
  unfold write_byte. apply lifted_bind; [|intros []; lifted].
  induction fuel as [|fuel IH]; cbn [wait_thr_empty]; lifted.
Qed.

Lemma lifted_write_string fuel s :
  lifted (on_part (D := D) (D' := Uart)) (write_string fuel s SERIAL) (write_string fuel s SERIAL).
Proof using Hports.
  induction s as [|b s IH]; cbn [write_string]; [lifted|].
  apply lifted_bind; [apply lifted_if; [apply lifted_write_byte|lifted]|intros ?].
  apply lifted_bind; [apply lifted_write_byte|intros ?; exact IH].
Qed.
End serial.

Section pics.
Context {D : Type} {DEV : Device D} {PART : PartOf D Pics}.
Context (Hports : part_ports (D := D) (D' := Pics) = [PIC1_CMD; PIC1_DATA; PIC2_CMD; PIC2_DATA]).

Lemma pic_port p : p ∈ [PIC1_CMD; PIC1_DATA; PIC2_CMD; PIC2_DATA] -> p ∈ part_ports (D := D) (D' := Pics).
Proof using Hports. by rewrite Hports. Qed.

#[local] Hint Extern 1 (_ ∈ part_ports) =>
  apply pic_port; repeat first [apply list_elem_of_here|apply list_elem_of_further] : lifted.

Lemma lifted_init_pic : lifted (on_part (D := D) (D' := Pics)) init_pic init_pic.
Proof using Hports. unfold init_pic. lifted. Qed.

Lemma lifted_send_eoi irq : lifted (on_part (D := D) (D' := Pics)) (send_eoi irq) (send_eoi irq).
Proof using Hports. unfold send_eoi. lifted. Qed.
End pics.

Section keyboard.
Context {D : Type} {DEV : Device D} {PART : PartOf D (list Z)}.
Context (Hports : part_ports (D := D) (D' := list Z) = [0x60]).

Lemma lifted_handle_interrupt :
  lifted (lens_fst KeyState (on_part (D := D) (D' := list Z))) handle_interrupt handle_interrupt.
Proof using Hports.
  unfold handle_interrupt. apply lifted_bind; [|intros b; apply lifted_on_snd].
  apply lifted_on_fst, lifted_inb. rewrite Hports. apply list_elem_of_here.
Qed.
End keyboard.

Section logger.
Context {LC : LogCrate} {LAWS : LogLaws LC}.
Context {D : Type} {DEV : Device D} {PART : PartOf D Uart}.
Context (Hports : part_ports (D := D) (D' := Uart) = [0x3F8; 0x3F9; 0x3FA; 0x3FB; 0x3FC; 0x3FD]).

Lemma lifted_log_at fuel l tgt args :
  lifted (lens_fst LogState (on_part (D := D) (D' := Uart))) (log_at fuel l tgt args) (log_at fuel l tgt args).
Proof using Hports LAWS.
  intros [c s]. unfold log_at. cbn [get lens_fst fst snd]. rewrite !log_macro_eq. destruct (_ && _).
  - apply (lifted_on_fst (on_part (D := D) (D' := Uart))). by apply lifted_write_string.
  - cbn [lens_fst put fst snd]. by rewrite put_get.
Qed.
End logger.

(** * The computer *)

(** The controllers of the interrupts, the bytes that the keyboard's controller
    holds, and the serial port. *)
Record Pc : Type := mkPc { pics : Pics; kbd : list Z; com1 : Uart }.

Definition pic_port_list : list Z := [PIC1_CMD; PIC1_DATA; PIC2_CMD; PIC2_DATA].

#[export] Instance pc_device : Device Pc := {
  dev_in w p d :=
    if decide (p ∈ pic_port_list) then let (v, x) := dev_in w p (pics d) in (v, mkPc x (kbd d) (com1 d))
    else if decide (p = 0x60) then let (v, x) := dev_in w p (kbd d) in (v, mkPc (pics d) x (com1 d))
    else let (v, x) := dev_in w p (com1 d) in (v, mkPc (pics d) (kbd d) x);
  dev_out w p v d :=
    if decide (p ∈ pic_port_list) then mkPc (dev_out w p v (pics d)) (kbd d) (com1 d)
    else if decide (p = 0x60) then d
    else mkPc (pics d) (kbd d) (dev_out w p v (com1 d));
  dev_rdmsr _ d := (0, d);
  dev_wrmsr _ _ d := d;
  dev_read _ d := (0, d);
  dev_write _ _ d := d;
  dev_cpuid _ := mkCpuid 0 0 0 0
}.

Definition pics_lens : lens Pc Pics.
Proof. refine (mkLens pics (fun x d => mkPc x (kbd d) (com1 d)) _ _ _); [done|done|by intros []]. Defined.

Definition kbd_lens : lens Pc (list Z).
Proof. refine (mkLens kbd (fun x d => mkPc (pics d) x (com1 d)) _ _ _); [done|done|by intros []]. Defined.

Definition com1_lens : lens Pc Uart.
Proof. refine (mkLens com1 (fun x d => mkPc (pics d) (kbd d) x) _ _ _); [done|done|by intros []]. Defined.

Lemma not_pic_port p : p ∈ [0x3F8; 0x3F9; 0x3FA; 0x3FB; 0x3FC; 0x3FD; 0x60] -> p ∉ pic_port_list.
Proof.
  intros Hp Hq. unfold pic_port_list, PIC1_CMD, PIC1_DATA, PIC2_CMD, PIC2_DATA in Hq. set_solver.
Qed.

#[export] Instance pics_part : PartOf Pc Pics.
Proof.
  refine {| device := pics_lens; part_ports := pic_port_list |}.
  - intros p d Hp. cbn [dev_in pc_device]. by rewrite decide_True.
  - intros p v d Hp. cbn [dev_out pc_device]. by rewrite decide_True.
Defined.

#[export] Instance kbd_part : PartOf Pc (list Z).
Proof.
  refine {| device := kbd_lens; part_ports := [0x60] |}.
  - intros p d Hp. apply list_elem_of_singleton in Hp as ->. cbn [dev_in pc_device].
    rewrite decide_False by (apply not_pic_port; set_solver). by rewrite decide_True.
  - intros p v d Hp. apply list_elem_of_singleton in Hp as ->. cbn [dev_out pc_device].
    rewrite decide_False by (apply not_pic_port; set_solver). rewrite decide_True by done. by destruct d.
Defined.

#[export] Instance com1_part : PartOf Pc Uart.
Proof.
  refine {| device := com1_lens; part_ports := [0x3F8; 0x3F9; 0x3FA; 0x3FB; 0x3FC; 0x3FD] |}.
  - intros p d Hp. cbn [dev_in pc_device]. rewrite decide_False by (apply not_pic_port; set_solver).
    rewrite decide_False by set_solver. done.
  - intros p v d Hp. cbn [dev_out pc_device]. rewrite decide_False by (apply not_pic_port; set_solver).
    rewrite decide_False by set_solver. done.
Defined.

(** ** The drivers on the computer *)

Definition with_pics (p : Pics) (c : Cpu Pc) : Cpu Pc :=
  mkCpu (mkPc p (kbd (dev c)) (com1 (dev c))) (accesses c) (Cpu.rflags c) (cr0 c) (Cpu.cr2 c) (cr3 c) (cr4 c) (halts c).

(** The end of interrupt of a line in service. *)
Lemma pc_eoi irq p v (c : Cpu Pc) :
  0 <= irq < 16 -> raise irq running_pics = Some (v, p) -> pics (dev c) = p ->
  exists c', send_eoi irq c = (Ok tt, c') /\ dev c' = mkPc running_pics (kbd (dev c)) (com1 (dev c)).
Proof.
  intros Hirq Hr Hc. pose proof (lifted_send_eoi (D := Pc) eq_refl irq c) as E.
  destruct (line_ended irq p v (get (on_part (PART := pics_part)) c) Hirq Hr Hc) as (x & Ex & Hx). rewrite Ex in E.
  eexists. split; [exact E|]. cbn. by rewrite Hx.
Qed.

(** The byte the keyboard's controller gives. *)
Definition next_byte (d : Pc) : Z := hd 0 (kbd d).

Lemma pc_keyboard (c : Cpu Pc) k :
  Forall (fun b => 0 <= b < 256) (kbd (dev c)) ->
  exists c', handle_interrupt (c, k) = (Ok tt, (c', snd (handle_byte (next_byte (dev c)) k))) /\
    dev c' = mkPc (pics (dev c)) (tail (kbd (dev c))) (com1 (dev c)) /\ 0 <= next_byte (dev c) < 256.
Proof.
  intros Hb. pose proof (lifted_handle_interrupt (D := Pc) eq_refl (c, k)) as E.
  cbn [get lens_fst fst snd] in E. unfold next_byte.
  pose proof (handle_interrupt_eq (get (on_part (PART := kbd_part)) c) k) as Hi.
  change (dev (get (on_part (PART := kbd_part)) c)) with (kbd (dev c)) in Hi. change (dev_in 1 0x60 (kbd (dev c)))
    with (match kbd (dev c) with b :: l => (b, l) | [] => (0, []) end) in Hi.
  assert (0 <= hd 0 (kbd (dev c)) < 256) as Hr by (destruct Hb; cbn; lia).
  destruct (kbd (dev c)) as [|b l] eqn:Hk; cbn [hd] in *; rewrite wrap_small in Hi by lia;
    rewrite handle_byte_eq in * by lia; rewrite Hi in E; cbn [put lens_fst fst snd] in E;
    (eexists; split; [exact E|]; by split).
Qed.

(** The set-up of the controllers. *)
Lemma pc_init_pic (c : Cpu Pc) :
  exists c', init_pic c = (Ok tt, c') /\ dev c' = mkPc running_pics (kbd (dev c)) (com1 (dev c)).
Proof.
  pose proof (lifted_init_pic (D := Pc) eq_refl c) as E.
  destruct (init_pic_running (get (on_part (PART := pics_part)) c)) as (x & Ex & Hx). rewrite Ex in E.
  eexists. split; [exact E|]. cbn. by rewrite Hx.
Qed.

(** The set-up of the serial port. *)
Lemma pc_serial_init (c : Cpu Pc) : dlab (com1 (dev c)) = false ->
  exists c', Serial.init SERIAL c = (Ok tt, c') /\
    dev c' = mkPc (pics (dev c)) (kbd (dev c)) (configured (sent (com1 (dev c)))).
Proof.
  intros Hd. pose proof (lifted_serial_init (D := Pc) eq_refl c) as E.
  destruct (serial_init_uart (get (on_part (PART := com1_part)) c) Hd) as (x & Ex & Hx). rewrite Ex in E.
  eexists. split; [exact E|]. cbn. by rewrite Hx.
Qed.

Section log.
Context {LC : LogCrate} {LAWS : LogLaws LC}.

(** A log line of [idt.rs]. *)
Lemma pc_log n l args (c : Cpu Pc) (s : LogState) out :
  com1 (dev c) = configured out ->
  exists c', log_at (Datatypes.S n) l idt_target args (c, s) = (Ok tt, (c', s)) /\
    dev c' = mkPc (pics (dev c)) (kbd (dev c)) (configured (out ++ crlf (log_bytes s l args))).
Proof using LAWS.
  intros Hc. pose proof (lifted_log_at (D := Pc) eq_refl (Datatypes.S n) l idt_target args (c, s)) as E.
  cbn [get lens_fst fst snd] in E.
  assert (exists x, log_at (Datatypes.S n) l idt_target args (get on_part c, s) = (Ok tt, (x, s)) /\
    dev x = configured (out ++ crlf (log_bytes s l args))) as (x & Ex & Hx).
  { unfold log_at. rewrite log_macro_eq. unfold log_bytes. cbn [rec_level]. destruct (_ && _).
    - destruct (uart_write_string n (line (mkRecord l idt_target args)) (get (on_part (PART := com1_part)) c) out Hc) as (x & Ex & Hx).
      exists x. split; [|done]. unfold write_str, on_fst. cbn [fst snd]. by rewrite Ex.
    - exists (get (on_part (PART := com1_part)) c). split; [done|]. cbn. by rewrite app_nil_r. }
  rewrite Ex in E. cbn [put lens_fst fst snd] in E. eexists. split; [exact E|]. cbn. by rewrite Hx.
Qed.

(** ** The common handler on the computer *)

(** What the handler of line [irq] sends on the serial port. *)
Definition irq_sends (l : LogState) (irq ticks : Z) : list Z :=
  match irq_message irq ticks with Some ps => crlf (log_bytes l level_trace (render ps)) | None => [] end.

(** A line other than the keyboard's. *)
Lemma pc_irq_other n irq p v (c : Cpu Pc) (l : LogState) (s : IrqState) out :
  0 <= irq < 16 -> irq <> 1 -> raise irq running_pics = Some (v, p) ->
  pics (dev c) = p -> com1 (dev c) = configured out ->
  let ticks := if irq =? 0 then TIMER_TICKS s ⊕ 1 else TIMER_TICKS s in
  exists c', irq_common_handler (Datatypes.S n) irq (c, l, s) = (Ok tt, (c', l, mkIrqState ticks (keys s))) /\
    dev c' = mkPc running_pics (kbd (dev c)) (configured (out ++ irq_sends l irq ticks)).
Proof using LAWS.
  intros Hirq H1 Hr Hp Hc ticks. rewrite (irq_other_eq _ irq c l s H1). cbn [TIMER_TICKS]. fold ticks. unfold irq_sends.
  destruct (irq_message irq ticks) as [ps|].
  - destruct (pc_log n level_trace (render ps) c l out Hc) as (c1 & E1 & Hd1).
    rewrite (bind_ok _ _ _ _ _ (on_fst_ok _ _ _ _ _ E1)).
    destruct (pc_eoi irq p v c1 Hirq Hr) as (c2 & E2 & Hd2); [by rewrite Hd1|].
    exists c2. rewrite (on_fst_ok _ _ _ _ _ (on_fst_ok _ _ _ _ _ E2)). split; [done|]. by rewrite Hd2, Hd1.
  - destruct (pc_eoi irq p v c Hirq Hr Hp) as (c2 & E2 & Hd2). exists c2. split.
    + exact (on_fst_ok _ _ _ _ _ (on_fst_ok _ _ _ _ _ E2)).
    + by rewrite Hd2, Hc, app_nil_r.
Qed.

(** The keyboard's. *)
Lemma pc_irq_keyboard n p v (c : Cpu Pc) (l : LogState) (s : IrqState) :
  raise 1 running_pics = Some (v, p) -> pics (dev c) = p -> Forall (fun b => 0 <= b < 256) (kbd (dev c)) ->
  exists c', irq_common_handler n 1 (c, l, s) =
      (Ok tt, (c', l, mkIrqState (TIMER_TICKS s) (snd (handle_byte (next_byte (dev c)) (keys s))))) /\
    dev c' = mkPc running_pics (tail (kbd (dev c))) (com1 (dev c)).
Proof using.
  intros Hr Hp Hk. destruct (pc_keyboard c (keys s) Hk) as (c1 & E1 & Hd1 & _).
  destruct (pc_eoi 1 p v c1 ltac:(lia) Hr) as (c2 & E2 & Hd2); [by rewrite Hd1|]. exists c2. split.
  - refine (eq_trans (bind_ok keyboard_interrupt (fun _ => on_fst (on_fst (send_eoi 1))) (c, l, s) tt
      (c1, l, mkIrqState (TIMER_TICKS s) (snd (handle_byte (next_byte (dev c)) (keys s)))) _) _).
    + unfold keyboard_interrupt. by rewrite E1.
    + exact (on_fst_ok _ _ _ _ _ (on_fst_ok _ _ _ _ _ E2)).
  - by rewrite Hd2, Hd1.
Qed.
End log.

(** * Interrupts *)

(** The interrupted program with the processor's registers and the stack, and
    what the kernel's handlers work on. *)
Record Computer {LC : LogCrate} : Type := mkComputer {
  running : Machine;
  cpu : Cpu Pc;
  logger : LogState;
  irqs : IrqState
}.

Arguments mkComputer {LC} _ _ _ _.

(** Every stub of [idt.rs]. *)
Definition stubs : list stub :=
  ((fun p : Z * (stub * bool) => fst (snd p)) <$> exceptions) ++ (irq_stub <$> seqZ 0 16) ++ [syscall_handler].

Section computer.
Context {LC : LogCrate} {LAWS : LogLaws LC}.
(** What the compiled handler does to the registers and the stack; where the
    stubs are; the memory with the table, and its base. *)
Context (f : Machine -> Machine) (addr : stub -> Z) (m : ram) (base : Z).

(** The stub at an address. *)
Definition stub_at (a : Z) : option stub := snd <$> list_find (fun s => addr s = a) stubs.

(** Line [irq] is raised while the kernel runs. Nothing happens when interrupts
    are off or the line is masked. Otherwise the processor reads the gate of the
    vector, pushes the interrupted state and runs the stub behind it, which calls
    the common handler. [None]: there is no such gate or stub, or the handler
    does not return. *)
Definition interrupt (fuel : nat) (irq : Z) (s : Computer) : option Computer :=
  if negb (Z.testbit (Stubs.rflags (running s)) 9) then Some s
  else
    match raise irq (pics (dev (cpu s))) with
    | None => Some s
    | Some (v, p) =>
        let g := read_gate m (base + 16 * v) in
        if negb (gate_present g) then None
        else
          match stub_at (gate_offset g) with
          | Some (irq_stub i) =>
              let d := deliver g (Stubs.rsp (running s)) None (running s) in
              let number := wrap 8 (gpr (at_call f (irq_stub i) d) RDI) in
              match irq_common_handler fuel number (with_pics p (cpu s), logger s, irqs s) with
              | (Ok _, (c, l, k)) => Some (mkComputer (exec f (stub_code (irq_stub i)) d) c l k)
              | (Err _, _) => None
              end
          | _ => None
          end
    end.

(** [n] interrupts of one line. *)
Fixpoint interrupted (n : nat) (fuel : nat) (irq : Z) (s : Computer) : option Computer :=
  match n with
  | O => Some s
  | Datatypes.S n => s' ← interrupt fuel irq s; interrupted n fuel irq s'
  end.

(** ** Facts *)

(** The gates [idt::init] leaves, as the processor reads them. *)
Definition gates_ok : Prop := forall v, 0 <= v < 256 ->
  let g := read_gate m (base + 16 * v) in
  match installed v with
  | Some (x, i, ty, dpl) => g = mkGate (addr x) KERNEL_CODE_SELECTOR i (gate_type_bits ty) dpl true
  | None => gate_present g = false
  end.

Context (Hf : returns f) (Haddr : forall x y, x ∈ stubs -> y ∈ stubs -> addr x = addr y -> x = y).
Context (Hgates : gates_ok).

Lemma stub_at_addr x : x ∈ stubs -> stub_at (addr x) = Some x.
Proof using Haddr.
  intros Hx. unfold stub_at. destruct (list_find (fun s => addr s = addr x) stubs) as [[i y]|] eqn:E.
  - apply list_find_Some in E as (Hy & Ha & _). cbn. f_equal. apply Haddr; [by eapply list_elem_of_lookup_2|done|done].
  - apply list_find_None in E. rewrite list.Forall_forall in E. by destruct (E x Hx).
Qed.

Lemma irq_in_stubs irq : 0 <= irq < 16 -> irq_stub irq ∈ stubs.
Proof using.
  intros Hi. unfold stubs. apply elem_of_app. right. apply elem_of_app. left. apply list_elem_of_fmap. exists irq.
  split; [done|]. apply elem_of_seqZ. lia.
Qed.

(** The vector of a line, on the running pair. *)
Lemma raise_running irq : 0 <= irq < 16 -> exists p, raise irq running_pics = Some (32 + irq, p).
Proof using.
  intros Hi. pose proof lines_serviced as Hs. rewrite forallb_forall in Hs.
  specialize (Hs irq (proj1 (list_elem_of_In _ _) (proj2 (elem_of_seqZ 0 16 irq) ltac:(lia)))).
  unfold serviced in Hs. destruct (raise irq running_pics) as [[v p]|]; [|done].
  apply andb_prop in Hs as [Hv _]. apply Z.eqb_eq in Hv. subst v. by exists p.
Qed.

(** The interrupt, down to its handler: the stub of the line runs, and its
    argument is the number of the line. *)
Lemma interrupt_eq fuel irq s p :
  0 <= irq < 16 -> Z.testbit (Stubs.rflags (running s)) 9 = true ->
  pics (dev (cpu s)) = running_pics -> raise irq running_pics = Some (32 + irq, p) ->
  exists r, resumed (Stubs.rsp (running s)) (running s) r /\
    interrupt fuel irq s =
      match irq_common_handler fuel irq (with_pics p (cpu s), logger s, irqs s) with
      | (Ok _, (c, l, k)) => Some (mkComputer r c l k)
      | (Err _, _) => None
      end.
Proof using Hf Haddr Hgates.
  intros Hi Hif Hp Hr. unfold interrupt. rewrite Hif, Hp, Hr. cbn [negb].
  pose proof (Hgates (32 + irq) ltac:(lia)) as Hg. cbv zeta in Hg.
  assert (installed (32 + irq) = Some (irq_stub irq, 0, Interrupt, 0)) as Hin.
  { unfold installed. rewrite (proj2 (Z.eqb_neq _ _)) by lia.
    rewrite (proj2 (Z.leb_le _ _)) by lia. rewrite (proj2 (Z.ltb_lt _ _)) by lia. cbn [andb].
    by replace (32 + irq - 32) with irq by lia. }
  rewrite Hin in Hg. rewrite Hg. cbn [negb gate_present gate_offset]. rewrite (stub_at_addr _ (irq_in_stubs _ Hi)).
  set (g := mkGate _ _ _ _ _ _).
  destruct (handler_reads f (irq_stub irq) g (Stubs.rsp (running s)) None (running s)) as [Ha _];
    [done|by split; [intros []|]|]. cbv zeta in Ha. rewrite Ha.
  rewrite wrap_small by lia. eexists. split; [|reflexivity].
  apply (stub_transparent f (irq_stub irq) g (Stubs.rsp (running s)) None (running s) Hf). by split; [intros []|].
Qed.

(** ** What an interrupt does *)

(** The devices and the statics after line [irq] is served. *)
Definition served (irq : Z) (l : LogState) (out : list Z) (d : Pc) (s : IrqState) : Pc * IrqState :=
  if irq =? 1 then
    (mkPc running_pics (tail (kbd d)) (com1 d),
     mkIrqState (TIMER_TICKS s) (snd (handle_byte (next_byte d) (keys s))))
  else
    let ticks := if irq =? 0 then TIMER_TICKS s ⊕ 1 else TIMER_TICKS s in
    (mkPc running_pics (kbd d) (configured (out ++ irq_sends l irq ticks)), mkIrqState ticks (keys s)).

Lemma interrupt_serves n irq (s : Computer) out :
  0 <= irq < 16 -> Z.testbit (Stubs.rflags (running s)) 9 = true -> pics (dev (cpu s)) = running_pics ->
  com1 (dev (cpu s)) = configured out -> Forall (fun b => 0 <= b < 256) (kbd (dev (cpu s))) ->
  exists s', interrupt (Datatypes.S n) irq s = Some s' /\
    resumed (Stubs.rsp (running s)) (running s) (running s') /\ logger s' = logger s /\
    (dev (cpu s'), irqs s') = served irq (logger s) out (dev (cpu s)) (irqs s).
Proof using Hf Haddr Hgates LAWS.
  intros Hi Hif Hp Hc Hk. destruct (raise_running irq Hi) as [p Hr].
  destruct (interrupt_eq (Datatypes.S n) irq s p Hi Hif Hp Hr) as (r & Hres & E).
  unfold served. destruct (Z.eqb_spec irq 1) as [->|H1].
  - destruct (pc_irq_keyboard (Datatypes.S n) p _ (with_pics p (cpu s)) (logger s) (irqs s) Hr eq_refl Hk) as (c & E' & Hd).
    rewrite E' in E. eexists. split; [exact E|]. split; [done|]. split; [done|]. cbn [cpu irqs]. by rewrite Hd.
  - destruct (pc_irq_other n irq p _ (with_pics p (cpu s)) (logger s) (irqs s) out Hi H1 Hr eq_refl Hc) as (c & E' & Hd).
    rewrite E' in E. eexists. split; [exact E|]. split; [done|]. split; [done|]. cbn [cpu irqs]. by rewrite Hd.
Qed.

Lemma resumed_refl top r : resumed top r r.
Proof using. by split_and!. Qed.

Lemma resumed_trans top r1 r2 r3 : resumed top r1 r2 -> resumed top r2 r3 -> resumed top r1 r3.
Proof using.
  intros (A1 & A2 & A3 & A4 & A5 & A6 & A7) (B1 & B2 & B3 & B4 & B5 & B6 & B7).
  split_and!; try congruence. intros x Hx. by rewrite B7, A7.
Qed.

(** One interrupt for each byte the keyboard's controller holds. *)
Lemma interrupted_bytes n bs : forall (s : Computer) out,
  Forall (fun b => 0 <= b < 256) bs -> kbd (dev (cpu s)) = bs ->
  Z.testbit (Stubs.rflags (running s)) 9 = true -> pics (dev (cpu s)) = running_pics ->
  com1 (dev (cpu s)) = configured out ->
  exists s', interrupted (length bs) (Datatypes.S n) 1 s = Some s' /\
    resumed (Stubs.rsp (running s)) (running s) (running s') /\ logger s' = logger s /\
    dev (cpu s') = mkPc running_pics [] (configured out) /\
    irqs s' = mkIrqState (TIMER_TICKS (irqs s)) (fold_left (fun k b => snd (handle_byte b k)) bs (keys (irqs s))).
Proof using Hf Haddr Hgates LAWS.
  induction bs as [|b bs IH]; intros s out Hbs Hk Hif Hp Hc.
  - exists s. split; [done|]. split; [apply resumed_refl|]. split; [done|].
    destruct s as [r c l [t k]]. cbn [cpu irqs TIMER_TICKS keys] in *. split; [|done].
    destruct (dev c) as [p kb u]. cbn in *. by subst.
  - destruct (interrupt_serves n 1 s out ltac:(lia) Hif Hp Hc) as (s1 & E1 & Hr1 & Hl1 & Hd1); [by rewrite Hk|].
    apply list.Forall_cons in Hbs as [Hb Hbs]. unfold served in Hd1. cbn [Z.eqb Pos.eqb] in Hd1.
    injection Hd1 as Hd1 Hi1. unfold next_byte in Hi1. rewrite Hk in Hd1, Hi1. cbn [hd tail] in Hd1, Hi1.
    destruct Hr1 as (A1 & A2 & A3 & A4 & A5 & A6 & A7).
    destruct (IH s1 out Hbs) as (s' & E & Hr & Hl & Hd & Hi); [by rewrite Hd1|by rewrite A5|by rewrite Hd1|by rewrite Hd1|].
    exists s'. split; [|split; [|split; [by rewrite Hl|split; [done|]]]].
    + cbn [length interrupted]. by rewrite E1.
    + apply (resumed_trans _ _ (running s1)); [by split_and!|]. by rewrite <- A2.
    + rewrite Hi, Hi1. done.
Qed.

(** * Properties *)

End computer.

(** ** From the set-up to the queue *)

(** What [arch::init] does to the devices and the interrupts, in its order: the
    table and the controllers, the serial port, and interrupts on. The segments
    of [gdt::init] and the tables of [paging::init], which access no device, are
    in [Gdt] and [Boot]. *)
Definition arch_init (addr : stub -> Z) (base : Z) : stateE (Cpu Pc * IdtState) stop unit :=
  Idt.init addr base;;
  on_fst (Serial.init SERIAL);;
  on_fst enable_interrupts.

(** It leaves running controllers, a configured port, the table, and interrupts
    on. *)
Lemma arch_init_spec (addr : stub -> Z) (base : Z) (c : Cpu Pc) (t : IdtState) (m : ram) :
  (forall x, 0 <= addr x < 2 ^ 64) -> idt t = IDT -> dlab (com1 (dev c)) = false ->
  exists c1 t1, arch_init addr base (c, t) = (Ok tt, (c1, t1)) /\
    dev c1 = mkPc running_pics (kbd (dev c)) (configured (sent (com1 (dev c)))) /\ if_flag c1 = true /\
    gates_ok addr (copy_bytes (idt_bytes (idt t1)) m base) (idtr_base t1) /\ idtr_base t1 = base /\
    idt t1 = init_table addr IDT.
Proof.
  intros Haddr Hidt Hdlab.
  destruct (idt_init_spec addr base c t m Haddr Hidt) as (c0 & t1 & m1 & m2 & E0 & _ & Hbase & _ & Hg).
  destruct (pc_init_pic c) as (c0' & Ep & Hd0).
  assert (c0 = c0' /\ t1 = mkIdtState (init_table addr (idt t)) (wrap 16 (IDT_SIZE - 1)) base) as [-> Ht1].
  { unfold Idt.init, mbind, stateE_bind, on_snd, on_fst, modify in E0. cbn [fst snd idt idtr_limit] in E0.
    change (init_pic _) with (init_pic c) in E0. rewrite Ep in E0. by injection E0 as <- <-. }
  destruct (pc_serial_init c0') as (c1 & Es & Hd1); [by rewrite Hd0|].
  exists (set_rflags (Z.setbit (Cpu.rflags c1) 9) c1), t1. split; [|split; [|split; [|split; [exact Hg|split; [exact Hbase|by rewrite Ht1, Hidt]]]]].
  - unfold arch_init. rewrite (bind_ok _ _ _ _ _ E0), (bind_ok _ _ _ _ _ (on_fst_ok _ _ t1 _ _ Es)). done.
  - cbn [dev set_rflags]. by rewrite Hd1, Hd0.
  - apply if_flag_enabled.
Qed.

(** The keyboard alone: what its interrupts do with the bytes it holds. *)
Lemma interrupts_bytes bs : forall (c : Cpu (list Z)) k,
  Forall (fun b => 0 <= b < 256) bs -> dev c = bs ->
  exists c', Keyboard.interrupts (length bs) (c, k) =
    (Ok tt, (c', fold_left (fun k b => snd (handle_byte b k)) bs k)).
Proof.
  induction bs as [|b bs IH]; intros c k Hbs Hd; [by exists c|].
  apply list.Forall_cons in Hbs as [Hb Hbs].
  destruct (interrupt_byte b bs c k Hb Hd) as (c1 & Hd1 & E1). cbn [length interrupts].
  rewrite (bind_ok _ _ _ _ _ E1). by apply IH.
Qed.

Lemma strokes_are_bytes ks : Forall stroke_ok ks -> Forall (fun b => 0 <= b < 256) (mjoin (stroke_bytes <$> ks)).
Proof.
  induction 1 as [|k ks Hk _ IH]; [constructor|].
  change (mjoin (stroke_bytes <$> k :: ks)) with (stroke_bytes k ++ mjoin (stroke_bytes <$> ks)).
  apply Forall_app. split; [|exact IH]. destruct (stroke_bytes_ok k Hk) as [Hb _]. unfold stroke_bytes.
  destruct (extended k); cbn [app]; repeat first [apply list.Forall_cons_2; [lia|]|apply list.Forall_nil_2].
Qed.


(** * Witnesses *)

(** A layout of the stubs, and a computer as it is turned on. *)
Definition some_addr (s : stub) : Z :=
  match list_find (fun x => x = s) stubs with
  | Some (i, _) => wrap 64 (0x104000 + 64 * Z.of_nat i)
  | None => 0
  end.

Lemma some_addr_range x : 0 <= some_addr x < 2 ^ 64.
Proof. unfold some_addr. destruct (list_find _ _) as [[i y]|]; [apply wrap_range|]; lia. Qed.

Lemma some_addr_inj x y : x ∈ stubs -> y ∈ stubs -> some_addr x = some_addr y -> x = y.
Proof.
  assert (Forall (fun x => Forall (fun y => some_addr x = some_addr y -> x = y) stubs) stubs) as H.
  { apply (bool_decide_unpack _). vm_compute. exact I. }
  rewrite list.Forall_forall in H. intros Hx. specialize (H x Hx). rewrite list.Forall_forall in H. auto.
Qed.

Definition off_pics : Pics := mkPics (mkPic 0 false 0 0 0xFF 0) (mkPic 0 false 0 0 0xFF 0).

Definition some_pc (bytes : list Z) : Cpu Pc := mkCpu (mkPc off_pics bytes reset_uart) [] 2 0 0 0 0 0.

Definition some_table : ram := copy_bytes (idt_bytes (init_table some_addr IDT)) ∅ 0x5000.

Lemma some_gates : gates_ok some_addr some_table 0x5000.
Proof.
  destruct (arch_init_spec some_addr 0x5000 (some_pc []) (mkIdtState IDT 0 0) ∅ some_addr_range eq_refl eq_refl)
    as (c1 & t1 & _ & _ & _ & Hg & Hb & Ht). by rewrite Hb, Ht in Hg.
Qed.

#[local] Existing Instance std_log.


