(* ===== verification/Panic.v ===== *)
(** [kernel/src/lib.rs]: printing, the panic handler, and the handler of failed
    allocations.

    What core::fmt makes of a [PanicInfo] and of a [Layout] depends on the
    compiler and is a parameter, the class [PanicFmt]. *)
From S2P Require Import Prelude Ram Mem Frames Phys Paging Heap Cpu Serial Logging Fmt Handlers.
From Stdlib Require Import ZArith Lia.
From stdpp Require Import base numbers list strings tactics.
Open Scope Z_scope.

Class PanicFmt : Type := {
  (** [Display] of the information of a panic with a message *)
  panic_info : list Z -> list Z;
  (** [Debug] of a layout *)
  layout_debug : Layout -> list Z
}.

(** The module the records come from. *)
Definition lib_target : list Z := bytes_of "vice_kernel".

Section panic.
Context {LC : LogCrate} {PF : PanicFmt}.
Context {D : Type} {DEV : Device D}.
Context {A : Type} {H : Type} {IH : InnerHeap H}.

Abbreviation M := (stateE (Cpu D * LogState) stop).

(** * Operations *)

(** [serial_print!] *)
Definition serial_print (fuel : nat) (ps : list piece) : M unit := write_str fuel (render ps).

(** [kprintln!], and [serial_println!] *)
Definition kprintln (fuel : nat) (ps : list piece) : M unit := serial_print fuel (ps ++ [Lit [10]]).

(** The panic handler, with a message; [n] rounds of its loop. *)
Definition panic (fuel n : nat) (message : list Z) : M unit :=
  log_at fuel level_error lib_target (render [lit "Kernel panic: "; Lit (panic_info message)]);;
  on_fst (halt_loop n).

(** The three lines of [alloc_error_handler]. *)
Definition failed_line (layout : Layout) : list piece :=
  [lit "Allocation failed: size="; Dec (layout_size layout); lit ", align="; Dec (layout_align layout)].

Definition heap_line (total used free : Z) : list piece :=
  [lit "Heap:  total="; Dec (total / 1024); lit " KiB, used="; Dec (used / 1024); lit " KiB, free=";
   Dec (free / 1024); lit " KiB"].

Definition phys_line (total used free : Z) : list piece :=
  [lit "Phys:  total="; Dec total; lit " pages, used="; Dec used; lit " pages, free="; Dec free; lit " pages"].

Definition alloc_error_handler (fuel n : nat) (layout : Layout) (h : AutoExtendHeap FrameAllocator H) : M unit :=
  let '(heap_free, heap_used) := heap_stats h in
  let heap_total := heap_size h in
  let '(phys_total, phys_used, phys_free) := Phys.stats (frames (machine h)) in
  log_at fuel level_error lib_target (render (failed_line layout));;
  log_at fuel level_error lib_target (render (heap_line heap_total heap_used heap_free));;
  log_at fuel level_error lib_target (render (phys_line phys_total phys_used phys_free));;
  panic fuel n (render [lit "Allocation error: "; Lit (layout_debug layout)]).

(** * Facts *)

Context {LAWS : LogLaws LC}.
Context (n0 fuel : nat) (Hready : forall d : D, ready_within n0 SERIAL d) (Hfuel : (n0 < fuel)%nat).

(** A line of the level [error], when the logger lets it through. *)
Definition error_line (s : LogState) (args : list Z) : list Z :=
  if reaches level_error (global s) && enabled s level_error then line (mkRecord level_error lib_target args) else [].

(** An error line and then a computation that sends [bs] and does not return. *)
Lemma error_then (m : M unit) args bs n (s : LogState) (c : Cpu D) :
  (forall c : Cpu D, exists c' t, m (c, s) = (Err OutOfFuel, (c', s)) /\ accesses c' = accesses c ++ t /\
     transmission SERIAL (crlf bs) t /\ if_flag c' = if_flag c /\ halts c' = (halts c + n)%nat) ->
  exists c' t, (log_at fuel level_error lib_target args;; m) (c, s) = (Err OutOfFuel, (c', s)) /\
    accesses c' = accesses c ++ t /\ transmission SERIAL (crlf (error_line s args ++ bs)) t /\
    if_flag c' = if_flag c /\ halts c' = (halts c + n)%nat.
Proof using Hready Hfuel LAWS.
  intros Hm.
  assert (exists c1 t1, log_at fuel level_error lib_target args (c, s) = (Ok tt, (c1, s)) /\
    accesses c1 = accesses c ++ t1 /\ transmission SERIAL (crlf (error_line s args)) t1 /\ same_but_devices c c1)
    as (c1 & t1 & E & Ha & Ht & Hs).
  { unfold log_at. rewrite log_macro_eq. unfold error_line. cbn [rec_level]. destruct (_ && _).
    - by apply (write_str_ready n0).
    - exists c, []. rewrite app_nil_r. split; [done|]. split; [done|]. split; [done|apply same_refl]. }
  destruct (Hm c1) as (c2 & t2 & E2 & Ha2 & Ht2 & Hf & Hh). exists c2, (t1 ++ t2).
  rewrite (bind_ok _ _ _ _ _ E), E2. destruct Hs as (Hr & _ & _ & _ & _ & Hhs).
  split; [done|]. split; [by rewrite Ha2, Ha, app_assoc|]. split; [rewrite crlf_app; by apply transmission_app|].
  split; [rewrite Hf; unfold if_flag; by rewrite Hr|by rewrite Hh, Hhs].
Qed.

Lemma halt_loop_runs n (s : LogState) (c : Cpu D) :
  exists c' t, on_fst (halt_loop n) (c, s) = (Err OutOfFuel, (c', s)) /\ accesses c' = accesses c ++ t /\
    transmission SERIAL (crlf []) t /\ if_flag c' = if_flag c /\ halts c' = (halts c + n)%nat.
Proof using.
  clear Hready Hfuel n0 fuel. revert c. induction n as [|n IHn]; intros c; cbn [halt_loop].
  - exists c, []. by rewrite app_nil_r, Nat.add_0_r.
  - unfold Cpu.halt, modify, mbind, stateE_bind.
    destruct (IHn (mkCpu (dev c) (accesses c) (rflags c) (cr0 c) (cr2 c) (cr3 c) (cr4 c) (S (halts c))))
      as (c' & t & E & Ha & Ht & Hf & Hh). exists c', t. unfold on_fst in *. cbn [fst snd] in *.
    cbn [halts accesses] in *. split; [exact E|]. split; [done|]. split; [done|]. split; [done|lia].
Qed.

(** * Properties *)

(** C27: a failed allocation is reported and stops the machine: the handler
    prints what was asked for, then the heap in KiB and the frames in pages as
    their allocators count them, then the panic, and never returns. It leaves
    the interrupt flag as it is. *)
Theorem alloc_error_reports (n : nat) (layout : Layout) (h : AutoExtendHeap FrameAllocator H) (c : Cpu D) (s : LogState) :
  exists c' t,
    alloc_error_handler fuel n layout h (c, s) = (Err OutOfFuel, (c', s)) /\
    accesses c' = accesses c ++ t /\
    transmission SERIAL (crlf (
      error_line s (render (failed_line layout)) ++
      error_line s (render (heap_line (heap_size h) (inner_used (inner h)) (inner_free (inner h)))) ++
      error_line s (render (phys_line (total_count (frames (machine h)))
        (total_count (frames (machine h)) ⊖ free_count (frames (machine h))) (free_count (frames (machine h))))) ++
      error_line s (bytes_of "Kernel panic: " ++ panic_info (bytes_of "Allocation error: " ++ layout_debug layout)))) t /\
    if_flag c' = if_flag c /\ halts c' = (halts c + n)%nat.
Proof using Hready Hfuel LAWS.
  unfold alloc_error_handler, heap_stats, Phys.stats, panic. cbv beta iota.
  rewrite <- (app_nil_r (error_line s (bytes_of "Kernel panic: " ++ _))).
  repeat (apply error_then; intros ?).
  replace (bytes_of "Kernel panic: " ++ panic_info (bytes_of "Allocation error: " ++ layout_debug layout))
    with (render [lit "Kernel panic: "; Lit (panic_info (render [lit "Allocation error: "; Lit (layout_debug layout)]))]).
  - apply error_then. intros c4. apply halt_loop_runs.
  - unfold render. cbn. by rewrite !app_nil_r.
Qed.
End panic.

(** * Witnesses *)

#[local] Instance plain_fmt : PanicFmt := { panic_info m := m; layout_debug _ := bytes_of "Layout" }.

Lemma alloc_error_reports_witness :
  exists c' t,
    alloc_error_handler (LC := std_log) 1 3 (mkLayout 64 8) (boot_heap small_fa) (reset_cpu, boot_logger) =
      (Err OutOfFuel, (c', boot_logger)) /\
    accesses c' = accesses reset_cpu ++ t /\ halts c' = 3%nat.
Proof.
  destruct (alloc_error_reports (LC := std_log) (LAWS := std_laws) 0 1 uart_ready (le_n 1) 3 (mkLayout 64 8)
              (boot_heap small_fa) reset_cpu boot_logger) as (c' & t & E & Ha & _ & _ & Hh).
  exists c', t. split; [exact E|]. split; [exact Ha|exact Hh].
Defined.
