(* ===== verification/Process.v ===== *)
(** [kernel/src/proc/]: the process manager and the data of processes and
    threads. *)
From S2P Require Import Prelude.
From Stdlib Require Import ZArith Lia.
From stdpp Require Import base numbers list strings tactics.
Open Scope Z_scope.

(** * Data *)

Abbreviation Pid := Z.
Abbreviation Tid := Z.

(** [context.rs]; the fields are in the order of the [repr(C)] struct. *)
Record Context_ : Type := mkContext {
  r15 : Z; r14 : Z; r13 : Z; r12 : Z; r11 : Z; r10 : Z; r9 : Z; r8 : Z;
  rsi : Z; rdi : Z; rbp : Z; rdx : Z; rcx : Z; rbx : Z; rax : Z;
  rip : Z; rsp : Z; rflags : Z;
  cs : Z; ss : Z;
  cr3 : Z
}.

(** [thread.rs] *)
Record Thread : Type := mkThread {
  tid : Tid;
  context : Context_;
  parent_pid : Pid;
  kernel_stack : Z
}.

(** [process.rs] *)
Record Process : Type := mkProcess {
  pid : Pid;
  process_cr3 : Z;
  threads : list Tid
}.

Definition process_new (pid : Pid) : Process := mkProcess pid 0 [].

(** [manager.rs] *)
Definition MAX_PROCESSES : Z := 1024.

Record Manager : Type := mkManager {
  processes : list Process;
  process_bitmap : list Z
}.

Definition bitmap_word (m : Manager) (i : Z) : Z := nth (Z.to_nat i) (process_bitmap m) 0.

Definition set_word (i v : Z) (m : Manager) : Manager :=
  mkManager (processes m) (<[Z.to_nat i := v]> (process_bitmap m)).

Definition manager_new : Manager :=
  let instance := mkManager [] (replicate (Z.to_nat (MAX_PROCESSES / 64)) 0) in
  set_word 0 (Z.lor (bitmap_word instance 0) 1) instance.

(** * Operations *)

Definition push_process (p : Process) (m : Manager) : Manager :=
  mkManager (processes m ++ [p]) (process_bitmap m).

(** The body of the inner loop, for bit [j] of word [i]. *)
Definition try_bit (i j : Z) (m : Manager) : Manager * option Pid :=
  let bit := wrap 64 (Z.shiftl 1 j) in
  if Z.land (bitmap_word m i) bit =? 0 then
    let m := set_word i (Z.lor (bitmap_word m i) bit) m in
    let pid := i * 64 + j in
    (push_process (process_new pid) m, Some pid)
  else (m, None).

(** The body of the outer loop. *)
Definition try_word (i : Z) (m : Manager) : Manager * option Pid :=
  if negb (bitmap_word m i =? 2 ^ 64 - 1) then for_range 0 64 (try_bit i) m else (m, None).

Definition create_process : stateE Manager stop Pid := fun m =>
  match for_range 0 (MAX_PROCESSES / 64) try_word m with
  | (m, Some pid) => (Ok pid, m)
  | (m, None) => (Err (Panic "No more PIDs available"), m)
  end.

Definition get_process (p : Pid) (m : Manager) : option Process :=
  snd <$> list_find (fun x => pid x = p) (processes m).

(** * The invariant *)

Definition used (m : Manager) (p : Pid) : bool := Z.testbit (bitmap_word m (p / 64)) (p mod 64).

(** Identifier 0 is the kernel's; the others in use are those of the processes,
    each of which has one. *)
Record mgr_ok (m : Manager) : Prop := {
  ok_length : length (process_bitmap m) = 16%nat;
  ok_words : Forall (fun w => 0 <= w < 2 ^ 64) (process_bitmap m);
  ok_kernel : used m 0 = true;
  ok_nodup : NoDup (pid <$> processes m);
  ok_used : forall p, p ∈ pid <$> processes m <-> 0 < p < MAX_PROCESSES /\ used m p = true
}.

(** * Facts *)

Lemma word_range m i : mgr_ok m -> 0 <= i < 16 -> 0 <= bitmap_word m i < 2 ^ 64.
Proof.
  intros H Hi. unfold bitmap_word.
  destruct (lookup_lt_is_Some_2 (process_bitmap m) (Z.to_nat i)) as [w Hw].
  { rewrite (ok_length m H). lia. }
  rewrite (nth_lookup_Some _ _ _ _ Hw). by apply (Forall_lookup_1 _ _ _ _ (ok_words m H) Hw).
Qed.

Lemma set_word_eq m i v : mgr_ok m -> 0 <= i < 16 -> bitmap_word (set_word i v m) i = v.
Proof.
  intros H Hi. unfold bitmap_word, set_word. cbn [process_bitmap]. apply nth_lookup_Some, list_lookup_insert_eq.
  rewrite (ok_length m H). lia.
Qed.

Lemma set_word_ne m i k v : 0 <= i -> 0 <= k -> i <> k -> bitmap_word (set_word i v m) k = bitmap_word m k.
Proof.
  intros Hi Hk Hne. unfold bitmap_word, set_word. cbn [process_bitmap].
  rewrite !nth_lookup, list_lookup_insert_ne by lia. done.
Qed.

Lemma bit_in_word i j : 0 <= j < 64 -> (i * 64 + j) / 64 = i /\ (i * 64 + j) mod 64 = j.
Proof. intros. split; Z.div_mod_to_equations; lia. Qed.

Lemma try_bit_eq m i j :
  0 <= j < 64 ->
  try_bit i j m =
    if used m (i * 64 + j) then (m, None)
    else (push_process (process_new (i * 64 + j)) (set_word i (Z.setbit (bitmap_word m i) j) m), Some (i * 64 + j)).
Proof.
  intros Hj. unfold try_bit, used. destruct (bit_in_word i j Hj) as [-> ->].
  rewrite wrap_small by (rewrite Z.shiftl_1_l; split; [lia|apply Z.pow_lt_mono_r; lia]).
  rewrite land_bit_eqb by lia. by destruct (Z.testbit _ j).
Qed.

(** A word with all its bits set is the one the outer loop skips. *)
Lemma full_word w : 0 <= w < 2 ^ 64 -> (forall j, 0 <= j < 64 -> Z.testbit w j = true) -> w = 2 ^ 64 - 1.
Proof.
  intros Hw Hall. change (2 ^ 64 - 1) with (Z.ones 64). apply Z.bits_inj'. intros j Hj.
  rewrite Z.testbit_ones_nonneg by lia. destruct (Z.ltb_spec j 64); [by apply Hall|].
  by apply (testbit_range w 64).
Qed.

Lemma full_word_bits j : 0 <= j < 64 -> Z.testbit (2 ^ 64 - 1) j = true.
Proof.
  intros. change (2 ^ 64 - 1) with (Z.ones 64). rewrite Z.testbit_ones_nonneg by lia.
  apply Z.ltb_lt. lia.
Qed.

(** The state after [p] is taken. *)
Definition taken (p : Pid) (m : Manager) : Manager :=
  push_process (process_new p) (set_word (p / 64) (Z.setbit (bitmap_word m (p / 64)) (p mod 64)) m).

Lemma try_word_spec m i :
  mgr_ok m -> 0 <= i < 16 ->
  match try_word i m with
  | (m', Some p) => i * 64 <= p < (i + 1) * 64 /\ used m p = false /\ m' = taken p m /\
      forall q, i * 64 <= q < p -> used m q = true
  | (m', None) => m' = m /\ forall q, i * 64 <= q < (i + 1) * 64 -> used m q = true
  end.
Proof.
  intros H Hi. unfold try_word.
  assert (forall q, i * 64 <= q < (i + 1) * 64 -> exists j, 0 <= j < 64 /\ q = i * 64 + j) as Hq.
  { intros q Hq. exists (q - i * 64). lia. }
  destruct (Z.eqb_spec (bitmap_word m i) (2 ^ 64 - 1)) as [Hfull|Hfull]; cbn [negb].
  { split; [done|]. intros q Hr. destruct (Hq q Hr) as (j & Hj & ->). unfold used.
    destruct (bit_in_word i j Hj) as [-> ->]. rewrite Hfull. by apply full_word_bits. }
  set (P := fun j s => s = m /\ forall k, 0 <= k < j -> used m (i * 64 + k) = true).
  set (Q := fun j s p => p = i * 64 + j /\ used m p = false /\ s = taken p m /\
                        forall k, 0 <= k < j -> used m (i * 64 + k) = true).
  assert (forall j s, 0 <= j < 64 -> P j s ->
            match try_bit i j s with (s', Some r) => Q j s' r | (s', None) => P (j + 1) s' end) as Hstep.
  { intros j s Hj [-> Hk]. rewrite try_bit_eq by done. destruct (used m (i * 64 + j)) eqn:Hu.
    - split; [done|]. intros k Hr. destruct (decide (k = j)) as [->|]; [done|]. apply Hk. lia.
    - split; [done|]. split; [done|]. split; [|done]. unfold taken. by destruct (bit_in_word i j Hj) as [-> ->]. }
  pose proof (for_range_rule P Q 0 64 (try_bit i) m ltac:(lia) ltac:(by split; [|lia]) Hstep) as HL.
  destruct (for_range 0 64 (try_bit i) m) as [m' [p|]].
  - destruct HL as (j & Hj & -> & Hu & -> & Hk).
    split; [lia|]. split; [done|]. split; [done|]. intros q Hr. destruct (Hq q ltac:(lia)) as (k & Hk' & ->).
    apply Hk. lia.
  - exfalso. destruct HL as (-> & Hk).
    apply Hfull, full_word; [by apply word_range|]. intros j Hj. specialize (Hk j Hj). unfold used in Hk.
    destruct (bit_in_word i j Hj) as [E1 E2]. by rewrite E1, E2 in Hk.
Qed.

Lemma get_process_push_eq p m m0 :
  get_process p m = None -> processes m0 = processes m ->
  get_process p (push_process (process_new p) m0) = Some (process_new p).
Proof.
  unfold get_process. intros Hn Hm. cbn [processes push_process]. rewrite Hm.
  destruct (list_find (fun x => pid x = p) (processes m)) as [[? ?]|] eqn:E; [done|].
  rewrite list_find_app_r by done. cbn. by rewrite decide_True.
Qed.

Lemma get_process_push_ne q p m m0 :
  q <> p -> processes m0 = processes m -> get_process q (push_process (process_new p) m0) = get_process q m.
Proof.
  unfold get_process. intros Hne Hm. cbn [processes push_process]. rewrite Hm.
  destruct (list_find (fun x => pid x = q) (processes m)) as [[i x]|] eqn:E.
  - by rewrite (list_find_app_l _ _ _ _ _ E).
  - rewrite list_find_app_r by done. cbn. by rewrite decide_False.
Qed.

Lemma manager_new_ok : mgr_ok manager_new.
Proof.
  constructor; [reflexivity| |reflexivity|apply NoDup_nil_2|].
  - change (process_bitmap manager_new) with (1 :: replicate 15 0).
    apply list.Forall_cons_2; [lia|apply Forall_replicate; lia].
  - intros p. cbn [processes manager_new set_word fmap list_fmap]. split; [by intros Hp%elem_of_nil|].
    intros [Hp Hu]. exfalso. revert Hu. unfold used, manager_new. unfold MAX_PROCESSES in Hp.
    assert (0 <= p / 64 < 16) by (Z.div_mod_to_equations; lia). pose proof (Z.mod_pos_bound p 64 ltac:(lia)).
    destruct (decide (p / 64 = 0)) as [E|E].
    + rewrite E. change (bitmap_word _ 0) with 1. rewrite testbit_1.
      destruct (Z.eqb_spec (p mod 64) 0); [Z.div_mod_to_equations; lia|done].
    + rewrite set_word_ne by lia. unfold bitmap_word. cbn [process_bitmap].
      rewrite nth_lookup. rewrite lookup_replicate_2 by (change (Z.to_nat (MAX_PROCESSES / 64)) with 16%nat; lia).
      cbn. by rewrite Z.testbit_0_l.
Qed.

Lemma create_spec m :
  mgr_ok m ->
  match create_process m with
  | (Ok p, m') => 0 <= p < MAX_PROCESSES /\ used m p = false /\ m' = taken p m /\
      forall q, 0 <= q < p -> used m q = true
  | (Err e, m') => e = Panic "No more PIDs available" /\ m' = m /\
      forall q, 0 <= q < MAX_PROCESSES -> used m q = true
  end.
Proof.
  intros H. unfold create_process.
  set (P := fun i s => s = m /\ forall q, 0 <= q < i * 64 -> used m q = true).
  set (Q := fun i s p => i * 64 <= p < (i + 1) * 64 /\ used m p = false /\ s = taken p m /\
                        forall q, 0 <= q < p -> used m q = true).
  assert (forall i s, 0 <= i < 16 -> P i s ->
            match try_word i s with (s', Some r) => Q i s' r | (s', None) => P (i + 1) s' end) as Hstep.
  { intros i s Hi [-> Hq]. pose proof (try_word_spec m i H Hi) as Hs. destruct (try_word i m) as [s' [p|]].
    - destruct Hs as (Hp & Hu & -> & Hl). split; [done|]. split; [done|]. split; [done|]. intros q Hr.
      destruct (decide (q < i * 64)); [apply Hq; lia|apply Hl; lia].
    - destruct Hs as (-> & Hl). split; [done|]. intros q Hr.
      destruct (decide (q < i * 64)); [apply Hq; lia|apply Hl; lia]. }
  change (MAX_PROCESSES / 64) with 16.
  pose proof (for_range_rule P Q 0 16 try_word m ltac:(lia) ltac:(by split; [|lia]) Hstep) as HL.
  destruct (for_range 0 16 try_word m) as [m' [p|]].
  - destruct HL as (i & Hi & Hp & Hu & -> & Hl). unfold MAX_PROCESSES. split; [lia|]. by split_and!.
  - destruct HL as (-> & Hl). split; [done|]. split; [done|]. unfold MAX_PROCESSES. intros q Hq. apply Hl. lia.
Qed.

Lemma used_taken m p q :
  mgr_ok m -> 0 <= p < MAX_PROCESSES -> 0 <= q < MAX_PROCESSES ->
  used (taken p m) q = bool_decide (q = p) || used m q.
Proof.
  unfold MAX_PROCESSES. intros H Hp Hq. unfold used, taken.
  change (bitmap_word (push_process ?x ?y) ?i) with (bitmap_word y i).
  assert (0 <= p / 64 < 16) by (Z.div_mod_to_equations; lia).
  assert (0 <= q / 64 < 16) by (Z.div_mod_to_equations; lia).
  pose proof (Z.mod_pos_bound p 64 ltac:(lia)). pose proof (Z.mod_pos_bound q 64 ltac:(lia)).
  destruct (decide (q / 64 = p / 64)) as [E|Hne].
  - rewrite E, set_word_eq by (done || lia). rewrite Z.setbit_eqb by lia. f_equal.
    destruct (Z.eqb_spec (p mod 64) (q mod 64)) as [Hm|Hm].
    + rewrite bool_decide_eq_true_2; [done|]. Z.div_mod_to_equations. lia.
    + rewrite bool_decide_eq_false_2; [done|]. by intros ->.
  - rewrite set_word_ne by lia. rewrite bool_decide_eq_false_2; [done|]. by intros ->.
Qed.

Lemma mgr_ok_taken m p :
  mgr_ok m -> 0 <= p < MAX_PROCESSES -> used m p = false -> mgr_ok (taken p m).
Proof.
  intros H Hp Hu. pose proof (ok_kernel m H) as Hk.
  assert (p <> 0) as Hp0 by (intros ->; congruence).
  assert (p ∉ pid <$> processes m) as Hnew by (rewrite (ok_used m H); intros [_ E]; congruence).
  assert (0 <= p / 64 < 16) by (unfold MAX_PROCESSES in Hp; Z.div_mod_to_equations; lia).
  constructor.
  - unfold taken, set_word. cbn [process_bitmap push_process]. rewrite length_insert. apply (ok_length m H).
  - unfold taken, set_word. cbn [process_bitmap push_process].
    apply list.Forall_insert; [apply (ok_words m H)|].
    rewrite Z.setbit_spec'. pose proof (word_range m (p / 64) H ltac:(lia)) as Hw.
    pose proof (Z.mod_pos_bound p 64 ltac:(lia)).
    apply lor_range; [lia|exact Hw|]. split; [lia|]. apply Z.pow_lt_mono_r; lia.
  - rewrite used_taken by (done || unfold MAX_PROCESSES; lia). by rewrite Hk, orb_true_r.
  - unfold taken. cbn [processes push_process set_word]. rewrite fmap_app. apply list.NoDup_app.
    split; [apply (ok_nodup m H)|]. split; [|apply NoDup_singleton].
    intros x Hx ->%list_elem_of_singleton. done.
  - intros q. unfold taken at 1. cbn [processes push_process set_word].
    rewrite fmap_app, elem_of_app, (ok_used m H). cbn [fmap list_fmap process_new pid]. rewrite list_elem_of_singleton.
    split.
    + intros [[Hq Hqu] | ->]; rewrite used_taken by (done || lia).
      * by rewrite Hqu, orb_true_r.
      * split; [lia|]. by rewrite bool_decide_eq_true_2.
    + intros [Hq Hqu]. rewrite used_taken in Hqu by (done || lia). case_bool_decide; [by right|by left].
Qed.

(** * Properties *)

(** C28: [Manager::new] establishes the invariant, the identifiers in use being
    exactly the kernel's 0 and those of the processes, all different; and
    [create_process] keeps it. It returns the least free identifier, the new
    process is found under it, with no threads and no page table, and the others
    as before; it panics, changing nothing, exactly when all 1023 are in use. *)
Theorem create_process_correct (m : Manager) (H : mgr_ok m) :
  mgr_ok manager_new /\
  match create_process m with
  | (Ok p, m') =>
      mgr_ok m' /\ 0 < p < MAX_PROCESSES /\ used m p = false /\ (forall q, 0 <= q < p -> used m q = true) /\
      get_process p m = None /\ get_process p m' = Some (process_new p) /\
      forall q, q <> p -> get_process q m' = get_process q m
  | (Err e, m') =>
      e = Panic "No more PIDs available" /\ m' = m /\ forall q, 0 <= q < MAX_PROCESSES -> used m q = true
  end.
Proof.
  split; [apply manager_new_ok|]. pose proof (create_spec m H) as Hs.
  destruct (create_process m) as [[p|e] m']; [|exact Hs]. destruct Hs as (Hp & Hu & -> & Hl).
  assert (p <> 0) as Hp0 by (intros ->; rewrite (ok_kernel m H) in Hu; discriminate).
  split; [by apply mgr_ok_taken|]. split; [lia|]. split; [done|]. split; [done|].
  assert (get_process p m = None) as Hnone.
  { unfold get_process. rewrite (proj2 (list_find_None _ _)); [done|]. apply list.Forall_forall. intros x Hx Hpid.
    assert (p ∈ pid <$> processes m) as Hin by (apply list_elem_of_fmap; exists x; split; [symmetry; exact Hpid|exact Hx]).
    apply (ok_used m H) in Hin as [_ Hin]. congruence. }
  split; [done|]. split.
  - apply (get_process_push_eq p m); [exact Hnone|reflexivity].
  - intros q Hq. apply (get_process_push_ne q p m); [exact Hq|reflexivity].
Qed.

(** * Witnesses *)

Lemma create_process_correct_witness :
  exists p m', create_process manager_new = (Ok p, m') /\ get_process p m' = Some (process_new p) /\ 0 < p.
Proof.
  destruct (create_process_correct manager_new manager_new_ok) as [_ H].
  destruct (create_process manager_new) as [[p|e] m'].
  - exists p, m'. destruct H as (_ & Hp & _ & _ & _ & Hg & _). split; [done|]. split; [exact Hg|lia].
  - exfalso. destruct H as (_ & _ & Hall). specialize (Hall 1 ltac:(unfold MAX_PROCESSES; lia)). discriminate Hall.
Defined.
