(* ===== verification/Screen.v ===== *)
(** [kernel/src/drivers/screen.rs]: the back buffer and its copy to the
    framebuffer.

    The lock around the screen is taken for one call; growing the buffer may
    fail in the allocator, and then the call does not return. *)
From S2P Require Import Prelude Ram Mem.
From Stdlib Require Import ZArith Lia.
From stdpp Require Import base numbers list gmap strings tactics.
Open Scope Z_scope.
Open Scope word_scope.

(** * Data *)

Record Screen : Type := mkScreen {
  address : Z;
  buffer : list Z;
  width : Z;
  height : Z;
  bits_per_pixel : Z;
  stride : Z;
  red_shift : Z;
  green_shift : Z;
  blue_shift : Z;
  red_mask : Z;
  green_mask : Z;
  blue_mask : Z
}.

Definition new : Screen := mkScreen 0 [] 0 0 0 0 0 0 0 0 0 0.

(** * Operations *)

Definition buffer_size (info : FramebufferInfo) : Z :=
  (fb_width info ⊗ fb_height info) ⊗ fb_bpp info / 8.

(** [Vec::resize] with zeros is stdpp's [resize]. *)
Definition init (boot_info : BootInfo) (self : Screen) : Screen :=
  let info := framebuffer boot_info in
  mkScreen (fb_address info) (resize (Z.to_nat (buffer_size info)) 0 (buffer self))
    (fb_width info) (fb_height info) (fb_bpp info) (fb_pitch info)
    (fb_red_shift info) (fb_green_shift info) (fb_blue_shift info)
    (fb_red_mask info) (fb_green_mask info) (fb_blue_mask info).

(** [copy_nonoverlapping] to the framebuffer. *)
Definition sync (self : Screen) (m : ram) : ram := copy_bytes (buffer self) m (address self).

Definition get_buffer (self : Screen) : list Z := buffer self.

Definition set_buffer (b : list Z) (self : Screen) : Screen :=
  mkScreen (address self) b (width self) (height self) (bits_per_pixel self) (stride self)
    (red_shift self) (green_shift self) (blue_shift self) (red_mask self) (green_mask self) (blue_mask self).

Definition write (data : list Z) (self : Screen) : Screen :=
  let b := get_buffer self in
  let len := Nat.min (length data) (length b) in
  set_buffer (take len data ++ drop len b) self.

Definition get_info (self : Screen) : Z * Z := (width self, height self).

(** * The framebuffer, as the hardware displays it *)

(** The address of byte [k] of the pixels of row [y]. *)
Definition shown_at (info : FramebufferInfo) (y k : Z) : Z := fb_address info + y * fb_pitch info + k.

(** The bytes of a row of pixels. *)
Definition row_bytes (info : FramebufferInfo) : Z := fb_width info * fb_bpp info / 8.

(** * Facts *)

Definition info_ok (info : FramebufferInfo) : Prop :=
  0 <= fb_width info /\ 0 <= fb_height info /\ 0 <= fb_bpp info /\
  fb_width info * fb_height info * fb_bpp info < 2 ^ 64 /\ fb_bpp info mod 8 = 0.

Lemma buffer_size_rows info : info_ok info -> buffer_size info = fb_height info * row_bytes info.
Proof.
  intros (Hw & Hh & Hb & Hlt & H8). unfold buffer_size, row_bytes.
  destruct (decide (fb_bpp info = 0)) as [E|E].
  { rewrite E, Z.mul_0_r. unfold mul64. rewrite Z.mul_0_r. change (wrap 64 0 / 8) with 0. change (0 / 8) with 0. lia. }
  rewrite (mul64_small (fb_width info)) by nia. rewrite mul64_small by nia.
  rewrite <- (Z.div_exact (fb_bpp info) 8) in H8 by lia. rewrite H8.
  replace (fb_width info * fb_height info * (8 * (fb_bpp info / 8)))
    with (fb_width info * fb_height info * (fb_bpp info / 8) * 8) by ring.
  replace (fb_width info * (8 * (fb_bpp info / 8))) with (fb_width info * (fb_bpp info / 8) * 8) by ring.
  rewrite !Z.div_mul by lia. ring.
Qed.

Lemma write_length data s : length (buffer (write data s)) = length (buffer s).
Proof.
  unfold write, set_buffer, get_buffer. cbn [buffer]. rewrite length_app, length_take, length_drop. lia.
Qed.

Lemma write_lookup data s (i : nat) :
  buffer (write data s) !! i =
    if decide (i < Nat.min (length data) (length (buffer s)))%nat then data !! i else buffer s !! i.
Proof.
  unfold write, set_buffer, get_buffer. cbn [buffer]. case_decide as Hi.
  - rewrite lookup_app_l by (rewrite length_take; lia). apply lookup_take_lt. lia.
  - rewrite lookup_app_r by (rewrite length_take; lia). rewrite lookup_drop, length_take. f_equal. lia.
Qed.

(** * Properties *)

(** C34: [write] replaces a prefix of the back buffer, never its size, and [sync]
    makes the memory at the framebuffer's address the back buffer, byte for
    byte, and changes nothing else. After [init] and a [write] byte [k] of row
    [y] of the picture is where the hardware displays it exactly when the row is
    the first one, or the pitch is the length of a row: the stride is not used. *)
Theorem screen_correct (boot_info : BootInfo) (s0 : Screen) (data : list Z) (m : ram) (y k : Z)
  (Hinfo : info_ok (framebuffer boot_info))
  (Hy : 0 <= y < fb_height (framebuffer boot_info)) (Hk : 0 <= k < row_bytes (framebuffer boot_info))
  (Hdata : Z.of_nat (length data) = buffer_size (framebuffer boot_info)) :
  let info := framebuffer boot_info in
  let s := write data (init boot_info s0) in
  let m' := sync s m in
  buffer s = data /\
  (forall a, m' !! a = if decide (fb_address info <= a < fb_address info + buffer_size info)
                       then data !! Z.to_nat (a - fb_address info) else m !! a) /\
  m' !! (fb_address info + y * row_bytes info + k) = data !! Z.to_nat (y * row_bytes info + k) /\
  (shown_at info y k = fb_address info + y * row_bytes info + k <-> y = 0 \/ fb_pitch info = row_bytes info).
Proof.
  intros info s m'. fold info in Hinfo, Hy, Hk, Hdata.
  assert (length (buffer (init boot_info s0)) = length data) as Hlen.
  { unfold init. cbn [buffer]. rewrite length_resize. fold info. lia. }
  assert (buffer s = data) as Hb.
  { unfold s. apply list_eq. intros i. rewrite write_lookup, Hlen, Nat.min_id. case_decide as Hi; [done|].
    rewrite !lookup_ge_None_2 by lia. done. }
  assert (forall a, m' !! a = if decide (fb_address info <= a < fb_address info + buffer_size info)
                       then data !! Z.to_nat (a - fb_address info) else m !! a) as Hm.
  { intros a. unfold m', sync. rewrite Hb, copy_bytes_lookup.
    change (address s) with (fb_address info). by rewrite Hdata. }
  split; [done|]. split; [done|]. rewrite (buffer_size_rows info Hinfo) in Hm. split.
  - rewrite Hm, decide_True by nia. f_equal. lia.
  - unfold shown_at. split; [|intros [->|E]; [lia|rewrite E; lia]].
    intros E. destruct (decide (y = 0)); [by left|right]. nia.
Qed.

(** * Witnesses *)

(** Two rows of three 32-bit pixels in a framebuffer with a pitch of 16. *)
Definition some_boot : BootInfo :=
  mkBootInfo 0 None 0 (mkFb 0xfd000000 3 2 16 32 16 8 0 8 8 8) X86_64 0 0 0 0 None 0.

Lemma screen_correct_witness :
  let s := write (replicate 24 7) (init some_boot new) in
  buffer s = replicate 24 7 /\
  ~ (shown_at (framebuffer some_boot) 1 0 = 0xfd000000 + 12).
Proof.
  destruct (screen_correct some_boot new (replicate 24 7) ∅ 1 0 ltac:(vm_compute; split_and!; congruence) ltac:(vm_compute; split; congruence)
              ltac:(vm_compute; split; congruence) eq_refl) as (Hb & _ & _ & Hs).
  split; [exact Hb|]. intros E. apply Hs in E as [E|E]; vm_compute in E; discriminate E.
Defined.
