(* ===== verification/Locks.v ===== *)
(** The spin locks of the kernel and the interrupts: what happens when an
    interrupt arrives while the interrupted code holds a lock.

    Every static behind a [spin::Mutex] is a lock; code is the sequence of what
    it does to the locks and to the interrupt flag. There is one processor: a
    handler runs to its end, with interrupts off, before the interrupted code
    goes on, so a lock that the interrupted code holds is never released while
    the handler spins on it. *)
From S2P Require Import Prelude.
From Stdlib Require Import ZArith Lia.
From stdpp Require Import base numbers list gmap sets relations tactics.
Open Scope Z_scope.

(** * Locks and code *)

Inductive lock : Type :=
| SERIAL | KEYBOARD_BUF | EXTENDED_KEY | MODIFIERS | SCREEN | MEMORY_STATS | FRAME_ALLOCATOR
| HEAP | HEAP_END.

#[export] Instance lock_eq_dec : EqDecision lock.
Proof. solve_decision. Defined.

#[export] Instance lock_countable : Countable lock.
Proof.
  refine (inj_countable'
    (fun l => match l with
              | SERIAL => 0 | KEYBOARD_BUF => 1 | EXTENDED_KEY => 2 | MODIFIERS => 3 | SCREEN => 4
              | MEMORY_STATS => 5 | FRAME_ALLOCATOR => 6 | HEAP => 7 | HEAP_END => 8
              end%nat)
    (fun n => match n with
              | 0 => SERIAL | 1 => KEYBOARD_BUF | 2 => EXTENDED_KEY | 3 => MODIFIERS | 4 => SCREEN
              | 5 => MEMORY_STATS | 6 => FRAME_ALLOCATOR | 7 => HEAP | _ => HEAP_END
              end%nat) _).
  by intros [].
Defined.

Inductive action : Type := Lock (l : lock) | Unlock (l : lock) | Cli | Sti.

Abbreviation code := (list action).

(** A critical section. *)
Definition locked (l : lock) (c : code) : code := [Lock l] ++ c ++ [Unlock l].

(** * The kernel's code, with the logger at its most verbose level *)

(** A log line, or a print: [SERIAL.lock()] for the call. *)
Definition log_line : code := locked SERIAL [].

(** An attempt to grow the heap: how often the frame allocator is locked for
    each page tried (the page's frame, and those of the tables that
    [paging::map_page] adds), whether the loop stops early and warns, and
    whether a page was mapped. *)
Record growth : Type := mkGrowth { frame_locks : list nat; warns : bool; grown : bool }.

(** [phys::alloc_frame], [n] times. *)
Definition alloc_frames_code (n : nat) : code := mjoin (replicate n (locked FRAME_ALLOCATOR [])).

(** [AutoExtendHeap::try_extend] *)
Definition try_extend_code (g : growth) : code :=
  locked HEAP_END
    (mjoin (alloc_frames_code <$> frame_locks g) ++ (if warns g then log_line else []) ++
     (if grown g then locked HEAP [] ++ log_line else [])).

(** [AutoExtendHeap::alloc]: served by the heap as it is, or after it grew. *)
Definition heap_alloc_code (g : option growth) : code :=
  locked HEAP [] ++
  match g with
  | None => []
  | Some g => try_extend_code g ++ (if grown g then locked HEAP [] else [])
  end.

(** [AutoExtendHeap::init] *)
Definition heap_init_code (pages : list nat) : code :=
  locked HEAP_END (mjoin (alloc_frames_code <$> pages) ++ locked HEAP [] ++ log_line).

(** [keyboard::handle_interrupt]: the prefix, or a stroke; the queue allocates,
    or does not. *)
Definition prefix_code : code := locked EXTENDED_KEY [].
Definition stroke_code (alloc : code) : code :=
  locked EXTENDED_KEY [] ++ locked MODIFIERS [] ++ locked MODIFIERS [] ++ locked KEYBOARD_BUF alloc.

(** [irq_common_handler]: what the interrupts do. Line 0 logs on every hundredth
    tick, line 1 is the keyboard, the others log. *)
Definition irq_codes (g : option growth) : list code :=
  [[]; log_line; prefix_code; stroke_code []; stroke_code (heap_alloc_code g)].

(** [mem::parse_mem_map]: its guard lives to the end of the function. *)
Definition parse_mem_map_code : code := locked MEMORY_STATS log_line.

(** [phys::init] *)
Definition phys_init_code : code := locked FRAME_ALLOCATOR (log_line ++ log_line).

(** [mem::init]; the arguments of a log line are evaluated before its lock. *)
Definition mem_init_code (pages : list nat) : code :=
  log_line ++ parse_mem_map_code ++ locked MEMORY_STATS log_line ++ phys_init_code ++
  heap_init_code pages ++ locked HEAP_END [] ++ log_line.

(** [drivers::init]: the keyboard's is a log line, the screen's resizes its
    buffer. *)
Definition drivers_init_code (g : option growth) : code :=
  log_line ++ log_line ++ log_line ++ log_line ++
  locked SCREEN (heap_alloc_code g ++ log_line) ++ log_line.

(** [Manager::create_process]: the push, and the log line. *)
Definition create_process_code (g : option growth) : code := heap_alloc_code g ++ log_line.

(** [kernel_main], to the drawing loop, which keeps the screen. *)
Definition kernel_main_code (pages : list nat) (g1 g2 : option growth) : code :=
  mem_init_code pages ++ drivers_init_code g1 ++ log_line ++ create_process_code g2 ++ log_line ++
  [Lock SCREEN].

(** From the end of [arch::init], which enables interrupts, with the log lines
    of [arch::init] and [_start64]. *)
Definition boot_code (pages : list nat) (g1 g2 : option growth) : code :=
  [Sti] ++ log_line ++ log_line ++ kernel_main_code pages g1 g2.

(** [serial::init] when the self-test panics: the panic handler logs, and the
    guard is still alive. *)
Definition serial_init_panics : code := log_line ++ [Lock SERIAL] ++ log_line.

(** * The machine *)

Record state : Type := mkState {
  if_flag : bool;
  held : gset lock;
  running : code;
  (** the interrupted code, while a handler runs *)
  suspended : option code
}.

Section machine.
(** What an interrupt may run. *)
Context (handlers : list code).

Inductive step : state -> state -> Prop :=
| step_lock i h l k s : l ∉ h -> step (mkState i h (Lock l :: k) s) (mkState i ({[l]} ∪ h) k s)
| step_unlock i h l k s : step (mkState i h (Unlock l :: k) s) (mkState i (h ∖ {[l]}) k s)
| step_cli i h k s : step (mkState i h (Cli :: k) s) (mkState false h k s)
| step_sti i h k s : step (mkState i h (Sti :: k) s) (mkState true h k s)
| step_interrupt h k c : c ∈ handlers -> step (mkState true h k None) (mkState false h c (Some k))
| step_iret i h k : step (mkState i h [] (Some k)) (mkState true h k None).

(** The running code spins on a lock, with interrupts off: nothing happens any
    more. *)
Definition deadlocked (st : state) : Prop :=
  if_flag st = false /\ exists l k, running st = Lock l :: k /\ l ∈ held st.

(** Spinning on a lock of one's own, whatever the interrupts do. *)
Definition spinning (st : state) : Prop := exists l k, running st = Lock l :: k /\ l ∈ held st.

Definition start (c : code) : state := mkState false ∅ c None.

Lemma deadlocked_stuck st st' : deadlocked st -> ~ step st st'.
Proof. intros (Hi & l & k & Hr & Hl) Hs. destruct Hs; cbn in *; congruence || set_solver. Qed.

(** * Disciplined code *)

(** The locks of a code. *)
Definition locks_of (c : code) : gset lock :=
  list_to_set (omap (fun a => match a with Lock l => Some l | _ => None end) c).

(** Code that takes no lock twice and gives back what it takes; it ends with the
    locks [h]. *)
Fixpoint balanced (held h : gset lock) (c : code) : bool :=
  match c with
  | [] => bool_decide (held = h)
  | Lock l :: c => bool_decide (l ∉ held) && balanced ({[l]} ∪ held) h c
  | Unlock l :: c => bool_decide (l ∈ held) && balanced (held ∖ {[l]}) h c
  | _ :: c => balanced held h c
  end.

(** Code that never holds one of the locks [hl] with interrupts on. *)
Fixpoint masked (hl : gset lock) (i : bool) (held : gset lock) (c : code) : bool :=
  (negb i || bool_decide (held ∩ hl = ∅)) &&
  match c with
  | [] => true
  | Lock l :: c => masked hl i ({[l]} ∪ held) c
  | Unlock l :: c => masked hl i (held ∖ {[l]}) c
  | Cli :: c => masked hl false held c
  | Sti :: c => masked hl true held c
  end.

(** Code that leaves the interrupt flag alone. *)
Definition no_flag (c : code) : bool := forallb (fun a => match a with Cli | Sti => false | _ => true end) c.

(** Handlers take and release their locks, and leave the interrupt flag alone. *)
Definition handler_ok (c : code) : bool := balanced ∅ ∅ c && no_flag c.

Definition handler_locks : gset lock := ⋃ (locks_of <$> handlers).

(** * Facts *)

Lemma elem_of_locks l c : l ∈ locks_of c <-> Lock l ∈ c.
Proof.
  unfold locks_of. rewrite elem_of_list_to_set, list_elem_of_omap. split.
  - intros ([] & Hin & [= ->]). done.
  - intros Hin. by exists (Lock l).
Qed.

Lemma elem_of_handler_locks l : l ∈ handler_locks <-> exists c, c ∈ handlers /\ Lock l ∈ c.
Proof.
  unfold handler_locks. rewrite elem_of_union_list. setoid_rewrite list_elem_of_fmap. split.
  - intros (X & (c & -> & Hc) & Hl). exists c. by rewrite <- elem_of_locks.
  - intros (c & Hc & Hl). exists (locks_of c). split; [by exists c|by rewrite elem_of_locks].
Qed.

Definition quiet (c : code) : Prop := (Cli ∉ c) /\ (Sti ∉ c).

Lemma quiet_tail a c : quiet (a :: c) -> quiet c.
Proof. intros [H1 H2]. split; intros H; [apply H1|apply H2]; by right. Qed.

Lemma no_flag_quiet c : no_flag c = true -> quiet c.
Proof.
  unfold no_flag. rewrite forallb_forall. intros Hq.
  split; intros Hin; apply list_elem_of_In in Hin; by specialize (Hq _ Hin).
Qed.

Lemma handler_ok_spec c : handler_ok c = true -> balanced ∅ ∅ c = true /\ quiet c.
Proof. unfold handler_ok. rewrite andb_true_iff. intros [Hb Hq]. split; [done|by apply no_flag_quiet]. Qed.

(** ** Masked code does not deadlock *)

(** The interrupted code holds [h0], the handler [hc]. *)
Definition inv (h : gset lock) (st : state) : Prop :=
  match suspended st with
  | None => balanced (held st) h (running st) = true /\
            masked handler_locks (if_flag st) (held st) (running st) = true
  | Some k =>
      if_flag st = false /\ quiet (running st) /\
      exists h0 hc, held st = h0 ∪ hc /\ h0 ∩ handler_locks = ∅ /\ hc ⊆ handler_locks /\
        (forall l, Lock l ∈ running st -> l ∈ handler_locks) /\
        balanced hc ∅ (running st) = true /\ balanced h0 h k = true /\ masked handler_locks true h0 k = true
  end.

Lemma inv_not_spinning h st : inv h st -> ~ spinning st.
Proof.
  unfold inv. intros Hi (l & k & Hr & Hl). destruct (suspended st).
  - destruct Hi as (_ & _ & h0 & hc & Hh & Hd & _ & Hin & Hb & _). rewrite Hr in *. cbn [balanced] in Hb.
    apply andb_prop in Hb as [Hb _]. apply bool_decide_eq_true_1 in Hb.
    specialize (Hin l ltac:(left)). rewrite Hh in Hl. set_solver.
  - destruct Hi as [Hb _]. rewrite Hr in Hb. cbn [balanced] in Hb. apply andb_prop in Hb as [Hb _].
    apply bool_decide_eq_true_1 in Hb. done.
Qed.

Lemma masked_step hl i held a c : masked hl i held (a :: c) = true ->
  match a with
  | Lock l => masked hl i ({[l]} ∪ held) c = true
  | Unlock l => masked hl i (held ∖ {[l]}) c = true
  | Cli => masked hl false held c = true
  | Sti => masked hl true held c = true
  end.
Proof. cbn [masked]. intros H. apply andb_prop in H as [_ H]. by destruct a. Qed.

Lemma masked_on hl held c : masked hl true held c = true -> held ∩ hl = ∅.
Proof.
  destruct c; cbn [masked]; intros H; apply andb_prop in H as [H _]; by apply bool_decide_eq_true_1 in H.
Qed.

Lemma inv_step h st st' :
  Forall (fun c => handler_ok c = true) handlers -> inv h st -> step st st' -> inv h st'.
Proof.
  intros Hok Hi Hs. destruct Hs as [i hd l k s Hl|i hd l k s|i hd k s|i hd k s|hd k c Hc|i hd k];
    unfold inv in *; cbn [suspended if_flag held running] in *.
  - destruct s as [s|].
    + destruct Hi as (-> & [Hq1 Hq2] & h0 & hc & -> & Hd & Hsub & Hin & Hb & Hk). split; [done|].
      split; [exact (quiet_tail _ _ (conj Hq1 Hq2))|]. cbn [balanced] in Hb. apply andb_prop in Hb as [_ Hb].
      exists h0, ({[l]} ∪ hc). specialize (Hin l ltac:(left)) as Hlh.
      split; [set_solver|]. split; [done|]. split; [set_solver|]. split; [|done].
      intros l' Hl'. apply Hin. by right.
    + destruct Hi as [Hb Hm]. split; [|exact (masked_step _ _ _ _ _ Hm)].
      cbn [balanced] in Hb. by apply andb_prop in Hb as [_ Hb].
  - destruct s as [s|].
    + destruct Hi as (-> & [Hq1 Hq2] & h0 & hc & -> & Hd & Hsub & Hin & Hb & Hk). split; [done|].
      split; [exact (quiet_tail _ _ (conj Hq1 Hq2))|]. cbn [balanced] in Hb. apply andb_prop in Hb as [Hlc Hb].
      apply bool_decide_eq_true_1 in Hlc.
      exists h0, (hc ∖ {[l]}). split; [set_solver|]. split; [done|]. split; [set_solver|]. split; [|done].
      intros l' Hl'. apply Hin. by right.
    + destruct Hi as [Hb Hm]. split; [|exact (masked_step _ _ _ _ _ Hm)].
      cbn [balanced] in Hb. by apply andb_prop in Hb as [_ Hb].
  - destruct s as [s|].
    + destruct Hi as (_ & [Hq _] & _). destruct Hq. left.
    + destruct Hi as [Hb Hm]. split; [done|]. exact (masked_step _ _ _ _ _ Hm).
  - destruct s as [s|].
    + destruct Hi as (_ & [_ Hq] & _). destruct Hq. left.
    + destruct Hi as [Hb Hm]. split; [done|]. exact (masked_step _ _ _ _ _ Hm).
  - destruct Hi as [Hb Hm]. rewrite list.Forall_forall in Hok. destruct (handler_ok_spec c (Hok c Hc)) as [Hbc Hqc].
    split; [done|]. split; [done|]. exists hd, ∅. split; [set_solver|].
    split; [by apply (masked_on _ _ k)|]. split; [set_solver|]. split; [|done].
    intros l Hl. apply elem_of_handler_locks. by exists c.
  - destruct Hi as (-> & _ & h0 & hc & -> & Hd & Hsub & _ & Hb & Hk & Hm). cbn [balanced] in Hb.
    apply bool_decide_eq_true_1 in Hb. subst hc. by rewrite (right_id_L ∅ (∪) h0).
Qed.

Lemma inv_reachable h c st :
  Forall (fun c => handler_ok c = true) handlers ->
  balanced ∅ h c = true -> masked handler_locks false ∅ c = true ->
  rtc step (start c) st -> inv h st.
Proof.
  intros Hok Hb Hm Hr. assert (inv h (start c)) as Hi by done. revert Hi.
  induction Hr as [|s1 s2 s3 Hs _ IH]; [done|]. intros Hi. apply IH. by apply (inv_step h s1).
Qed.

(** ** Other code does *)

(** Without interrupts, to the point where a handler's lock is held with
    interrupts on. *)
Lemma unmasked_reached hl h c : forall i hd,
  balanced hd h c = true -> masked hl i hd c = false ->
  exists hd' k, rtc step (mkState i hd c None) (mkState true hd' k None) /\ hd' ∩ hl ≠ ∅.
Proof.
  induction c as [|a c IH]; intros i hd Hb Hm; cbn [masked] in Hm; apply andb_false_iff in Hm as [Hm|Hm]; try done;
    try (apply orb_false_iff in Hm as [Hi%negb_false_iff Hm%bool_decide_eq_false_1]; subst i;
         exists hd; eexists; by split; [apply rtc_refl|]).
  assert (forall i' hd', step (mkState i hd (a :: c) None) (mkState i' hd' c None) ->
            balanced hd' h c = true -> masked hl i' hd' c = false ->
            exists hd' k, rtc step (mkState i hd (a :: c) None) (mkState true hd' k None) /\ hd' ∩ hl ≠ ∅) as Hnext.
  { intros i' hd' Hs Hb' Hm'. destruct (IH i' hd' Hb' Hm') as (hd2 & k & Hr & Hne). exists hd2, k.
    split; [|done]. by eapply rtc_l. }
  destruct a as [l|l| |]; cbn [balanced] in Hb.
  - apply andb_prop in Hb as [Hl Hb]. apply bool_decide_eq_true_1 in Hl. by eapply Hnext; [by apply step_lock| |].
  - apply andb_prop in Hb as [Hl Hb]. by eapply Hnext; [by apply step_unlock| |].
  - by eapply Hnext; [by apply step_cli| |].
  - by eapply Hnext; [by apply step_sti| |].
Qed.

(** A handler that needs a lock of the interrupted code. *)
Lemma handler_spins l h0 k c : l ∈ h0 -> forall hc,
  quiet c -> Lock l ∈ c -> h0 ## hc -> balanced hc ∅ c = true ->
  exists st, rtc step (mkState false (h0 ∪ hc) c (Some k)) st /\ deadlocked st.
Proof.
  intros Hl. induction c as [|a c IH]; intros hc [Hq1 Hq2] Hin Hd Hb; [by apply elem_of_nil in Hin|].
  pose proof (quiet_tail _ _ (conj Hq1 Hq2)) as Hq.
  destruct a as [l'|l'| |]; cbn [balanced] in Hb; [| |destruct Hq1; left|destruct Hq2; left].
  - apply andb_prop in Hb as [Hl' Hb]. apply bool_decide_eq_true_1 in Hl'.
    destruct (decide (l' ∈ h0)) as [Hin0|Hin0].
    + eexists. split; [apply rtc_refl|]. split; [done|]. exists l', c. split; [done|]. set_solver.
    + apply elem_of_cons in Hin as [[= ->]|Hin]; [done|].
      destruct (IH ({[l']} ∪ hc) Hq Hin ltac:(set_solver) Hb) as (st & Hr & Hdl). exists st. split; [|done].
      eapply rtc_l; [apply step_lock; set_solver|].
      by replace ({[l']} ∪ (h0 ∪ hc)) with (h0 ∪ ({[l']} ∪ hc)) by set_solver.
  - apply andb_prop in Hb as [Hl' Hb]. apply bool_decide_eq_true_1 in Hl'.
    apply elem_of_cons in Hin as [[=]|Hin].
    destruct (IH (hc ∖ {[l']}) Hq Hin ltac:(set_solver) Hb) as (st & Hr & Hdl). exists st. split; [|done].
    eapply rtc_l; [apply step_unlock|].
    by replace ((h0 ∪ hc) ∖ {[l']}) with (h0 ∪ hc ∖ {[l']}) by set_solver.
Qed.

Lemma unmasked_deadlocks h c :
  Forall (fun c => handler_ok c = true) handlers ->
  balanced ∅ h c = true -> masked handler_locks false ∅ c = false ->
  exists st, rtc step (start c) st /\ deadlocked st.
Proof.
  intros Hok Hb Hm. destruct (unmasked_reached handler_locks h c false ∅ Hb Hm) as (hd & k & Hr & Hne).
  apply set_choose_L in Hne as [l Hl]. apply elem_of_intersection in Hl as [Hl Hh].
  apply elem_of_handler_locks in Hh as (c' & Hc' & Hin). rewrite list.Forall_forall in Hok.
  destruct (handler_ok_spec c' (Hok c' Hc')) as [Hbc Hqc].
  destruct (handler_spins l hd k c' Hl ∅ Hqc Hin ltac:(set_solver) Hbc) as (st & Hr' & Hd).
  exists st. split; [|done]. etrans; [exact Hr|]. eapply rtc_l; [by apply (step_interrupt hd k c')|].
  by rewrite (right_id_L ∅ (∪) hd) in Hr'.
Qed.

End machine.

(** ** Composition *)

Lemma balanced_app c : forall h1 h2 h3 k,
  balanced h1 h2 c = true -> balanced h2 h3 k = true -> balanced h1 h3 (c ++ k) = true.
Proof.
  induction c as [|[l|l| |] c IH]; cbn [balanced app]; intros h1 h2 h3 k Hc Hk.
  - by apply bool_decide_eq_true_1 in Hc as ->.
  - apply andb_prop in Hc as [-> Hc]. by apply (IH _ h2).
  - apply andb_prop in Hc as [-> Hc]. by apply (IH _ h2).
  - by apply (IH _ h2).
  - by apply (IH _ h2).
Qed.

Lemma balanced_nil h : balanced h h [] = true.
Proof. by apply bool_decide_eq_true_2. Qed.

Lemma balanced_locked l h c :
  l ∉ h -> balanced ({[l]} ∪ h) ({[l]} ∪ h) c = true -> balanced h h (locked l c) = true.
Proof.
  intros Hl Hc. unfold locked. cbn [balanced app]. apply andb_true_intro. split; [by apply bool_decide_eq_true_2|].
  apply (balanced_app _ _ ({[l]} ∪ h)); [done|]. cbn [balanced]. apply andb_true_intro.
  split; apply bool_decide_eq_true_2; set_solver.
Qed.

Lemma balanced_join h cs : Forall (fun c => balanced h h c = true) cs -> balanced h h (mjoin cs) = true.
Proof. induction 1; [apply balanced_nil|]. cbn. by apply (balanced_app _ _ h). Qed.

Lemma masked_off hl c : Sti ∉ c -> forall h, masked hl false h c = true.
Proof.
  induction c as [|[l|l| |] c IH]; intros Hs h; cbn [masked negb orb andb]; try done;
    try (apply IH; intros ?; apply Hs; by right). destruct Hs. left.
Qed.

(** Code made of critical sections: walks it, and solves the side conditions. *)
Ltac balance :=
  lazymatch goal with
  | |- balanced _ _ [] = true => apply balanced_nil
  | |- balanced _ _ (locked _ _) = true => apply balanced_locked; [set_solver|balance]
  | |- balanced ?h _ (_ ++ _) = true => apply (balanced_app _ _ h); balance
  | |- balanced _ _ (match ?b with _ => _ end) = true => destruct b; balance
  | |- _ => idtac
  end.

Lemma alloc_frames_balanced h n : FRAME_ALLOCATOR ∉ h -> balanced h h (alloc_frames_code n) = true.
Proof. intros Hf. apply balanced_join, Forall_replicate. by balance. Qed.

Lemma pages_balanced h ns : FRAME_ALLOCATOR ∉ h -> balanced h h (mjoin (alloc_frames_code <$> ns)) = true.
Proof.
  intros Hf. apply balanced_join, list.Forall_fmap, list.Forall_forall. intros n _. by apply alloc_frames_balanced.
Qed.

Lemma heap_alloc_balanced h g :
  h ## {[HEAP; HEAP_END; FRAME_ALLOCATOR; SERIAL]} -> balanced h h (heap_alloc_code g) = true.
Proof.
  intros Hd. unfold heap_alloc_code, try_extend_code, log_line. balance. apply pages_balanced. set_solver.
Qed.

Lemma kernel_main_balanced pages g1 g2 : balanced ∅ {[SCREEN]} (kernel_main_code pages g1 g2) = true.
Proof.
  unfold kernel_main_code, mem_init_code, drivers_init_code, create_process_code, parse_mem_map_code,
    phys_init_code, heap_init_code, log_line. balance.
  all: try (apply heap_alloc_balanced; set_solver). apply pages_balanced. set_solver.
  reflexivity.
Qed.

(** *** The interrupt flag *)

Lemma no_flag_app c k : no_flag (c ++ k) = no_flag c && no_flag k.
Proof. apply forallb_app. Qed.

Lemma no_flag_locked l c : no_flag (locked l c) = no_flag c.
Proof. unfold locked. rewrite !no_flag_app. cbn. apply andb_true_r. Qed.

Lemma no_flag_join cs : Forall (fun c => no_flag c = true) cs -> no_flag (mjoin cs) = true.
Proof. induction 1 as [|c cs Hc _ IH]; [done|]. change (no_flag (c ++ mjoin cs) = true). by rewrite no_flag_app, Hc, IH. Qed.

Lemma no_flag_pages ns : no_flag (mjoin (alloc_frames_code <$> ns)) = true.
Proof.
  apply no_flag_join, list.Forall_fmap, list.Forall_forall. intros n _. unfold compose, alloc_frames_code.
  by apply no_flag_join, Forall_replicate.
Qed.

Create Rewrite HintDb noflag.
#[local] Hint Rewrite no_flag_app no_flag_locked no_flag_pages : noflag.

Lemma no_flag_heap_alloc g : no_flag (heap_alloc_code g) = true.
Proof.
  unfold heap_alloc_code, try_extend_code, log_line. destruct g as [[fs [] []]|]; cbn [warns grown frame_locks];
    by autorewrite with noflag.
Qed.

#[local] Hint Rewrite no_flag_heap_alloc : noflag.

Lemma kernel_main_no_flag pages g1 g2 : no_flag (kernel_main_code pages g1 g2) = true.
Proof.
  unfold kernel_main_code, mem_init_code, drivers_init_code, create_process_code, parse_mem_map_code,
    phys_init_code, heap_init_code, log_line. by autorewrite with noflag.
Qed.

(** *** The interrupts *)

Lemma stroke_ok c :
  balanced {[KEYBOARD_BUF]} {[KEYBOARD_BUF]} c = true -> no_flag c = true -> handler_ok (stroke_code c) = true.
Proof.
  intros Hb Hn. unfold handler_ok, stroke_code. autorewrite with noflag. rewrite Hn, andb_true_r.
  balance. by rewrite (right_id_L ∅ (∪)).
Qed.

Lemma irq_codes_ok g : Forall (fun c => handler_ok c = true) (irq_codes g).
Proof.
  unfold irq_codes. do 3 (apply list.Forall_cons_2; [reflexivity|]).
  apply list.Forall_cons_2; [by apply stroke_ok; [apply balanced_nil|]|].
  apply list.Forall_cons_2; [|apply list.Forall_nil_2].
  apply stroke_ok; [apply heap_alloc_balanced; set_solver|apply no_flag_heap_alloc].
Qed.

(** * Properties *)


(** C37: the boot, for whatever the allocations do: with interrupts as they are,
    enabled before the first log line of [kernel_main], some run comes to a
    standstill; without the [sti] no run does, whatever may interrupt; and
    the serial self-test, when it fails, spins in the panic handler. *)
Theorem boot_can_deadlock (pages : list nat) (g g1 g2 : option growth) :
  (exists st, rtc (step (irq_codes g)) (start (boot_code pages g1 g2)) st /\ deadlocked st) /\
  (forall st, rtc (step (irq_codes g)) (start (drop 1 (boot_code pages g1 g2))) st -> ~ spinning st) /\
  (exists st, rtc (step []) (start serial_init_panics) st /\ deadlocked st).
Proof.
  split; [|split].
  - eexists. split.
    + eapply rtc_l; [apply step_sti|]. eapply rtc_l; [by apply step_lock|].
      eapply rtc_l; [apply (step_interrupt _ _ _ log_line); right; left|]. apply rtc_refl.
    + split; [done|]. by exists SERIAL, [Unlock SERIAL].
  - intros st Hr. apply (inv_not_spinning (irq_codes g) {[SCREEN]}).
    refine (inv_reachable _ _ _ _ (irq_codes_ok g) _ _ Hr).
    + unfold boot_code. cbn [drop app]. unfold log_line. balance. apply kernel_main_balanced.
    + apply masked_off. apply no_flag_quiet. unfold boot_code. cbn [drop app].
      unfold log_line. autorewrite with noflag. apply kernel_main_no_flag.
  - eexists. split; [do 3 (eapply rtc_l; [by constructor|]); apply rtc_refl|].
    split; [done|]. by exists SERIAL, [Unlock SERIAL].
Qed.
