(* ===== verification/Boot.v ===== *)
(** The boot, [_start64] and [kernel_main] in [kernel/src/lib.rs], up to the end
    of [mem::init], as far as the memory is concerned: the parser, the page
    tables of [arch::init], the memory map, the frame allocator and the heap,
    run one after the other on one state.

    The descriptor tables, the interrupt controller and the serial port, which
    [arch::init] sets up as well, have their own state and their own files; [Pc]
    runs the last two on one computer. What follows [mem::init] is in [Main]. *)
From S2P Require Import Prelude Ram Mem Frames Phys Paging PageWalk PageBoot Heap BootInfo.
From Stdlib Require Import ZArith Lia.
From stdpp Require Import base numbers list gmap sets strings tactics.
Open Scope Z_scope.
Open Scope word_scope.

(** * The state and the steps *)

(** The heap with the machine under it (the memory, the frame allocator, the
    page table statics), the statistics and the parser's buffer. *)
Record Kernel (H : Type) : Type := mkKernel {
  heap : AutoExtendHeap FrameAllocator H;
  stats : MemoryStats;
  map_buffer : MapBuffer
}.
Arguments mkKernel {H} _ _ _.
Arguments heap {H} _.
Arguments stats {H} _.
Arguments map_buffer {H} _.

Section boot.
Context {H : Type} {IH : InnerHeap H}.
Variable L : Statics.

Abbreviation B := (stateE (Kernel H) stop).

Definition set_heap (h : AutoExtendHeap FrameAllocator H) (k : Kernel H) : Kernel H :=
  mkKernel h (stats k) (map_buffer k).
Definition set_stats (st : MemoryStats) (k : Kernel H) : Kernel H := mkKernel (heap k) st (map_buffer k).
Definition set_buffer (b : MapBuffer) (k : Kernel H) : Kernel H := mkKernel (heap k) (stats k) b.

(** A computation on the heap, or on the machine under it. *)
Definition on_heap {A} (m : stateE (AutoExtendHeap FrameAllocator H) stop A) : B A := fun k =>
  let (r, h) := m (heap k) in (r, set_heap h k).

Definition on_machine (f : Machine FrameAllocator -> Machine FrameAllocator) : B unit :=
  modify (fun k => set_heap (set_machine (f (machine (heap k))) (heap k)) k).

(** [BootInfo::from_bootloader], on the memory of the machine. *)
Definition from_bootloader (fuel : nat) (multiboot_info : Z) : B BootInfo := fun k =>
  match BootInfo.from_bootloader fuel (mem (machine (heap k))) multiboot_info (map_buffer k) with
  | Ok (bi, b) => (Ok bi, set_buffer b k)
  | Err e => (Err e, k)
  end.

(** [paging::init], out of [arch::init]; it cannot fail. *)
Definition arch_init : B unit := on_machine (fun s => snd (Paging.init L s)).

(** [mem::init] *)
Definition mem_init (boot_info : BootInfo) : B unit :=
  modify (fun k => set_stats (parse_mem_map boot_info (stats k)) k);;
  on_machine (fun s => set_frames (Phys.init boot_info (frames s)) s);;
  on_heap (heap_init L).

(** [_start64] and [kernel_main], to the end of [mem::init]. *)
Definition start64 (fuel : nat) (multiboot_info : Z) : B BootInfo :=
  boot_info ← from_bootloader fuel multiboot_info;
  arch_init;;
  mem_init boot_info;;
  mret boot_info.

(** The kernel as it is loaded: no frame is free, nothing is counted, the heap is
    empty. *)
Definition loaded (s : Machine FrameAllocator) : Kernel H :=
  mkKernel (Heap.new (set_frames Phys.new s)) MEMORY_STATS empty_buffer.
End boot.

(** * Facts *)

(** The pages that [phys::init] frees. *)
Definition available (es : list MemoryMapEntry) (p : Z) : Prop :=
  0 <= p < MAX_PAGES /\ exists e, e ∈ es /\ covers e p.

Section facts.
Context {H : Type} {IH : InnerHeap H} {IL : InnerLaws H}.
Context (K : Pages) (HK : layout_ok K) (HC : heap_clear K).

Lemma arch_init_tables (s : Machine FrameAllocator) :
  tables_empty K (mem s) ->
  exists s', Paging.init (statics_of K) s = (Ok tt, s') /\ boot_tables K (mem s') /\ frames s' = frames s.
Proof using HK.
  intros Hz. eexists. split; [reflexivity|]. split; [|done]. by apply init_tables_boot.
Qed.

(** [phys::init] and [heap::init] on a machine with the boot tables. *)
Lemma mem_init_spec (bi : BootInfo) (es rest : list MemoryMapEntry) (k : Kernel H) :
  memory_map bi = Some (es ++ rest) -> memory_map_entries bi = Z.of_nat (length es) ->
  es <> [] -> Forall entry_ok es -> sum_lengths is_ram es < 2 ^ 64 ->
  boot_tables K (mem (machine (heap k))) -> frames (machine (heap k)) = Phys.new -> stats k = MEMORY_STATS ->
  exists F : gset Z, (forall p, p ∈ F <-> available es p) /\
  match mem_init (statics_of K) bi k with
  | (Ok _, k') =>
      stats k' = mkStats (sum_lengths is_ram es) (sum_lengths is_available es) 0 0 0 /\
      boot_tables K (mem (machine (heap k'))) /\ WF (frames (machine (heap k'))) /\
      heap_end (heap k') = HEAP_START + INITIAL_HEAP_SIZE /\
      inner (heap k') = inner_init HEAP_START INITIAL_HEAP_SIZE (inner (heap k)) /\
      1024 <= Z.of_nat (size F) /\
      forall p, p ∈ free_set (frames (machine (heap k'))) <->
        p ∈ F /\ 1024 <= Z.of_nat (size (filter (fun q => q < p) F))
  | (Err e, k') => e = Panic "Failed to allocate frame for initial heap" /\ Z.of_nat (size F) < 1024
  end.
Proof using HK HC IL.
  intros Hmap Hcount Hne Hok Hsum Hb Hfr Hst.
  destruct (init_spec bi es rest Hmap Hcount Hok Hne) as (HWF & Hff & Hset).
  exists (free_set (Phys.init bi Phys.new)). split; [exact Hset|].
  set (k1 := set_heap (set_machine (set_frames (Phys.init bi Phys.new) (machine (heap k))) (heap k))
               (set_stats (parse_mem_map bi MEMORY_STATS) k)).
  assert (mem_init (statics_of K) bi k = on_heap (heap_init (statics_of K)) k1) as ->.
  { unfold mem_init, on_machine, modify, mbind, stateE_bind. cbn [heap set_stats]. by rewrite Hfr, Hst. }
  pose proof (heap_init_spec K (heap k1) HK HC Hb HWF) as Hs. unfold on_heap.
  destruct (heap_init (statics_of K) (heap k1)) as [[[]|e] h'].
  2:{ destruct Hs as (-> & _ & Hsz). split; [done|]. cbn [fs_free phys_laws] in Hsz.
      change (frames (machine (heap k1))) with (Phys.init bi Phys.new) in Hsz. lia. }
  destruct Hs as ([Hb' Hinv Hiter _ Hsz _] & He & Hi).
  change (frames (machine (heap k1))) with (Phys.init bi Phys.new) in Hiter, Hsz.
  cbn [fs_free phys_laws] in Hsz. cbn [heap stats set_heap].
  split.
  { unfold k1. cbn [stats set_heap set_stats]. apply (parse_mem_map_eq bi es rest); try done.
    apply (list.Forall_impl _ _ _ Hok). by intros e (_ & ? & _). }
  split; [done|]. split; [exact Hinv|]. split; [done|]. split; [done|]. split; [lia|]. intros p.
  rewrite Hiter, iter_alloc_frame.
  assert (forall x, x ∈ free_set (Phys.init bi Phys.new) -> first_free (Phys.init bi Phys.new) <= x) as Hge.
  { intros x Hx%Hset. rewrite Hff. destruct Hx as [Hx _]. lia. }
  rewrite (allocs_exact _ _ HWF Hge). apply and_iff_compat_l.
  assert (free_before (Phys.init bi Phys.new) p =
          filter (fun q => q < p) (free_set (Phys.init bi Phys.new))) as ->; [|lia].
  apply set_eq. intros x. rewrite elem_of_free_before, elem_of_filter. split.
  - intros [[_ Hx] Hin]. by split.
  - intros [Hx Hin]. split; [split; [by apply Hge|done]|done].
Qed.

(** Without a memory map no frame is ever free, and the heap does not get its
    first page. *)
Lemma mem_init_no_map (bi : BootInfo) (k : Kernel H) :
  no_memory_map bi = true -> frames (machine (heap k)) = Phys.new ->
  fst (mem_init (statics_of K) bi k) = Err (Panic "Failed to allocate frame for initial heap").
Proof using.
  intros Hno Hfr. destruct (init_without_map_starves bi Hno) as (_ & _ & Ha & _).
  unfold mem_init, on_machine, on_heap, modify, mbind, stateE_bind. cbn [heap set_stats]. rewrite Hfr.
  set (fa := Phys.init bi Phys.new) in *. set (h := heap _).
  assert (frames (machine h) = fa) as Hh by done. clearbody h.
  assert (heap_init (statics_of K) h = (Err (Panic "Failed to allocate frame for initial heap"),
            snd (for_m 0 initial_pages (init_page (statics_of K)) h))) as Hi; [|by rewrite Hi].
  assert (forall i s, 0 <= i < initial_pages -> s = h ->
    match init_page (statics_of K) i s with
    | (Ok _, _) => False
    | (Err e, _) => e = Panic "Failed to allocate frame for initial heap"
    end) as Hstep.
  { intros i s _ ->. unfold init_page, alloc_frame_m. cbn [alloc_frame phys_source]. by rewrite Hh, Ha. }
  pose proof (for_m_rule (fun i h' => i = 0 /\ h' = h)
    (fun _ _ e => e = Panic "Failed to allocate frame for initial heap")
    0 initial_pages (init_page (statics_of K)) h ltac:(done) (conj eq_refl eq_refl)) as HL.
  unfold heap_init. destruct (for_m _ _ _ _) as [[[]|e] h1] eqn:E.
  2: rewrite (bind_err _ _ _ _ _ E); cbn [snd]; destruct HL as (i & _ & ->); [|done].
  1: exfalso; destruct HL as [HL _]; [|done].
  all: intros i s Hi [_ Hs]; specialize (Hstep i s Hi Hs); by destruct (init_page _ i s) as [[] ?].
Qed.
End facts.

(** * Properties *)

(** What the parser makes of the tags: the last framebuffer, and the entries of
    the last memory map. *)
Definition framebuffer_of (ts : list tag) : FramebufferInfo :=
  fst (apply_tags ts (default_framebuffer, empty_buffer)).
Definition memory_map_of (ts : list tag) : list MemoryMapEntry :=
  let b := snd (apply_tags ts (default_framebuffer, empty_buffer)) in
  take (Z.to_nat (MEMORY_MAP_COUNT b)) (MEMORY_MAP_BUFFER b).

Lemma buffer_split (b : MapBuffer) :
  buffer_ok b ->
  MEMORY_MAP_BUFFER b = take (Z.to_nat (MEMORY_MAP_COUNT b)) (MEMORY_MAP_BUFFER b) ++
                        drop (Z.to_nat (MEMORY_MAP_COUNT b)) (MEMORY_MAP_BUFFER b) /\
  MEMORY_MAP_COUNT b = Z.of_nat (length (take (Z.to_nat (MEMORY_MAP_COUNT b)) (MEMORY_MAP_BUFFER b))).
Proof.
  intros [Hl Hc]. split; [by rewrite take_drop|]. rewrite length_take, Hl. lia.
Qed.

(** The run of [_start64] is that of [mem::init] on a machine with the boot
    tables. *)
Lemma start64_run {H : Type} {IH : InnerHeap H} (K : Pages) (s : Machine FrameAllocator) fuel p bi b :
  layout_ok K -> tables_empty K (mem s) ->
  BootInfo.from_bootloader fuel (mem s) p empty_buffer = Ok (bi, b) ->
  exists k : Kernel H,
    start64 (statics_of K) fuel p (loaded s) = (mem_init (statics_of K) bi ≫= fun _ => mret bi) k /\
    boot_tables K (mem (machine (heap k))) /\ frames (machine (heap k)) = Phys.new /\
    stats k = MEMORY_STATS /\ inner (heap k) = inner_empty.
Proof.
  intros HK Hz Hrun. destruct (arch_init_tables K HK (set_frames Phys.new s) Hz) as (s1 & Hinit & Hboot & Hfr).
  exists (set_heap (set_machine s1 (Heap.new (set_frames Phys.new s))) (set_buffer b (loaded s))).
  split; [|by split_and!].
  unfold start64, from_bootloader. rewrite (bind_ok _ _ (loaded s) bi (set_buffer b (loaded s))).
  2:{ unfold loaded, Heap.new. cbn [heap machine mem set_frames map_buffer]. by rewrite Hrun. }
  unfold arch_init, on_machine. erewrite (bind_ok (modify _)) by reflexivity.
  f_equal. unfold set_buffer, loaded, Heap.new. cbn [heap machine stats map_buffer]. by rewrite Hinit.
Qed.

(** A block of pages in a set, as a lower bound of its size. *)
Lemma block_size_bound n lo_ (X : gset Z) :
  0 <= n -> (forall x, lo_ <= x < lo_ + n -> x ∈ X) -> n <= Z.of_nat (size X).
Proof.
  intros Hn Hx. pose proof (page_block_size lo_ n X) as Hs.
  enough (page_block lo_ n ⊆ X) as Hsub by (specialize (Hs Hsub); lia).
  intros x Hin%elem_of_page_block. by apply Hx.
Qed.

(** Every page of the tables has a role. *)
Lemma is_table_role (K : Pages) q : layout_ok K -> is_table K q = true -> exists r, boot_roles K !! q = Some r.
Proof.
  intros HK Hq. unfold is_table in Hq.
  destruct (decide (q = k4 K)) as [->|]; [eexists; by apply boot_role_4|].
  destruct (decide (q = k3 K)) as [->|]; [eexists; by apply boot_role_3|].
  exists [0; q - kd K]. replace q with (kd K + (q - kd K)) at 1 by lia. apply boot_role_d; [done|lia].
Qed.

Section properties.
Context {H : Type} {IH : InnerHeap H} {IL : InnerLaws H}.
Context (K : Pages) (s : Machine FrameAllocator) (p : Z) (ts : list tag) (e : Z) (fuel : nat).
Context (HK : layout_ok K) (HC : heap_clear K) (Hz : tables_empty K (mem s)).
Context (Hp : 0 < p < 2 ^ 62) (Hts : tags_at (mem s) (p + rd32 (mem s) p) (p + 8) ts e).
Context (Hend : p + rd32 (mem s) p <= e \/ rd32 (mem s) e = 0) (Hfuel : (length ts < fuel)%nat).
Context (Hok : Forall entry_ok (memory_map_of ts)) (Hsum : sum_lengths is_ram (memory_map_of ts) < 2 ^ 64).

Lemma start64_spec :
  exists F : gset Z, (forall q, q ∈ F <-> available (memory_map_of ts) q) /\
  match start64 (statics_of K) fuel p (loaded (H := H) s) with
  | (Ok bi, k) =>
      framebuffer bi = framebuffer_of ts /\
      stats k = mkStats (sum_lengths is_ram (memory_map_of ts)) (sum_lengths is_available (memory_map_of ts)) 0 0 0 /\
      boot_tables K (mem (machine (heap k))) /\ WF (frames (machine (heap k))) /\
      heap_end (heap k) = HEAP_START + INITIAL_HEAP_SIZE /\
      inner (heap k) = inner_init HEAP_START INITIAL_HEAP_SIZE inner_empty /\
      1024 <= Z.of_nat (size F) /\
      (forall q, q ∈ free_set (frames (machine (heap k))) <->
         q ∈ F /\ 1024 <= Z.of_nat (size (filter (fun x => x < q) F)))
  | (Err err, _) =>
      err = Panic "Failed to allocate frame for initial heap" /\ Z.of_nat (size F) < 1024
  end.
Proof using All.
  pose proof (from_bootloader_run (mem s) p ts e empty_buffer fuel Hp empty_buffer_ok Hts Hend Hfuel) as Hrun.
  revert Hok Hsum. unfold memory_map_of, framebuffer_of.
  destruct (apply_tags ts (default_framebuffer, empty_buffer)) as [fb b]. cbn [fst snd] in *.
  destruct Hrun as [Hrun Hb]. destruct (buffer_split b Hb) as [Hsplit Hcount].
  set (es := take _ _) in *. set (rest := drop _ _) in Hsplit. clearbody es rest. intros Hok' Hsum'.
  set (bi := mkBootInfo _ _ _ _ _ _ _ _ _ _ _) in Hrun.
  destruct (start64_run (H := H) K s fuel p bi b HK Hz Hrun) as (k & -> & Hboot & Hfr & Hst & Hin).
  destruct (decide (es = [])) as [->|Hne].
  { exists ∅. split; [intros q; split; [by intros ?%not_elem_of_empty|by intros (_ & x & ?%elem_of_nil & _)]|].
    pose proof (mem_init_no_map K bi k ltac:(cbn; by rewrite Hcount) Hfr) as Hm.
    destruct (mem_init (statics_of K) bi k) as [[[]|err] k'] eqn:E; [done|]. rewrite (bind_err _ _ _ _ _ E).
    injection Hm as ->. split; [done|]. by rewrite size_empty. }
  destruct (mem_init_spec K HK HC bi es rest k ltac:(cbn; by rewrite <- Hsplit) Hcount Hne Hok' Hsum' Hboot Hfr Hst)
    as (F & HF & Hm). exists F. split; [exact HF|].
  destruct (mem_init (statics_of K) bi k) as [[[]|err] k'] eqn:E;
    [rewrite (bind_ok _ _ _ _ _ E)|by rewrite (bind_err _ _ _ _ _ E)].
  rewrite Hin in Hm. by split.
Qed.


(** C40: nothing keeps the frame allocator off the kernel itself: a page of the page
    tables that lies in an available entry, with 1024 available pages below it,
    is free after the boot, so that an allocation may hand it out; the
    invariant of [map_page] is gone. *)
Theorem boot_frees_page_tables bi (k : Kernel H) q lo_
  (Hrun : start64 (statics_of K) fuel p (loaded s) = (Ok bi, k))
  (Hq : is_table K q = true) (Hlo : lo_ + 1024 <= q)
  (Hav : forall x, lo_ <= x <= q -> available (memory_map_of ts) x) :
  q ∈ free_set (frames (machine (heap k))) /\ ~ paging_inv (statics_of K) (machine (heap k)) (boot_roles K).
Proof using All.
  destruct start64_spec as (F & HF & Hr). rewrite Hrun in Hr. destruct Hr as (_ & _ & Hb & _ & _ & _ & _ & Hfree).
  assert (q ∈ free_set (frames (machine (heap k)))) as Hin.
  { apply Hfree. split; [apply HF, Hav; lia|].
    apply (block_size_bound 1024 lo_); [lia|]. intros x Hx. apply elem_of_filter. split; [lia|].
    apply HF, Hav. lia. }
  split; [done|]. intros [_ _ Hsep]. specialize (Hsep q Hin). apply is_table_role in Hq as [r Hq]; [|done]. congruence.
Qed.
End properties.

(** * Witnesses *)

Definition some_machine : Machine FrameAllocator := mkMachine some_mem Phys.new 0 0 [].

(** The structure is in page 16, the rest of the memory is zero. *)
Lemma some_mem_empty K : 16 < k4 K /\ 16 < k3 K /\ 16 < kd K -> tables_empty K some_mem.
Proof.
  intros HK p i Hp Hi. rewrite <- (rd64_empty (cell p i)). apply rd_ext. intros j Hj.
  unfold some_mem. rewrite copy_bytes_lookup. apply decide_False. intros Hr.
  change (Z.of_nat (length some_info)) with 136 in Hr. unfold cell, entry_at in Hj.
  unfold is_table in Hp. lia.
Qed.

Lemma some_mem_tables : tables_empty some_pages some_mem.
Proof. apply some_mem_empty. cbn. lia. Qed.

Lemma some_memory_map : memory_map_of some_tags = [mkEntry 0 0x9fc00 Available; mkEntry 0x100000 0x7f00000 Available].
Proof. vm_compute. reflexivity. Qed.

Lemma some_entries_ok : Forall entry_ok (memory_map_of some_tags).
Proof. rewrite some_memory_map. repeat constructor; cbn; unfold PAGE_SIZE; lia. Qed.

Lemma some_sum : sum_lengths is_ram (memory_map_of some_tags) < 2 ^ 64.
Proof. rewrite some_memory_map. reflexivity. Qed.

Lemma some_available q : 256 <= q < 32768 -> available (memory_map_of some_tags) q.
Proof.
  intros Hq. rewrite some_memory_map. split; [rewrite MAX_PAGES_eq; lia|].
  exists (mkEntry 0x100000 0x7f00000 Available). split; [right; left|]. split; [done|]. cbn. unfold PAGE_SIZE. lia.
Qed.


(** The tables of a kernel image that reaches to 8 MiB. *)
Definition high_pages : Pages := mkPages 2000 2001 2002.

Lemma high_layout : layout_ok high_pages.
Proof. constructor; cbn; lia. Qed.

Lemma high_clear : heap_clear high_pages.
Proof. intros p Hp. apply is_table_false. cbn. heap_consts. Z.div_mod_to_equations. lia. Qed.

Lemma high_mem_tables : tables_empty high_pages some_mem.
Proof. apply some_mem_empty. cbn. lia. Qed.

Lemma boot_frees_page_tables_witness :
  exists bi k, start64 (statics_of high_pages) 4 0x10000 (loaded (H := bottom_heap) some_machine) = (Ok bi, k) /\
    2000 ∈ free_set (frames (machine (heap k))) /\
    ~ paging_inv (statics_of high_pages) (machine (heap k)) (boot_roles high_pages).
Proof.
  destruct (start64_spec (H := bottom_heap) high_pages some_machine 0x10000 some_tags 0x10080 4 high_layout high_clear
              high_mem_tables ltac:(lia) some_tags_at (or_intror eq_refl) ltac:(cbn; lia) some_entries_ok some_sum)
    as (F & HF & Hr).
  destruct (start64 _ _ _ _) as [[bi|err] k] eqn:E.
  - exists bi, k. split; [reflexivity|].
    apply (boot_frees_page_tables high_pages some_machine 0x10000 some_tags 0x10080 4 high_layout high_clear
             high_mem_tables ltac:(lia) some_tags_at (or_intror eq_refl) ltac:(cbn; lia) some_entries_ok some_sum
             bi k 2000 256 E eq_refl ltac:(lia)).
    intros x Hx. apply some_available. lia.
  - exfalso. destruct Hr as [_ Hr].
    assert (forall x, 256 <= x < 256 + 1024 -> x ∈ F) as Hin by (intros x Hx; apply HF, some_available; lia).
    pose proof (block_size_bound 1024 256 F ltac:(lia) Hin). lia.
Defined.
