(* ===== verification/Main.v ===== *)
(** [kernel_main] in [kernel/src/lib.rs], after [mem::init]: the drivers, the first
    process, and the drawing loop.

    Third-party code is a parameter: tiny_skia draws ([Skia]), libm has the sine
    and the cosine. Floating-point numbers are those of the Standard Library's
    specification of IEEE 754. How much a [Vec] asks of the allocator when it
    grows is not specified by Rust, and is a parameter too ([VecGrowth]). *)
From S2P Require Import Prelude Ram Mem Frames Phys Paging PageWalk PageBoot Heap BootInfo Process Screen Boot.
From Stdlib Require Import ZArith Lia SpecFloat.
From stdpp Require Import base numbers list gmap sets strings tactics.
Open Scope Z_scope.
Open Scope word_scope.

(** * Third-party code and the standard library *)

(** The layout a [Vec] asks for: of bytes, resized from empty, and of processes,
    to push one behind [n]; [None] when it does not allocate. *)
Class VecGrowth : Type := {
  resize_layout : Z -> option Layout;
  push_layout : nat -> option Layout
}.

(** What Rust promises: the capacity is enough. *)
Class VecLaws (V : VecGrowth) : Prop := {
  resize_enough n l : resize_layout n = Some l -> n <= layout_size l;
  resize_none n : resize_layout n = None -> n <= 0
}.

Class Skia : Type := {
  (** whether [PixmapMut::from_bytes] takes so many bytes for a width and height *)
  from_bytes : Z -> Z -> Z -> bool;
  (** the bytes after the fill, and the circle about a point; [None] when the
      path does not finish *)
  draw : spec_float -> spec_float -> Z -> Z -> list Z -> option (list Z)
}.

(** What its documentation says: [from_bytes] takes at least four bytes for each
    pixel, and no empty picture nor one wider than [i32::MAX / 4]. *)
Class SkiaLaws (S : Skia) : Prop := {
  from_bytes_spec len w h :
    from_bytes len w h = (0 <? w) && (0 <? h) && (w <=? (2 ^ 31 - 1) / 4) && (w * h * 4 <=? len);
  draw_length x y w h b b' : draw x y w h b = Some b' -> length b' = length b
}.

(** [libm::cos] and [libm::sin] *)
Class Libm : Type := { cos : spec_float -> spec_float; sin : spec_float -> spec_float }.

(** * Floating point *)

(** An integer, and the constants of the code. *)
Definition f32_of (n : Z) : spec_float := binary_normalize 24 128 n 0 false.
Definition f64_of (n : Z) : spec_float := binary_normalize 53 1024 n 0 false.

(** [0.01] as an [f32]. *)
Definition f32_centi : spec_float := S754_finite false 10737418 (-30).

(** [.into()] to [f64], and [as f32]. *)
Definition convert (prec emax : Z) (x : spec_float) : spec_float :=
  match x with
  | S754_finite s m e => binary_normalize prec emax (if s then Z.neg m else Z.pos m) e s
  | _ => x
  end.

(** * The state *)

(** The kernel after its boot, the screen with the address of its buffer, and the
    process manager. *)
Record Main (H : Type) : Type := mkMain {
  kernel : Kernel H;
  screen : Screen;
  buffer_at : option Z;
  manager : Manager
}.
Arguments mkMain {H} _ _ _ _.
Arguments kernel {H} _.
Arguments screen {H} _.
Arguments buffer_at {H} _.
Arguments manager {H} _.

Section main.
Context {H : Type} {IH : InnerHeap H} {V : VecGrowth} {SK : Skia} {LM : Libm}.
Variable L : Statics.

Abbreviation K := (stateE (Main H) stop).

Definition set_kernel (k : Kernel H) (s : Main H) : Main H := mkMain k (screen s) (buffer_at s) (manager s).
Definition set_screen (c : Screen) (a : option Z) (s : Main H) : Main H := mkMain (kernel s) c a (manager s).
Definition set_manager (m : Manager) (s : Main H) : Main H := mkMain (kernel s) (screen s) (buffer_at s) m.

Definition on_kernel {A} (m : stateE (Kernel H) stop A) : K A := fun s =>
  let (r, k) := m (kernel s) in (r, set_kernel k s).

Definition on_manager {A} (m : stateE Manager stop A) : K A := fun s =>
  let (r, k) := m (manager s) in (r, set_manager k s).

(** [self.inner] of the global allocator behind a [Vec]; a null pointer is
    [alloc_error_handler], which panics. *)
Definition vec_alloc (l : option Layout) : K (option Z) :=
  match l with
  | None => mret None
  | Some l => fun s =>
      let (p, h) := heap_alloc L l (heap (kernel s)) in
      let s := set_kernel (set_heap h (kernel s)) s in
      if p =? 0 then (Err (Panic "Allocation error"), s) else (Ok (Some p), s)
  end.

(** * Operations *)

(** [drivers::init]: the keyboard's [init] only logs. *)
Definition drivers_init (boot_info : BootInfo) : K unit :=
  p ← vec_alloc (resize_layout (buffer_size (framebuffer boot_info)));
  modify (fun s => set_screen (Screen.init boot_info (screen s)) p s).

(** [create_process] with the allocation of its push. *)
Definition create_process : K Pid :=
  s ← gets manager;
  pid ← on_manager Process.create_process;
  _ ← vec_alloc (push_layout (length (processes s)));
  mret pid.

(** [kernel_main] up to the drawing loop. *)
Definition kernel_main (boot_info : BootInfo) : K unit :=
  on_kernel (mem_init L boot_info);;
  drivers_init boot_info;;
  pid ← create_process;
  s ← gets manager;
  match get_process pid s with
  | None => fail (Panic "called `Option::unwrap()` on a `None` value")
  | Some _ => mret tt
  end.

(** [_start64] up to the drawing loop. *)
Definition start64_main (fuel : nat) (multiboot_info : Z) : K BootInfo :=
  boot_info ← on_kernel (Boot.from_bootloader fuel multiboot_info);
  on_kernel (arch_init L);;
  kernel_main boot_info;;
  mret boot_info.

(** ** The drawing loop *)

(** The argument of the cosine and the sine. *)
Definition angle (counter : Z) : spec_float :=
  convert 53 1024 (SFmul 24 128 (f32_of counter) f32_centi).

(** The centre of the circle: [x as f32], [y as f32]. *)
Definition centre (size : Z) (f : spec_float -> spec_float) (counter : Z) : spec_float :=
  let mid := SFdiv 53 1024 (f64_of size) (f64_of 2) in
  convert 24 128 (SFadd 53 1024 mid (SFmul 53 1024 (f64_of 100) (f (angle counter)))).

(** One round of the loop. *)
Definition frame (counter : Z) : K unit :=
  s ← gets screen;
  if negb (from_bytes (Z.of_nat (length (get_buffer s))) (width s) (height s)) then
    fail (Panic "called `Option::unwrap()` on a `None` value")
  else
    match draw (centre (width s) cos counter) (centre (height s) sin counter) (width s) (height s) (get_buffer s) with
    | None => fail (Panic "called `Option::unwrap()` on a `None` value")
    | Some b =>
        modify (fun st => set_screen (Screen.set_buffer b (screen st)) (buffer_at st) st);;
        modify (fun st =>
          let k := kernel st in
          let m := machine (heap k) in
          set_kernel (set_heap (set_machine (set_mem (sync (screen st) (mem m)) m) (heap k)) k) st)
    end.

(** [n] rounds; the loop does not end. *)
Fixpoint frames_loop (n : nat) (counter : Z) : K unit :=
  match n with
  | O => fail OutOfFuel
  | S n => frame counter;; frames_loop n (counter ⊕ 1)
  end.
End main.

(** * Facts *)

(** The constant is the nearest of its binade to 1/100: less than half a unit in
    the last place away. *)
Lemma f32_centi_nearest :
  valid_binary 24 128 f32_centi = true /\ 2 * Z.abs (100 * 10737418 - 2 ^ 30) < 100.
Proof. by split. Qed.

Section facts.
Context {H : Type} {IH : InnerHeap H} {IL : InnerLaws H} {V : VecGrowth} {VL : VecLaws V}.
Context {SK : Skia} {SL : SkiaLaws SK} {LM : Libm}.
Variable L : Statics.

(** A block of the heap that a [Vec] was given: inside the mapped region, as
    large as it asked for. *)
Definition block_of (l : option Layout) (o : option Z) (h : AutoExtendHeap FrameAllocator H) : Prop :=
  match l, o with
  | None, None => True
  | Some l, Some p => HEAP_START <= p /\ p + layout_size l <= heap_end h /\ p mod layout_align l = 0
  | _, _ => False
  end.

Lemma vec_alloc_spec l (s : Main H) :
  heap_ok (heap (kernel s)) ->
  match vec_alloc L l s with
  | (Ok o, s') =>
      heap_ok (heap (kernel s')) /\ heap_end (heap (kernel s)) <= heap_end (heap (kernel s')) /\
      block_of l o (heap (kernel s')) /\
      screen s' = screen s /\ buffer_at s' = buffer_at s /\ manager s' = manager s
  | (Err e, s') => e = Panic "Allocation error" /\ heap_ok (heap (kernel s'))
  end.
Proof using IL.
  intros Hok. destruct l as [l|]; cbn [vec_alloc].
  2:{ split; [done|]. split; [lia|]. by split_and!. }
  pose proof (heap_alloc_spec L l (heap (kernel s)) Hok) as Hs.
  destruct (heap_alloc L l (heap (kernel s))) as [p h]. destruct Hs as (Hok' & He & Hb & _).
  destruct (Z.eqb_spec p 0) as [->|Hne]; [by split|]. specialize (Hb Hne). by split_and!.
Qed.

(** [drivers::init]: the screen of the boot information, over a block that holds
    its buffer. *)
Lemma drivers_init_spec bi (s : Main H) :
  heap_ok (heap (kernel s)) ->
  match drivers_init L bi s with
  | (Ok _, s') =>
      heap_ok (heap (kernel s')) /\ screen s' = Screen.init bi (screen s) /\ manager s' = manager s /\
      block_of (resize_layout (buffer_size (framebuffer bi))) (buffer_at s') (heap (kernel s'))
  | (Err e, s') => e = Panic "Allocation error" /\ heap_ok (heap (kernel s'))
  end.
Proof using IL.
  intros Hok. unfold drivers_init.
  pose proof (vec_alloc_spec (resize_layout (buffer_size (framebuffer bi))) s Hok) as Hs.
  destruct (vec_alloc L _ s) as [[o|e] s'] eqn:E;
    [rewrite (bind_ok _ _ _ _ _ E)|by rewrite (bind_err _ _ _ _ _ E)].
  destruct Hs as (Hok' & _ & Hb & Hsc & _ & Hm). unfold modify. cbn [kernel screen manager buffer_at set_screen].
  rewrite Hsc. by split_and!.
Qed.

(** The first process is process 1. *)
Lemma create_first (s : Main H) :
  heap_ok (heap (kernel s)) -> manager s = manager_new ->
  match create_process L s with
  | (Ok p, s') =>
      p = 1 /\ heap_ok (heap (kernel s')) /\ screen s' = screen s /\ buffer_at s' = buffer_at s /\
      heap_end (heap (kernel s)) <= heap_end (heap (kernel s')) /\
      manager s' = taken 1 manager_new /\ get_process 1 (manager s') = Some (process_new 1)
  | (Err e, s') => e = Panic "Allocation error" /\ heap_ok (heap (kernel s'))
  end.
Proof using IL.
  intros Hok Hm. unfold create_process. rewrite (bind_ok (gets manager) _ s _ s eq_refl).
  assert (on_manager Process.create_process s = (Ok 1, set_manager (taken 1 manager_new) s)) as E1.
  { unfold on_manager. rewrite Hm. done. }
  rewrite (bind_ok _ _ _ _ _ E1).
  pose proof (vec_alloc_spec (push_layout (length (processes (manager s)))) (set_manager (taken 1 manager_new) s) Hok)
    as Hs.
  destruct (vec_alloc L _ _) as [[o|e] s'] eqn:E;
    [rewrite (bind_ok _ _ _ _ _ E)|by rewrite (bind_err _ _ _ _ _ E)].
  destruct Hs as (Hok' & He & _ & Hsc & Hb & Hm').
  split; [done|]. split; [done|]. split; [done|]. split; [done|]. split; [done|]. split; [done|]. by rewrite Hm'.
Qed.
End facts.

(** What [kernel_main] does after [mem::init]. *)
Section facts2.
Context {H : Type} {IH : InnerHeap H} {IL : InnerLaws H} {V : VecGrowth} {VL : VecLaws V}.
Context {SK : Skia} {SL : SkiaLaws SK} {LM : Libm}.
Variable L : Statics.

Definition after_mem_init (bi : BootInfo) : stateE (Main H) stop unit :=
  drivers_init L bi;;
  pid ← create_process L;
  s ← gets manager;
  match get_process pid s with
  | None => fail (Panic "called `Option::unwrap()` on a `None` value")
  | Some _ => mret tt
  end.

Lemma on_kernel_bind {A B} (m : stateE (Kernel H) stop A) (f : A -> stateE (Kernel H) stop B) (s : Main H) :
  on_kernel (m ≫= f) s = (on_kernel m ≫= fun a => on_kernel (f a)) s.
Proof using. unfold on_kernel, mbind, stateE_bind. by destruct (m (kernel s)) as [[a|e] k]; cbn [kernel set_kernel]; [destruct (f a k)|]. Qed.

(** The boot of [Boot] and then the rest. *)
Lemma start64_main_eq fuel p (s : Main H) :
  start64_main L fuel p s =
    (on_kernel (start64 L fuel p) ≫= fun bi => after_mem_init bi;; mret bi) s.
Proof using.
  unfold start64_main, kernel_main, start64, after_mem_init, on_kernel, mbind, stateE_bind.
  destruct (Boot.from_bootloader fuel p (kernel s)) as [[bi|e] k]; [|done]. cbn [kernel set_kernel].
  destruct (arch_init L k) as [[[]|e] k1]; [|done]. cbn [kernel set_kernel].
  destruct (mem_init L bi k1) as [[[]|e] k2]; [|done]. reflexivity.
Qed.

Lemma block_of_mono l o (h h' : AutoExtendHeap FrameAllocator H) :
  heap_end h <= heap_end h' -> block_of l o h -> block_of l o h'.
Proof using. destruct l, o; cbn; try done. intros He (? & ? & ?). split_and!; [done|lia|done]. Qed.

Lemma after_mem_init_spec bi (s : Main H) :
  heap_ok (heap (kernel s)) -> manager s = manager_new ->
  match after_mem_init bi s with
  | (Ok _, s') =>
      heap_ok (heap (kernel s')) /\ screen s' = Screen.init bi (screen s) /\
      block_of (resize_layout (buffer_size (framebuffer bi))) (buffer_at s') (heap (kernel s')) /\
      manager s' = taken 1 manager_new
  | (Err e, s') => e = Panic "Allocation error" /\ heap_ok (heap (kernel s'))
  end.
Proof using IL.
  intros Hok Hm. unfold after_mem_init.
  pose proof (drivers_init_spec L bi s Hok) as H1.
  destruct (drivers_init L bi s) as [[[]|e] s1] eqn:E1;
    [rewrite (bind_ok _ _ _ _ _ E1)|by rewrite (bind_err _ _ _ _ _ E1)].
  destruct H1 as (Hok1 & Hsc & Hm1 & Hb). rewrite Hm in Hm1.
  pose proof (create_first L s1 Hok1 Hm1) as H2.
  destruct (create_process L s1) as [[p|e] s2] eqn:E2;
    [rewrite (bind_ok _ _ _ _ _ E2)|by rewrite (bind_err _ _ _ _ _ E2)].
  destruct H2 as (-> & Hok2 & Hsc2 & Hb2 & He & Hm2 & Hg).
  rewrite (bind_ok (gets manager) _ s2 _ s2 eq_refl), Hg. unfold mret, stateE_ret. rewrite Hsc2, Hsc, Hb2.
  split; [done|]. split; [done|]. split; [|done]. by apply (block_of_mono _ _ (heap (kernel s1))).
Qed.

(** ** The drawing loop *)

(** The machine under the heap. *)
Definition the_machine (s : Main H) : Machine FrameAllocator := machine (heap (kernel s)).

(** What the screen is about, apart from its pixels. *)
Definition same_screen (c c' : Screen) : Prop :=
  address c' = address c /\ width c' = width c /\ height c' = height c /\
  bits_per_pixel c' = bits_per_pixel c /\ stride c' = stride c /\
  length (Screen.buffer c') = length (Screen.buffer c).

Definition panics : stop := Panic "called `Option::unwrap()` on a `None` value".

Lemma frame_spec counter (s : Main H) :
  if from_bytes (Z.of_nat (length (get_buffer (screen s)))) (width (screen s)) (height (screen s)) then
    match draw (centre (width (screen s)) cos counter) (centre (height (screen s)) sin counter)
            (width (screen s)) (height (screen s)) (get_buffer (screen s)) with
    | None => frame counter s = (Err panics, s)
    | Some b =>
        exists s', frame counter s = (Ok tt, s') /\
          screen s' = Screen.set_buffer b (screen s) /\
          mem (the_machine s') = copy_bytes b (mem (the_machine s)) (address (screen s)) /\
          frames (the_machine s') = frames (the_machine s) /\
          inner (heap (kernel s')) = inner (heap (kernel s)) /\ heap_end (heap (kernel s')) = heap_end (heap (kernel s)) /\
          manager s' = manager s /\ buffer_at s' = buffer_at s
    end
  else frame counter s = (Err panics, s).
Proof using.
  unfold frame. rewrite (bind_ok (gets screen) _ s _ s eq_refl). destruct (from_bytes _ _ _); [|done]. cbn [negb].
  destruct (draw _ _ _ _ _) as [b|]; [|done]. eexists. split; [reflexivity|]. by split_and!.
Qed.
End facts2.

(** Copying over a copy of the same length. *)
Lemma copy_bytes_twice (b b' : list Z) (m : ram) a :
  length b = length b' -> copy_bytes b' (copy_bytes b m a) a = copy_bytes b' m a.
Proof.
  intros Hl. apply map_eq. intros i. rewrite !copy_bytes_lookup, Hl. by case_decide.
Qed.

(** * Properties *)

(** The kernel as it is loaded. *)
Definition initial_main {H} `{InnerHeap H} (s : Machine FrameAllocator) : Main H :=
  mkMain (loaded s) Screen.new None manager_new.

Section boot.
Context {H : Type} {IH : InnerHeap H} {IL : InnerLaws H} {V : VecGrowth} {VL : VecLaws V}.

End boot.

Section loop.
Context {H : Type} {IH : InnerHeap H} {SK : Skia} {SL : SkiaLaws SK} {LM : Libm}.

(** The picture is one that tiny_skia accepts. *)
Definition picture_ok (c : Screen) : Prop :=
  0 < width c <= (2 ^ 31 - 1) / 4 /\ 0 < height c /\ width c * height c * 4 <= Z.of_nat (length (Screen.buffer c)).

Lemma picture_ok_bool c :
  from_bytes (Z.of_nat (length (get_buffer c))) (width c) (height c) = true <-> picture_ok c.
Proof using SL.
  rewrite from_bytes_spec. unfold picture_ok, get_buffer. rewrite !andb_true_iff, !Z.ltb_lt, !Z.leb_le. tauto.
Qed.

Lemma frames_run (Htotal : forall x y w h b, is_Some (draw x y w h b)) n : forall counter (s : Main H) c m0,
  picture_ok c -> same_screen c (screen s) ->
  mem (the_machine s) = copy_bytes (Screen.buffer (screen s)) m0 (address c) ->
  exists s', frames_loop n counter s = (Err OutOfFuel, s') /\ same_screen c (screen s') /\
    mem (the_machine s') = copy_bytes (Screen.buffer (screen s')) m0 (address c) /\
    frames (the_machine s') = frames (the_machine s) /\ manager s' = manager s /\
    inner (heap (kernel s')) = inner (heap (kernel s)) /\ heap_end (heap (kernel s')) = heap_end (heap (kernel s)).
Proof using SL.
  induction n as [|n IHn]; intros counter s c m0 Hc Hs Hm; cbn [frames_loop]; [by exists s|].
  pose proof Hs as (Ha & Hw & Hh & Hb & Hst & Hl).
  assert (picture_ok (screen s)) as Hc' by (unfold picture_ok in *; by rewrite Hw, Hh, Hl).
  pose proof (frame_spec counter s) as Hf. rewrite (proj2 (picture_ok_bool (screen s)) Hc') in Hf.
  destruct (draw _ _ _ _ _) as [b|] eqn:E in Hf; [|edestruct Htotal as [? Hd]; rewrite E in Hd; discriminate].
  apply draw_length in E as Hlb. unfold get_buffer in Hlb.
  destruct Hf as (s1 & E1 & Hsc & Hm1 & Hf1 & Hi1 & He1 & Hg1 & _). rewrite (bind_ok _ _ _ _ _ E1).
  destruct (IHn (counter ⊕ 1) s1 c m0 Hc) as (s' & E' & Hs' & Hm' & Hf' & Hg' & Hi' & He').
  - rewrite Hsc. unfold same_screen. cbn [Screen.set_buffer address width height bits_per_pixel stride Screen.buffer].
    by rewrite Hlb.
  - rewrite Hm1, Hm, Hsc, Ha. cbn [Screen.set_buffer Screen.buffer]. by apply copy_bytes_twice.
  - exists s'. split; [done|]. split; [done|]. split; [done|]. by rewrite Hf', Hg', Hi', He'.
Qed.
End loop.

Section drawing.
Context {H : Type} {IH : InnerHeap H} {SK : Skia} {SL : SkiaLaws SK} {LM : Libm}.

Lemma drawing_run (Htotal : forall x y w h b, is_Some (draw x y w h b)) (n : nat) (counter : Z) (s : Main H) :
  (picture_ok (screen s) ->
     exists s', frames_loop (S n) counter s = (Err OutOfFuel, s') /\ same_screen (screen s) (screen s') /\
       mem (the_machine s') = copy_bytes (Screen.buffer (screen s')) (mem (the_machine s)) (address (screen s)) /\
       frames (the_machine s') = frames (the_machine s) /\ manager s' = manager s /\
       inner (heap (kernel s')) = inner (heap (kernel s)) /\ heap_end (heap (kernel s')) = heap_end (heap (kernel s))) /\
  (~ picture_ok (screen s) -> frames_loop (S n) counter s = (Err panics, s)).
Proof using SL.
  pose proof (frame_spec counter s) as Hf. pose proof (picture_ok_bool (screen s)) as Hp. cbn [frames_loop]. split.
  - intros Hc. rewrite (proj2 Hp Hc) in Hf.
    destruct (draw _ _ _ _ _) as [b|] eqn:E in Hf; [|edestruct Htotal as [? Hd]; rewrite E in Hd; discriminate].
    apply draw_length in E as Hlb. unfold get_buffer in Hlb.
    destruct Hf as (s1 & E1 & Hsc & Hm1 & Hf1 & Hi1 & He1 & Hg1 & _). rewrite (bind_ok _ _ _ _ _ E1).
    destruct (frames_run Htotal n (counter ⊕ 1) s1 (screen s) (mem (the_machine s)) Hc)
      as (s' & E' & Hs' & Hm' & Hf' & Hg' & Hi' & He').
    + by rewrite Hsc.
    + by rewrite Hm1, Hsc.
    + exists s'. split; [done|]. split; [done|]. split; [done|]. by rewrite Hf', Hg', Hi', He'.
  - intros Hc. destruct (from_bytes _ _ _); [by destruct Hc; apply Hp|]. by rewrite (bind_err _ _ _ _ _ Hf).
Qed.


End drawing.

(** * Witnesses *)

(** A [Vec] that asks for what it needs, four processes at a time; a painter that
    paints white; and functions that are zero everywhere. *)
#[local] Instance exact_growth : VecGrowth := {
  resize_layout n := if 0 <? n then Some (mkLayout n 1) else None;
  push_layout n := if decide (n = 0%nat) then Some (mkLayout 256 8) else None
}.

#[local] Instance exact_laws : VecLaws exact_growth.
Proof.
  split; cbn; intros n.
  - intros l. destruct (0 <? n); [|done]. intros [= <-]. done.
  - destruct (Z.ltb_spec 0 n); [done|]. lia.
Qed.

#[local] Instance white : Skia := {
  from_bytes len w h := (0 <? w) && (0 <? h) && (w <=? (2 ^ 31 - 1) / 4) && (w * h * 4 <=? len);
  draw _ _ _ _ b := Some (replicate (length b) 255)
}.

#[local] Instance white_laws : SkiaLaws white.
Proof. split; [done|]. intros x y w h b b' [= <-]. apply length_replicate. Qed.

#[local] Instance flat : Libm := { cos _ := S754_zero false; sin _ := S754_zero false }.

Lemma white_total x y w h b : is_Some (draw x y w h b).
Proof. by eexists. Qed.


(** A kernel with a screen of three by two 32-bit pixels, and one with the text
    mode. *)
Definition some_main (bi : BootInfo) : Main bottom_heap :=
  set_screen (Screen.init bi Screen.new) None (initial_main some_machine).

Definition text_boot : BootInfo := mkBootInfo 0 None 0 default_framebuffer X86_64 0 0 0 0 None 0.


